(** * FHIR search on MongoDB: the query compiler and executor of
    [search/mongo_search.go], embedded and verified.

    The development follows the source file from its leaves upwards:
    path normalisation, BSON values, the shared [buildBSON] wrapper, the
    per-parameter predicate builders, [orPaths] and [merge], the pipeline
    assembler with its path rewriting, and the executor [Search] with the
    count cache. *)

From Stdlib Require Import ZArith QArith Ascii String List Bool Lia DecimalString.
From stdpp Require Import base option list strings gmap pretty.

Local Open Scope string_scope.
Local Open Scope list_scope.

(** ** Strings

    Go strings are byte sequences; every character the compiler inspects
    (['['], [']'], ['.'], ['$'], the decimal digits, the regexp
    metacharacters) is ASCII, and no such byte occurs inside a multi-byte
    UTF-8 sequence, so scanning bytes and scanning runes agree. *)

Section StringScan.

(** The longest prefix whose characters satisfy [f], and the rest. *)
Fixpoint span (f : ascii -> bool) (s : string) : string * string :=
  match s with
  | EmptyString => (EmptyString, EmptyString)
  | String c r =>
      if f c then let '(a, b) := span f r in (String c a, b)
      else (EmptyString, s)
  end.

Fixpoint forall_chars (f : ascii -> bool) (s : string) : bool :=
  match s with
  | EmptyString => true
  | String c r => f c && forall_chars f r
  end.

Definition is_digit (c : ascii) : bool :=
  (48 <=? nat_of_ascii c)%nat && (nat_of_ascii c <=? 57)%nat.

Definition is_dot (c : ascii) : bool := Ascii.eqb c ".".
Definition is_open (c : ascii) : bool := Ascii.eqb c "[".
Definition is_close (c : ascii) : bool := Ascii.eqb c "]".
Definition is_newline (c : ascii) : bool := Ascii.eqb c "010".

Definition nonempty (s : string) : bool :=
  match s with EmptyString => false | String _ _ => true end.

End StringScan.

(** ** Path normaliser *)

(** [strings.Replace(s, "[]", "", -1)]: one left-to-right pass deleting the
    non-overlapping occurrences of the empty array marker. *)
Fixpoint removeArrayMarkers (s : string) : string :=
  match s with
  | EmptyString => EmptyString
  | String c r =>
      match r with
      | String c' r' =>
          if is_open c && is_close c' then removeArrayMarkers r'
          else String c (removeArrayMarkers r)
      | EmptyString => String c EmptyString
      end
  end.

(** One match of the indexer regexp (an opening bracket, one or more
    digits, a closing bracket, one or more characters that are no dot)
    anchored at the head of [s]: the digits, the name, and what follows.  The pieces are
    greedy and their character classes are disjoint from the delimiter that
    follows each of them, so the first greedy choice is the only one. *)
Definition matchIndexer (s : string) : option (string * string * string) :=
  match s with
  | String c r =>
      if is_open c then
        let '(ds, r1) := span is_digit r in
        match r1 with
        | String c1 r2 =>
            if nonempty ds && is_close c1 then
              let '(nm, r3) := span (fun x => negb (is_dot x)) r2 in
              if nonempty nm then Some (ds, nm, r3) else None
            else None
        | EmptyString => None
        end
      else None
  | EmptyString => None
  end.

(** [re.ReplaceAllString] with the template that swaps the groups: scan from the left; at a match emit
    the name, a dot and the digits and resume after the match, otherwise
    copy one character. *)
Fixpoint replaceIndexers (fuel : nat) (s : string) : string :=
  match fuel with
  | O => s
  | S fuel' =>
      match matchIndexer s with
      | Some (ds, nm, rest) => nm +:+ "." +:+ ds +:+ replaceIndexers fuel' rest
      | None =>
          match s with
          | String c r => String c (replaceIndexers fuel' r)
          | EmptyString => EmptyString
          end
      end
  end.

(** Fixes just the indexers, so that an indexed element [[0]target] becomes
    [target.0]; the array markers stay. *)
Definition convertBracketIndexesToDotIndexes (path : string) : string :=
  replaceIndexers (String.length path) path.

(** Fixes the indexers and drops the array markers. *)
Definition convertSearchPathToMongoField (path : string) : string :=
  removeArrayMarkers (convertBracketIndexesToDotIndexes path).

(** *** The path grammar

    A search path is a dot-separated sequence of segments.  A segment is an
    element name, optionally preceded by the collection marker or by a
    numeric indexer; a name is non-empty and holds no dot and no bracket. *)

Inductive Marker :=
| NoMarker
| ArrayMarker
| IndexMarker (digits : string).

Record Segment := mkSegment {
  seg_marker : Marker;
  seg_name : string
}.

Definition is_name_char (c : ascii) : bool :=
  negb (is_dot c || is_open c || is_close c).

Definition wf_segment (s : Segment) : bool :=
  nonempty (seg_name s) && forall_chars is_name_char (seg_name s)
  && match seg_marker s with
     | IndexMarker ds => nonempty ds && forall_chars is_digit ds
     | _ => true
     end.

Definition render_marker (k : Marker) : string :=
  match k with
  | NoMarker => ""
  | ArrayMarker => "[]"
  | IndexMarker ds => "[" +:+ ds +:+ "]"
  end.

Definition render_segment (s : Segment) : string :=
  render_marker (seg_marker s) +:+ seg_name s.

Fixpoint join_dots (l : list string) : string :=
  match l with
  | [] => ""
  | [s] => s
  | s :: rest => s +:+ "." +:+ join_dots rest
  end.

Definition render_path (segs : list Segment) : string :=
  join_dots (map render_segment segs).

(** The database field a segment denotes. *)
Definition segment_field (s : Segment) : string :=
  match seg_marker s with
  | IndexMarker ds => seg_name s +:+ "." +:+ ds
  | _ => seg_name s
  end.

Definition field_path (segs : list Segment) : string :=
  join_dots (map segment_field segs).

(** What the indexer rewrite alone makes of a segment: the indexer moves
    behind the name, the collection marker stays. *)
Definition indexed_segment (s : Segment) : string :=
  match seg_marker s with
  | IndexMarker ds => seg_name s +:+ "." +:+ ds
  | ArrayMarker => "[]" +:+ seg_name s
  | NoMarker => seg_name s
  end.

Definition no_open (s : string) : bool :=
  forall_chars (fun c => negb (is_open c)) s.

(** ** BSON values

    [bson.M] is a Go map from keys to arbitrary values.  A document is kept
    as an association list: the order of the list is one order in which
    [range] may visit the map, so a statement proved for every document
    holds for every iteration order.  [doc_insert] is the assignment
    [m[k] = v] (replace the binding if the key is bound, add it otherwise)
    and [doc_lookup] is [m[k]]. *)

Definition Time := Z.

#[warnings="-register-all"]
Inductive Value : Type :=
| VNil
| VString (s : string)
| VBool (b : bool)
| VInt (z : Z)
| VDouble (q : Q)              (* the float64 nearest to the rational [q] *)
| VTime (t : Time)
| VRegex (pattern options : string)   (* primitive.Regex *)
| VDoc (m : list (string * Value))      (* bson.M *)
| VArr (l : list Value).                (* a slice; []bson.M when all are documents *)

Abbreviation Doc := (list (string * Value)).

Fixpoint doc_lookup (k : string) (m : Doc) : option Value :=
  match m with
  | [] => None
  | (k', v) :: m' => if String.eqb k k' then Some v else doc_lookup k m'
  end.

Fixpoint doc_insert (k : string) (v : Value) (m : Doc) : Doc :=
  match m with
  | [] => [(k, v)]
  | (k', v') :: m' =>
      if String.eqb k k' then (k, v) :: m' else (k', v') :: doc_insert k v m'
  end.

Definition doc_has (k : string) (m : Doc) : bool :=
  match doc_lookup k m with Some _ => true | None => false end.

Definition doc_keys (m : Doc) : list string := map fst m.

(** The type assertion [v.([]bson.M)] succeeds on a slice of documents. *)
Definition asDoc (v : Value) : option Doc :=
  match v with VDoc m => Some m | _ => None end.

Fixpoint asDocs (l : list Value) : option (list Doc) :=
  match l with
  | [] => Some []
  | v :: l' =>
      match asDoc v, asDocs l' with
      | Some m, Some ms => Some (m :: ms)
      | _, _ => None
      end
  end.

(** A [[]bson.M] built by the code. *)
Definition docArray (l : list Doc) : Value := VArr (map VDoc l).

(** [m[k] != nil]: an unbound key reads as the nil interface. *)
Definition doc_nonnil (k : string) (m : Doc) : bool :=
  match doc_lookup k m with
  | None | Some VNil => false
  | Some _ => true
  end.

(** ** Errors

    The builders signal failure by [panic] with an [*Error]; a failed type
    assertion or a division by zero is a run-time panic of Go itself. *)

Record OperationOutcome := CreateOpOutcome {
  severity : string;
  issueCode : string;
  detailsCode : string;
  detailsDisplay : string
}.

Record Error := mkError {
  HTTPStatus : Z;
  Outcome : OperationOutcome
}.

Definition StatusBadRequest : Z := 400.
Definition StatusInternalServerError : Z := 500.
Definition StatusNotImplemented : Z := 501.

Definition createUnsupportedSearchError (code display : string) : Error :=
  mkError StatusNotImplemented (CreateOpOutcome "error" "not-supported" code display).

Definition createInvalidSearchError (code display : string) : Error :=
  mkError StatusBadRequest (CreateOpOutcome "error" "processing" code display).

Definition createInternalServerError (code display : string) : Error :=
  mkError StatusInternalServerError (CreateOpOutcome "fatal" "exception" code display).

Definition createOpInterruptedError (display : string) : Error :=
  mkError StatusInternalServerError (CreateOpOutcome "error" "too-costly" "" display).

Inductive PanicValue :=
| SearchError (e : Error)
| RuntimePanic (what : string).

Inductive Result (A : Type) : Type :=
| Ok (a : A)
| Panic (p : PanicValue).
Arguments Ok {A} a.
Arguments Panic {A} p.

Notation "'do' x <- m ; k" :=
  (match m with Ok x => k | Panic e => Panic e end)
  (at level 10, x pattern, m at level 100, k at level 200).

Definition is_ok {A} (r : Result A) : bool :=
  match r with Ok _ => true | Panic _ => false end.

Section MapResult.
Context {A B : Type} (f : A -> Result B).

(** A loop that fills [results[i]] in index order; the first panic ends it. *)
Fixpoint mapResult (l : list A) : Result (list B) :=
  match l with
  | [] => Ok []
  | a :: l' =>
      do b <- f a;
      do bs <- mapResult l';
      Ok (b :: bs)
  end.
End MapResult.

(** ** The regular expressions of [buildBSON] and of the [ci] helpers *)

(** [regexp.QuoteMeta]: a backslash before each of [\.+*?()|[]{}^$]. *)
Definition isSpecial (c : ascii) : bool :=
  existsb (Ascii.eqb c)
    ["\"; "."; "+"; "*"; "?"; "("; ")"; "|"; "["; "]"; "{"; "}"; "^"; "$"]%char.

Fixpoint QuoteMeta (s : string) : string :=
  match s with
  | EmptyString => EmptyString
  | String c r =>
      if isSpecial c then String "\" (String c (QuoteMeta r))
      else String c (QuoteMeta r)
  end.

(** The greedy any-character star before the array marker: the longest prefix that holds no
    newline and is followed by an array marker, with that marker, and the
    rest.  A later marker is preferred to an earlier one. *)
Fixpoint lastMarkerSplit (s : string) : option (string * string) :=
  match s with
  | EmptyString => None
  | String c r =>
      match (if is_newline c then None else lastMarkerSplit r) with
      | Some (g, rest) => Some (String c g, rest)
      | None =>
          match r with
          | String c' r' =>
              if is_open c && is_close c' then Some ("[]", r') else None
          | EmptyString => None
          end
      end
  end.

(** A match of the path regexp of [buildBSON] anchored at the head of [s],
    as its two groups: group one is the greedy prefix up to and including
    the last array marker, extended over the characters that are no dot;
    then an optional dot; group two is the run of characters that are no
    bracket.  After the marker every piece may be empty, so the greedy
    choice always succeeds. *)
Definition matchArrayPath (s : string) : option (string * string) :=
  match lastMarkerSplit s with
  | Some (g, rest) =>
      let '(nd, rest1) := span (fun c => negb (is_dot c)) rest in
      let rest2 := match rest1 with
                   | String c r => if is_dot c then r else rest1
                   | EmptyString => rest1
                   end in
      let '(g2, _) := span (fun c => negb (is_open c || is_close c)) rest2 in
      Some (g +:+ nd, g2)
  | None => None
  end.

(** [pathRegex.FindStringSubmatch]: the leftmost match. *)
Fixpoint findArrayPath (s : string) : option (string * string) :=
  match matchArrayPath s with
  | Some m => Some m
  | None =>
      match s with
      | String _ r => findArrayPath r
      | EmptyString => None
      end
  end.

Definition isQueryOperator (key : string) : bool :=
  match key with
  | String c _ => Ascii.eqb c "$"
  | EmptyString => false
  end.

(** ** [buildBSON]: a predicate projected onto a field path *)

Section ProcessCriteria.
(** The recursive call of [buildBSON] on a branch of a disjunction. *)
Variable buildBranch : string -> Value -> Result Doc.

Definition processOrCriteria (path : string) (orValue : Value) (result : Doc)
  : Result Doc :=
  match orValue with
  | VArr ors =>
      match asDocs ors with
      | Some _ =>
          do newOrs <- mapResult (buildBranch path) ors;
          Ok (doc_insert "$or" (docArray newOrs) result)
      | None => Panic (SearchError (createInternalServerError "" ""))
      end
  | _ => Panic (SearchError (createInternalServerError "" ""))
  end.

Definition processQueryOperatorCriteria
    (path key : string) (value : Value) (result : Doc) : Result Doc :=
  if String.eqb key "$or" then processOrCriteria path value result
  else
    match doc_lookup path result with
    | None => Ok (doc_insert path (VDoc [(key, value)]) result)
    | Some (VDoc criteria) =>
        Ok (doc_insert path (VDoc (doc_insert key value criteria)) result)
    | Some _ => Panic (RuntimePanic "interface conversion: not a bson.M")
    end.

(** The loop [for k, v := range bCriteria] writing into [result]. *)
Fixpoint projectCriteria (path : string) (bCriteria : Doc) (result : Doc)
  : Result Doc :=
  match bCriteria with
  | [] => Ok result
  | (k, v) :: rest =>
      do result' <-
        (if isQueryOperator k
         then processQueryOperatorCriteria path k v result
         else Ok (doc_insert (path +:+ "." +:+ k) v result));
      projectCriteria path rest result'
  end.
End ProcessCriteria.

Fixpoint buildBSON (path : string) (criteria : Value) {struct criteria}
  : Result Doc :=
  let indexedPath := convertBracketIndexesToDotIndexes path in
  let normalizedPath := convertSearchPathToMongoField path in
  match criteria with
  | VDoc bCriteria =>
      match findArrayPath indexedPath with
      | Some (m1, m2) =>
          if (1 <? length bCriteria)%nat then
            (* an array in the path and a composite criteria: $elemMatch *)
            let left := removeArrayMarkers m1 in
            let right := m2 in
            do resultCriteria <-
              (if (0 <? String.length right)%nat
               then projectCriteria buildBSON right bCriteria []
               else Ok bCriteria);
            Ok [(left, VDoc [("$elemMatch", VDoc resultCriteria)])]
          else projectCriteria buildBSON normalizedPath bCriteria []
      | None => projectCriteria buildBSON normalizedPath bCriteria []
      end
  | _ =>
      (* criteria is singular, so arrays do not matter *)
      Ok [(normalizedPath, criteria)]
  end.

(** ** Search parameters

    The parameter types live beside the compiler in the [search] package;
    their fields are the ones the compiler reads. *)

Record SearchParamPath := mkPath {
  Path : string;
  Type_ : string
}.

(** The prefixes are string constants. *)
Definition Prefix := string.
Definition EQ : Prefix := "eq".
Definition NE : Prefix := "ne".
Definition GT : Prefix := "gt".
Definition LT : Prefix := "lt".
Definition GE : Prefix := "ge".
Definition LE : Prefix := "le".
Definition SA : Prefix := "sa".
Definition EB : Prefix := "eb".

Record SearchParamInfo := mkInfo {
  Resource : string;
  Name : string;
  ParamType : string;
  Paths : list SearchParamPath;
  Targets : list string;
  Prefix_ : Prefix;
  Modifier : string
}.

(** A parsed date: the window of its precision, low end inclusive and high
    end exclusive. *)
Record Date := mkDate {
  DateRangeLowIncl : Time;
  DateRangeHighExcl : Time
}.

(** A parsed number: an exact rational with the window of its precision. *)
Record Number := mkNumber {
  NumberValue : Q;
  NumberRangeLowIncl : Q;
  NumberRangeHighExcl : Q
}.

Record SortOption := mkSort {
  Descending : bool;
  SortParameter : SearchParamInfo
}.

Record IncludeOption := mkInclude {
  IncludeResource : string;
  IncludeParameter : SearchParamInfo
}.

Record QueryOptions := mkOptions {
  Count : Z;
  Offset : Z;
  Sort : list SortOption;
  Summary : string;
  Include : list IncludeOption;
  RevInclude : list IncludeOption
}.

#[warnings="-register-all"]
Inductive SearchParam : Type :=
| CompositeParam (info : SearchParamInfo) (CompositeValues : list string)
| DateParam (info : SearchParamInfo) (Date_ : Date)
| NumberParam (info : SearchParamInfo) (Number_ : Number)
| QuantityParam (info : SearchParamInfo) (Number_ : Number) (System Code : string)
| ReferenceParam (info : SearchParamInfo) (Reference_ : Reference)
| StringParam (info : SearchParamInfo) (String_ : string)
| TokenParam (info : SearchParamInfo) (System Code : string) (AnySystem : bool)
| URIParam (info : SearchParamInfo) (URI : string)
| OrParam (info : SearchParamInfo) (Items : list SearchParam)
with Reference : Type :=
| LocalReference (RefType ID : string)
| ExternalReference (URL : string)
| ChainedQueryReference (RefType : string) (ChainedQuery : Query)
| ReverseChainedQueryReference (RefType : string) (RevQuery : Query)
with Query : Type :=
| mkQuery (QResource : string) (RawQuery : string)
          (QParams : list SearchParam) (QOptions : QueryOptions).

Definition getInfo (p : SearchParam) : SearchParamInfo :=
  match p with
  | CompositeParam i _ | DateParam i _ | NumberParam i _ | QuantityParam i _ _ _
  | ReferenceParam i _ | StringParam i _ | TokenParam i _ _ _ | URIParam i _
  | OrParam i _ => i
  end.

Definition setInfo (i : SearchParamInfo) (p : SearchParam) : SearchParam :=
  match p with
  | CompositeParam _ a => CompositeParam i a
  | DateParam _ a => DateParam i a
  | NumberParam _ a => NumberParam i a
  | QuantityParam _ a b c => QuantityParam i a b c
  | ReferenceParam _ a => ReferenceParam i a
  | StringParam _ a => StringParam i a
  | TokenParam _ a b c => TokenParam i a b c
  | URIParam _ a => URIParam i a
  | OrParam _ a => OrParam i a
  end.

Definition QueryResource (q : Query) : string :=
  match q with mkQuery r _ _ _ => r end.
Definition QueryRaw (q : Query) : string :=
  match q with mkQuery _ s _ _ => s end.
Definition Params (q : Query) : list SearchParam :=
  match q with mkQuery _ _ ps _ => ps end.
Definition Options (q : Query) : QueryOptions :=
  match q with mkQuery _ _ _ o => o end.

(** ** The searcher and its case-insensitivity helpers *)

Record MongoSearcher := NewMongoSearcher {
  countTotalResults : bool;
  enableCISearches : bool;
  tokenParametersCaseSensitive : bool;
  readonly : bool
}.

(** Case-insensitive match. *)
Definition ci (m : MongoSearcher) (s : string) : Value :=
  if enableCISearches m
  then VRegex ("^" +:+ QuoteMeta s +:+ "$") "i"
  else VString s.

(** Case-insensitive match for token-type search parameters. *)
Definition ciToken (m : MongoSearcher) (s : string) : Value :=
  if negb (tokenParametersCaseSensitive m) && enableCISearches m
  then VRegex ("^" +:+ QuoteMeta s +:+ "$") "i"
  else VString s.

(** Case-insensitive starts-with. *)
Definition cisw (m : MongoSearcher) (s : string) : Value :=
  if enableCISearches m
  then VRegex ("^" +:+ QuoteMeta s) "i"
  else VString s.

(** ** [orPaths] and [merge] *)

Section OrPaths.
Variable objFunc : SearchParamPath -> Result Doc.

(** The loop of [orPaths]: the disjuncts collected so far. *)
Fixpoint orPathsLoop (paths : list SearchParamPath) (results : list Doc)
  : Result (list Doc) :=
  match paths with
  | [] => Ok results
  | p :: rest =>
      do result <- objFunc p;
      if (length result =? 1)%nat && doc_nonnil "$or" result then
        (* the bson is just an $or: bring its components to the top level *)
        match doc_lookup "$or" result with
        | Some (VArr nested) =>
            match asDocs nested with
            | Some nestedOrs => orPathsLoop rest (results ++ nestedOrs)
            | None => Panic (RuntimePanic "interface conversion: not a []bson.M")
            end
        | _ => Panic (RuntimePanic "interface conversion: not a []bson.M")
        end
      else
        do again <- objFunc p;
        orPathsLoop rest (results ++ [again])
  end.

Definition orPaths (paths : list SearchParamPath) : Result Doc :=
  do results <- orPathsLoop paths [];
  match results with
  | [single] => Ok single
  | _ => Ok [("$or", docArray results)]
  end.
End OrPaths.

(** The loop of [merge] over the entries of [from]; the state is the map
    [into] and the pending conjunction list [and]. *)
Fixpoint mergeLoop (from : Doc) (into : Doc) (and : list Doc)
  : Result (Doc * list Doc) :=
  match from with
  | [] => Ok (into, and)
  | (k, v) :: rest =>
      if String.eqb k "$and" then
        match v with
        | VArr l =>
            match asDocs l with
            | Some branches => mergeLoop rest into (and ++ branches)
            | None => Panic (RuntimePanic "interface conversion: not a []bson.M")
            end
        | _ => Panic (RuntimePanic "interface conversion: not a []bson.M")
        end
      else if doc_has k into then mergeLoop rest into (and ++ [[(k, v)]])
      else mergeLoop rest (doc_insert k v into) and
  end.

Definition merge (into from : Doc) : Result Doc :=
  do and <-
    match doc_lookup "$and" into with
    | Some (VArr l) =>
        match asDocs l with
        | Some intoAnd => Ok intoAnd
        | None => Panic (RuntimePanic "interface conversion: not a []bson.M")
        end
    | Some _ => Panic (RuntimePanic "interface conversion: not a []bson.M")
    | None => Ok []
    end;
  do st <- mergeLoop from into and;
  let '(into', and') := st in
  if (0 <? length and')%nat
  then Ok (doc_insert "$and" (docArray and') into')
  else Ok into'.

(** [createQueryObjectFromParams], after the parameter objects are built:
    every object is merged into [result], which starts empty. *)
Fixpoint mergeAll (objects : list Doc) (result : Doc) : Result Doc :=
  match objects with
  | [] => Ok result
  | p :: rest => do result' <- merge result p; mergeAll rest result'
  end.

(** ** Predicate builders *)

Definition dq : string := String (ascii_of_nat 34) EmptyString.

Definition msgContentInvalid (name : string) : string :=
  "Parameter " +:+ dq +:+ name +:+ dq +:+ " content is invalid".

Definition unsupportedContent {A} (name : string) : Result A :=
  Panic (SearchError
    (createUnsupportedSearchError "MSG_PARAM_INVALID" (msgContentInvalid name))).

(** The global registry of search parameters, by resource name and
    parameter name.  It is filled at start-up and only read afterwards. *)
Abbreviation Dictionary := (gmap string (gmap string SearchParamInfo)).

Definition panicOnUnsupportedFeatures (dict : Dictionary) (p : SearchParam)
  : Result unit :=
  let isDate := match p with DateParam _ _ => true | _ => false end in
  let isNumber := match p with NumberParam _ _ => true | _ => false end in
  let isQuantity := match p with QuantityParam _ _ _ _ => true | _ => false end in
  let prefix := Prefix_ (getInfo p) in
  if negb (String.eqb prefix "") && negb (String.eqb prefix EQ)
     && negb isDate && negb isNumber && negb isQuantity
  then unsupportedContent (Name (getInfo p))
  else
    let isRef := match p with ReferenceParam _ _ => true | _ => false end in
    let modifier := Modifier (getInfo p) in
    if negb (String.eqb modifier "") then
      let ok := bool_decide (is_Some (dict !! modifier)) in
      if negb isRef || negb ok then
        Panic (SearchError (createUnsupportedSearchError "MSG_PARAM_MODIFIER_INVALID"
          ("Parameter " +:+ dq +:+ Name (getInfo p) +:+ dq +:+ " modifier is invalid")))
      else Ok tt
    else Ok tt.

Definition createCompositeQueryObject (c : SearchParamInfo) : Result Doc :=
  Panic (SearchError (createUnsupportedSearchError "MSG_PARAM_UNKNOWN"
    ("Parameter " +:+ dq +:+ Name c +:+ dq +:+ " not understood"))).

(** *** Dates *)

Definition dateSelector (d : SearchParamInfo) (date : Date) : Result Value :=
  let low := VTime (DateRangeLowIncl date) in
  let high := VTime (DateRangeHighExcl date) in
  if String.eqb (Prefix_ d) EQ then
    Ok (VDoc [("__from", VDoc [("$gte", low)]); ("__to", VDoc [("$lte", high)])])
  else if String.eqb (Prefix_ d) GT then
    Ok (VDoc [("__to", VDoc [("$gt", high)])])
  else if String.eqb (Prefix_ d) LT then
    Ok (VDoc [("__from", VDoc [("$lt", low)])])
  else if String.eqb (Prefix_ d) GE then
    Ok (VDoc [("$or", docArray [[("__to", VDoc [("$gte", high)])];
                                [("__from", VDoc [("$gte", low)])]])])
  else if String.eqb (Prefix_ d) LE then
    Ok (VDoc [("$or", docArray [[("__from", VDoc [("$lte", low)])];
                                [("__to", VDoc [("$lte", high)])]])])
  else if String.eqb (Prefix_ d) SA then
    Ok (VDoc [("__from", VDoc [("$gt", high)])])
  else if String.eqb (Prefix_ d) EB then
    Ok (VDoc [("__to", VDoc [("$lt", low)])])
  else unsupportedContent (Name d).

Definition instantSelector (p : SearchParamInfo) (date : Date) : Result Value :=
  let low := VTime (DateRangeLowIncl date) in
  let high := VTime (DateRangeHighExcl date) in
  if String.eqb (Prefix_ p) EQ then Ok (VDoc [("$gte", low); ("$lt", high)])
  else if String.eqb (Prefix_ p) GT then Ok (VDoc [("$gt", low)])
  else if String.eqb (Prefix_ p) GE then Ok (VDoc [("$gte", low)])
  else if String.eqb (Prefix_ p) SA then Ok (VDoc [("$gt", high)])
  else if String.eqb (Prefix_ p) LT || String.eqb (Prefix_ p) EB
  then Ok (VDoc [("$lt", low)])
  else if String.eqb (Prefix_ p) LE then Ok (VDoc [("$lt", high)])
  else unsupportedContent (Name p).

Definition periodSelector (d : SearchParamInfo) (date : Date) : Result Value :=
  let low := VTime (DateRangeLowIncl date) in
  let high := VTime (DateRangeHighExcl date) in
  let endIsNull := [("$ne", VNil); ("end", VNil)] in
  let startIsNull := [("$ne", VNil); ("start", VNil)] in
  if String.eqb (Prefix_ d) EQ then
    Ok (VDoc [("start.__from", VDoc [("$gte", low)]);
              ("end.__to", VDoc [("$lte", high)])])
  else if String.eqb (Prefix_ d) GT then
    Ok (VDoc [("$or", docArray [[("end.__to", VDoc [("$gt", high)])]; endIsNull])])
  else if String.eqb (Prefix_ d) LT then
    Ok (VDoc [("$or", docArray [[("start.__from", VDoc [("$lt", low)])]; startIsNull])])
  else if String.eqb (Prefix_ d) GE then
    Ok (VDoc [("$or", docArray [[("end.__to", VDoc [("$gte", high)])];
                                [("start.__from", VDoc [("$gte", low)])];
                                endIsNull])])
  else if String.eqb (Prefix_ d) LE then
    Ok (VDoc [("$or", docArray [[("start.__from", VDoc [("$lte", low)])];
                                [("end.__to", VDoc [("$lte", high)])];
                                startIsNull])])
  else if String.eqb (Prefix_ d) SA then
    Ok (VDoc [("start.__from", VDoc [("$gt", high)])])
  else if String.eqb (Prefix_ d) EB then
    Ok (VDoc [("end.__to", VDoc [("$lt", low)])])
  else unsupportedContent (Name d).

(** The per-path closure [single] of [createDateQueryObject]. *)
Definition dateSingle (d : SearchParamInfo) (date : Date) (p : SearchParamPath)
  : Result Doc :=
  if String.eqb (Type_ p) "date" || String.eqb (Type_ p) "dateTime" then
    do c <- dateSelector d date; buildBSON (Path p) c
  else if String.eqb (Type_ p) "instant" then
    do c <- instantSelector d date; buildBSON (Path p) c
  else if String.eqb (Type_ p) "Period" then
    do c <- periodSelector d date; buildBSON (Path p) c
  else if String.eqb (Type_ p) "Timing" then
    do c <- dateSelector d date; buildBSON (Path p +:+ ".event") c
  else Ok [].

Definition createDateQueryObject (d : SearchParamInfo) (date : Date) : Result Doc :=
  orPaths (dateSingle d date) (Paths d).

(** *** Numbers and quantities *)

Definition numberSingle (n : SearchParamInfo) (num : Number) (p : SearchParamPath)
  : Result Doc :=
  let l := VDouble (NumberRangeLowIncl num) in
  let h := VDouble (NumberRangeHighExcl num) in
  let exact := VDouble (NumberValue num) in
  if String.eqb (Type_ p) "decimal" then
    Panic (SearchError (createUnsupportedSearchError "MSG_PARAM_INVALID"
      ("Parameter " +:+ dq +:+ Name n +:+ dq +:+ " (decimal type) is not yet supported")))
  else
    do criteria <-
      (if String.eqb (Prefix_ n) EQ then Ok (VDoc [("$gte", l); ("$lt", h)])
       else if String.eqb (Prefix_ n) NE then
         Ok (VDoc [("$or", docArray [[("$lt", l)]; [("$gte", h)]])])
       else if String.eqb (Prefix_ n) GT then Ok (VDoc [("$gt", exact)])
       else if String.eqb (Prefix_ n) LT then Ok (VDoc [("$lt", exact)])
       else if String.eqb (Prefix_ n) GE then Ok (VDoc [("$gte", l)])
       else if String.eqb (Prefix_ n) LE then Ok (VDoc [("$lte", h)])
       else unsupportedContent (Name n));
    buildBSON (Path p) criteria.

Definition createNumberQueryObject (n : SearchParamInfo) (num : Number) : Result Doc :=
  orPaths (numberSingle n num) (Paths n).

Definition quantitySingle (m : MongoSearcher) (q : SearchParamInfo) (num : Number)
    (system code : string) (p : SearchParamPath) : Result Doc :=
  let l := VDouble (NumberRangeLowIncl num) in
  let h := VDouble (NumberRangeHighExcl num) in
  let exact := VDouble (NumberValue num) in
  do criteria <-
    (if String.eqb (Prefix_ q) EQ then
       Ok [("value.__from", VDoc [("$gte", l)]); ("value.__to", VDoc [("$lte", h)])]
     else if String.eqb (Prefix_ q) LT then
       Ok [("value.__from", VDoc [("$lt", exact)])]
     else if String.eqb (Prefix_ q) GT then
       Ok [("value.__to", VDoc [("$gt", exact)])]
     else if String.eqb (Prefix_ q) GE then
       Ok [("$or", docArray [[("value.__to", VDoc [("$gte", h)])];
                             [("value.__from", VDoc [("$gte", l)])]])]
     else if String.eqb (Prefix_ q) LE then
       Ok [("$or", docArray [[("value.__from", VDoc [("$lte", l)])];
                             [("value.__to", VDoc [("$lte", h)])]])]
     else unsupportedContent (Name q));
  if String.eqb system "" then
    Panic (SearchError (createUnsupportedSearchError "MSG_PARAM_INVALID"
      ("Parameter " +:+ dq +:+ Name q +:+ dq
       +:+ ": search by quantity with a code system not yet supported")))
  else
    let criteria := doc_insert "code" (ciToken m code) criteria in
    let criteria := doc_insert "system" (ciToken m system) criteria in
    buildBSON (Path p) (VDoc criteria).

Definition createQuantityQueryObject (m : MongoSearcher) (q : SearchParamInfo)
    (num : Number) (system code : string) : Result Doc :=
  orPaths (quantitySingle m q num system code) (Paths q).

(** *** Strings *)

Definition stringSingle (m : MongoSearcher) (s : SearchParamInfo) (str : string)
    (p : SearchParamPath) : Result Doc :=
  if String.eqb (Type_ p) "HumanName" then
    buildBSON (Path p)
      (VDoc [("$or", docArray [[("text", cisw m str)];
                               [("family", cisw m str)];
                               [("given", cisw m str)]])])
  else if String.eqb (Type_ p) "Address" then
    buildBSON (Path p)
      (VDoc [("$or", docArray [[("text", cisw m str)];
                               [("line", cisw m str)];
                               [("city", cisw m str)];
                               [("state", cisw m str)];
                               [("postalCode", cisw m str)];
                               [("country", cisw m str)]])])
  else if String.eqb (Name s) "_id" then buildBSON (Path p) (VString str)
  else buildBSON (Path p) (ci m str).

Definition createStringQueryObject (m : MongoSearcher) (s : SearchParamInfo)
    (str : string) : Result Doc :=
  orPaths (stringSingle m s str) (Paths s).

(** *** Tokens *)

(** The two criteria computed before the paths are visited; [None] is the
    nil interface. *)
Definition tokenCriteria (m : MongoSearcher) (system code : string) (anySystem : bool)
  : option Value * option Value :=
  if String.eqb code "" then
    (* [parameter]=[system]| *)
    (Some (ciToken m system), None)
  else if String.eqb system "" then
    if anySystem then
      (* [parameter]=[code] *)
      (None, Some (ciToken m code))
    else
      (* [parameter]=|[code] *)
      (Some (VDoc [("$exists", VBool false)]), Some (ciToken m code))
  else
    (* [parameter]=[system]|[code] *)
    (Some (ciToken m system), Some (ciToken m code)).

Definition setIfPresent (k : string) (v : option Value) (criteria : Doc) : Doc :=
  match v with Some x => doc_insert k x criteria | None => criteria end.

Definition tokenSingle (m : MongoSearcher) (t : SearchParamInfo)
    (system code : string) (anySystem : bool) (p : SearchParamPath) : Result Doc :=
  let '(systemCriteria, codeCriteria) := tokenCriteria m system code anySystem in
  let ty := Type_ p in
  if String.eqb ty "Coding" then
    buildBSON (Path p)
      (VDoc (setIfPresent "code" codeCriteria (setIfPresent "system" systemCriteria [])))
  else if String.eqb ty "CodeableConcept" then
    match systemCriteria, codeCriteria with
    | Some sc, Some cc =>
        buildBSON (Path p)
          (VDoc [("coding", VDoc [("$elemMatch", VDoc [("system", sc); ("code", cc)])])])
    | _, _ =>
        buildBSON (Path p)
          (VDoc (setIfPresent "coding.code" codeCriteria
                   (setIfPresent "coding.system" systemCriteria [])))
    end
  else if String.eqb ty "Identifier" then
    buildBSON (Path p)
      (VDoc (setIfPresent "value" codeCriteria (setIfPresent "system" systemCriteria [])))
  else if String.eqb ty "ContactPoint" then
    let criteria := [("value", ci m code)] in
    let criteria :=
      if negb anySystem then doc_insert "use" (ciToken m system) criteria
      else criteria in
    buildBSON (Path p) (VDoc criteria)
  else if String.eqb ty "boolean" then
    if String.eqb code "true" then buildBSON (Path p) (VBool true)
    else if String.eqb code "false" then buildBSON (Path p) (VBool false)
    else Panic (SearchError
           (createInvalidSearchError "MSG_PARAM_INVALID" (msgContentInvalid (Name t))))
  else if String.eqb ty "string" then buildBSON (Path p) (ci m code)
  else if String.eqb ty "code" then buildBSON (Path p) (ciToken m code)
  else if String.eqb ty "id" then buildBSON (Path p) (VString code)
  else buildBSON (Path p) (VDoc []).

Definition createTokenQueryObject (m : MongoSearcher) (t : SearchParamInfo)
    (system code : string) (anySystem : bool) : Result Doc :=
  orPaths (tokenSingle m t system code anySystem) (Paths t).

(** *** URIs *)

Definition createURIQueryObject (u : SearchParamInfo) (uri : string) : Result Doc :=
  orPaths (fun p => buildBSON (Path p) (VString uri)) (Paths u).

(** *** References, disjunctions and the dispatch *)

Section ParamObjects.
Variable m : MongoSearcher.
Variable dict : Dictionary.

Section Reference.
(** [createQueryObject] on the query of a chained reference. *)
Variable createQueryObject : Query -> Result Doc.
Variable r : SearchParamInfo.

Definition createInlinedReferenceQueryObject (ref : Reference) (p : SearchParamPath)
  : Result Doc :=
  do criteria <-
    match ref with
    | LocalReference ty id =>
        let criteria := if negb (String.eqb ty "")
                        then [("resourceType", VString ty)] else [] in
        Ok (doc_insert "_id" (VString id) criteria)
    | ChainedQueryReference ty chainedQuery =>
        do criteria <- createQueryObject chainedQuery;
        if negb (String.eqb ty "")
        then Ok (doc_insert "resourceType" (VString ty) criteria)
        else Ok criteria
    | ExternalReference _ => unsupportedContent (Name r)
    | ReverseChainedQueryReference _ _ => Ok []
    end;
  buildBSON (Path p) (VDoc criteria).

Definition referenceSingle (ref : Reference) (p : SearchParamPath) : Result Doc :=
  if String.eqb (Type_ p) "Resource" then createInlinedReferenceQueryObject ref p
  else
    do criteria <-
      match ref with
      | LocalReference ty id =>
          let criteria := [("reference__id", VString id)] in
          Ok (if negb (String.eqb ty "")
              then doc_insert "reference__type" (VString ty) criteria
              else criteria)
      | ExternalReference url => Ok [("reference", ci m url)]
      | ChainedQueryReference _ _ =>
          (* this is handled exclusively by createPipelineObject *)
          Panic (SearchError (createInternalServerError ""
            "createReferenceQueryObject should not be used to create ChainedQueryReferences"))
      | ReverseChainedQueryReference _ _ =>
          Panic (SearchError (createInternalServerError ""
            "createReferenceQueryObject should not be used to create ReverseChainedQueryReferences"))
      end;
    buildBSON (Path p) (VDoc criteria).

Definition createReferenceQueryObject (ref : Reference) : Result Doc :=
  orPaths (referenceSingle ref) (Paths r).
End Reference.

(** The body of the loop of [createParamObjects] for one parameter.  The
    parameter types form a closed sum, so the registry of custom builders
    that the source consults for any other type has no case here. *)
Fixpoint createParamObject (p : SearchParam) {struct p} : Result Doc :=
  do _ <- panicOnUnsupportedFeatures dict p;
  match p with
  | CompositeParam c _ => createCompositeQueryObject c
  | DateParam d date => createDateQueryObject d date
  | NumberParam n num => createNumberQueryObject n num
  | QuantityParam q num system code => createQuantityQueryObject m q num system code
  | ReferenceParam r ref =>
      createReferenceQueryObject
        (fun q =>
           match q with
           | mkQuery _ _ ps _ =>
               do objects <- mapResult createParamObject ps;
               mergeAll objects []
           end)
        r ref
  | StringParam s str => createStringQueryObject m s str
  | TokenParam t system code anySystem =>
      createTokenQueryObject m t system code anySystem
  | URIParam u uri => createURIQueryObject u uri
  | OrParam _ items =>
      do objects <- mapResult createParamObject items;
      Ok [("$or", docArray objects)]
  end.

Definition createParamObjects (params : list SearchParam) : Result (list Doc) :=
  mapResult createParamObject params.

Definition createOrQueryObject (items : list SearchParam) : Result Doc :=
  do objects <- createParamObjects items;
  Ok [("$or", docArray objects)].

Definition createQueryObjectFromParams (params : list SearchParam) : Result Doc :=
  do objects <- createParamObjects params;
  mergeAll objects [].

Definition createQueryObject (query : Query) : Result Doc :=
  createQueryObjectFromParams (Params query).
End ParamObjects.

(** ** What a query document means

    A query document selects the stored documents that satisfy every one of
    its entries.  The entry [$or] holds when some branch holds, the entry
    [$and] when every branch holds; what any other entry (a field bound to
    a value or to a document of operators) demands of a stored document is
    a parameter [field_sat]. *)

Section Semantics.
Variable Stored : Type.
Variable field_sat : Stored -> string -> Value -> bool.

Fixpoint sat (d : Stored) (q : Value) {struct q} : bool :=
  match q with
  | VDoc entries =>
      forallb
        (fun kv =>
           if String.eqb (fst kv) "$or" then
             match snd kv with
             | VArr branches => existsb (sat d) branches
             | _ => false
             end
           else if String.eqb (fst kv) "$and" then
             match snd kv with
             | VArr branches => forallb (sat d) branches
             | _ => false
             end
           else field_sat d (fst kv) (snd kv))
        entries
  | _ => false
  end.

Definition satDoc (d : Stored) (q : Doc) : bool := sat d (VDoc q).

(** What one entry of a query document demands. *)
Definition entry_sat (d : Stored) (kv : string * Value) : bool :=
  if String.eqb (fst kv) "$or" then
    match snd kv with
    | VArr branches => existsb (sat d) branches
    | _ => false
    end
  else if String.eqb (fst kv) "$and" then
    match snd kv with
    | VArr branches => forallb (sat d) branches
    | _ => false
    end
  else field_sat d (fst kv) (snd kv).

Definition satResult (d : Stored) (r : Result Doc) : bool :=
  match r with Ok q => satDoc d q | Panic _ => false end.
End Semantics.

(** A flat store for worked cases: dotted field names bound to scalars.
    A field bound to a scalar demands equality; a field bound to a document
    of comparison operators demands each comparison of the stored time. *)
Definition value_eqb (a b : Value) : bool :=
  match a, b with
  | VString x, VString y => String.eqb x y
  | VBool x, VBool y => Bool.eqb x y
  | VInt x, VInt y => Z.eqb x y
  | VTime x, VTime y => Z.eqb x y
  | VNil, VNil => true
  | _, _ => false
  end.

Definition compare_sat (stored : Value) (op : string) (arg : Value) : bool :=
  match stored, arg with
  | VTime a, VTime b =>
      if String.eqb op "$gte" then (b <=? a)%Z
      else if String.eqb op "$gt" then (b <? a)%Z
      else if String.eqb op "$lte" then (a <=? b)%Z
      else if String.eqb op "$lt" then (a <? b)%Z
      else false
  | _, _ => false
  end.

Definition flat_field_sat (d : Doc) (k : string) (v : Value) : bool :=
  match doc_lookup k d with
  | Some stored =>
      match v with
      | VDoc ops => forallb (fun ov => compare_sat stored (fst ov) (snd ov)) ops
      | _ => value_eqb stored v
      end
  | None => false
  end.

(** The disjuncts a per-path predicate contributes to [orPaths]: the
    branches of a document that is just an [$or], the document otherwise. *)
Definition disjuncts (q : Doc) : list Doc :=
  if (length q =? 1)%nat && doc_nonnil "$or" q then
    match doc_lookup "$or" q with
    | Some (VArr nested) =>
        match asDocs nested with Some ds => ds | None => [] end
    | _ => []
    end
  else [q].

(** A document that is just an [$or] must bind it to a slice of documents. *)
Definition orWellTyped (q : Doc) : bool :=
  if (length q =? 1)%nat && doc_nonnil "$or" q then
    match doc_lookup "$or" q with
    | Some (VArr nested) =>
        match asDocs nested with Some _ => true | None => false end
    | _ => false
    end
  else true.

(** The last step of [orPaths]: a single disjunct is returned bare. *)
Definition disjunction (results : list Doc) : Doc :=
  match results with
  | [single] => single
  | _ => [("$or", docArray results)]
  end.

(** A document whose [$and], if any, is a slice of documents. *)
Definition andWellTyped (q : Doc) : bool :=
  match doc_lookup "$and" q with
  | Some (VArr l) => match asDocs l with Some _ => true | None => false end
  | Some _ => false
  | None => true
  end.

(** The pending conjunction list a document carries. *)
Definition andBranches (q : Doc) : list Doc :=
  match doc_lookup "$and" q with
  | Some (VArr l) => match asDocs l with Some ds => ds | None => [] end
  | _ => []
  end.

(** The rules one [merge] step follows, read off its result [r]: bindings
    of [into] stay; an incoming binding of a bound key joins the pending
    conjunction list as a document of its own; incoming [$and] branches join
    that list; an incoming binding of an unbound key is inserted; and the
    list only grows. *)
Definition merge_rules (into from r : Doc) : Prop :=
  (forall k v, k <> "$and" -> doc_lookup k into = Some v -> doc_lookup k r = Some v)
  /\ (forall k v, In (k, v) from -> k <> "$and" -> doc_has k into = true ->
        In [(k, v)] (andBranches r))
  /\ (forall l bs, In ("$and", VArr l) from -> asDocs l = Some bs ->
        incl bs (andBranches r))
  /\ (forall k v, In (k, v) from -> k <> "$and" -> doc_has k into = false ->
        doc_lookup k r = Some v)
  /\ incl (andBranches into) (andBranches r).

(** The steps of [mergeAll], as the list of (accumulated, incoming, merged). *)
Fixpoint mergeSteps (objects : list Doc) (result : Doc)
  : Result (list (Doc * Doc * Doc)) :=
  match objects with
  | [] => Ok []
  | p :: rest =>
      do result' <- merge result p;
      do steps <- mergeSteps rest result';
      Ok ((result, p, result') :: steps)
  end.

(** A Go map binds a key once. *)
Fixpoint distinct (keys : list string) : bool :=
  match keys with
  | [] => true
  | k :: rest => negb (existsb (String.eqb k) rest) && distinct rest
  end.

(** Every [$and] entry of the document is a slice of documents. *)
Definition andEntriesTyped (q : Doc) : bool :=
  forallb
    (fun kv =>
       if String.eqb (fst kv) "$and" then
         match snd kv with
         | VArr l => match asDocs l with Some _ => true | None => false end
         | _ => false
         end
       else true)
    q.

(** A per-parameter predicate document that [merge] accepts. *)
Definition mergeable (q : Doc) : bool :=
  distinct (doc_keys q) && andEntriesTyped q.

(** ** The prefix table for dates, in the words of the specification

    What each prefix demands of the stored bounds [from] and [to] of the
    target, given the window [low, high) of the search value. *)
Definition datePrefixHolds (prefix : Prefix) (low high from to : Time) : option bool :=
  if String.eqb prefix "eq" then Some ((low <=? from)%Z && (to <=? high)%Z)
  else if String.eqb prefix "gt" then Some (high <? to)%Z
  else if String.eqb prefix "lt" then Some (from <? low)%Z
  else if String.eqb prefix "ge" then Some ((high <=? to)%Z || (low <=? from)%Z)
  else if String.eqb prefix "le" then Some ((from <=? low)%Z || (to <=? high)%Z)
  else if String.eqb prefix "sa" then Some (high <? from)%Z
  else if String.eqb prefix "eb" then Some (to <? low)%Z
  else None.

(** ** Anchored literal patterns

    The patterns the [ci] helpers build are a caret, a literal quoted by
    [QuoteMeta], and possibly a closing dollar.  On such a pattern the
    regular-expression match is a comparison with the literal: equality when
    the dollar is there, a prefix test when it is not; with option [i] both
    sides are compared in lower case. *)
Definition lower_char (c : ascii) : ascii :=
  let n := nat_of_ascii c in
  if (65 <=? n)%nat && (n <=? 90)%nat then ascii_of_nat (n + 32) else c.

Fixpoint lower (s : string) : string :=
  match s with
  | EmptyString => EmptyString
  | String c r => String (lower_char c) (lower r)
  end.

(** The literal of a quoted pattern body and whether a dollar closes it. *)
Fixpoint parseLiteral (body : string) : string * bool :=
  match body with
  | EmptyString => (EmptyString, false)
  | String c r =>
      if Ascii.eqb c "\" then
        match r with
        | String c' r' => let '(l, a) := parseLiteral r' in (String c' l, a)
        | EmptyString => (String c EmptyString, false)
        end
      else
        match r with
        | EmptyString =>
            if Ascii.eqb c "$" then (EmptyString, true)
            else (String c EmptyString, false)
        | String _ _ => let '(l, a) := parseLiteral r in (String c l, a)
        end
  end.

Definition has_option_i (options : string) : bool :=
  negb (forall_chars (fun c => negb (Ascii.eqb c "i")) options).

Definition regexMatches (pattern options target : string) : bool :=
  match pattern with
  | String c body =>
      if Ascii.eqb c "^" then
        let '(lit, anchored) := parseLiteral body in
        let lit' := if has_option_i options then lower lit else lit in
        let target' := if has_option_i options then lower target else target in
        if anchored then String.eqb lit' target' else String.prefix lit' target'
      else false
  | EmptyString => false
  end.

(** A value of a predicate against a stored string. *)
Definition stringValueMatches (v : Value) (target : string) : bool :=
  match v with
  | VString s => String.eqb s target
  | VRegex pattern options => regexMatches pattern options target
  | _ => false
  end.

(** The flat store carries the bounds of the target under the field. *)
Definition storesBounds (stored : Doc) (p : string) (from to : Time) : Prop :=
  doc_lookup (p +:+ "." +:+ "__from") stored = Some (VTime from)
  /\ doc_lookup (p +:+ "." +:+ "__to") stored = Some (VTime to).

(** An UnsupportedSearch error: HTTP 501 with the not-supported issue code. *)
Definition signalsUnsupported {A} (r : Result A) : bool :=
  match r with
  | Panic (SearchError e) =>
      (HTTPStatus e =? 501)%Z && String.eqb (issueCode (Outcome e)) "not-supported"
  | _ => false
  end.

Definition unsupportedContentDecimal (name : string) : Result Doc :=
  Panic (SearchError (createUnsupportedSearchError "MSG_PARAM_INVALID"
    ("Parameter " +:+ dq +:+ name +:+ dq +:+ " (decimal type) is not yet supported"))).

(** ** The pipeline assembler and the shared dictionary

    The pure builders above read parameters as values.  The pipeline
    assembler, however, rewrites the paths of parameters in place, and a
    parameter shares the backing array of its [Paths] slice with the
    dictionary entry it was copied from.  This part therefore models the
    store: backing arrays of path slices, and parameter objects behind
    pointers. *)

Module Store.

Definition loc := nat.

(** A [SearchParamInfo] as it lies in memory: its [Paths] field is a slice
    over the backing array at [cPaths]. *)
Record InfoCell := mkCell {
  cResource : string;
  cName : string;
  cType : string;
  cPaths : loc;
  cTargets : list string;
  cPrefix : Prefix;
  cModifier : string
}.

Definition withPaths (c : InfoCell) (l : loc) : InfoCell :=
  mkCell (cResource c) (cName c) (cType c) l (cTargets c) (cPrefix c) (cModifier c).

(** A reference as the assembler sees it: the parameters of the inner
    query are objects of their own. *)
Inductive RefCell :=
| RLocal
| RExternal
| RChained (params : list loc)
| RReverseChained (params : list loc).

(** A parameter object; what a parameter holds besides its info and, for a
    reference or a disjunction, its children, plays no part here.  An item
    of a disjunction is a pointer or nil. *)
Inductive ParamObj :=
| PValue (info : InfoCell)
| PReference (info : InfoCell) (ref : RefCell)
| POr (info : InfoCell) (items : list (option loc)).

Definition getInfo (p : ParamObj) : InfoCell :=
  match p with PValue i | PReference i _ | POr i _ => i end.

Definition setInfo (i : InfoCell) (p : ParamObj) : ParamObj :=
  match p with
  | PValue _ => PValue i
  | PReference _ r => PReference i r
  | POr _ items => POr i items
  end.

Record Heap := mkHeap {
  arrays : gmap loc (list SearchParamPath);
  objects : gmap loc ParamObj
}.

(** Computations on the store that may panic; a panic leaves the store as
    it is at that moment. *)
Definition M (A : Type) : Type := Heap -> Result A * Heap.

Definition ret {A} (a : A) : M A := fun h => (Ok a, h).

Definition bind {A B} (c : M A) (k : A -> M B) : M B :=
  fun h => match c h with
           | (Ok a, h') => k a h'
           | (Panic e, h') => (Panic e, h')
           end.

Definition raise {A} (e : PanicValue) : M A := fun h => (Panic e, h).

Definition panic {A} (what : string) : M A := raise (RuntimePanic what).

Notation "'let*' x ':=' c 'in' k" := (bind c (fun x => k))
  (at level 10, x name, c at level 100, k at level 200, only parsing).

(** [make]: a new backing array, at a location not in use. *)
Definition allocArray (paths : list SearchParamPath) : M loc :=
  fun h =>
    let l := fresh (dom (arrays h)) in
    (Ok l, mkHeap (<[l := paths]> (arrays h)) (objects h)).

Definition readArray (l : loc) : M (list SearchParamPath) :=
  fun h => match arrays h !! l with
           | Some paths => (Ok paths, h)
           | None => (Panic (RuntimePanic "nil slice"), h)
           end.

(** [slice[i].Path = path] *)
Definition writePath (l : loc) (i : nat) (path : string) : M unit :=
  fun h => match arrays h !! l with
           | Some paths =>
               match paths !! i with
               | Some old =>
                   (Ok tt,
                    mkHeap (<[l := <[i := mkPath path (Type_ old)]> paths]> (arrays h))
                           (objects h))
               | None => (Panic (RuntimePanic "index out of range"), h)
               end
           | None => (Panic (RuntimePanic "index out of range"), h)
           end.

Definition readObject (l : loc) : M ParamObj :=
  fun h => match objects h !! l with
           | Some o => (Ok o, h)
           | None => (Panic (RuntimePanic "nil pointer dereference"), h)
           end.

Definition writeObject (l : loc) (o : ParamObj) : M unit :=
  fun h => (Ok tt, mkHeap (arrays h) (<[l := o]> (objects h))).

Definition allocObject (o : ParamObj) : M loc :=
  fun h =>
    let l := fresh (dom (objects h)) in
    (Ok l, mkHeap (arrays h) (<[l := o]> (objects h))).

Fixpoint forEach {A} (f : A -> M unit) (l : list A) : M unit :=
  match l with
  | [] => ret tt
  | a :: rest => let* _ := f a in forEach f rest
  end.

(** Modelled from the spec: [SearchParamInfo.clone], which is declared
    with the parameter types and not in [mongo_search.go].  The
    specification calls the info cloneable and has the assembler clone it
    before rewriting its paths so that the dictionary stays untouched: the
    clone owns a new backing array with the same paths. *)
Definition clone (c : InfoCell) : M InfoCell :=
  let* paths := readArray (cPaths c) in
  let* l := allocArray paths in
  ret (withPaths c l).

(** [duplicatePaths] duplicates the paths in the info [n] times: given
    paths [a, b] and [n] = 3 the info ends with [a, a, a, b, b, b], in a
    new array. *)
Definition duplicatePaths (info : InfoCell) (n : nat) : M InfoCell :=
  let* paths := readArray (cPaths info) in
  let newPaths := flat_map (fun p => repeat p n) paths in
  let* l := allocArray newPaths in
  ret (withPaths info l).

Definition Itoa (n : nat) : string := NilEmpty.string_of_uint (Nat.to_uint n).

Definition lookupKey (numReferencePaths i : nat) (path : string) : string :=
  "_lookup" +:+ Itoa (i mod numReferencePaths) +:+ "." +:+ path.

(** The loop over [searchInfo.Paths] that writes the new path of each
    element; [searchPath] is the element as the loop reads it, before the
    write of the same index. *)
Fixpoint prependLoop (l : loc) (numReferencePaths : nat) (i : nat)
    (searchPaths : list SearchParamPath) : M unit :=
  match searchPaths with
  | [] => ret tt
  | searchPath :: rest =>
      match numReferencePaths with
      | O => panic "integer divide by zero"
      | S _ =>
          let* _ := writePath l i (lookupKey numReferencePaths i (Path searchPath)) in
          prependLoop l numReferencePaths (S i) rest
      end
  end.

(** What the assembler does to one parameter object: clone its info,
    duplicate the paths when there are several reference paths, prepend
    the lookup key, and store the info back into the object. *)
Definition prependOne (numReferencePaths : nat) (param : option loc) : M unit :=
  match param with
  | None => panic "nil pointer dereference"
  | Some param =>
      let* obj := readObject param in
      let* searchInfo := clone (getInfo obj) in
      let* searchInfo :=
        (if (1 <? numReferencePaths)%nat
         then duplicatePaths searchInfo numReferencePaths
         else ret searchInfo) in
      let* paths := readArray (cPaths searchInfo) in
      let* _ := prependLoop (cPaths searchInfo) numReferencePaths 0 paths in
      writeObject param (setInfo searchInfo obj)
  end.

Definition prependLookupKeyToSearchPaths (searchParams : list loc)
    (numReferencePaths : nat) : M (list loc) :=
  (* a copy of the slice of pointers: the objects are the same *)
  let matchParams := searchParams in
  let* _ :=
    forEach
      (fun matchParam =>
         let* obj := readObject matchParam in
         match obj with
         | POr _ items =>
             (* prepend to the items of the disjunction instead *)
             forEach (prependOne numReferencePaths) items
         | _ => prependOne numReferencePaths (Some matchParam)
         end)
      matchParams in
  ret matchParams.

(** [getLookupReference]: the reference that yields the lookup stages; of
    a disjunction, its first item. *)
Definition getLookupReference (searchParam : loc) : M (ParamObj * bool) :=
  let* obj := readObject searchParam in
  match obj with
  | POr _ (Some first :: _) =>
      let* item := readObject first in
      match item with
      | PReference _ _ => ret (item, true)
      | _ => raise (SearchError (createInternalServerError ""
               "Chained search OR has no valid ReferenceParam to use for the $lookup"))
      end
  | POr _ (None :: _) =>
      raise (SearchError (createInternalServerError ""
        "Chained search OR has no valid ReferenceParam to use for the $lookup"))
  | POr _ [] => panic "index out of range"
  | PReference _ _ => ret (obj, false)
  | PValue _ => panic "interface conversion: not a *ReferenceParam"
  end.

(** [buildSearchableOrFromChainedReferenceOr]: a new disjunction over the
    first parameter of each item's inner query; an item that is a
    reference of another kind contributes nil. *)
Fixpoint searchableItems (items : list (option loc)) : M (list (option loc)) :=
  match items with
  | [] => ret []
  | None :: _ => panic "nil pointer dereference"
  | Some item :: rest =>
      let* obj := readObject item in
      match obj with
      | PReference _ (RChained (first :: _))
      | PReference _ (RReverseChained (first :: _)) =>
          let* more := searchableItems rest in ret (Some first :: more)
      | PReference _ (RChained []) | PReference _ (RReverseChained []) =>
          panic "index out of range"
      | PReference _ _ =>
          let* more := searchableItems rest in ret (None :: more)
      | _ => panic "nil pointer dereference"
      end
  end.

Definition buildSearchableOrFromChainedReferenceOr (referenceOr : loc) : M loc :=
  let* obj := readObject referenceOr in
  match obj with
  | POr info items =>
      let* newItems := searchableItems items in
      allocObject (POr info newItems)
  | _ => panic "nil pointer dereference"
  end.

(** The parameters that [createChainedSearchPipelineStages] and
    [createReverseChainedSearchPipelineStages] hand to the query builder
    for their [$match] stage; [reverse] tells which of the two runs. *)
Definition matchableParams (reverse : bool) (searchParam : loc) : M (list loc) :=
  let* found := getLookupReference searchParam in
  let '(lookupRef, isOr) := found in
  let* inner :=
    match lookupRef, reverse with
    | PReference _ (RChained ps), false => ret ps
    | PReference _ (RReverseChained ps), true => ret ps
    | _, false => raise (SearchError (createInternalServerError ""
                    "ReferenceParam is not of type ChainedQueryReference"))
    | _, true => raise (SearchError (createInternalServerError ""
                   "ReferenceParam is not of type ReverseChainedQueryReference"))
    end in
  let* lookupPaths := readArray (cPaths (getInfo lookupRef)) in
  let numPaths := length lookupPaths in
  if isOr then
    let* searchableOrParam := buildSearchableOrFromChainedReferenceOr searchParam in
    prependLookupKeyToSearchPaths [searchableOrParam] numPaths
  else prependLookupKeyToSearchPaths inner numPaths.

(** The store effects of [createPipelineObject]: the chained parameters
    in order, then the reverse chained ones. *)
Definition createPipelineObject (chained reverseChained : list loc) : M unit :=
  let* _ := forEach (fun p => let* _ := matchableParams false p in ret tt) chained in
  forEach (fun p => let* _ := matchableParams true p in ret tt) reverseChained.

(** The dictionary entry as a value: the info with its paths read from
    the store. *)
Definition snapshot (h : Heap) (c : InfoCell) : option SearchParamInfo :=
  match arrays h !! cPaths c with
  | Some paths =>
      Some (mkInfo (cResource c) (cName c) (cType c) paths
                   (cTargets c) (cPrefix c) (cModifier c))
  | None => None
  end.

(** The paths the assembler leaves in a rewritten info, as a value. *)
Definition rewrittenPaths (numReferencePaths : nat) (paths : list SearchParamPath)
  : list SearchParamPath :=
  let paths' := if (1 <? numReferencePaths)%nat
                then flat_map (fun p => repeat p numReferencePaths) paths
                else paths in
  imap (fun i p => mkPath (lookupKey numReferencePaths i (Path p)) (Type_ p)) paths'.

(** The store keeps every array of [h0] as it is. *)
Definition extends (h0 h : Heap) : Prop :=
  forall l paths, arrays h0 !! l = Some paths -> arrays h !! l = Some paths.

(** A computation that, started in a store that keeps the arrays of
    [h0], ends in one that does, and whose result satisfies [Q]. *)
Definition keeps (h0 : Heap) {A} (c : M A) (Q : A -> Prop) : Prop :=
  forall h, extends h0 h ->
    extends h0 (snd (c h)) /\ (forall a, fst (c h) = Ok a -> Q a).

(** What would go wrong without the copy: an info that keeps the backing
    array of the original. *)
Definition shallowClone (c : InfoCell) : M InfoCell := ret c.

Definition prependOneShallow (numReferencePaths : nat) (param : loc) : M unit :=
  let* obj := readObject param in
  let* searchInfo := shallowClone (getInfo obj) in
  let* paths := readArray (cPaths searchInfo) in
  let* _ := prependLoop (cPaths searchInfo) numReferencePaths 0 paths in
  writeObject param (setInfo searchInfo obj).

End Store.

(** A small store for worked cases: the dictionary entry for the name of a
    patient, a string parameter copied from it (so that both lie over the
    same array), and a chained reference whose inner query is that
    parameter. *)
Module StoreExample.
Import Store.

Definition nameCell : InfoCell :=
  mkCell "Patient" "name" "string" 0 [] "" "".
Definition subjectCell : InfoCell :=
  mkCell "Observation" "subject" "reference" 1 ["Patient"] "" "".

Definition heap : Heap :=
  mkHeap (<[0 := [mkPath "[]name" "HumanName"]]>
            (<[1 := [mkPath "subject" "Reference"]]> ∅))
         (<[0 := PValue nameCell]>
            (<[1 := PReference subjectCell (RChained [0])]> ∅)).

Definition dictionary : list InfoCell := [nameCell; subjectCell].
End StoreExample.

(** ** The pipeline assembler, on values

    The same assembler with parameters as values: what it hands to the
    query builder, without the sharing that [Store] accounts for. *)

(** Modelled from the spec: [usesChainedSearch], [usesReverseChainedSearch]
    and [Query.UsesPipeline], which are declared with the query type and not
    in [mongo_search.go].  The specification has the pipeline used exactly
    when a parameter is chained or reverse chained (a reference of that
    kind, or a disjunction of such references) or the options carry
    includes. *)
Definition isChainedReference (p : SearchParam) : bool :=
  match p with
  | ReferenceParam _ (ChainedQueryReference _ _) => true
  | _ => false
  end.

Definition isReverseChainedReference (p : SearchParam) : bool :=
  match p with
  | ReferenceParam _ (ReverseChainedQueryReference _ _) => true
  | _ => false
  end.

Definition usesChainedSearch (p : SearchParam) : bool :=
  match p with
  | OrParam _ items => existsb isChainedReference items
  | _ => isChainedReference p
  end.

Definition usesReverseChainedSearch (p : SearchParam) : bool :=
  match p with
  | OrParam _ items => existsb isReverseChainedReference items
  | _ => isReverseChainedReference p
  end.

Definition UsesPipeline (q : Query) : bool :=
  existsb usesChainedSearch (Params q)
  || existsb usesReverseChainedSearch (Params q)
  || (0 <? length (Include (Options q)))%nat
  || (0 <? length (RevInclude (Options q)))%nat.

Definition withPathsOf (i : SearchParamInfo) (paths : list SearchParamPath)
  : SearchParamInfo :=
  mkInfo (Resource i) (Name i) (ParamType i) paths (Targets i) (Prefix_ i) (Modifier i).

Section PipelineObject.
Variable m : MongoSearcher.
Variable dict : Dictionary.
(** [models.PluralizeLowerResourceName], from the models package. *)
Variable PluralizeLowerResourceName : string -> string.

Definition prependInfo (numReferencePaths : nat) (i : SearchParamInfo)
  : Result SearchParamInfo :=
  let paths := if (1 <? numReferencePaths)%nat
               then flat_map (fun p => repeat p numReferencePaths) (Paths i)
               else Paths i in
  match numReferencePaths, paths with
  | O, _ :: _ => Panic (RuntimePanic "integer divide by zero")
  | _, _ => Ok (withPathsOf i (Store.rewrittenPaths numReferencePaths (Paths i)))
  end.

Definition prependParam (numReferencePaths : nat) (p : SearchParam)
  : Result SearchParam :=
  do i <- prependInfo numReferencePaths (getInfo p); Ok (setInfo i p).

Definition prependLookupKeyToSearchPaths (searchParams : list SearchParam)
    (numReferencePaths : nat) : Result (list SearchParam) :=
  mapResult
    (fun matchParam =>
       match matchParam with
       | OrParam info items =>
           do items' <- mapResult (prependParam numReferencePaths) items;
           Ok (OrParam info items')
       | _ => prependParam numReferencePaths matchParam
       end)
    searchParams.

(** The reference that yields the lookup stages, with its info. *)
Definition getLookupReference (searchParam : SearchParam)
  : Result (SearchParamInfo * Reference * bool) :=
  match searchParam with
  | OrParam _ (ReferenceParam i r :: _) => Ok (i, r, true)
  | OrParam _ (_ :: _) =>
      Panic (SearchError (createInternalServerError ""
        "Chained search OR has no valid ReferenceParam to use for the $lookup"))
  | OrParam _ [] => Panic (RuntimePanic "index out of range")
  | ReferenceParam i r => Ok (i, r, false)
  | _ => Panic (RuntimePanic "interface conversion: not a *ReferenceParam")
  end.

Definition buildSearchableOrFromChainedReferenceOr (referenceOr : SearchParam)
  : Result SearchParam :=
  match referenceOr with
  | OrParam info items =>
      do items' <-
        mapResult
          (fun item =>
             match item with
             | ReferenceParam _ (ChainedQueryReference _ q)
             | ReferenceParam _ (ReverseChainedQueryReference _ q) =>
                 match Params q with
                 | first :: _ => Ok first
                 | [] => Panic (RuntimePanic "index out of range")
                 end
             | _ => Panic (RuntimePanic "nil pointer dereference")
             end)
          items;
      Ok (OrParam info items')
  | _ => Panic (RuntimePanic "nil pointer dereference")
  end.

Definition lookupStage (reverse : bool) (collectionName : string) (i : nat)
    (path : SearchParamPath) : Doc :=
  let field := convertSearchPathToMongoField (Path path) +:+ ".reference__id" in
  [("$lookup",
    VDoc [("from", VString collectionName);
          ("localField", VString (if reverse then "_id" else field));
          ("foreignField", VString (if reverse then field else "_id"));
          ("as", VString ("_lookup" +:+ Store.Itoa i))])].

(** [createChainedSearchPipelineStages], and with [reverse] its twin
    [createReverseChainedSearchPipelineStages]. *)
Definition createChainedSearchPipelineStages (reverse : bool)
    (searchParam : SearchParam) : Result (list Doc) :=
  do found <- getLookupReference searchParam;
  let '(lookupInfo, ref, isOr) := found in
  do chained <-
    match ref, reverse with
    | ChainedQueryReference ty q, false => Ok (ty, q)
    | ReverseChainedQueryReference ty q, true => Ok (ty, q)
    | _, false => Panic (SearchError (createInternalServerError ""
                    "ReferenceParam is not of type ChainedQueryReference"))
    | _, true => Panic (SearchError (createInternalServerError ""
                   "ReferenceParam is not of type ReverseChainedQueryReference"))
    end;
  let '(ty, q) := chained in
  let collectionName := PluralizeLowerResourceName ty in
  let lookups := imap (lookupStage reverse collectionName) (Paths lookupInfo) in
  do matchableParams <-
    (if isOr then
       do searchableOrParam <- buildSearchableOrFromChainedReferenceOr searchParam;
       prependLookupKeyToSearchPaths [searchableOrParam] (length (Paths lookupInfo))
     else prependLookupKeyToSearchPaths (Params q) (length (Paths lookupInfo)));
  do matchDoc <- createQueryObjectFromParams m dict matchableParams;
  Ok (lookups ++ [[("$match", VDoc matchDoc)]]).

Definition createPipelineObject (query : Query) : Result (list Doc) :=
  let chainedSearchParams := List.filter (fun p => usesChainedSearch p) (Params query) in
  let reverseChainedSearchParams :=
    List.filter (fun p => negb (usesChainedSearch p) && usesReverseChainedSearch p)
           (Params query) in
  let standardSearchParams :=
    List.filter (fun p => negb (usesChainedSearch p) && negb (usesReverseChainedSearch p))
           (Params query) in
  do standard <- createQueryObjectFromParams m dict standardSearchParams;
  do chained <- mapResult (createChainedSearchPipelineStages false) chainedSearchParams;
  do reversed <- mapResult (createChainedSearchPipelineStages true)
                   reverseChainedSearchParams;
  Ok ([("$match", VDoc standard)] :: concat chained ++ concat reversed).

(** A [BSONQuery] holds a query document or a pipeline. *)
Record BSONQuery := mkBSONQuery {
  BResource : string;
  BQuery : option Doc;
  BPipeline : list Doc
}.

Definition usesPipeline (b : BSONQuery) : bool :=
  match BQuery b with None => true | Some _ => false end.

Definition convertToBSON (query : Query) : Result BSONQuery :=
  if UsesPipeline query then
    do pipeline <- createPipelineObject query;
    Ok (mkBSONQuery (QueryResource query) None pipeline)
  else
    do q <- createQueryObject m dict query;
    Ok (mkBSONQuery (QueryResource query) (Some q) []).
End PipelineObject.


(** ** Sort options and parallel arrays

    MongoDB cannot sort on keys that lie in parallel arrays, so the
    translation of the options first drops every sort option whose path has
    parallel arrays with the path of a sort option kept before it. *)

(** [strings.Contains(s, "[")] *)
Definition containsOpen (s : string) : bool := negb (no_open s).

(** One match of the regexp of [isParallelArrayPath] (an opening bracket,
    one or more digits, a closing bracket) anchored at the head of [s]: what
    follows the match. *)
Definition matchBareIndexer (s : string) : option string :=
  match s with
  | String c r =>
      if is_open c then
        let '(ds, r1) := span is_digit r in
        match r1 with
        | String c1 r2 => if nonempty ds && is_close c1 then Some r2 else None
        | EmptyString => None
        end
      else None
  | EmptyString => None
  end.

(** [re.ReplaceAllString(path, "[]")]: every indexer becomes the array
    marker. *)
Fixpoint eraseIndexers (fuel : nat) (s : string) : string :=
  match fuel with
  | O => s
  | S fuel' =>
      match matchBareIndexer s with
      | Some rest => "[]" +:+ eraseIndexers fuel' rest
      | None =>
          match s with
          | String c r => String c (eraseIndexers fuel' r)
          | EmptyString => EmptyString
          end
      end
  end.

Definition indexersAsMarkers (path : string) : string :=
  eraseIndexers (String.length path) path.

(** The loop of [isParallelArrayPath]: the first index at which the two
    strings differ, if there is one before either ends. *)
Fixpoint mismatchIndex (path1 path2 : string) (i : nat) : option nat :=
  match path1, path2 with
  | String c1 r1, String c2 r2 =>
      if Ascii.eqb c1 c2 then mismatchIndex r1 r2 (S i) else Some i
  | _, _ => None
  end.

Definition isParallelArrayPath (path1 path2 : string) : bool :=
  (* if one of them has no arrays there cannot be parallel arrays *)
  if negb (containsOpen path1) || negb (containsOpen path2) then false
  else
    (* take out specific indexers for easier comparison *)
    let path1 := indexersAsMarkers path1 in
    let path2 := indexersAsMarkers path2 in
    match mismatchIndex path1 path2 0 with
    | Some i =>
        (* does the matching part of the path have an array? *)
        containsOpen (String.substring 0 i path1)
    | None => false
    end.

(** [Parameter.Paths[0].Path]; indexing an empty slice panics. *)
Definition firstPath (i : SearchParamInfo) : Result string :=
  match Paths i with
  | p :: _ => Ok (Path p)
  | [] => Panic (RuntimePanic "index out of range")
  end.

(** The inner loop of [removeParallelArraySorts]: is [sort] parallel with
    one of the options kept so far?  The loop stops at the first that is. *)
Fixpoint parallelWithKept (sort : SortOption) (npSorts : list SortOption)
  : Result bool :=
  match npSorts with
  | [] => Ok false
  | npSort :: rest =>
      do path1 <- firstPath (SortParameter sort);
      do path2 <- firstPath (SortParameter npSort);
      if isParallelArrayPath path1 path2 then Ok true
      else parallelWithKept sort rest
  end.

(** The outer loop: [npSorts] are the options kept so far. *)
Fixpoint nonParallelSorts (sorts npSorts : list SortOption)
  : Result (list SortOption) :=
  match sorts with
  | [] => Ok npSorts
  | sort :: rest =>
      do isParallel <- parallelWithKept sort npSorts;
      nonParallelSorts rest (if isParallel then npSorts else npSorts ++ [sort])
  end.

Definition withSort (o : QueryOptions) (sorts : list SortOption) : QueryOptions :=
  mkOptions (Count o) (Offset o) sorts (Summary o) (Include o) (RevInclude o).

(** [removeParallelArraySorts] updates the options in place; here it yields
    the options as it leaves them. *)
Definition removeParallelArraySorts (o : QueryOptions) : Result QueryOptions :=
  do npSorts <- nonParallelSorts (Sort o) [];
  if negb (length (Sort o) =? length npSorts)%nat
  then Ok (withSort o npSorts)
  else Ok o.

(** The sort document both execution modes build: a [bson.D], that is an
    ordered list of fields, each with 1 or -1.  Of the paths of a parameter
    only the first is looked at. *)
Definition sortField (sort : SortOption) : Result (string * Value) :=
  do path <- firstPath (SortParameter sort);
  Ok (convertSearchPathToMongoField path,
      VInt (if Descending sort then (-1)%Z else 1%Z)).

Definition sortFields (sorts : list SortOption) : Result Doc :=
  mapResult sortField sorts.

(** The options bundle that [find] hands to the driver. *)
Record FindOptions := mkFindOptions {
  findSort : option Doc;
  findSkip : option Z;
  findLimit : option Z
}.

(** The part of [find] that fills the bundle. *)
Definition findOptions (queryOptions : QueryOptions) : Result FindOptions :=
  do queryOptions <- removeParallelArraySorts queryOptions;
  do sort <-
    (if (0 <? length (Sort queryOptions))%nat
     then do fields <- sortFields (Sort queryOptions); Ok (Some fields)
     else Ok None);
  Ok (mkFindOptions sort
        (if (0 <? Offset queryOptions)%Z then Some (Offset queryOptions) else None)
        (Some (Count queryOptions))).

(** ** The closing stages of a pipeline *)

Definition lookupDoc (from localField foreignField as_ : string) : Doc :=
  [("$lookup",
    VDoc [("from", VString from);
          ("localField", VString localField);
          ("foreignField", VString foreignField);
          ("as", VString as_)])].

Section OptionStages.
(** [models.PluralizeLowerResourceName] and [strings.Title], from the models
    package and from the standard library. *)
Variable PluralizeLowerResourceName : string -> string.
Variable Title : string -> string.

(** The suffix that tells the paths of a parameter apart. *)
Definition pathSuffix (parameter : SearchParamInfo) (i : nat) : string :=
  if (1 <? length (Paths parameter))%nat then "Path" +:+ Store.Itoa (i + 1) else "".

(** The joins of one [_include]: for each path of type Reference, one
    [$lookup] per target that is not [Any]; the index in the name of the
    join is that of the target. *)
Definition includeStages (incl : IncludeOption) : list Doc :=
  let parameter := IncludeParameter incl in
  flat_map
    (fun inclPath =>
       if negb (String.eqb (Type_ inclPath) "Reference") then []
       else
         (* Mongo paths have no array indicators, so remove them *)
         let localField := removeArrayMarkers (Path inclPath) +:+ ".reference__id" in
         concat
           (imap
              (fun i inclTarget =>
                 if String.eqb inclTarget "Any" then []
                 else
                   let from := PluralizeLowerResourceName inclTarget in
                   let as_ := "_included" +:+ inclTarget +:+ "ResourcesReferencedBy"
                              +:+ Title (Name parameter) +:+ pathSuffix parameter i in
                   [lookupDoc from localField "_id" as_])
              (Targets parameter)))
    (Paths parameter).

(** The joins of one [_revinclude]: none unless the parameter has the
    searched resource (or [Any]) among its targets; then one [$lookup] per
    path of type Reference. *)
Definition revIncludeStages (resource : string) (incl : IncludeOption) : list Doc :=
  let parameter := IncludeParameter incl in
  let targetsSearchResource :=
    existsb (fun inclTarget =>
               String.eqb inclTarget resource || String.eqb inclTarget "Any")
            (Targets parameter) in
  if negb targetsSearchResource then []
  else
    (* it comes from the other resource collection *)
    let from := PluralizeLowerResourceName (Resource parameter) in
    concat
      (imap
         (fun i inclPath =>
            if negb (String.eqb (Type_ inclPath) "Reference") then []
            else
              let foreignField :=
                removeArrayMarkers (Path inclPath) +:+ ".reference__id" in
              let as_ := "_revIncluded" +:+ Resource parameter
                         +:+ "ResourcesReferencing" +:+ Title (Name parameter)
                         +:+ pathSuffix parameter i in
              [lookupDoc from "_id" foreignField as_])
         (Paths parameter)).

Definition sortStage (o : QueryOptions) : Result (list Doc) :=
  if (0 <? length (Sort o))%nat
  then do sortBSOND <- sortFields (Sort o); Ok [[("$sort", VDoc sortBSOND)]]
  else Ok [].

Definition skipStage (o : QueryOptions) : list Doc :=
  if (0 <? Offset o)%Z then [[("$skip", VInt (Offset o))]] else [].

Definition limitStage (o : QueryOptions) : Doc := [("$limit", VInt (Count o))].

Definition convertOptionsToPipelineStages (resource : string) (o : QueryOptions)
  : Result (list Doc) :=
  (* support for _sort *)
  do o <- removeParallelArraySorts o;
  do sorted <- sortStage o;
  Ok (sorted
      (* support for _offset and _count *)
      ++ skipStage o ++ [limitStage o]
      (* support for _include and _revinclude *)
      ++ flat_map includeStages (Include o)
      ++ flat_map (revIncludeStages resource) (RevInclude o)).
End OptionStages.

(** The name of the operator of a pipeline stage. *)
Definition stageKind (stage : Doc) : string :=
  match stage with
  | [(k, _)] => k
  | _ => ""
  end.

(** Two sort options whose first paths exist and have no parallel arrays. *)
Definition notParallel (a b : SortOption) : bool :=
  match firstPath (SortParameter a), firstPath (SortParameter b) with
  | Ok pa, Ok pb => negb (isParallelArrayPath pa pb)
  | _, _ => false
  end.

Definition hasPath (s : SortOption) : bool :=
  match Paths (SortParameter s) with [] => false | _ :: _ => true end.

(** Every option of the list is not parallel with any option before it. *)
Definition pairwiseNotParallel (sorts : list SortOption) : Prop :=
  ForallOrdPairs (fun earlier later => notParallel later earlier = true) sorts.

(** Sort options for worked cases: two fields of the same array, and a
    field outside any array. *)
Module SortExample.
Definition byPath (name path : string) (descending : bool) : SortOption :=
  mkSort descending (mkInfo "Patient" name "string" [mkPath path "string"] [] "" "").

Definition family : SortOption := byPath "family" "[]name.[]family" false.
Definition given : SortOption := byPath "given" "[]name.[]given" false.
Definition birthdate : SortOption := byPath "birthdate" "birthDate" true.
Definition pathless : SortOption :=
  mkSort false (mkInfo "Patient" "broken" "string" [] [] "" "").

Definition options (sorts : list SortOption) : QueryOptions :=
  mkOptions 10 20 sorts "" [] [].
End SortExample.

(** The run-time panic of an index past the end of a slice. *)
Definition indexOutOfRange {A} : Result A := Panic (RuntimePanic "index out of range").

(** The stages that say what the bundle of [find] says. *)
Definition bundleStages (f : FindOptions) : list Doc :=
  match findSort f with Some fields => [[("$sort", VDoc fields)]] | None => [] end
  ++ match findSkip f with Some n => [[("$skip", VInt n)]] | None => [] end
  ++ match findLimit f with Some n => [[("$limit", VInt n)]] | None => [] end.

(** ** The executor

    The database is the count cache (a collection keyed by fingerprint) and
    what the driver answers to the other operations.  The operations issued
    are logged, so that a statement can say which ones a search runs. *)

Inductive DriverResult (A : Type) : Type :=
| Done (a : A)
| Failed (err : string).
Arguments Done {A} a.
Arguments Failed {A} err.

(** What a cursor yields, document by document, and how it ends. *)
Inductive CursorItem :=
| ItemResource (document : Doc)      (* decoded, and a resource *)
| ItemDecodeError (err : string)      (* [cursor.Decode] fails *)
| ItemResourceError (err : string).   (* [NewResourceFromBSON] fails *)

Record Cursor := mkCursor {
  cursorItems : list CursorItem;
  cursorErr : option string
}.

(** What the aggregation that counts answers. *)
Inductive CountOutcome :=
| CountAggregateFailed (err : string)
| CountRow (total : Z)
| CountRowDecodeFailed (err : string)
| CountRowCursorError (err : string)
| CountNoRow (err : option string).

Inductive DbOp :=
| FindOneOp (collection id : string)
| CountDocumentsOp (collection : string) (filter : Value)
| CountAggregateOp (collection : string) (pipeline : list Doc)
| AggregateOp (collection : string) (pipeline : list Doc)
| FindOp (collection : string) (filter : Doc) (options : FindOptions)
| InsertOneOp (collection id : string) (count : Z).

Record Driver := mkDriver {
  findOneFails : string -> bool;
  countDocuments : string -> Value -> DriverResult Z;
  countAggregate : string -> list Doc -> CountOutcome;
  aggregateCursor : string -> list Doc -> DriverResult Cursor;
  findCursor : string -> Doc -> FindOptions -> DriverResult Cursor;
  insertOneFails : string -> bool
}.

Record DB := mkDB {
  countcache : gmap string Z;
  oplog : list DbOp
}.

Definition logOp (op : DbOp) (db : DB) : DB :=
  mkDB (countcache db) (oplog db ++ [op]).

Definition uint32 (z : Z) : Z := (z mod 2 ^ 32)%Z.

(** What [Search] returns: the resources, the total and the error. *)
Record SearchReturn := mkReturn {
  resources : list Doc;
  total : Z;
  err : option string
}.

Definition wrap (msg : string) (cause : string) : string := msg +:+ ": " +:+ cause.

Definition isCountOp (op : DbOp) : bool :=
  match op with
  | CountDocumentsOp _ _ | CountAggregateOp _ _ => true
  | _ => false
  end.

Definition isInsertOp (op : DbOp) : bool :=
  match op with InsertOneOp _ _ _ => true | _ => false end.

Section Executor.
Variable drv : Driver.
Variable m : MongoSearcher.
Variable dict : Dictionary.
Variable PluralizeLowerResourceName : string -> string.
(** The hexadecimal MD5 digest of a string. *)
Variable md5hex : string -> string.
(** [strings.Title], of the standard library. *)
Variable Title : string -> string.

(** [find]: the count when it is asked for; then, unless the search is a
    [_summary=count] search, the options bundle (which panics on a sort
    parameter without paths) and the query. *)
Definition find (bsonQuery : BSONQuery) (queryOptions : QueryOptions) (doCount : bool)
    (db : DB) : Result (DriverResult (option Cursor * Z)) * DB :=
  let c := PluralizeLowerResourceName (BResource bsonQuery) in
  let q := match BQuery bsonQuery with Some q => q | None => [] end in
  let counted :=
    if doCount || String.eqb (Summary queryOptions) "count" then
      let db' := logOp (CountDocumentsOp c (VDoc q)) db in
      match countDocuments drv c (VDoc q) with
      | Failed e => (Failed (wrap "search count operation failed" e), db')
      | Done intTotal => (Done (uint32 intTotal), db')
      end
    else (Done 0%Z, db) in
  match counted with
  | (Failed e, db') => (Ok (Failed e), db')
  | (Done total, db') =>
      if String.eqb (Summary queryOptions) "count" then
        (* just return the count and do not do the search *)
        (Ok (Done (None, total)), db')
      else
        match findOptions queryOptions with
        | Panic p => (Panic p, db')
        | Ok optionsBundle =>
            let db'' := logOp (FindOp c q optionsBundle) db' in
            match findCursor drv c q optionsBundle with
            | Failed e => (Ok (Failed (wrap "search find operation failed" e)), db'')
            | Done searchCursor => (Ok (Done (Some searchCursor, total)), db'')
            end
        end
  end.

(** [aggregate]: the count when it is asked for, by a plain count of the
    first stage when the pipeline has one stage and by a counting stage
    otherwise; then, unless the search is a [_summary=count] search, the
    pipeline with the stages of the options (whose translation panics on a
    sort parameter without paths). *)
Definition aggregate (bsonQuery : BSONQuery) (options : QueryOptions) (doCount : bool)
    (db : DB) : Result (DriverResult (option Cursor * Z)) * DB :=
  let c := PluralizeLowerResourceName (BResource bsonQuery) in
  let counted :=
    if doCount || String.eqb (Summary options) "count" then
      match BPipeline bsonQuery with
      | [first] =>
          let matchStage := match doc_lookup "$match" first with
                            | Some v => v | None => VNil end in
          let db' := logOp (CountDocumentsOp c matchStage) db in
          match countDocuments drv c matchStage with
          | Failed e => (Failed e, db')
          | Done intTotal => (Done (uint32 intTotal), db')
          end
      | pipeline =>
          let countStage :=
            [("$group", VDoc [("_id", VNil); ("total", VDoc [("$sum", VInt 1)])])] in
          let countPipeline := pipeline ++ [countStage] in
          let db' := logOp (CountAggregateOp c countPipeline) db in
          match countAggregate drv c countPipeline with
          | CountAggregateFailed e => (Failed (wrap "aggregate count failed" e), db')
          | CountRowDecodeFailed e =>
              (Failed (wrap "aggregate count decode failed" e), db')
          | CountRowCursorError e =>
              (Failed (wrap "aggregate count cursor has an error" e), db')
          | CountRow t => (Done (uint32 t), db')
          | CountNoRow (Some e) =>
              (Failed (wrap "aggregate count cursor --> next failed" e), db')
          | CountNoRow None => (Done 0%Z, db')
          end
      end
    else (Done 0%Z, db) in
  match counted with
  | (Failed e, db') => (Ok (Failed e), db')
  | (Done total, db') =>
      if String.eqb (Summary options) "count" then (Ok (Done (None, total)), db')
      else
        match convertOptionsToPipelineStages PluralizeLowerResourceName Title
                (BResource bsonQuery) options with
        | Panic p => (Panic p, db')
        | Ok stages =>
            let searchPipeline := BPipeline bsonQuery ++ stages in
            let db'' := logOp (AggregateOp c searchPipeline) db' in
            match aggregateCursor drv c searchPipeline with
            | Failed e => (Ok (Failed (wrap "aggregate operation failed" e)), db'')
            | Done cursor => (Ok (Done (Some cursor, total)), db'')
            end
        end
  end.

(** The loop over the cursor. *)
Fixpoint collectItems (items : list CursorItem) (acc : list Doc)
  : DriverResult (list Doc) :=
  match items with
  | [] => Done acc
  | ItemResource r :: rest => collectItems rest (acc ++ [r])
  | ItemDecodeError e :: _ => Failed (wrap "Search result decoding error" e)
  | ItemResourceError e :: _ => Failed (wrap "Search: NewResourceFromBSON failed" e)
  end.

Definition collect (cursor : option Cursor) : DriverResult (list Doc) :=
  match cursor with
  | None => Done []
  | Some c =>
      match collectItems (cursorItems c) [] with
      | Failed e => Failed e
      | Done rs =>
          match cursorErr c with
          | Some e => Failed (wrap "Search cursor error" e)
          | None => Done rs
          end
      end
  end.

(** The query stage of [Search]: the aggregation pipeline when the query
    uses one, the standard query otherwise. *)
Definition runQuery (b : BSONQuery) (o : QueryOptions) (doCount : bool) (db : DB)
  : Result (DriverResult (option Cursor * Z)) * DB :=
  if usesPipeline b then aggregate b o doCount db else find b o doCount db.

Definition queryFingerprint (query : Query) : string :=
  md5hex (QueryResource query +:+ "?" +:+ QueryRaw query).

(** The lookup in the count cache: a hit needs the driver to answer and
    the entry to be there. *)
Definition cacheLookup (queryHash : string) (db : DB) : option Z * DB :=
  (if findOneFails drv queryHash then None else countcache db !! queryHash,
   logOp (FindOneOp "countcache" queryHash) db).

(** The insertion into the count cache; it fails when the driver does or
    when the key is taken, and the failure is not looked at. *)
Definition cacheInsert (queryHash : string) (count : Z) (db : DB) : DB :=
  let db' := logOp (InsertOneOp "countcache" queryHash count) db in
  if insertOneFails drv queryHash then db'
  else match countcache db !! queryHash with
       | Some _ => db'
       | None => mkDB (<[queryHash := count]> (countcache db')) (oplog db')
       end.

(** [Search] from the point where the cache has been consulted: [doCount]
    and [total] are the variables of that name, as the lookup left them. *)
Definition searchFrom (query : Query) (doCount : bool) (total : Z)
    (queryHash : string) (db : DB) : Result SearchReturn * DB :=
  (* no point in running the query if it is known to return 0 results *)
  if readonly m && negb doCount && (total =? 0)%Z then (Ok (mkReturn [] 0 None), db)
  else
    (* no count at all if countTotalResults is disabled *)
    let doCount := if negb (countTotalResults m) then false else doCount in
    let options := Options query in
    match convertToBSON m dict PluralizeLowerResourceName query with
    | Panic e => (Panic e, db)
    | Ok bsonQuery =>
        let '(ran, db') := runQuery bsonQuery options doCount db in
        match ran with
        | Panic e => (Panic e, db')
        | Ok (Failed e) => (Ok (mkReturn [] 0 (Some (wrap "Search error" e))), db')
        | Ok (Done (cursor, computedTotal)) =>
            if String.eqb (Summary options) "count" then
              (* do not collect the results, just return the total *)
              (Ok (mkReturn [] computedTotal None), db')
            else
              match collect cursor with
              | Failed e => (Ok (mkReturn [] 0 (Some e)), db')
              | Done rs =>
                  (* if the count was not in the cache, add it *)
                  let db'' :=
                    if readonly m && countTotalResults m && doCount
                    then cacheInsert queryHash computedTotal db'
                    else db' in
                  let total := if doCount then computedTotal else total in
                  (Ok (mkReturn rs total None), db'')
              end
        end
    end.

Definition Search (query : Query) (db : DB) : Result SearchReturn * DB :=
  if readonly m && countTotalResults m then
    let queryHash := queryFingerprint query in
    match cacheLookup queryHash db with
    | (Some count, db') =>
        (* use the cached total and do not recompute it *)
        searchFrom query false count queryHash db'
    | (None, db') => searchFrom query true 0 queryHash db'
    end
  else searchFrom query true 0 "" db.
End Executor.

(** What a step did to the database: it logged [ops] and left the count
    cache alone. *)
Definition logged (db db' : DB) (ops : list DbOp) : Prop :=
  db' = mkDB (countcache db) (oplog db ++ ops).

Definition noInsert (ops : list DbOp) : bool :=
  forallb (fun op => negb (isInsertOp op)) ops.

Definition noCount (ops : list DbOp) : bool :=
  forallb (fun op => negb (isCountOp op)) ops.

(** The same driver with another fate for insertions. *)
Definition withInsertFault (drv : Driver) (fails : string -> bool) : Driver :=
  mkDriver (findOneFails drv) (countDocuments drv) (countAggregate drv)
           (aggregateCursor drv) (findCursor drv) fails.

(** The total of a [_summary=count] search, in the words of the claim: by
    count-documents in find mode, or by the count branch in aggregate mode
    (count-documents on the first stage of a one-stage pipeline, a counting
    stage otherwise). *)
Definition countOnly (drv : Driver) (PluralizeLowerResourceName : string -> string)
    (b : BSONQuery) (db : DB) : DriverResult Z * DB :=
  let c := PluralizeLowerResourceName (BResource b) in
  match BQuery b with
  | Some q =>
      (match countDocuments drv c (VDoc q) with
       | Failed e => Failed (wrap "search count operation failed" e)
       | Done t => Done (uint32 t)
       end,
       logOp (CountDocumentsOp c (VDoc q)) db)
  | None =>
      match BPipeline b with
      | [first] =>
          let matchStage := match doc_lookup "$match" first with
                            | Some v => v | None => VNil end in
          (match countDocuments drv c matchStage with
           | Failed e => Failed e
           | Done t => Done (uint32 t)
           end,
           logOp (CountDocumentsOp c matchStage) db)
      | pipeline =>
          let countPipeline :=
            pipeline
            ++ [[("$group", VDoc [("_id", VNil); ("total", VDoc [("$sum", VInt 1)])])]] in
          (match countAggregate drv c countPipeline with
           | CountAggregateFailed e => Failed (wrap "aggregate count failed" e)
           | CountRowDecodeFailed e => Failed (wrap "aggregate count decode failed" e)
           | CountRowCursorError e => Failed (wrap "aggregate count cursor has an error" e)
           | CountRow t => Done (uint32 t)
           | CountNoRow (Some e) => Failed (wrap "aggregate count cursor --> next failed" e)
           | CountNoRow None => Done 0%Z
           end,
           logOp (CountAggregateOp c countPipeline) db)
      end
  end.

(** The cache answers the fingerprint with a zero total. *)
Definition cachedZero (drv : Driver) (m : MongoSearcher) (h : string) (db : DB) : bool :=
  readonly m && countTotalResults m && negb (findOneFails drv h)
  && bool_decide (countcache db !! h = Some 0%Z).

(** No insertion among the operations, and no count either when none is
    asked for. *)
Definition quiet (dc : bool) (o : QueryOptions) (ops : list DbOp) : Prop :=
  noInsert ops = true
  /\ (dc = false -> Summary o <> "count" -> noCount ops = true).

(** What may follow a segment: the end of the path, or a dot. *)
Definition segment_end (tail : string) : Prop :=
  match tail with
  | EmptyString => True
  | String c _ => c = "."%char
  end.

(** The field the date criteria are projected on. *)
Definition dateField (p : SearchParamPath) : string :=
  if String.eqb (Type_ p) "Timing" then Path p +:+ ".event" else Path p.

(** A searcher, a driver and queries for worked cases.  The driver counts
    seven documents and finds two; the digest is left symbolic. *)
Module SearchExample.
Definition searcher : MongoSearcher := NewMongoSearcher true false false true.

Definition plural (resource : string) : string := resource +:+ "s".
Definition digest (s : string) : string := "md5:" +:+ s.
Definition title (s : string) : string := s.

Definition twoPatients : Cursor :=
  mkCursor [ItemResource [("_id", VString "p1")]; ItemResource [("_id", VString "p2")]]
           None.

Definition driver : Driver :=
  mkDriver (fun _ => false)
           (fun _ _ => Done 7%Z)
           (fun _ _ => CountRow 7%Z)
           (fun _ _ => Done twoPatients)
           (fun _ _ _ => Done twoPatients)
           (fun _ => false).

Definition gender : SearchParamInfo :=
  mkInfo "Patient" "gender" "token" [mkPath "gender" "code"] [] "" "".

Definition plainQuery : Query :=
  mkQuery "Patient" "gender=male" [TokenParam gender "" "male" true]
          (mkOptions 100 0 [] "" [] []).

Definition countQuery : Query :=
  mkQuery "Patient" "gender=male&_summary=count" [TokenParam gender "" "male" true]
          (mkOptions 100 0 [] "count" [] []).

Definition emptyDB : DB := mkDB ∅ [].

Definition cachedDB (query : Query) (count : Z) : DB :=
  mkDB {[ digest (QueryResource query +:+ "?" +:+ QueryRaw query) := count ]} [].

Definition search := Search driver searcher ∅ plural digest title.
End SearchExample.

(** ** The states of the count cache

    The server makes a query of the resource and the raw query string of a
    request, and the options of the query are read off that string; so the
    queries it runs under one fingerprint ask for the same summary.
    [served] are the queries the server runs. *)
Definition fingerprintFixesSummary (md5hex : string -> string)
    (served : Query -> Prop) : Prop :=
  forall q1 q2, served q1 -> served q2 ->
    md5hex (QueryResource q1 +:+ "?" +:+ QueryRaw q1)
    = md5hex (QueryResource q2 +:+ "?" +:+ QueryRaw q2) ->
    Summary (Options q1) = Summary (Options q2).

(** The states the database is in: the count cache starts empty and
    nothing but [Search] writes it, whatever the driver answers. *)
Inductive reachable (m : MongoSearcher) (dict : Dictionary)
    (PluralizeLowerResourceName md5hex Title : string -> string)
    (served : Query -> Prop) : DB -> Prop :=
| reachable_fresh (log : list DbOp) :
    reachable m dict PluralizeLowerResourceName md5hex Title served (mkDB ∅ log)
| reachable_search (drv : Driver) (query : Query) (db : DB) :
    reachable m dict PluralizeLowerResourceName md5hex Title served db ->
    served query ->
    reachable m dict PluralizeLowerResourceName md5hex Title served
      (snd (Search drv m dict PluralizeLowerResourceName md5hex Title query db)).
(** ** The operations of a search, step by step

    The step of [Search] an operation belongs to: the lookup in the count
    cache, the count, the query, the insertion into the count cache. *)
Definition opPhase (op : DbOp) : nat :=
  match op with
  | FindOneOp _ _ => 0
  | CountDocumentsOp _ _ | CountAggregateOp _ _ => 1
  | AggregateOp _ _ | FindOp _ _ _ => 2
  | InsertOneOp _ _ _ => 3
  end.

(** The operations belong to steps from [n] on, each to a later step than
    the one before it. *)
Fixpoint phasesFrom (n : nat) (ops : list DbOp) : bool :=
  match ops with
  | [] => true
  | op :: rest => (n <=? opPhase op)%nat && phasesFrom (S (opPhase op)) rest
  end.

Definition isCacheOp (op : DbOp) : bool :=
  match op with
  | FindOneOp _ _ | InsertOneOp _ _ _ => true
  | _ => false
  end.

Definition noCacheOp (ops : list DbOp) : bool :=
  forallb (fun op => negb (isCacheOp op)) ops.

(** A driver whose every operation fails, for worked cases. *)
Definition failingDriver : Driver :=
  mkDriver (fun _ => true)
           (fun _ _ => Failed "connection lost")
           (fun _ _ => CountAggregateFailed "connection lost")
           (fun _ _ => Failed "connection lost")
           (fun _ _ _ => Failed "connection lost")
           (fun _ => true).

(** What the query stage may log: a count, then a query. *)
Definition queryStageOps (dc : bool) (o : QueryOptions) (ops : list DbOp) : Prop :=
  phasesFrom 1 ops = true
  /\ forallb (fun op => (opPhase op <? 3)%nat) ops = true
  /\ noCacheOp ops = true
  /\ (dc = false -> Summary o <> "count" -> noCount ops = true).

(** ** Comparison operators, instants and numbers *)

(** A criteria document of comparison operators: every key is an operator
    other than [$or], and no key comes twice. *)
Definition comparisonCriteria (criteria : Doc) : bool :=
  forallb (fun kv => isQueryOperator (fst kv) && negb (String.eqb (fst kv) "$or"))
          criteria
  && distinct (doc_keys criteria).

(** What each prefix demands of a stored instant [t], given the window
    [low, high) of the search value; read off [instantSelector]. *)
Definition instantPrefixHolds (prefix : Prefix) (low high t : Time) : option bool :=
  if String.eqb prefix EQ then Some ((low <=? t)%Z && (t <? high)%Z)
  else if String.eqb prefix GT then Some (low <? t)%Z
  else if String.eqb prefix GE then Some (low <=? t)%Z
  else if String.eqb prefix SA then Some (high <? t)%Z
  else if String.eqb prefix LT || String.eqb prefix EB then Some (t <? low)%Z
  else if String.eqb prefix LE then Some (t <? high)%Z
  else None.

Definition Qlt_bool (x y : Q) : bool := negb (Qle_bool y x).

Section NumberStore.
(** The [float64] that [big.Rat.Float64] yields for a rational, as a
    rational. *)
Variable float64 : Q -> Q.

(** A comparison operator against a stored number. *)
Definition number_compare (stored : Q) (op : string) (arg : Value) : bool :=
  match arg with
  | VDouble b =>
      if String.eqb op "$gte" then Qle_bool (float64 b) stored
      else if String.eqb op "$gt" then Qlt_bool (float64 b) stored
      else if String.eqb op "$lte" then Qle_bool stored (float64 b)
      else if String.eqb op "$lt" then Qlt_bool stored (float64 b)
      else false
  | _ => false
  end.

(** A store of numeric fields: a field bound to a document of comparison
    operators demands each comparison of the stored number. *)
Definition number_field_sat (d : string -> option Q) (k : string) (v : Value) : bool :=
  match d k with
  | Some x =>
      match v with
      | VDoc ops => forallb (fun ov => number_compare x (fst ov) (snd ov)) ops
      | _ => false
      end
  | None => false
  end.
End NumberStore.

(** What each prefix demands of a stored number [x], given the bounds [l]
    and [h] of the window of the search value and its [exact] value; read
    off [createNumberQueryObject]: equality is the range from [l] up to, and
    not including, [h], and inequality is what lies outside it. *)
Definition numberPrefixHolds (prefix : Prefix) (l h exact x : Q) : option bool :=
  if String.eqb prefix EQ then Some (Qle_bool l x && Qlt_bool x h)
  else if String.eqb prefix NE then Some (Qlt_bool x l || Qle_bool h x)
  else if String.eqb prefix GT then Some (Qlt_bool exact x)
  else if String.eqb prefix LT then Some (Qlt_bool x exact)
  else if String.eqb prefix GE then Some (Qle_bool l x)
  else if String.eqb prefix LE then Some (Qle_bool x h)
  else None.

(** ** Paths into arrays *)

Definition no_newline (s : string) : bool :=
  forall_chars (fun c => negb (is_newline c)) s.

(** A segment of the path grammar whose name holds no line break. *)
Definition lineSegment (s : Segment) : bool :=
  wf_segment s && no_newline (seg_name s).

(** A segment of the path grammar without marker nor indexer. *)
Definition plainSegment (s : Segment) : bool :=
  wf_segment s && match seg_marker s with NoMarker => true | _ => false end.

(** A criteria document of fields: no key is an operator, and no key comes
    twice. *)
Definition fieldCriteria (criteria : Doc) : bool :=
  forallb (fun kv => negb (isQueryOperator (fst kv))) criteria
  && distinct (doc_keys criteria).

(** The criteria as [buildBSON] puts them under [$elemMatch]: each key
    behind the rest of the path, if there is a rest. *)
Definition underField (right : string) (criteria : Doc) : Doc :=
  if nonempty right
  then map (fun kv => (right +:+ "." +:+ fst kv, snd kv)) criteria
  else criteria.

(** Each string followed by a dot. *)
Fixpoint dot_each (l : list string) : string :=
  match l with
  | [] => ""
  | s :: rest => s +:+ "." +:+ dot_each rest
  end.

Definition no_bracket (s : string) : bool :=
  forall_chars (fun c => negb (is_open c || is_close c)) s.

(** ** Quantities *)

(** A store of quantities: a numeric field against a document of
    comparison operators, a string field against a string or a pattern. *)
Definition quantity_field_sat (float64 : Q -> Q) (d : string -> option Value)
    (k : string) (v : Value) : bool :=
  match d k with
  | Some (VDouble x) =>
      match v with
      | VDoc ops => forallb (fun ov => number_compare float64 x (fst ov) (snd ov)) ops
      | _ => false
      end
  | Some (VString s) => stringValueMatches v s
  | _ => false
  end.

(** What each prefix demands of the stored bounds [from] and [to] of the
    value of a quantity; read off [createQuantityQueryObject]. *)
Definition quantityPrefixHolds (prefix : Prefix) (l h exact from to : Q) : option bool :=
  if String.eqb prefix EQ then Some (Qle_bool l from && Qle_bool to h)
  else if String.eqb prefix LT then Some (Qlt_bool from exact)
  else if String.eqb prefix GT then Some (Qlt_bool exact to)
  else if String.eqb prefix GE then Some (Qle_bool h to || Qle_bool l from)
  else if String.eqb prefix LE then Some (Qle_bool from l || Qle_bool to h)
  else None.

(** The store carries a quantity under the field. *)
Definition storesQuantity (stored : string -> option Value) (p : string)
    (from to : Q) (code system : string) : Prop :=
  stored (p +:+ "." +:+ "value.__from") = Some (VDouble from)
  /\ stored (p +:+ "." +:+ "value.__to") = Some (VDouble to)
  /\ stored (p +:+ "." +:+ "code") = Some (VString code)
  /\ stored (p +:+ "." +:+ "system") = Some (VString system).

(** A criteria document with every key behind the field [path]. *)
Definition prefixed (path : string) (criteria : Doc) : Doc :=
  map (fun kv => (path +:+ "." +:+ fst kv, snd kv)) criteria.

(** A stored quantity for worked cases: 6.0 mg, known to one decimal. *)
Module QuantityExample.
Definition ucum : string := "http://unitsofmeasure.org".

Definition stored (k : string) : option Value :=
  if String.eqb k "valueQuantity.value.__from" then Some (VDouble (119 # 20))
  else if String.eqb k "valueQuantity.value.__to" then Some (VDouble (121 # 20))
  else if String.eqb k "valueQuantity.code" then Some (VString "mg")
  else if String.eqb k "valueQuantity.system" then Some (VString ucum)
  else None.

Definition valueQuantity (prefix : Prefix) : SearchParamInfo :=
  mkInfo "Observation" "value-quantity" "quantity"
         [mkPath "valueQuantity" "Quantity"] [] prefix "".

(** The search value 5.4, known to one decimal. *)
Definition fivePointFour : Number := mkNumber (27 # 5) (107 # 20) (109 # 20).
End QuantityExample.

(** ** Supported features

    No prefixes are supported except [eq] (the default) and the prefixes of
    number, date and quantity parameters; no modifiers are supported except
    resource types in reference parameters. *)
Definition featuresSupported (dict : Dictionary) (p : SearchParam) : bool :=
  let prefix := Prefix_ (getInfo p) in
  let modifier := Modifier (getInfo p) in
  (String.eqb prefix "" || String.eqb prefix EQ
   || match p with
      | DateParam _ _ | NumberParam _ _ | QuantityParam _ _ _ _ => true
      | _ => false
      end)
  && (String.eqb modifier ""
      || match p with
         | ReferenceParam _ _ => bool_decide (is_Some (dict !! modifier))
         | _ => false
         end).

(** An internal error: HTTP 500 with a fatal issue of code exception. *)
Definition signalsInternalError {A} (r : Result A) : bool :=
  match r with
  | Panic (SearchError e) =>
      (HTTPStatus e =? 500)%Z && String.eqb (severity (Outcome e)) "fatal"
      && String.eqb (issueCode (Outcome e)) "exception"
  | _ => false
  end.

(** An invalid search: HTTP 400 with an issue of code processing. *)
Definition signalsInvalid {A} (r : Result A) : bool :=
  match r with
  | Panic (SearchError e) =>
      (HTTPStatus e =? 400)%Z && String.eqb (issueCode (Outcome e)) "processing"
  | _ => false
  end.

(** A reference that stands for a query on the referenced, or on the
    referring, resource. *)
Definition chainedKind (ref : Reference) : bool :=
  match ref with
  | ChainedQueryReference _ _ | ReverseChainedQueryReference _ _ => true
  | _ => false
  end.

(** ** Lookup keys

    Each path once for every lookup stage, behind the key of that stage:
    for the paths [a, b] and two stages, [_lookup0.a], [_lookup1.a],
    [_lookup0.b], [_lookup1.b]. *)
Definition pathsPerLookup (n : nat) (paths : list SearchParamPath)
  : list SearchParamPath :=
  flat_map
    (fun p => map (fun j => mkPath ("_lookup" +:+ Store.Itoa j +:+ "." +:+ Path p)
                                   (Type_ p))
                  (seq 0 n))
    paths.

(** ** Date parameters on paths of other types *)

(** The path types [createDateQueryObject] knows. *)
Definition dateTyped (p : SearchParamPath) : bool :=
  String.eqb (Type_ p) "date" || String.eqb (Type_ p) "dateTime"
  || String.eqb (Type_ p) "instant" || String.eqb (Type_ p) "Period"
  || String.eqb (Type_ p) "Timing".

(** ** Periods

    A store in which a field may be missing or null.  A field bound to nil
    demands that the stored field be missing or null; the operator [$ne]
    with nil demands that it be there and not null; a comparison demands it
    of the stored time. *)
Definition isNull (stored : option Value) : bool :=
  match stored with
  | None | Some VNil => true
  | Some _ => false
  end.

Definition null_compare (stored : option Value) (op : string) (arg : Value) : bool :=
  match arg with
  | VNil => String.eqb op "$ne" && negb (isNull stored)
  | _ => match stored with
         | Some s => compare_sat s op arg
         | None => false
         end
  end.

Definition period_field_sat (d : string -> option Value) (k : string) (v : Value) : bool :=
  match v with
  | VNil => isNull (d k)
  | VDoc ops => forallb (fun ov => null_compare (d k) (fst ov) (snd ov)) ops
  | _ => false
  end.

(** A stored period under the field [p]: the period is there; its start
    and its end may be missing, and carry their bounds when they are
    there. *)
Definition storesPeriod (stored : string -> option Value) (p : string)
    (startFrom endTo : option Time) : Prop :=
  isNull (stored p) = false
  /\ stored (p +:+ "." +:+ "start.__from") = option_map VTime startFrom
  /\ stored (p +:+ "." +:+ "end.__to") = option_map VTime endTo
  /\ isNull (stored (p +:+ "." +:+ "start"))
     = match startFrom with Some _ => false | None => true end
  /\ isNull (stored (p +:+ "." +:+ "end"))
     = match endTo with Some _ => false | None => true end.

Definition holdsOf (bound : option Time) (test : Time -> bool) : bool :=
  match bound with Some t => test t | None => false end.

Definition isMissing (bound : option Time) : bool :=
  match bound with Some _ => false | None => true end.

(** What each prefix demands of a stored period, given the window
    [low, high) of the search value; read off [periodSelector].  A period
    without end is ongoing, and one without start has always been. *)
Definition periodPrefixHolds (prefix : Prefix) (low high : Time)
    (startFrom endTo : option Time) : option bool :=
  if String.eqb prefix EQ then
    Some (holdsOf startFrom (fun t => (low <=? t)%Z)
          && holdsOf endTo (fun t => (t <=? high)%Z))
  else if String.eqb prefix GT then
    Some (holdsOf endTo (fun t => (high <? t)%Z) || isMissing endTo)
  else if String.eqb prefix LT then
    Some (holdsOf startFrom (fun t => (t <? low)%Z) || isMissing startFrom)
  else if String.eqb prefix GE then
    Some (holdsOf endTo (fun t => (high <=? t)%Z)
          || holdsOf startFrom (fun t => (low <=? t)%Z)
          || isMissing endTo)
  else if String.eqb prefix LE then
    Some (holdsOf startFrom (fun t => (t <=? low)%Z)
          || holdsOf endTo (fun t => (t <=? high)%Z)
          || isMissing startFrom)
  else if String.eqb prefix SA then Some (holdsOf startFrom (fun t => (high <? t)%Z))
  else if String.eqb prefix EB then Some (holdsOf endTo (fun t => (t <? low)%Z))
  else None.

(** A stored period for worked cases: an encounter that began at 100 and
    is still going on. *)
Module PeriodExample.
Definition ongoing : string -> option Value := fun k =>
  if String.eqb k "period" then Some (VDoc [])
  else if String.eqb k "period.start" then Some (VDoc [])
  else if String.eqb k "period.start.__from" then Some (VTime 100%Z)
  else None.

Definition date (prefix : Prefix) : SearchParamInfo :=
  mkInfo "Encounter" "date" "date" [mkPath "period" "Period"] [] prefix "".
End PeriodExample.

(** ** What the operations of a search carry

    For a search on [query], compiled to [b]: the operations on the count
    cache are keyed by the fingerprint of the query; those on the resource
    collection carry the compiled query.  The count of a standard query is
    over the filter of the find, and the find runs under the bundle that
    [find] makes of the options of the query; the count of a pipeline runs
    the compiled stages without those of the options (the plain count of
    the first stage when there is just one), the aggregate runs them with
    the stages that [convertOptionsToPipelineStages] makes of the options. *)
Definition countStage : Doc :=
  [("$group", VDoc [("_id", VNil); ("total", VDoc [("$sum", VInt 1)])])].

Definition carriesQuery (PluralizeLowerResourceName md5hex Title : string -> string)
    (query : Query) (b : BSONQuery) (op : DbOp) : Prop :=
  let c := PluralizeLowerResourceName (QueryResource query) in
  match op with
  | FindOneOp collection id | InsertOneOp collection id _ =>
      collection = "countcache"
      /\ id = md5hex (QueryResource query +:+ "?" +:+ QueryRaw query)
  | CountDocumentsOp collection filter =>
      collection = c
      /\ match BQuery b with
         | Some q => filter = VDoc q
         | None => exists first,
             BPipeline b = [first]
             /\ filter = match doc_lookup "$match" first with
                         | Some v => v
                         | None => VNil
                         end
         end
  | FindOp collection filter options =>
      collection = c /\ BQuery b = Some filter
      /\ findOptions (Options query) = Ok options
  | CountAggregateOp collection pipeline =>
      collection = c /\ BQuery b = None
      /\ pipeline = BPipeline b ++ [countStage]
  | AggregateOp collection pipeline =>
      collection = c /\ BQuery b = None
      /\ exists stages,
           convertOptionsToPipelineStages PluralizeLowerResourceName Title
             (QueryResource query) (Options query) = Ok stages
           /\ pipeline = BPipeline b ++ stages
  end.

(** ** Projection under a path without arrays

    Criteria made of fields and of disjunctions of such criteria, nested at
    most [depth] deep, in which no key comes twice. *)
Fixpoint nestedCriteria (depth : nat) (criteria : Doc) : bool :=
  distinct (doc_keys criteria)
  && forallb
       (fun kv =>
          if String.eqb (fst kv) "$or" then
            match depth, snd kv with
            | S depth', VArr branches =>
                forallb (fun b => match b with
                                  | VDoc c => nestedCriteria depth' c
                                  | _ => false
                                  end) branches
            | _, _ => false
            end
          else negb (isQueryOperator (fst kv)))
       criteria.

(** What a field demands under [path]: what the field behind the path
    demands. *)
Definition fieldUnder (Stored : Type) (field_sat : Stored -> string -> Value -> bool)
    (path : string) : Stored -> string -> Value -> bool :=
  fun d k v => field_sat d (path +:+ "." +:+ k) v.

(** The key under which [buildBSON] writes an entry of such criteria. *)
Definition projectedKey (path k : string) : string :=
  if String.eqb k "$or" then "$or" else path +:+ "." +:+ k.

(** * The resource controllers of [server/]

    The five controllers ([encounter.go], [binary.go], [nutritionorder.go],
    [questionnaire.go], [referralrequest.go]) are one text up to the name of
    the resource, and come in two families: the first three answer a search
    panic in plain text and give no body to a creation or an update; the
    last two answer it with an operation outcome and send the resource
    back.  A handler is embedded as a function on the state of the request:
    the gorilla context, and the calls made so far on the response writer,
    the database and the log.  What lies outside the controllers (the
    request, the driver, the JSON decoder, the id generator, the host name,
    the search package) answers through a [World]. *)
Module Server.

Record Resource := mkResource {
  Id : string;
  Content : Doc
}.

Record Bundle := mkBundle {
  BundleId : string;
  BundleType : string;
  Total : Z;
  Entry : list Resource
}.

(** What is encoded as JSON or kept in the context. *)
Inductive Body :=
| BNil
| BText (s : string)
| BResource (r : Resource)
| BResources (rs : list Resource)
| BBundle (b : Bundle)
| BSearchOutcome (o : OperationOutcome)    (* the outcome of a [search.Error] *)
| BIssue (severity code : string).         (* an outcome with one bare issue *)

Inductive Call :=
| HttpError (message : string) (status : Z)     (* [http.Error] *)
| HeaderSet (key value : string)
| HeaderAdd (key value : string)
| WriteHeader (status : Z)
| Encode (body : Body)                          (* [json.NewEncoder(rw).Encode] *)
| Println (line : string)
| DbFindAll (collection : string) (limit : Z)   (* [c.Find(nil).Limit(n).Iter().All] *)
| DbSearch (resource rawQuery : string)         (* [searcher.CreateQuery(q).All] *)
| DbFindOne (collection id : string)
| DbInsert (collection : string) (document : Resource)
| DbUpdate (collection id : string) (document : Resource)
| DbRemove (collection id : string).

(** A [bson.ObjectId]: the zero value of the type, or the id of a string
    that [bson.IsObjectIdHex] accepts. *)
Inductive ObjectId :=
| zeroObjectId
| ObjectIdHex (s : string).

(** A value recovered from a panic, with what [%s] prints of it (for an
    error, its [Error()]). *)
Inductive Recovered :=
| UnsupportedError (text : string)
| InvalidSearchError (text : string)
| SearchErrorValue (e : Error) (text : string)
| OtherValue (text : string).

Inductive SearchAnswer :=
| SearchPanics (x : Recovered)
| SearchReturns (result : list Resource) (err : option string).

Record World := mkWorld {
  formIsEmpty : bool;                  (* [len(r.Form) == 0] after [r.ParseForm()] *)
  rawQuery : string;                   (* [r.URL.RawQuery] *)
  idVar : string;                      (* [mux.Vars(r)["id"]] *)
  IsObjectIdHex : string -> bool;
  Hex : ObjectId -> string;
  NewObjectIdHex : string;             (* [bson.NewObjectId().Hex()] *)
  decodeBody : Resource * option string;
  Hostname : string * option string;
  findAll : string -> list Resource * option string;
  searchAll : string -> string -> SearchAnswer;
  findOne : string -> string -> Resource * option string;
  insert : string -> Resource -> option string;
  update : string -> string -> Resource -> option string;
  remove : string -> string -> option string
}.

Record State := mkState {
  context : list (string * Body);
  calls : list Call
}.

Definition call (c : Call) (s : State) : State :=
  mkState (context s) (calls s ++ [c]).

Definition contextSet (key : string) (value : Body) (s : State) : State :=
  mkState ((key, value) :: context s) (calls s).

Fixpoint lookupContext (key : string) (ctx : list (string * Body)) : Body :=
  match ctx with
  | [] => BNil
  | (k, v) :: rest => if String.eqb key k then v else lookupContext key rest
  end.

Definition contextGet (key : string) (s : State) : Body :=
  lookupContext key (context s).

(** [if err != nil { http.Error(rw, err.Error(), status) }] *)
Definition reportError (err : option string) (status : Z) (s : State) : State :=
  match err with
  | Some e => call (HttpError e status) s
  | None => s
  end.

Inductive Family :=
| PlainText      (* encounter, binary, nutritionorder *)
| WithOutcome.   (* questionnaire, referralrequest *)

Record Controller := mkController {
  resourceName : string;      (* Encounter *)
  lowerName : string;         (* encounter, in the log lines *)
  collectionName : string;    (* encounters *)
  family : Family
}.

Definition encounter : Controller :=
  mkController "Encounter" "encounter" "encounters" PlainText.
Definition binary : Controller :=
  mkController "Binary" "binary" "binaries" PlainText.
Definition nutritionorder : Controller :=
  mkController "NutritionOrder" "nutritionorder" "nutritionorders" PlainText.
Definition questionnaire : Controller :=
  mkController "Questionnaire" "questionnaire" "questionnaires" WithOutcome.
Definition referralrequest : Controller :=
  mkController "ReferralRequest" "referralrequest" "referralrequests" WithOutcome.

Definition jsonHeaders (s : State) : State :=
  call (HeaderSet "Access-Control-Allow-Origin" "*")
    (call (HeaderSet "Content-Type" "application/json; charset=utf-8") s).

Section Handlers.
Variable ctl : Controller.
Variable w : World.

(** The deferred function of the index handler, on a recovered value. *)
Definition recovered (x : Recovered) (s : State) : State :=
  match family ctl with
  | PlainText =>
      match x with
      | UnsupportedError text => call (HttpError text StatusNotImplemented) s
      | InvalidSearchError text => call (HttpError text StatusBadRequest) s
      | SearchErrorValue _ text | OtherValue text =>
          call (HttpError text StatusInternalServerError) s
      end
  | WithOutcome =>
      let s := call (HeaderSet "Content-Type" "application/json; charset=utf-8") s in
      match x with
      | SearchErrorValue e _ =>
          call (Encode (BSearchOutcome (Outcome e))) (call (WriteHeader (HTTPStatus e)) s)
      | _ =>
          call (Encode (BIssue "fatal" "exception"))
               (call (WriteHeader StatusInternalServerError) s)
      end
  end.

(** The two ways the index handler reads: the first hundred documents of
    the collection when the request has no parameter, a search otherwise.
    The search may panic. *)
Definition readResources (s : State) : (list Resource * State) + (Recovered * State) :=
  if formIsEmpty w then
    let s := call (DbFindAll (collectionName ctl) 100) s in
    let '(result, err) := findAll w (collectionName ctl) in
    inl (result, reportError err StatusInternalServerError s)
  else
    let s := call (DbSearch (resourceName ctl) (rawQuery w)) s in
    match searchAll w (resourceName ctl) (rawQuery w) with
    | SearchPanics x => inr (x, s)
    | SearchReturns result err =>
        inl (result, reportError err StatusInternalServerError s)
    end.

Definition IndexHandler (s : State) : State :=
  match readResources s with
  | inr (x, s) => recovered x s
  | inl (result, s) =>
      let bundle := mkBundle (NewObjectIdHex w) "searchset"
                             (uint32 (Z.of_nat (length result))) result in
      let s := call (Println ("Setting " +:+ lowerName ctl +:+ " search context")) s in
      let s := contextSet (resourceName ctl) (BResources result) s in
      let s := contextSet "Resource" (BText (resourceName ctl)) s in
      let s := contextSet "Action" (BText "search") s in
      call (Encode (BBundle bundle)) (jsonHeaders s)
  end.

(** The id of the request: the zero id when the string is no id. *)
Definition requestId : ObjectId :=
  if IsObjectIdHex w (idVar w) then ObjectIdHex (idVar w) else zeroObjectId.

(** [Load<Resource>]: the resource and the error, and the state. *)
Definition Load (s : State) : (option Resource * option string) * State :=
  if IsObjectIdHex w (idVar w) then
    let id := ObjectIdHex (idVar w) in
    let s := call (DbFindOne (collectionName ctl) (Hex w id)) s in
    match findOne w (collectionName ctl) (Hex w id) with
    | (_, Some err) => ((None, Some err), s)
    | (result, None) =>
        let s := call (Println ("Setting " +:+ lowerName ctl +:+ " read context")) s in
        let s := contextSet (resourceName ctl) (BResource result) s in
        let s := contextSet "Resource" (BText (resourceName ctl)) s in
        ((Some result, None), s)
    end
  else ((None, Some "Invalid id"), s).

Definition ShowHandler (s : State) : State :=
  let s := contextSet "Action" (BText "read") s in
  let '((_, err), s) := Load s in
  let s := reportError err StatusInternalServerError s in
  let s := jsonHeaders s in
  call (Encode (contextGet (resourceName ctl) s)) s.

Definition withId (id : string) (r : Resource) : Resource :=
  mkResource id (Content r).

Definition StatusCreated : Z := 201.

Definition CreateHandler (s : State) : State :=
  let '(decoded, err) := decodeBody w in
  let s := reportError err StatusInternalServerError s in
  let i := NewObjectIdHex w in
  let resource := withId i decoded in
  let s := call (DbInsert (collectionName ctl) resource) s in
  let s := reportError (insert w (collectionName ctl) resource)
             StatusInternalServerError s in
  let s := call (Println ("Setting " +:+ lowerName ctl +:+ " create context")) s in
  let s := contextSet (resourceName ctl) (BResource resource) s in
  let s := contextSet "Resource" (BText (resourceName ctl)) s in
  let s := contextSet "Action" (BText "create") s in
  let '(host, err) := Hostname w in
  let s := reportError err StatusInternalServerError s in
  let s := call (HeaderAdd "Location"
                   ("http://" +:+ host +:+ ":3001/" +:+ resourceName ctl +:+ "/" +:+ i))
                s in
  match family ctl with
  | PlainText => call (WriteHeader StatusCreated) s
  | WithOutcome =>
      call (Encode (BResource resource)) (call (WriteHeader StatusCreated) (jsonHeaders s))
  end.

(** The head of the update and delete handlers: an id that is none is
    reported, and the handler goes on. *)
Definition checkId (s : State) : State :=
  if IsObjectIdHex w (idVar w) then s
  else call (HttpError "Invalid id" StatusBadRequest) s.

Definition UpdateHandler (s : State) : State :=
  let s := checkId s in
  let id := requestId in
  let '(decoded, err) := decodeBody w in
  let s := reportError err StatusInternalServerError s in
  let resource := withId (Hex w id) decoded in
  let s := call (DbUpdate (collectionName ctl) (Hex w id) resource) s in
  let s := reportError (update w (collectionName ctl) (Hex w id) resource)
             StatusInternalServerError s in
  let s := call (Println ("Setting " +:+ lowerName ctl +:+ " update context")) s in
  let s := contextSet (resourceName ctl) (BResource resource) s in
  let s := contextSet "Resource" (BText (resourceName ctl)) s in
  let s := contextSet "Action" (BText "update") s in
  match family ctl with
  | PlainText => s
  | WithOutcome => call (Encode (BResource resource)) (jsonHeaders s)
  end.

Definition DeleteHandler (s : State) : State :=
  let s := checkId s in
  let id := requestId in
  let s := call (DbRemove (collectionName ctl) (Hex w id)) s in
  match remove w (collectionName ctl) (Hex w id) with
  | Some err => call (HttpError err StatusInternalServerError) s
  | None =>
      let s := call (Println ("Setting " +:+ lowerName ctl +:+ " delete context")) s in
      let s := contextSet (resourceName ctl) (BText (Hex w id)) s in
      let s := contextSet "Resource" (BText (resourceName ctl)) s in
      contextSet "Action" (BText "delete") s
  end.
End Handlers.

(** The calls that change the database, and those that read it. *)
Definition isWrite (c : Call) : bool :=
  match c with
  | DbInsert _ _ | DbUpdate _ _ _ | DbRemove _ _ => true
  | _ => false
  end.

Definition isDatabaseCall (c : Call) : bool :=
  match c with
  | DbFindAll _ _ | DbSearch _ _ | DbFindOne _ _
  | DbInsert _ _ | DbUpdate _ _ _ | DbRemove _ _ => true
  | _ => false
  end.

Definition isBundle (c : Call) : bool :=
  match c with Encode (BBundle _) => true | _ => false end.

(** The status with which the index handler answers a search panic. *)
Definition panicStatus (f : Family) (x : Recovered) : Z :=
  match f, x with
  | PlainText, UnsupportedError _ => StatusNotImplemented
  | PlainText, InvalidSearchError _ => StatusBadRequest
  | PlainText, _ => StatusInternalServerError
  | WithOutcome, SearchErrorValue e _ => HTTPStatus e
  | WithOutcome, _ => StatusInternalServerError
  end.

(** The statuses written by the calls, in order. *)
Definition statusOf (c : Call) : option Z :=
  match c with
  | HttpError _ status | WriteHeader status => Some status
  | _ => None
  end.

Definition statuses (cs : list Call) : list Z :=
  omap statusOf cs.

(** A world for worked cases: a request for an id that is none, a
    database that holds two encounters and accepts every change. *)
Definition twoEncounters : list Resource :=
  [mkResource "e1" [("status", VString "planned")];
   mkResource "e2" [("status", VString "finished")]].

Definition exampleHex (id : ObjectId) : string :=
  match id with
  | zeroObjectId => ""
  | ObjectIdHex s => s
  end.

Definition exampleWorld (search : SearchAnswer) : World :=
  mkWorld false "status=planned" "not-an-id"
          (fun s => (String.length s =? 24)%nat) exampleHex
          "5a0000000000000000000001"
          (mkResource "client-id" [("status", VString "planned")], None)
          ("fhir", None)
          (fun _ => (twoEncounters, None))
          (fun _ _ => search)
          (fun _ _ => (mkResource "e1" [("status", VString "planned")], None))
          (fun _ _ => None)
          (fun _ _ _ => None)
          (fun _ _ => None).

Definition start : State := mkState [] [].

Definition controllers : list Controller :=
  [encounter; binary; nutritionorder; questionnaire; referralrequest].

(** What the index handler asks of the database, and the answer. *)
Definition indexQuery (ctl : Controller) (w : World) : Call :=
  if formIsEmpty w then DbFindAll (collectionName ctl) 100
  else DbSearch (resourceName ctl) (rawQuery w).

Definition indexAnswer (ctl : Controller) (w : World) : SearchAnswer :=
  if formIsEmpty w then
    SearchReturns (fst (findAll w (collectionName ctl))) (snd (findAll w (collectionName ctl)))
  else searchAll w (resourceName ctl) (rawQuery w).

Definition isEncode (c : Call) : bool :=
  match c with Encode _ => true | _ => false end.

Definition encodesOutcome (c : Call) : bool :=
  match c with
  | Encode (BSearchOutcome _) | Encode (BIssue _ _) => true
  | _ => false
  end.

(** One status 500 for each failure. *)
Definition failureStatuses (errs : list (option string)) : list Z :=
  map (fun _ => StatusInternalServerError) (omap id errs).

Definition lastCall (cs : list Call) : option Call := last cs.

(** The calls that write to the body of the response: [http.Error] writes
    its message, the encoder its JSON. *)
Definition writesBody (c : Call) : bool :=
  match c with
  | HttpError _ _ | Encode _ => true
  | _ => false
  end.

(** The reports of the failures among [errs], in order: each with its
    message and status 500. *)
Definition reports (errs : list (option string)) : list Call :=
  map (fun e => HttpError e StatusInternalServerError) (omap id errs).

(** The report of an id that is none. *)
Definition invalidIdReport (w : World) : list Call :=
  if IsObjectIdHex w (idVar w) then [] else [HttpError "Invalid id" StatusBadRequest].
End Server.

(** * Worked cases *)

Example convertSearchPathToMongoField_doc :
  convertSearchPathToMongoField "[]element.[0]target.[]product.element"
  = "element.target.0.product.element".
Proof. reflexivity. Qed.

Example convertBracketIndexesToDotIndexes_doc :
  convertBracketIndexesToDotIndexes "[]element.[0]target.[]product.element"
  = "[]element.target.0.[]product.element".
Proof. reflexivity. Qed.

Example buildBSON_scalar :
  buildBSON "[]name.[0]given" (VString "x") = Ok [("name.given.0", VString "x")].
Proof. reflexivity. Qed.

Example buildBSON_elemMatch :
  buildBSON "[]coding" (VDoc [("system", VString "s"); ("code", VString "c")])
  = Ok [("coding", VDoc [("$elemMatch",
                          VDoc [("system", VString "s"); ("code", VString "c")])])].
Proof. reflexivity. Qed.

Example buildBSON_elemMatch_right :
  buildBSON "[]a.b" (VDoc [("x", VInt 1%Z); ("$gt", VInt 2%Z); ("$lt", VInt 3%Z)])
  = Ok [("a", VDoc [("$elemMatch",
           VDoc [("b.x", VInt 1%Z); ("b", VDoc [("$gt", VInt 2%Z); ("$lt", VInt 3%Z)])])])].
Proof. reflexivity. Qed.

Example buildBSON_or :
  buildBSON "name"
    (VDoc [("$or", docArray [[("text", VString "a")]; [("family", VString "a")]])])
  = Ok [("$or", docArray [[("name.text", VString "a")]; [("name.family", VString "a")]])].
Proof. reflexivity. Qed.

Example merge_gender :
  mergeAll [[("gender", VString "male")]; [("gender", VString "female")]] []
  = Ok [("gender", VString "male");
        ("$and", docArray [[("gender", VString "female")]])].
Proof. reflexivity. Qed.

(** The period of scenario 1: not within the year, so [eq] fails; its end
    lies after the year begins, so [ge] holds. *)
Example period_scenario :
  let d prefix := mkInfo "Encounter" "date" "date" [mkPath "period" "Period"] [] prefix "" in
  let year := mkDate 2020%Z 2021%Z in
  let stored := [("period.start.__from", VTime 2020%Z); ("period.end.__to", VTime 2022%Z)] in
  satResult Doc flat_field_sat stored (createDateQueryObject (d EQ) year) = false
  /\ satResult Doc flat_field_sat stored (createDateQueryObject (d GE) year) = true.
Proof. split; reflexivity. Qed.

(** * Properties *)

(** ** Strings *)

#[local] Arguments String.append !_ _ / : simpl nomatch.

Lemma sapp_assoc (a b c : string) : (a +:+ b) +:+ c = a +:+ (b +:+ c).
Proof. induction a as [|x a IH]; simpl; [reflexivity | now rewrite IH]. Qed.

Lemma sapp_nil_r (a : string) : a +:+ "" = a.
Proof. induction a as [|x a IH]; simpl; [reflexivity | now rewrite IH]. Qed.

Lemma sapp_length (a b : string) :
  String.length (a +:+ b) = String.length a + String.length b.
Proof. induction a as [|x a IH]; simpl; [reflexivity | now rewrite IH]. Qed.

Lemma forall_chars_app f (a b : string) :
  forall_chars f (a +:+ b) = forall_chars f a && forall_chars f b.
Proof.
  induction a as [|x a IH]; simpl; [reflexivity|].
  rewrite IH. now rewrite andb_assoc.
Qed.

Lemma forall_chars_impl (f g : ascii -> bool) (s : string) :
  (forall c, f c = true -> g c = true) ->
  forall_chars f s = true -> forall_chars g s = true.
Proof.
  intros Hfg. induction s as [|x s IH]; simpl; [reflexivity|].
  intros [Hx Hs]%andb_true_iff. rewrite (Hfg _ Hx). now apply IH.
Qed.

(** [span] stops exactly where the run of accepted characters ends. *)
Lemma span_app_stop f (a b : string) :
  forall_chars f a = true ->
  match b with String c _ => f c = false | EmptyString => True end ->
  span f (a +:+ b) = (a, b).
Proof.
  intros Ha Hb. induction a as [|x a IH]; simpl in *.
  - destruct b as [|c b]; simpl; [reflexivity | now rewrite Hb].
  - apply andb_true_iff in Ha as [Hx Ha]. rewrite Hx, (IH Ha). reflexivity.
Qed.

Lemma span_length f (s : string) :
  String.length (snd (span f s)) <= String.length s.
Proof.
  induction s as [|x s IH]; simpl; [lia|].
  destruct (f x); simpl; [|lia].
  destruct (span f s); simpl in *. lia.
Qed.

Lemma is_digit_not_open c : is_digit c = true -> is_open c = false.
Proof.
  unfold is_digit, is_open. intros [H1 H2]%andb_true_iff.
  destruct (Ascii.eqb_spec c "["%char) as [->|]; [|reflexivity].
  simpl in H2. discriminate.
Qed.

Lemma is_digit_not_close c : is_digit c = true -> is_close c = false.
Proof.
  unfold is_digit, is_close. intros [H1 H2]%andb_true_iff.
  destruct (Ascii.eqb_spec c "]"%char) as [->|]; [|reflexivity].
  simpl in H2. discriminate.
Qed.

Lemma is_name_char_not_open c : is_name_char c = true -> is_open c = false.
Proof.
  unfold is_name_char. intros H%negb_true_iff.
  apply orb_false_iff in H as [H _]. now apply orb_false_iff in H as [_ H].
Qed.

Lemma is_name_char_not_dot c : is_name_char c = true -> negb (is_dot c) = true.
Proof.
  unfold is_name_char. intros H%negb_true_iff.
  apply orb_false_iff in H as [H _]. apply orb_false_iff in H as [H _].
  now rewrite H.
Qed.

(** ** Path normaliser *)

Lemma matchIndexer_shorter s ds nm rest :
  matchIndexer s = Some (ds, nm, rest) -> String.length rest < String.length s.
Proof.
  destruct s as [|c r]; simpl; [discriminate|].
  destruct (is_open c); [|discriminate].
  pose proof (span_length is_digit r) as H1.
  destruct (span is_digit r) as [ds' r1]; simpl in H1.
  destruct r1 as [|c1 r2]; [discriminate|].
  destruct (nonempty ds' && is_close c1); [|discriminate].
  pose proof (span_length (fun x => negb (is_dot x)) r2) as H2.
  destruct (span (fun x => negb (is_dot x)) r2) as [nm' r3]; simpl in H2.
  destruct (nonempty nm'); [|discriminate].
  intros [= _ _ <-]. simpl in H1. lia.
Qed.

(** Any fuel that covers the length of the string gives the same result. *)
Lemma replaceIndexers_fuel n : forall s f1 f2,
  String.length s <= n -> String.length s <= f1 -> String.length s <= f2 ->
  replaceIndexers f1 s = replaceIndexers f2 s.
Proof.
  induction n as [|n IH]; intros s f1 f2 Hn H1 H2.
  - destruct s; [|simpl in Hn; lia].
    destruct f1, f2; reflexivity.
  - destruct s as [|c r].
    + destruct f1, f2; reflexivity.
    + destruct f1 as [|f1]; [simpl in H1; lia|].
      destruct f2 as [|f2]; [simpl in H2; lia|].
      cbn [replaceIndexers].
      destruct (matchIndexer (String c r)) as [[[ds nm] rest]|] eqn:E.
      * apply matchIndexer_shorter in E. simpl in *.
        rewrite (IH rest f1 f2) by lia. reflexivity.
      * simpl in *. rewrite (IH r f1 f2) by lia. reflexivity.
Qed.

(** The scanning equation of the indexer rewrite. *)
Lemma convertBracketIndexesToDotIndexes_eq s :
  convertBracketIndexesToDotIndexes s =
  match matchIndexer s with
  | Some (ds, nm, rest) =>
      nm +:+ "." +:+ ds +:+ convertBracketIndexesToDotIndexes rest
  | None =>
      match s with
      | String c r => String c (convertBracketIndexesToDotIndexes r)
      | EmptyString => EmptyString
      end
  end.
Proof.
  unfold convertBracketIndexesToDotIndexes.
  destruct s as [|c r]; [reflexivity|].
  cbn [String.length replaceIndexers].
  destruct (matchIndexer (String c r)) as [[[ds nm] rest]|] eqn:E.
  - apply matchIndexer_shorter in E. simpl in E.
    rewrite (replaceIndexers_fuel (String.length r) rest
               (String.length r) (String.length rest)) by lia.
    reflexivity.
  - reflexivity.
Qed.

Lemma matchIndexer_not_open c r : is_open c = false -> matchIndexer (String c r) = None.
Proof. intros H. simpl. now rewrite H. Qed.

Lemma convert_copy (a b : string) :
  no_open a = true ->
  convertBracketIndexesToDotIndexes (a +:+ b) = a +:+ convertBracketIndexesToDotIndexes b.
Proof.
  induction a as [|c a IH]; simpl; intros H; [reflexivity|].
  apply andb_true_iff in H as [Hc Ha]. apply negb_true_iff in Hc.
  rewrite convertBracketIndexesToDotIndexes_eq, matchIndexer_not_open by assumption.
  now rewrite IH.
Qed.

Lemma convert_no_open (a : string) :
  no_open a = true -> convertBracketIndexesToDotIndexes a = a.
Proof.
  intros H. rewrite <- (sapp_nil_r a) at 1. rewrite convert_copy by assumption.
  now rewrite sapp_nil_r.
Qed.

Lemma remove_copy (a b : string) :
  no_open a = true ->
  removeArrayMarkers (a +:+ b) = a +:+ removeArrayMarkers b.
Proof.
  induction a as [|c a IH]; intros H; [reflexivity|].
  simpl in H. apply andb_true_iff in H as [Hc Ha]. apply negb_true_iff in Hc.
  specialize (IH Ha).
  change (String c a +:+ b) with (String c (a +:+ b)).
  cbn [removeArrayMarkers]. rewrite Hc. cbn [andb].
  destruct (a +:+ b) eqn:E.
  - destruct a; [|discriminate]. simpl in E. subst b. reflexivity.
  - rewrite IH. reflexivity.
Qed.

Lemma remove_no_open (a : string) : no_open a = true -> removeArrayMarkers a = a.
Proof.
  intros H. rewrite <- (sapp_nil_r a) at 1. rewrite remove_copy by assumption.
  now rewrite sapp_nil_r.
Qed.

(** A string without an opening bracket is its own normal form. *)
Lemma normalise_no_open (a : string) :
  no_open a = true -> convertSearchPathToMongoField a = a.
Proof.
  intros H. unfold convertSearchPathToMongoField.
  rewrite convert_no_open by assumption. now apply remove_no_open.
Qed.

Lemma no_open_app (a b : string) : no_open (a +:+ b) = no_open a && no_open b.
Proof. apply forall_chars_app. Qed.

Lemma name_no_open (s : string) : forall_chars is_name_char s = true -> no_open s = true.
Proof.
  apply forall_chars_impl. intros c H. now rewrite (is_name_char_not_open c H).
Qed.

Lemma digits_no_open (s : string) : forall_chars is_digit s = true -> no_open s = true.
Proof.
  apply forall_chars_impl. intros c H. now rewrite (is_digit_not_open c H).
Qed.

Lemma convert_segment (s : Segment) (tail : string) :
  wf_segment s = true -> segment_end tail ->
  convertBracketIndexesToDotIndexes (render_segment s +:+ tail)
  = indexed_segment s +:+ convertBracketIndexesToDotIndexes tail.
Proof.
  destruct s as [k name]. unfold wf_segment, render_segment, indexed_segment.
  cbn [seg_marker seg_name].
  intros [[Hne Hname]%andb_true_iff Hk]%andb_true_iff Htail.
  destruct k as [| |ds]; cbn [render_marker].
  - simpl. apply convert_copy. now apply name_no_open.
  - change (("[]" +:+ name) +:+ tail) with (String "[" (String "]" (name +:+ tail))).
    rewrite convertBracketIndexesToDotIndexes_eq.
    replace (matchIndexer (String "[" (String "]" (name +:+ tail)))) with
      (@None (string * string * string)) by reflexivity.
    rewrite convertBracketIndexesToDotIndexes_eq, matchIndexer_not_open by reflexivity.
    rewrite convert_copy by now apply name_no_open. reflexivity.
  - apply andb_true_iff in Hk as [Hdne Hds].
    rewrite !sapp_assoc.
    change ("[" +:+ ds +:+ "]" +:+ name +:+ tail)
      with (String "[" (ds +:+ String "]" (name +:+ tail))).
    rewrite convertBracketIndexesToDotIndexes_eq.
    cbn [matchIndexer]. change (is_open "[") with true. cbn iota.
    rewrite (span_app_stop is_digit ds (String "]" (name +:+ tail))) by
      (try assumption; reflexivity).
    rewrite Hdne. change (is_close "]") with true. cbn [andb].
    rewrite (span_app_stop (fun x => negb (is_dot x)) name tail).
    + rewrite Hne. reflexivity.
    + revert Hname. apply forall_chars_impl. apply is_name_char_not_dot.
    + destruct tail as [|c t]; [exact I|]. simpl in Htail. now subst c.
Qed.

Lemma convert_render_path (segs : list Segment) :
  forallb wf_segment segs = true ->
  convertBracketIndexesToDotIndexes (render_path segs)
  = join_dots (map indexed_segment segs).
Proof.
  unfold render_path.
  induction segs as [|s [|s' rest] IH]; intros H.
  - reflexivity.
  - simpl in H. apply andb_true_iff in H as [Hs _]. simpl.
    rewrite <- (sapp_nil_r (render_segment s)).
    rewrite convert_segment by (try assumption; exact I).
    change (convertBracketIndexesToDotIndexes "") with "". now rewrite sapp_nil_r.
  - cbn [forallb] in H. apply andb_true_iff in H as [Hs Hrest].
    cbn [map join_dots] in *.
    rewrite convert_segment by (try assumption; reflexivity).
    rewrite (convert_copy "." _) by reflexivity.
    rewrite IH by assumption. reflexivity.
Qed.

Lemma remove_indexed_segment (s : Segment) (tail : string) :
  wf_segment s = true ->
  removeArrayMarkers (indexed_segment s +:+ tail)
  = segment_field s +:+ removeArrayMarkers tail.
Proof.
  destruct s as [k name]. unfold wf_segment, indexed_segment, segment_field.
  cbn [seg_marker seg_name].
  intros [[Hne Hname]%andb_true_iff Hk]%andb_true_iff.
  destruct k as [| |ds].
  - apply remove_copy. now apply name_no_open.
  - change (("[]" +:+ name) +:+ tail) with (String "[" (String "]" (name +:+ tail))).
    cbn [removeArrayMarkers]. change (is_open "[" && is_close "]") with true. cbn iota.
    apply remove_copy. now apply name_no_open.
  - apply andb_true_iff in Hk as [_ Hds].
    apply remove_copy. rewrite !no_open_app.
    rewrite (name_no_open _ Hname), (digits_no_open _ Hds). reflexivity.
Qed.

Lemma remove_indexed_path (segs : list Segment) :
  forallb wf_segment segs = true ->
  removeArrayMarkers (join_dots (map indexed_segment segs)) = field_path segs.
Proof.
  unfold field_path.
  induction segs as [|s [|s' rest] IH]; intros H.
  - reflexivity.
  - simpl in H. apply andb_true_iff in H as [Hs _]. simpl.
    rewrite <- (sapp_nil_r (indexed_segment s)).
    rewrite remove_indexed_segment by assumption.
    change (removeArrayMarkers "") with "". now rewrite sapp_nil_r.
  - cbn [forallb] in H. apply andb_true_iff in H as [Hs Hrest].
    cbn [map join_dots] in *.
    rewrite remove_indexed_segment by assumption.
    rewrite (remove_copy "." _) by reflexivity.
    rewrite IH by assumption. reflexivity.
Qed.

Lemma segment_field_no_open (s : Segment) :
  wf_segment s = true -> no_open (segment_field s) = true.
Proof.
  destruct s as [k name]. unfold wf_segment, segment_field.
  cbn [seg_marker seg_name].
  intros [[Hne Hname]%andb_true_iff Hk]%andb_true_iff.
  destruct k as [| |ds]; try now apply name_no_open.
  apply andb_true_iff in Hk as [_ Hds].
  rewrite !no_open_app, (name_no_open _ Hname), (digits_no_open _ Hds). reflexivity.
Qed.

Lemma field_path_no_open (segs : list Segment) :
  forallb wf_segment segs = true -> no_open (field_path segs) = true.
Proof.
  unfold field_path.
  induction segs as [|s [|s' rest] IH]; intros H.
  - reflexivity.
  - simpl in H. apply andb_true_iff in H as [Hs _]. simpl.
    now apply segment_field_no_open.
  - cbn [forallb] in H. apply andb_true_iff in H as [Hs Hrest].
    cbn [map join_dots] in *.
    rewrite !no_open_app, (segment_field_no_open _ Hs), IH by assumption.
    reflexivity.
Qed.

(** The normal form of a well-formed path, segment by segment. *)
Lemma convertSearchPathToMongoField_render (segs : list Segment) :
  forallb wf_segment segs = true ->
  convertSearchPathToMongoField (render_path segs) = field_path segs.
Proof.
  intros H. unfold convertSearchPathToMongoField.
  rewrite convert_render_path by assumption. now apply remove_indexed_path.
Qed.

(** C9 (as amended): on every path of the path grammar, that is a
    dot-separated sequence of segments, each a non-empty name without dots
    and brackets that may be preceded by the collection marker or by a
    numeric indexer, the field-path normalisation is idempotent; the normal
    form is the sequence of the segments' fields and holds no bracket. *)
Theorem normalise_idempotent_on_paths (segs : list Segment) :
  forallb wf_segment segs = true ->
  convertSearchPathToMongoField (convertSearchPathToMongoField (render_path segs))
  = convertSearchPathToMongoField (render_path segs)
  /\ convertSearchPathToMongoField (render_path segs) = field_path segs.
Proof.
  intros H. rewrite convertSearchPathToMongoField_render by assumption.
  split; [|reflexivity].
  apply normalise_no_open. now apply field_path_no_open.
Qed.

Lemma normalise_idempotent_on_paths_witness :
  let segs := [mkSegment ArrayMarker "element"; mkSegment (IndexMarker "0") "target";
               mkSegment ArrayMarker "product"; mkSegment NoMarker "element"] in
  render_path segs = "[]element.[0]target.[]product.element"
  /\ convertSearchPathToMongoField (convertSearchPathToMongoField (render_path segs))
     = convertSearchPathToMongoField (render_path segs)
  /\ convertSearchPathToMongoField (render_path segs) = "element.target.0.product.element".
Proof.
  intros segs. split; [reflexivity|].
  destruct (normalise_idempotent_on_paths segs) as [H1 H2]; [reflexivity|].
  split; [exact H1 | rewrite H2; reflexivity].
Defined.

(** C9 (as stated) fails on strings outside the path grammar: deleting an
    array marker can bring the brackets around it together into a new
    marker, and an indexer that follows an indexer is only rewritten by a
    second pass. *)
Lemma normalise_not_idempotent :
  convertSearchPathToMongoField "[[]]" = "[]"
  /\ convertSearchPathToMongoField (convertSearchPathToMongoField "[[]]") = ""
  /\ convertSearchPathToMongoField "[0][1]a" = "[1]a.0"
  /\ convertSearchPathToMongoField (convertSearchPathToMongoField "[0][1]a") = "a.1.0"
  /\ ~ (forall p : string,
         convertSearchPathToMongoField (convertSearchPathToMongoField p)
         = convertSearchPathToMongoField p).
Proof.
  repeat split; try reflexivity.
  intros H. specialize (H "[[]]"). revert H. vm_compute. discriminate.
Qed.

(** ** Documents *)

Lemma asDocs_map (l : list Value) (ds : list Doc) :
  asDocs l = Some ds -> map VDoc ds = l.
Proof.
  revert ds. induction l as [|v l IH]; intros ds; simpl.
  - now intros [= <-].
  - destruct v; try discriminate. simpl.
    destruct (asDocs l) as [ms|]; [|discriminate].
    intros [= <-]. simpl. now rewrite (IH ms).
Qed.

Lemma asDocs_docs (ds : list Doc) : asDocs (map VDoc ds) = Some ds.
Proof. induction ds as [|q ds IH]; simpl; [reflexivity | now rewrite IH]. Qed.

Lemma doc_lookup_insert_eq k v (m : Doc) : doc_lookup k (doc_insert k v m) = Some v.
Proof.
  induction m as [|[k' v'] m IH]; simpl.
  - now rewrite String.eqb_refl.
  - destruct (String.eqb k k') eqn:E; simpl; rewrite ?String.eqb_refl, ?E; auto.
Qed.

Lemma doc_lookup_insert_ne k k' v (m : Doc) :
  k <> k' -> doc_lookup k (doc_insert k' v m) = doc_lookup k m.
Proof.
  intros Hne. induction m as [|[k0 v0] m IH]; simpl.
  - apply String.eqb_neq in Hne. now rewrite Hne.
  - destruct (String.eqb k' k0) eqn:E; simpl.
    + apply String.eqb_eq in E. subst k0.
      apply String.eqb_neq in Hne. now rewrite Hne.
    + now rewrite IH.
Qed.

Lemma doc_has_insert k k' v (m : Doc) :
  doc_has k (doc_insert k' v m) = String.eqb k k' || doc_has k m.
Proof.
  unfold doc_has. destruct (String.eqb_spec k k') as [->|Hne].
  - now rewrite doc_lookup_insert_eq.
  - now rewrite doc_lookup_insert_ne.
Qed.

(** A one-entry document that binds a key is that binding. *)
Lemma doc_single k v (q : Doc) :
  length q = 1 -> doc_lookup k q = Some v -> q = [(k, v)].
Proof.
  destruct q as [|[k' v'] [|? ?]]; simpl; try discriminate.
  intros _. destruct (String.eqb_spec k k') as [->|]; [|discriminate].
  now intros [= ->].
Qed.

(** ** Meaning of documents *)

Section SemanticsFacts.
Variable Stored : Type.
Variable field_sat : Stored -> string -> Value -> bool.
Abbreviation satDoc := (satDoc Stored field_sat).
Abbreviation sat := (sat Stored field_sat).
Abbreviation entry_sat := (entry_sat Stored field_sat).

Lemma satDoc_entries d (q : Doc) : satDoc d q = forallb (entry_sat d) q.
Proof. reflexivity. Qed.

Lemma satDoc_cons d kv (q : Doc) : satDoc d (kv :: q) = entry_sat d kv && satDoc d q.
Proof. reflexivity. Qed.

Lemma satDoc_app d (q1 q2 : Doc) : satDoc d (q1 ++ q2) = satDoc d q1 && satDoc d q2.
Proof. rewrite !satDoc_entries. apply forallb_app. Qed.

Lemma exists_sat_docs d (ds : list Doc) :
  existsb (sat d) (map VDoc ds) = existsb (satDoc d) ds.
Proof. induction ds as [|q ds IH]; simpl; [reflexivity | now rewrite IH]. Qed.

Lemma forall_sat_docs d (ds : list Doc) :
  forallb (sat d) (map VDoc ds) = forallb (satDoc d) ds.
Proof. induction ds as [|q ds IH]; simpl; [reflexivity | now rewrite IH]. Qed.

Lemma satDoc_or d (ds : list Doc) :
  satDoc d [("$or", docArray ds)] = existsb (satDoc d) ds.
Proof.
  unfold docArray. rewrite satDoc_cons. unfold entry_sat. simpl.
  rewrite exists_sat_docs. apply andb_true_r.
Qed.

Lemma satDoc_disjunction d (rs : list Doc) :
  satDoc d (disjunction rs) = existsb (satDoc d) rs.
Proof.
  destruct rs as [|r [|r' rs]]; cbn [disjunction].
  - apply satDoc_or.
  - simpl. now rewrite orb_false_r.
  - apply satDoc_or.
Qed.

Lemma satDoc_disjuncts d (q : Doc) :
  orWellTyped q = true -> existsb (satDoc d) (disjuncts q) = satDoc d q.
Proof.
  unfold orWellTyped, disjuncts.
  destruct ((length q =? 1)%nat && doc_nonnil "$or" q) eqn:E.
  - apply andb_true_iff in E as [Hlen _]. apply Nat.eqb_eq in Hlen.
    destruct (doc_lookup "$or" q) as [[| | | | | | | |nested]|] eqn:L; try discriminate.
    destruct (asDocs nested) as [ds|] eqn:A; [|discriminate]. intros _.
    rewrite (doc_single _ _ _ Hlen L).
    rewrite <- (asDocs_map _ _ A). apply eq_sym, satDoc_or.
  - intros _. simpl. apply orb_false_r.
Qed.

Lemma exists_sat_flat_map d (qs : list Doc) :
  forallb orWellTyped qs = true ->
  existsb (satDoc d) (flat_map disjuncts qs) = existsb (satDoc d) qs.
Proof.
  induction qs as [|q qs IH]; simpl; [reflexivity|].
  intros [Hq Hqs]%andb_true_iff.
  rewrite existsb_app, satDoc_disjuncts, IH by assumption. reflexivity.
Qed.
End SemanticsFacts.

(** ** [orPaths] *)

Section OrPathsFacts.
Variable objFunc : SearchParamPath -> Result Doc.

Lemma orPathsLoop_ok paths : forall qs acc,
  mapResult objFunc paths = Ok qs ->
  forallb orWellTyped qs = true ->
  orPathsLoop objFunc paths acc = Ok (acc ++ flat_map disjuncts qs).
Proof.
  induction paths as [|p paths IH]; intros qs acc; simpl.
  - intros [= <-] _. simpl. now rewrite app_nil_r.
  - destruct (objFunc p) as [q|e] eqn:Ep; [|discriminate].
    destruct (mapResult objFunc paths) as [qs'|e]; [|discriminate].
    intros [= <-]. simpl. intros [Hq Hqs]%andb_true_iff.
    unfold orWellTyped in Hq. unfold disjuncts at 1.
    destruct ((length q =? 1)%nat && doc_nonnil "$or" q).
    + destruct (doc_lookup "$or" q) as [[| | | | | | | |nested]|]; try discriminate.
      destruct (asDocs nested) as [ds|]; [|discriminate].
      rewrite (IH qs') by auto. now rewrite app_assoc.
    + rewrite (IH qs') by auto. now rewrite <- app_assoc.
Qed.

(** Conversely, a result of the loop comes from per-path results that are
    all well typed. *)
Lemma orPathsLoop_inv paths : forall acc rs,
  orPathsLoop objFunc paths acc = Ok rs ->
  exists qs, mapResult objFunc paths = Ok qs
             /\ forallb orWellTyped qs = true
             /\ rs = acc ++ flat_map disjuncts qs.
Proof.
  induction paths as [|p paths IH]; intros acc rs; simpl.
  - intros [= <-]. exists []. simpl. now rewrite app_nil_r.
  - destruct (objFunc p) as [q|e] eqn:Ep; [|discriminate].
    destruct ((length q =? 1)%nat && doc_nonnil "$or" q) eqn:E.
    + destruct (doc_lookup "$or" q) as [[| | | | | | | |nested]|] eqn:L; try discriminate.
      destruct (asDocs nested) as [ds|] eqn:A; [|discriminate].
      intros H. destruct (IH _ _ H) as (qs & Hm & Hwt & ->).
      exists (q :: qs). rewrite Hm. cbn [forallb flat_map].
      assert (Hq : orWellTyped q = true) by (unfold orWellTyped; now rewrite E, L, A).
      assert (Hd : disjuncts q = ds) by (unfold disjuncts; now rewrite E, L, A).
      rewrite Hq, Hd, Hwt. repeat split; auto. now rewrite app_assoc.
    + intros H. destruct (IH _ _ H) as (qs & Hm & Hwt & ->).
      exists (q :: qs). rewrite Hm. cbn [forallb flat_map].
      assert (Hq : orWellTyped q = true) by (unfold orWellTyped; now rewrite E).
      assert (Hd : disjuncts q = [q]) by (unfold disjuncts; now rewrite E).
      rewrite Hq, Hd, Hwt. repeat split; auto. now rewrite <- app_assoc.
Qed.

Lemma orPaths_inv paths q :
  orPaths objFunc paths = Ok q ->
  exists qs, mapResult objFunc paths = Ok qs
             /\ forallb orWellTyped qs = true
             /\ q = disjunction (flat_map disjuncts qs).
Proof.
  unfold orPaths.
  destruct (orPathsLoop objFunc paths []) as [rs|e] eqn:E; [|discriminate].
  destruct (orPathsLoop_inv _ _ _ E) as (qs & Hm & Hwt & ->). simpl.
  intros H. exists qs. repeat split; auto.
  destruct (flat_map disjuncts qs) as [|r [|r' rs']]; now inversion H.
Qed.
End OrPathsFacts.

(** With one path the per-path document comes back as it is, unless it is
    just an [$or] of exactly one branch. *)
Lemma disjunction_single (q : Doc) :
  orWellTyped q = true ->
  (forall b, q <> [("$or", VArr [VDoc b])]) ->
  disjunction (flat_map disjuncts [q]) = q.
Proof.
  intros Hwt Hne. simpl. rewrite app_nil_r. revert Hwt.
  unfold orWellTyped, disjuncts.
  destruct ((length q =? 1)%nat && doc_nonnil "$or" q) eqn:E; [|reflexivity].
  apply andb_true_iff in E as [Hlen _]. apply Nat.eqb_eq in Hlen.
  destruct (doc_lookup "$or" q) as [[| | | | | | | |nested]|] eqn:L; try discriminate.
  destruct (asDocs nested) as [ds|] eqn:A; [|discriminate]. intros _.
  pose proof (doc_single _ _ _ Hlen L) as Hq.
  pose proof (asDocs_map _ _ A) as Hds.
  destruct ds as [|b [|b' ds]].
  - simpl in Hds. subst nested. now rewrite Hq.
  - simpl in Hds. subst nested. now destruct (Hne b).
  - cbn [disjunction]. unfold docArray. now rewrite Hds, Hq.
Qed.

(** C3 (as amended): when the per-path builder succeeds on every path (and
    binds a sole [$or] to a slice of documents), [orPaths] returns the
    disjunction of the flattened per-path predicates, bare when there is
    exactly one disjunct; the document is satisfied exactly when some
    per-path predicate is; and with a single path the per-path document is
    returned as it is, unless it is just an [$or] with exactly one branch. *)
Theorem orPaths_disjunction_of_paths
    (objFunc : SearchParamPath -> Result Doc) (paths : list SearchParamPath)
    (qs : list Doc) :
  mapResult objFunc paths = Ok qs ->
  forallb orWellTyped qs = true ->
  orPaths objFunc paths = Ok (disjunction (flat_map disjuncts qs))
  /\ (forall Stored field_sat d,
        satResult Stored field_sat d (orPaths objFunc paths)
        = existsb (satDoc Stored field_sat d) qs)
  /\ (forall q, qs = [q] ->
        (forall b, q <> [("$or", VArr [VDoc b])]) ->
        orPaths objFunc paths = Ok q).
Proof.
  intros Hm Hwt.
  assert (Hor : orPaths objFunc paths = Ok (disjunction (flat_map disjuncts qs))).
  { unfold orPaths. rewrite (orPathsLoop_ok objFunc paths qs []) by assumption.
    simpl. now destruct (flat_map disjuncts qs) as [|r [|r' rs]]. }
  split; [exact Hor|]. split.
  - intros Stored field_sat d. rewrite Hor. simpl.
    rewrite satDoc_disjunction. now apply exists_sat_flat_map.
  - intros q -> Hne. rewrite Hor. f_equal.
    apply disjunction_single; [|assumption].
    simpl in Hwt. now apply andb_true_iff in Hwt as [Hq _].
Qed.

Lemma orPaths_disjunction_of_paths_witness :
  let objFunc := fun p => buildBSON (Path p) (VString "x") in
  let paths := [mkPath "[]name" "string"; mkPath "alias" "string"] in
  orPaths objFunc paths
  = Ok [("$or", docArray [[("name", VString "x")]; [("alias", VString "x")]])]
  /\ orPaths objFunc [mkPath "alias" "string"] = Ok [("alias", VString "x")].
Proof.
  intros objFunc paths. split.
  - exact (proj1 (orPaths_disjunction_of_paths objFunc paths
             [[("name", VString "x")]; [("alias", VString "x")]]
             eq_refl eq_refl)).
  - refine (proj2 (proj2 (orPaths_disjunction_of_paths objFunc
             [mkPath "alias" "string"] [[("alias", VString "x")]]
             eq_refl eq_refl)) _ eq_refl _).
    intros b. discriminate.
Defined.

(** C3 (as stated) fails for a single path whose predicate is just an [$or]
    of one branch: the branch is lifted into the outer list, the list has
    one element, and that element is returned instead of the predicate. *)
Lemma orPaths_single_path_not_as_is :
  let objFunc := fun _ : SearchParamPath =>
                   Ok [("$or", docArray [[("a", VInt 1%Z)]])] in
  let p := mkPath "a" "string" in
  orPaths objFunc [p] = Ok [("a", VInt 1%Z)]
  /\ orPaths objFunc [p] <> objFunc p
  /\ ~ (forall (f : SearchParamPath -> Result Doc) (p1 : SearchParamPath),
          orPaths f [p1] = f p1).
Proof.
  intros objFunc p. split; [reflexivity|]. split; [discriminate|].
  intros H. specialize (H objFunc p). discriminate.
Qed.

(** ** [merge] *)

Lemma andBranches_insert (ds : list Doc) (m : Doc) :
  andBranches (doc_insert "$and" (docArray ds) m) = ds.
Proof.
  unfold andBranches, docArray. rewrite doc_lookup_insert_eq.
  now rewrite asDocs_docs.
Qed.

(** The loop keeps every binding of [into] and only extends the list. *)
Lemma mergeLoop_keeps from : forall into and into' and',
  mergeLoop from into and = Ok (into', and') ->
  (forall k v, doc_lookup k into = Some v -> doc_lookup k into' = Some v)
  /\ (forall k, doc_lookup k into = None -> ~ In k (doc_keys from) ->
        doc_lookup k into' = None)
  /\ doc_lookup "$and" into' = doc_lookup "$and" into
  /\ exists extra, and' = and ++ extra.
Proof.
  induction from as [|[k0 v0] from IH]; intros into and into' and'; simpl.
  - intros [= <- <-]. split; [auto|]. split; [auto|]. split; [auto|].
    exists []. now rewrite app_nil_r.
  - destruct (String.eqb_spec k0 "$and") as [->|Hk0].
    + destruct v0; try discriminate.
      destruct (asDocs l) as [bs|]; [|discriminate].
      intros H. destruct (IH _ _ _ _ H) as (K1 & K2 & K3 & extra & ->).
      split; [exact K1|]. split; [|split; [exact K3|]].
      * intros k Hn Hni. apply K2; tauto.
      * exists (bs ++ extra). now rewrite app_assoc.
    + destruct (doc_has k0 into) eqn:Eh.
      * intros H. destruct (IH _ _ _ _ H) as (K1 & K2 & K3 & extra & ->).
        split; [exact K1|]. split; [|split; [exact K3|]].
        -- intros k Hn Hni. apply K2; tauto.
        -- exists ([[(k0, v0)]] ++ extra). now rewrite app_assoc.
      * intros H. destruct (IH _ _ _ _ H) as (K1 & K2 & K3 & extra & ->).
        split; [|split; [|split]].
        -- intros k v Hl. apply K1. rewrite doc_lookup_insert_ne; [assumption|].
           intros ->. unfold doc_has in Eh. now rewrite Hl in Eh.
        -- intros k Hn Hni. apply K2; [|tauto].
           rewrite doc_lookup_insert_ne; [assumption|]. intros ->. apply Hni. now left.
        -- rewrite K3. apply doc_lookup_insert_ne. congruence.
        -- now exists extra.
Qed.

Lemma mergeLoop_conflict from : forall into and into' and' k v,
  mergeLoop from into and = Ok (into', and') ->
  In (k, v) from -> k <> "$and" -> doc_has k into = true ->
  In [(k, v)] and'.
Proof.
  induction from as [|[k0 v0] from IH]; intros into and into' and' k v; simpl.
  - intros _ [].
  - intros H Hin Hk Hhas.
    destruct (String.eqb_spec k0 "$and") as [->|Hk0].
    + destruct v0; try discriminate.
      destruct (asDocs l) as [bs|]; [|discriminate].
      destruct Hin as [[= <- _]|Hin]; [congruence|]. eauto.
    + destruct (doc_has k0 into) eqn:Eh.
      * destruct Hin as [[= -> ->]|Hin]; [|eauto].
        destruct (mergeLoop_keeps _ _ _ _ _ H) as (_ & _ & _ & extra & ->).
        apply in_or_app. left. apply in_or_app. right. now left.
      * destruct Hin as [[= -> ->]|Hin]; [congruence|].
        eapply IH; eauto. rewrite doc_has_insert, Hhas. apply orb_true_r.
Qed.

Lemma mergeLoop_and from : forall into and into' and' l bs,
  mergeLoop from into and = Ok (into', and') ->
  In ("$and", VArr l) from -> asDocs l = Some bs ->
  incl bs and'.
Proof.
  induction from as [|[k0 v0] from IH]; intros into and into' and' l bs; simpl.
  - intros _ [].
  - intros H Hin Hbs.
    destruct (String.eqb_spec k0 "$and") as [->|Hk0].
    + destruct v0 as [| | | | | | | |l0]; try discriminate.
      destruct (asDocs l0) as [bs0|] eqn:E0; [|discriminate].
      destruct Hin as [[= ->]|Hin]; [|eauto].
      rewrite Hbs in E0. injection E0 as <-.
      destruct (mergeLoop_keeps _ _ _ _ _ H) as (_ & _ & _ & extra & ->).
      intros x Hx. apply in_or_app. left. apply in_or_app. now right.
    + destruct Hin as [[= -> _]|Hin]; [congruence|].
      destruct (doc_has k0 into); eauto.
Qed.

Lemma mergeLoop_fresh from : forall into and into' and' k v,
  mergeLoop from into and = Ok (into', and') ->
  NoDup (doc_keys from) ->
  In (k, v) from -> k <> "$and" -> doc_has k into = false ->
  doc_lookup k into' = Some v.
Proof.
  induction from as [|[k0 v0] from IH]; intros into and into' and' k v; simpl.
  - intros _ _ [].
  - intros H Hnd Hin Hk Hhas. inversion Hnd as [|? ? Hni Hnd']; subst.
    assert (Hother : In (k, v) from -> k <> k0).
    { intros Hin' ->. apply Hni, list_elem_of_In. unfold doc_keys.
      apply in_map_iff. now exists (k0, v). }
    destruct (String.eqb_spec k0 "$and") as [->|Hk0].
    + destruct v0; try discriminate.
      destruct (asDocs l) as [bs|]; [|discriminate].
      destruct Hin as [[= <- _]|Hin]; [congruence|]. eauto.
    + destruct (doc_has k0 into) eqn:Eh.
      * destruct Hin as [[= -> ->]|Hin]; [congruence|]. eauto.
      * destruct Hin as [[= -> ->]|Hin].
        -- destruct (mergeLoop_keeps _ _ _ _ _ H) as (K1 & _).
           apply K1, doc_lookup_insert_eq.
        -- eapply IH; eauto. rewrite doc_has_insert, Hhas.
           apply Hother in Hin. apply String.eqb_neq in Hin. now rewrite Hin.
Qed.

(** [merge] read as its loop. *)
Lemma merge_inv into from r :
  merge into from = Ok r ->
  andWellTyped into = true
  /\ exists into' and',
       mergeLoop from into (andBranches into) = Ok (into', and')
       /\ r = if (0 <? length and')%nat
              then doc_insert "$and" (docArray and') into' else into'.
Proof.
  unfold merge, andWellTyped, andBranches.
  destruct (doc_lookup "$and" into) as [[| | | | | | | |l]|]; try discriminate.
  - destruct (asDocs l) as [ds|]; [|discriminate].
    destruct (mergeLoop from into ds) as [[into' and']|]; [|discriminate].
    intros H. split; [reflexivity|]. exists into', and'. split; [reflexivity|].
    destruct (0 <? length and')%nat; now inversion H.
  - destruct (mergeLoop from into []) as [[into' and']|]; [|discriminate].
    intros H. split; [reflexivity|]. exists into', and'. split; [reflexivity|].
    destruct (0 <? length and')%nat; now inversion H.
Qed.

Lemma merge_follows_rules into from r :
  merge into from = Ok r -> NoDup (doc_keys from) -> merge_rules into from r.
Proof.
  intros H Hnd. destruct (merge_inv _ _ _ H) as (Hwt & into' & and' & Hloop & ->).
  pose proof (mergeLoop_keeps _ _ _ _ _ Hloop) as (K1 & K2 & K3 & extra & Hand).
  assert (Hbr : andBranches
                  (if (0 <? length and')%nat
                   then doc_insert "$and" (docArray and') into' else into') = and').
  { destruct (0 <? length and')%nat eqn:E.
    - apply andBranches_insert.
    - apply Nat.ltb_ge in E. destruct and'; [|simpl in E; lia].
      symmetry in Hand. apply app_eq_nil in Hand as [Hand _].
      unfold andBranches in *. rewrite K3. exact Hand. }
  unfold merge_rules. rewrite Hbr.
  split; [|split; [|split; [|split]]].
  - intros k v Hk Hl. destruct (0 <? length and')%nat; [|now apply K1].
    rewrite doc_lookup_insert_ne by assumption. now apply K1.
  - intros k v Hin Hk Hhas. eapply mergeLoop_conflict; eauto.
  - intros l bs Hin Hbs. eapply mergeLoop_and; eauto.
  - intros k v Hin Hk Hhas.
    pose proof (mergeLoop_fresh _ _ _ _ _ _ _ Hloop Hnd Hin Hk Hhas) as Hl.
    destruct (0 <? length and')%nat; [|assumption].
    now rewrite doc_lookup_insert_ne.
  - rewrite Hand. intros x Hx. apply in_or_app. now left.
Qed.

Lemma distinct_NoDup (keys : list string) : distinct keys = true -> NoDup keys.
Proof.
  induction keys as [|k keys IH]; simpl; [constructor|].
  intros [Hk Hd]%andb_true_iff. constructor; [|auto].
  intros Hin%list_elem_of_In. apply negb_true_iff in Hk.
  assert (existsb (String.eqb k) keys = true); [|congruence].
  apply existsb_exists. exists k. split; [assumption | apply String.eqb_refl].
Qed.

Lemma andEntriesTyped_lookup (q : Doc) :
  andEntriesTyped q = true -> andWellTyped q = true.
Proof.
  unfold andWellTyped, andEntriesTyped.
  induction q as [|[k v] q IH]; cbn [doc_lookup forallb fst snd]; [reflexivity|].
  intros [Hkv Hq]%andb_true_iff.
  rewrite String.eqb_sym. destruct (String.eqb k "$and"); [|auto].
  destruct v; try discriminate. exact Hkv.
Qed.

Section MergeMeaning.
Variable Stored : Type.
Variable field_sat : Stored -> string -> Value -> bool.
Abbreviation satDoc := (satDoc Stored field_sat).
Abbreviation entry_sat := (entry_sat Stored field_sat).

Lemma entry_sat_and d (ds : list Doc) :
  entry_sat d ("$and", docArray ds) = forallb (satDoc d) ds.
Proof. unfold entry_sat, docArray. simpl. apply forall_sat_docs. Qed.

Lemma satDoc_single d k v : satDoc d [(k, v)] = entry_sat d (k, v).
Proof. rewrite satDoc_cons. apply andb_true_r. Qed.

Lemma satDoc_insert_fresh d k v (m : Doc) :
  doc_has k m = false ->
  satDoc d (doc_insert k v m) = satDoc d m && entry_sat d (k, v).
Proof.
  unfold doc_has. induction m as [|[k' v'] m IH]; simpl.
  - intros _. rewrite satDoc_cons. apply andb_comm.
  - destruct (String.eqb k k'); [discriminate|]. intros H.
    rewrite !satDoc_cons, IH by assumption. apply andb_assoc.
Qed.

Lemma satDoc_and_replace d (m : Doc) (extra : list Doc) :
  andWellTyped m = true ->
  satDoc d (doc_insert "$and" (docArray (andBranches m ++ extra)) m)
  = satDoc d m && forallb (satDoc d) extra.
Proof.
  unfold andWellTyped, andBranches.
  induction m as [|[k' v'] m IH]; cbn [doc_lookup doc_insert].
  - intros _. rewrite satDoc_cons, entry_sat_and. simpl. apply andb_true_r.
  - destruct (String.eqb "$and" k') eqn:E.
    + apply String.eqb_eq in E. subst k'.
      destruct v' as [| | | | | | | |l]; try discriminate.
      destruct (asDocs l) as [ds|] eqn:A; [|discriminate]. intros _.
      rewrite !satDoc_cons, entry_sat_and, forallb_app.
      rewrite <- (asDocs_map _ _ A).
      change (VArr (map VDoc ds)) with (docArray ds). rewrite entry_sat_and.
      destruct (forallb (satDoc d) ds), (forallb (satDoc d) extra),
        (satDoc d m); reflexivity.
    + intros H. rewrite !satDoc_cons, IH by assumption. apply andb_assoc.
Qed.

Lemma mergeLoop_sat d from : forall into and into' and',
  mergeLoop from into and = Ok (into', and') ->
  exists extra,
    and' = and ++ extra
    /\ satDoc d into' && forallb (satDoc d) extra = satDoc d into && satDoc d from.
Proof.
  induction from as [|[k0 v0] from IH]; intros into and into' and';
    cbn [mergeLoop].
  - intros [= <- <-]. exists []. rewrite app_nil_r. split; reflexivity.
  - rewrite (satDoc_cons _ _ d (k0, v0) from).
    destruct (String.eqb k0 "$and") eqn:E.
    + apply String.eqb_eq in E. subst k0.
      destruct v0 as [| | | | | | | |l]; try discriminate.
      destruct (asDocs l) as [bs|] eqn:A; [|discriminate].
      intros H. destruct (IH _ _ _ _ H) as (extra & -> & Hs).
      exists (bs ++ extra). split; [now rewrite app_assoc|].
      rewrite forallb_app, <- (asDocs_map _ _ A).
      change (VArr (map VDoc bs)) with (docArray bs). rewrite entry_sat_and.
      destruct (forallb (satDoc d) bs); simpl.
      * exact Hs.
      * now rewrite !andb_false_r.
    + destruct (doc_has k0 into) eqn:Eh.
      * intros H. destruct (IH _ _ _ _ H) as (extra & -> & Hs).
        exists ([(k0, v0)] :: extra). split; [now rewrite <- app_assoc|].
        cbn [forallb]. rewrite (satDoc_single d k0 v0).
        destruct (entry_sat d (k0, v0)); simpl.
        -- exact Hs.
        -- now rewrite !andb_false_r.
      * intros H. destruct (IH _ _ _ _ H) as (extra & -> & Hs).
        exists extra. split; [reflexivity|].
        rewrite Hs, satDoc_insert_fresh by assumption. now rewrite andb_assoc.
Qed.

Lemma merge_sat d into from r :
  merge into from = Ok r -> satDoc d r = satDoc d into && satDoc d from.
Proof.
  intros H. destruct (merge_inv _ _ _ H) as (Hwt & into' & and' & Hloop & ->).
  destruct (mergeLoop_keeps _ _ _ _ _ Hloop) as (_ & _ & K3 & _).
  destruct (mergeLoop_sat d _ _ _ _ _ Hloop) as (extra & -> & Hs).
  assert (Hbr : andBranches into = andBranches into')
    by (unfold andBranches; now rewrite K3).
  assert (Hwt' : andWellTyped into' = true)
    by (unfold andWellTyped in *; now rewrite K3).
  destruct (0 <? length (andBranches into ++ extra))%nat eqn:E.
  - rewrite Hbr, satDoc_and_replace by assumption. exact Hs.
  - apply Nat.ltb_ge in E. rewrite length_app in E.
    destruct extra; [|simpl in E; lia].
    rewrite <- Hs. simpl. now rewrite andb_true_r.
Qed.

Lemma mergeAll_sat d objects : forall acc r,
  mergeAll objects acc = Ok r ->
  satDoc d r = satDoc d acc && forallb (satDoc d) objects.
Proof.
  induction objects as [|p objects IH]; intros acc r; simpl.
  - intros [= <-]. now rewrite andb_true_r.
  - destruct (merge acc p) as [acc'|] eqn:E; [|discriminate].
    intros H. rewrite (IH _ _ H), (merge_sat d _ _ _ E). now rewrite andb_assoc.
Qed.
End MergeMeaning.

(** [merge] cannot fail on well-typed conjunction lists. *)
Lemma mergeLoop_total from : forall into and,
  andEntriesTyped from = true ->
  exists into' and', mergeLoop from into and = Ok (into', and').
Proof.
  induction from as [|[k0 v0] from IH]; intros into and; simpl.
  - intros _. now exists into, and.
  - intros [Hkv Hq]%andb_true_iff.
    destruct (String.eqb k0 "$and").
    + destruct v0 as [| | | | | | | |l]; try discriminate.
      destruct (asDocs l) as [bs|]; [|discriminate]. now apply IH.
    + destruct (doc_has k0 into); now apply IH.
Qed.

Lemma merge_total into from :
  andWellTyped into = true -> andEntriesTyped from = true ->
  exists r, merge into from = Ok r /\ andWellTyped r = true.
Proof.
  intros Hwt Hfrom. unfold merge.
  assert (Hand : match doc_lookup "$and" into with
                 | Some (VArr l) =>
                     match asDocs l with
                     | Some intoAnd => Ok intoAnd
                     | None => Panic (RuntimePanic "interface conversion: not a []bson.M")
                     end
                 | Some _ => Panic (RuntimePanic "interface conversion: not a []bson.M")
                 | None => Ok []
                 end = Ok (andBranches into)).
  { unfold andWellTyped, andBranches in *.
    destruct (doc_lookup "$and" into) as [[| | | | | | | |l]|]; try discriminate;
      [|reflexivity].
    now destruct (asDocs l). }
  rewrite Hand.
  destruct (mergeLoop_total from into (andBranches into) Hfrom)
    as (into' & and' & Hloop).
  rewrite Hloop.
  destruct (mergeLoop_keeps _ _ _ _ _ Hloop) as (_ & _ & K3 & _).
  destruct (0 <? length and')%nat; eexists; split; try reflexivity.
  - unfold andWellTyped, docArray. rewrite doc_lookup_insert_eq.
    now rewrite asDocs_docs.
  - unfold andWellTyped in *. now rewrite K3.
Qed.

Lemma mergeSteps_total objects : forall acc,
  andWellTyped acc = true ->
  forallb mergeable objects = true ->
  exists r steps,
    mergeAll objects acc = Ok r
    /\ mergeSteps objects acc = Ok steps
    /\ map (fun s => snd (fst s)) steps = objects
    /\ Forall (fun s => merge (fst (fst s)) (snd (fst s)) = Ok (snd s)
                        /\ merge_rules (fst (fst s)) (snd (fst s)) (snd s)
                        /\ forall k v, k <> "$and" ->
                             doc_lookup k (snd s) = Some v ->
                             doc_lookup k r = Some v) steps
    /\ forall k v, k <> "$and" -> doc_lookup k acc = Some v -> doc_lookup k r = Some v.
Proof.
  induction objects as [|p objects IH]; intros acc Hwt; simpl.
  - intros _. exists acc, []. repeat split; auto.
  - intros [[Hd Ht]%andb_true_iff Hrest]%andb_true_iff.
    destruct (merge_total acc p Hwt Ht) as (acc' & Hm & Hwt').
    rewrite Hm.
    destruct (IH acc' Hwt' Hrest) as (r & steps & Hall & Hsteps & Hmap & Hforall & Hkeep).
    rewrite Hall, Hsteps. exists r, ((acc, p, acc') :: steps).
    pose proof (merge_follows_rules _ _ _ Hm (distinct_NoDup _ Hd)) as Hrules.
    split; [reflexivity|]. split; [reflexivity|].
    split; [simpl; now rewrite Hmap|]. split.
    + constructor; [|assumption]. simpl. split; [assumption|]. split; [assumption|].
      exact Hkeep.
    + intros k v Hk Hl. apply Hkeep; [assumption|].
      destruct Hrules as (R1 & _). now apply R1.
Qed.

(** C2: for every list of per-parameter predicate documents (each a map,
    with any [$and] it carries a slice of documents), the merge succeeds;
    every step follows the merge rules (bindings stay, an incoming binding
    of a bound key moves into the pending conjunction list that is attached
    as the top-level [$and], incoming [$and] branches are appended to it,
    unbound keys are inserted); a binding, once made, reaches the final
    document unchanged; and the final document is satisfied exactly by the
    stored documents that satisfy every one of the merged documents. *)
Theorem merge_never_overwrites (objects : list Doc) :
  forallb mergeable objects = true ->
  exists r steps,
    mergeAll objects [] = Ok r
    /\ mergeSteps objects [] = Ok steps
    /\ map (fun s => snd (fst s)) steps = objects
    /\ Forall (fun s => merge (fst (fst s)) (snd (fst s)) = Ok (snd s)
                        /\ merge_rules (fst (fst s)) (snd (fst s)) (snd s)
                        /\ forall k v, k <> "$and" ->
                             doc_lookup k (snd s) = Some v ->
                             doc_lookup k r = Some v) steps
    /\ forall Stored field_sat d,
         satDoc Stored field_sat d r = forallb (satDoc Stored field_sat d) objects.
Proof.
  intros H.
  destruct (mergeSteps_total objects [] eq_refl H)
    as (r & steps & Hall & Hsteps & Hmap & Hforall & _).
  exists r, steps. repeat (split; [assumption|]).
  intros Stored field_sat d. now rewrite (mergeAll_sat _ _ d _ _ _ Hall).
Qed.

Lemma merge_never_overwrites_witness :
  let objects := [[("gender", VString "male")];
                  [("birthDate.__from", VDoc [("$gte", VTime 0%Z)])];
                  [("gender", VString "female")]] in
  exists r,
    mergeAll objects [] = Ok r
    /\ r = [("gender", VString "male");
            ("birthDate.__from", VDoc [("$gte", VTime 0%Z)]);
            ("$and", docArray [[("gender", VString "female")]])]
    /\ satDoc Doc flat_field_sat
         [("gender", VString "male"); ("birthDate.__from", VTime 5%Z)] r = false.
Proof.
  intros objects.
  destruct (merge_never_overwrites objects eq_refl)
    as (r & steps & Hall & _ & _ & _ & Hsat).
  exists r. split; [exact Hall|]. split.
  - vm_compute in Hall. now injection Hall as <-.
  - rewrite Hsat. reflexivity.
Defined.

(** ** [buildBSON] on paths without brackets *)

Lemma lastMarkerSplit_no_open (p : string) : no_open p = true -> lastMarkerSplit p = None.
Proof.
  induction p as [|c p IH]; simpl; [reflexivity|].
  intros [Hc Hp]%andb_true_iff. apply negb_true_iff in Hc.
  rewrite (IH Hp), Hc. destruct (is_newline c); now destruct p.
Qed.

Lemma findArrayPath_no_open (p : string) : no_open p = true -> findArrayPath p = None.
Proof.
  induction p as [|c p IH]; [reflexivity|].
  intros H. cbn [findArrayPath]. unfold matchArrayPath.
  rewrite lastMarkerSplit_no_open by assumption.
  simpl in H. apply andb_true_iff in H as [_ Hp]. now apply IH.
Qed.

Lemma buildBSON_plain (p : string) (c : Doc) :
  no_open p = true -> buildBSON p (VDoc c) = projectCriteria buildBSON p c [].
Proof.
  intros H. cbn [buildBSON].
  rewrite convert_no_open, findArrayPath_no_open, normalise_no_open by assumption.
  reflexivity.
Qed.

Lemma sapp_eqb_prefix (p a b : string) :
  String.eqb (p +:+ a) (p +:+ b) = String.eqb a b.
Proof.
  induction p as [|c p IH]; simpl; [reflexivity|].
  now rewrite Ascii.eqb_refl.
Qed.

Lemma sapp_eqb_self_ne (p : string) (c : ascii) (a : string) :
  String.eqb p (p +:+ String c a) = false.
Proof.
  induction p as [|x p IH]; simpl; [reflexivity|].
  now rewrite Ascii.eqb_refl.
Qed.

(** A field of a path bound to a document of operators. *)
Lemma buildBSON_plain_field (p k : string) (c : ascii) (k' : string) (v : Value) :
  no_open p = true -> k = String c k' -> Ascii.eqb c "$" = false ->
  buildBSON p (VDoc [(k, v)]) = Ok [(p +:+ "." +:+ k, v)].
Proof.
  intros H -> Hc. rewrite buildBSON_plain by assumption.
  cbn [projectCriteria isQueryOperator]. now rewrite Hc.
Qed.

Lemma no_open_event (p : string) : no_open p = true -> no_open (p +:+ ".event") = true.
Proof. intros H. now rewrite no_open_app, H. Qed.

(** A dotted field name is none of the undotted operator names. *)
Lemma dotted_eqb_undotted (p s k : string) :
  forall_chars (fun c => negb (is_dot c)) k = true ->
  String.eqb (p +:+ String "." s) k = false.
Proof.
  revert k.
  induction p as [|x p IH]; intros [|c k];
    cbn [String.append String.eqb forall_chars]; try reflexivity.
  - intros [Hc _]%andb_true_iff. unfold is_dot in Hc.
    apply negb_true_iff in Hc. rewrite Ascii.eqb_sym, Hc. reflexivity.
  - intros [_ Hk]%andb_true_iff. rewrite (IH k Hk). now destruct (Ascii.eqb x c).
Qed.

(** ** Dates *)

Section DateTable.
Variable d : SearchParamInfo.
Variable date : Date.
Let low := DateRangeLowIncl date.
Let high := DateRangeHighExcl date.

Lemma dateSelector_plain (p : string) (stored : Doc) (from to : Time) :
  no_open p = true ->
  storesBounds stored p from to ->
  match datePrefixHolds (Prefix_ d) low high from to with
  | Some holds =>
      exists q, (do c <- dateSelector d date; buildBSON p c) = Ok q
                /\ orWellTyped q = true
                /\ satDoc Doc flat_field_sat stored q = holds
  | None =>
      (do c <- dateSelector d date; buildBSON p c) = unsupportedContent (Name d)
  end.
Proof.
  intros Hp [Hfrom Hto].
  assert (Hor : forall s, String.eqb (p +:+ String "." s) "$or" = false)
    by (intros; now apply dotted_eqb_undotted).
  assert (Hor' : forall s, String.eqb "$or" (p +:+ String "." s) = false)
    by (intros; rewrite String.eqb_sym; now apply dotted_eqb_undotted).
  assert (Hand : forall s, String.eqb (p +:+ String "." s) "$and" = false)
    by (intros; now apply dotted_eqb_undotted).
  unfold datePrefixHolds, dateSelector, EQ, GT, LT, GE, LE, SA, EB.
  repeat match goal with
         | |- context [String.eqb (Prefix_ d) ?s] =>
             destruct (String.eqb (Prefix_ d) s)
         end;
    try reflexivity;
    rewrite ?buildBSON_plain by assumption;
    cbn [projectCriteria isQueryOperator Ascii.eqb Bool.eqb doc_insert
         processQueryOperatorCriteria processOrCriteria String.eqb asDocs asDoc
         docArray map mapResult];
    rewrite ?buildBSON_plain by assumption;
    cbn [projectCriteria isQueryOperator Ascii.eqb Bool.eqb doc_insert];
    rewrite ?sapp_eqb_prefix; cbn [String.eqb Ascii.eqb Bool.eqb];
    eexists; (split; [reflexivity|]);
    change ("." +:+ "__from") with (String "." "__from") in *;
    change ("." +:+ "__to") with (String "." "__to") in *;
    (split;
     [ unfold orWellTyped, doc_nonnil;
       cbn [length Nat.eqb andb doc_lookup];
       rewrite ?Hor'; reflexivity
     | unfold satDoc, docArray;
       cbn [sat map forallb existsb fst snd String.eqb Ascii.eqb Bool.eqb];
       rewrite ?Hor, ?Hand; unfold flat_field_sat; rewrite ?Hfrom, ?Hto;
       cbn [forallb compare_sat fst snd String.eqb Ascii.eqb Bool.eqb];
       fold low high;
       rewrite ?andb_true_r, ?orb_false_r; reflexivity ]).
Qed.
End DateTable.

(** The meaning of [orPaths], for any reading of the fields. *)
Lemma orPaths_sat (objFunc : SearchParamPath -> Result Doc) paths qs
    Stored field_sat (d : Stored) :
  mapResult objFunc paths = Ok qs ->
  forallb orWellTyped qs = true ->
  is_ok (orPaths objFunc paths) = true
  /\ satResult Stored field_sat d (orPaths objFunc paths)
     = existsb (satDoc Stored field_sat d) qs.
Proof.
  intros Hm Hwt. unfold orPaths.
  rewrite (orPathsLoop_ok objFunc paths qs []) by assumption. simpl.
  rewrite <- (exists_sat_flat_map Stored field_sat d qs Hwt).
  rewrite <- satDoc_disjunction.
  now destruct (flat_map disjuncts qs) as [|r [|r' rs]].
Qed.

Lemma orPaths_first_panics (objFunc : SearchParamPath -> Result Doc) p rest e :
  objFunc p = Panic e -> orPaths objFunc (p :: rest) = Panic e.
Proof. intros H. unfold orPaths. simpl. now rewrite H. Qed.

(** C4: for a date parameter on a path of type date or dateTime the criteria
    are read from the prefix table below and projected on the path; on a
    Timing path the same criteria are projected on the path extended with
    [.event]; and, read against a stored target with bounds [from] and [to]
    on a field without array brackets, the emitted predicate holds exactly
    when the prefix table of the specification says so ([eq]: from >= low
    and to <= high; [gt]: to > high; [lt]: from < low; [ge]: to >= high or
    from >= low; [le]: from <= low or to <= high; [sa]: from > high; [eb]:
    to < low). *)
Theorem date_prefix_table (d : SearchParamInfo) (date : Date) (p : SearchParamPath) :
  String.eqb (Type_ p) "date" || String.eqb (Type_ p) "dateTime"
    || String.eqb (Type_ p) "Timing" = true ->
  let low := DateRangeLowIncl date in
  let high := DateRangeHighExcl date in
  (* the criteria, prefix by prefix *)
  (Prefix_ d = EQ -> dateSelector d date
     = Ok (VDoc [("__from", VDoc [("$gte", VTime low)]);
                 ("__to", VDoc [("$lte", VTime high)])]))
  /\ (Prefix_ d = GT -> dateSelector d date
        = Ok (VDoc [("__to", VDoc [("$gt", VTime high)])]))
  /\ (Prefix_ d = LT -> dateSelector d date
        = Ok (VDoc [("__from", VDoc [("$lt", VTime low)])]))
  /\ (Prefix_ d = GE -> dateSelector d date
        = Ok (VDoc [("$or", docArray [[("__to", VDoc [("$gte", VTime high)])];
                                      [("__from", VDoc [("$gte", VTime low)])]])]))
  /\ (Prefix_ d = LE -> dateSelector d date
        = Ok (VDoc [("$or", docArray [[("__from", VDoc [("$lte", VTime low)])];
                                      [("__to", VDoc [("$lte", VTime high)])]])]))
  /\ (Prefix_ d = SA -> dateSelector d date
        = Ok (VDoc [("__from", VDoc [("$gt", VTime high)])]))
  /\ (Prefix_ d = EB -> dateSelector d date
        = Ok (VDoc [("__to", VDoc [("$lt", VTime low)])]))
  (* the projection, for every path *)
  /\ dateSingle d date p = (do c <- dateSelector d date; buildBSON (dateField p) c)
  (* the meaning, on a field without array brackets *)
  /\ (forall stored from to,
        Paths d = [p] ->
        no_open (Path p) = true ->
        storesBounds stored (dateField p) from to ->
        match datePrefixHolds (Prefix_ d) low high from to with
        | Some holds =>
            is_ok (createDateQueryObject d date) = true
            /\ satResult Doc flat_field_sat stored (createDateQueryObject d date) = holds
        | None => createDateQueryObject d date = unsupportedContent (Name d)
        end).
Proof.
  intros Hty low high.
  assert (Hsingle : dateSingle d date p
                    = (do c <- dateSelector d date; buildBSON (dateField p) c)).
  { unfold dateSingle, dateField.
    destruct (String.eqb_spec (Type_ p) "date") as [E|_]; [now rewrite E|].
    destruct (String.eqb_spec (Type_ p) "dateTime") as [E|_]; [now rewrite E|].
    destruct (String.eqb_spec (Type_ p) "Timing") as [E|_]; [|discriminate].
    now rewrite E. }
  repeat (split; [intros E; unfold dateSelector; rewrite E; reflexivity|]).
  split; [exact Hsingle|].
  intros stored from to HP Hp Hst.
  assert (Hfield : no_open (dateField p) = true).
  { unfold dateField. destruct (String.eqb (Type_ p) "Timing"); [|assumption].
    now apply no_open_event. }
  pose proof (dateSelector_plain d date (dateField p) stored from to Hfield Hst) as H.
  fold low high in H. unfold createDateQueryObject. rewrite HP.
  destruct (datePrefixHolds (Prefix_ d) low high from to) as [holds|].
  - destruct H as (q & Hq & Hwt & Hsat). rewrite <- Hsingle in Hq.
    destruct (orPaths_sat (dateSingle d date) [p] [q] Doc flat_field_sat stored)
      as [Hok Hs].
    + simpl. now rewrite Hq.
    + simpl. now rewrite Hwt.
    + split; [exact Hok|]. rewrite Hs. simpl. now rewrite orb_false_r.
  - apply orPaths_first_panics. now rewrite Hsingle.
Qed.

Lemma date_prefix_table_witness :
  let d := mkInfo "Patient" "birthdate" "date" [mkPath "birthDate" "date"] [] GE "" in
  let date := mkDate 1970%Z 1971%Z in
  createDateQueryObject d date
  = Ok [("$or", docArray [[("birthDate.__to", VDoc [("$gte", VTime 1971%Z)])];
                          [("birthDate.__from", VDoc [("$gte", VTime 1970%Z)])]])]
  /\ satResult Doc flat_field_sat
       [("birthDate.__from", VTime 1970%Z); ("birthDate.__to", VTime 1971%Z)]
       (createDateQueryObject d date) = true
  /\ satResult Doc flat_field_sat
       [("birthDate.__from", VTime 1960%Z); ("birthDate.__to", VTime 1961%Z)]
       (createDateQueryObject d date) = false.
Proof.
  intros d date. split; [reflexivity|].
  destruct (date_prefix_table d date (mkPath "birthDate" "date") eq_refl)
    as (_ & _ & _ & _ & _ & _ & _ & _ & H).
  split.
  - exact (proj2 (H [("birthDate.__from", VTime 1970%Z); ("birthDate.__to", VTime 1971%Z)]
                    1970%Z 1971%Z eq_refl eq_refl (conj eq_refl eq_refl))).
  - exact (proj2 (H [("birthDate.__from", VTime 1960%Z); ("birthDate.__to", VTime 1961%Z)]
                    1960%Z 1961%Z eq_refl eq_refl (conj eq_refl eq_refl))).
Defined.

(** ** Projection of a single field, for every path *)

Lemma buildBSON_single_field (path k : string) (v : Value) :
  isQueryOperator k = false ->
  buildBSON path (VDoc [(k, v)])
  = Ok [(convertSearchPathToMongoField path +:+ "." +:+ k, v)].
Proof.
  intros Hk. cbn [buildBSON].
  destruct (findArrayPath (convertBracketIndexesToDotIndexes path)) as [[m1 m2]|];
    cbn [length Nat.ltb Nat.leb projectCriteria]; now rewrite Hk.
Qed.

Lemma buildBSON_string (path s : string) :
  buildBSON path (VString s) = Ok [(convertSearchPathToMongoField path, VString s)].
Proof. reflexivity. Qed.

Lemma buildBSON_ci (m : MongoSearcher) (path s : string) :
  buildBSON path (ci m s) = Ok [(convertSearchPathToMongoField path, ci m s)].
Proof. unfold ci. now destruct (enableCISearches m). Qed.

(** ** Tokens *)


(** ** Strings *)

Lemma isSpecial_backslash c : isSpecial c = false -> Ascii.eqb c "\" = false.
Proof.
  intros H. destruct (Ascii.eqb_spec c "\"%char) as [->|]; [|reflexivity].
  vm_compute in H. discriminate.
Qed.

Lemma isSpecial_dollar c : isSpecial c = false -> Ascii.eqb c "$" = false.
Proof.
  intros H. destruct (Ascii.eqb_spec c "$"%char) as [->|]; [|reflexivity].
  vm_compute in H. discriminate.
Qed.

Lemma parseLiteral_quoted (s : string) : parseLiteral (QuoteMeta s) = (s, false).
Proof.
  induction s as [|c s IH]; [reflexivity|].
  cbn [QuoteMeta]. destruct (isSpecial c) eqn:E.
  - cbn [parseLiteral]. change (Ascii.eqb "\" "\") with true. cbn iota.
    now rewrite IH.
  - cbn [parseLiteral]. rewrite (isSpecial_backslash c E).
    destruct (QuoteMeta s) eqn:Q.
    + destruct s as [|c' s']; [|cbn [QuoteMeta] in Q; destruct (isSpecial c'); discriminate].
      now rewrite (isSpecial_dollar c E).
    + now rewrite IH.
Qed.

Lemma parseLiteral_quoted_anchored (s : string) :
  parseLiteral (QuoteMeta s +:+ "$") = (s, true).
Proof.
  induction s as [|c s IH]; [reflexivity|].
  cbn [QuoteMeta]. destruct (isSpecial c) eqn:E.
  - cbn [String.append parseLiteral]. change (Ascii.eqb "\" "\") with true. cbn iota.
    now rewrite IH.
  - cbn [String.append parseLiteral]. rewrite (isSpecial_backslash c E).
    destruct (QuoteMeta s +:+ "$") eqn:Q.
    + destruct (QuoteMeta s); discriminate.
    + now rewrite IH.
Qed.

(** The pattern of [cisw] is a starts-with test, that of [ci] a comparison
    of the whole value; both ignore case. *)
Lemma cisw_matches (m : MongoSearcher) (s target : string) :
  enableCISearches m = true ->
  stringValueMatches (cisw m s) target = String.prefix (lower s) (lower target).
Proof.
  intros H. unfold cisw. rewrite H. cbn [stringValueMatches].
  unfold regexMatches. cbn [String.append]. change (Ascii.eqb "^" "^") with true.
  cbn iota. now rewrite parseLiteral_quoted.
Qed.

Lemma ci_matches (m : MongoSearcher) (s target : string) :
  enableCISearches m = true ->
  stringValueMatches (ci m s) target = String.eqb (lower s) (lower target).
Proof.
  intros H. unfold ci. rewrite H. cbn [stringValueMatches].
  unfold regexMatches. cbn [String.append]. change (Ascii.eqb "^" "^") with true.
  cbn iota. now rewrite parseLiteral_quoted_anchored.
Qed.

(** C7 (as amended): with case-insensitive searches enabled, a HumanName
    target expands into a disjunction of a case-insensitive starts-with
    match over the text, family and given subfields; on a target that is
    neither HumanName nor Address the match is a case-insensitive comparison
    of the whole value, and the [_id] parameter is matched exactly and
    case-sensitively, with no regular expression. *)
Theorem string_match_by_target (m : MongoSearcher) (s : SearchParamInfo)
    (str : string) (p : SearchParamPath) :
  enableCISearches m = true ->
  let field := convertSearchPathToMongoField (Path p) in
  let sub := convertSearchPathToMongoField field in
  (Type_ p = "HumanName" ->
     stringSingle m s str p
     = Ok [("$or", docArray [[(sub +:+ ".text", cisw m str)];
                             [(sub +:+ ".family", cisw m str)];
                             [(sub +:+ ".given", cisw m str)]])])
  /\ (forall target,
        stringValueMatches (cisw m str) target
        = String.prefix (lower str) (lower target))
  /\ (Type_ p <> "HumanName" -> Type_ p <> "Address" -> Name s <> "_id" ->
        stringSingle m s str p = Ok [(field, ci m str)])
  /\ (forall target,
        stringValueMatches (ci m str) target = String.eqb (lower str) (lower target))
  /\ (Type_ p <> "HumanName" -> Type_ p <> "Address" -> Name s = "_id" ->
        stringSingle m s str p = Ok [(field, VString str)]).
Proof.
  intros Hci field sub.
  split.
  { intros Hty. unfold stringSingle. rewrite Hty. cbn [String.eqb Ascii.eqb Bool.eqb].
    cbn [buildBSON].
    destruct (findArrayPath (convertBracketIndexesToDotIndexes (Path p))) as [[m1 m2]|];
      cbn [length Nat.ltb Nat.leb projectCriteria isQueryOperator Ascii.eqb Bool.eqb
           processQueryOperatorCriteria String.eqb processOrCriteria docArray map
           asDocs asDoc mapResult];
      rewrite !buildBSON_single_field by reflexivity; reflexivity. }
  split; [intros target; now apply cisw_matches|].
  split.
  { intros H1 H2 H3. unfold stringSingle.
    apply String.eqb_neq in H1, H2, H3. rewrite H1, H2, H3. apply buildBSON_ci. }
  split; [intros target; now apply ci_matches|].
  intros H1 H2 H3. unfold stringSingle.
  apply String.eqb_neq in H1, H2. rewrite H1, H2, H3. reflexivity.
Qed.

Lemma string_match_by_target_witness :
  let m := NewMongoSearcher true true false false in
  let s := mkInfo "Patient" "name" "string" [mkPath "[]name" "HumanName"] [] "" "" in
  stringSingle m s "smi" (mkPath "[]name" "HumanName")
  = Ok [("$or", docArray [[("name.text", VRegex "^smi" "i")];
                          [("name.family", VRegex "^smi" "i")];
                          [("name.given", VRegex "^smi" "i")]])]
  /\ stringValueMatches (cisw m "smi") "Smith" = true.
Proof.
  intros m s.
  destruct (string_match_by_target m s "smi" (mkPath "[]name" "HumanName") eq_refl)
    as (H1 & H2 & _).
  split; [exact (H1 eq_refl) | rewrite H2; reflexivity].
Defined.

(** C7 (as stated) fails on an ordinary string target: the pattern is
    anchored at both ends, so a stored value that only starts with the
    search string is not matched. *)
Lemma string_default_not_starts_with :
  let m := NewMongoSearcher true true false false in
  let s := mkInfo "Patient" "family" "string" [mkPath "[]name.family" "string"] [] "" "" in
  createStringQueryObject m s "smith" = Ok [("name.family", VRegex "^smith$" "i")]
  /\ String.prefix (lower "smith") (lower "Smithson") = true
  /\ stringValueMatches (VRegex "^smith$" "i") "Smithson" = false
  /\ stringValueMatches (VRegex "^smith$" "i") "SMITH" = true.
Proof. repeat split; reflexivity. Qed.


(** ** Unsupported parameters *)

Lemma panicOnUnsupportedFeatures_cases (dict : Dictionary) (p : SearchParam) :
  panicOnUnsupportedFeatures dict p = Ok tt
  \/ signalsUnsupported (panicOnUnsupportedFeatures dict p) = true.
Proof.
  unfold panicOnUnsupportedFeatures.
  destruct (negb (String.eqb (Prefix_ (getInfo p)) "")
            && negb (String.eqb (Prefix_ (getInfo p)) EQ) && _ && _ && _);
    [now right|].
  destruct (negb (String.eqb (Modifier (getInfo p)) "")); [|now left].
  destruct (negb _ || negb _); [now right | now left].
Qed.

Lemma createParamObject_guarded (m : MongoSearcher) (dict : Dictionary)
    (p : SearchParam) (body : Result Doc) :
  signalsUnsupported body = true ->
  signalsUnsupported (do _ <- panicOnUnsupportedFeatures dict p; body) = true.
Proof.
  intros H. destruct (panicOnUnsupportedFeatures_cases dict p) as [E|E].
  - now rewrite E.
  - now destruct (panicOnUnsupportedFeatures dict p).
Qed.

Lemma createParamObject_guarded_panic (dict : Dictionary)
    (p : SearchParam) (body : Result Doc) :
  is_ok body = false ->
  is_ok (do _ <- panicOnUnsupportedFeatures dict p; body) = false.
Proof. intros H. now destruct (panicOnUnsupportedFeatures dict p). Qed.

(** A parameter that fails makes the whole query object fail, the same way. *)
Lemma createQueryObjectFromParams_first (m : MongoSearcher) (dict : Dictionary)
    (p : SearchParam) (rest : list SearchParam) :
  (signalsUnsupported (createParamObject m dict p) = true ->
   signalsUnsupported (createQueryObjectFromParams m dict (p :: rest)) = true)
  /\ (is_ok (createParamObject m dict p) = false ->
      is_ok (createQueryObjectFromParams m dict (p :: rest)) = false).
Proof.
  unfold createQueryObjectFromParams, createParamObjects. cbn [mapResult].
  destruct (createParamObject m dict p) as [q|e]; split; intros H;
    try discriminate; exact H.
Qed.

Lemma numberSingle_decimal (n : SearchParamInfo) (num : Number) (p : SearchParamPath) :
  Type_ p = "decimal" -> signalsUnsupported (numberSingle n num p) = true.
Proof. intros H. unfold numberSingle. now rewrite H. Qed.

Lemma quantitySingle_no_system (m : MongoSearcher) (q : SearchParamInfo)
    (num : Number) (code : string) (p : SearchParamPath) :
  signalsUnsupported (quantitySingle m q num "" code p) = true.
Proof.
  unfold quantitySingle.
  repeat match goal with
         | |- context [String.eqb (Prefix_ q) ?s] => destruct (String.eqb (Prefix_ q) s)
         end; reflexivity.
Qed.

Lemma orPaths_first_unsupported (f : SearchParamPath -> Result Doc) p rest :
  signalsUnsupported (f p) = true -> signalsUnsupported (orPaths f (p :: rest)) = true.
Proof.
  intros H. destruct (f p) as [q|e] eqn:E; [discriminate|].
  now rewrite (orPaths_first_panics f p rest e E).
Qed.

(** A path on which the builder fails leaves no document, wherever it is. *)
Lemma orPathsLoop_some_panics (f : SearchParamPath -> Result Doc) paths :
  forall acc p, In p paths -> is_ok (f p) = false ->
  is_ok (orPathsLoop f paths acc) = false.
Proof.
  induction paths as [|p0 paths IH]; intros acc p; [intros []|].
  intros Hin Hp. cbn [orPathsLoop].
  destruct (f p0) as [q|e] eqn:E; [|reflexivity].
  destruct Hin as [->|Hin]; [rewrite E in Hp; discriminate|].
  destruct ((length q =? 1)%nat && doc_nonnil "$or" q).
  - destruct (doc_lookup "$or" q) as [[| | | | | | | |nested]|]; try reflexivity.
    destruct (asDocs nested); [|reflexivity]. now apply (IH _ p).
  - now apply (IH _ p).
Qed.

Lemma orPaths_some_panics (f : SearchParamPath -> Result Doc) paths p :
  In p paths -> is_ok (f p) = false -> is_ok (orPaths f paths) = false.
Proof.
  intros Hin Hp. unfold orPaths.
  pose proof (orPathsLoop_some_panics f paths [] p Hin Hp) as H.
  now destruct (orPathsLoop f paths []).
Qed.

(** C8: building the query object signals UnsupportedSearch (HTTP 501, issue
    code not-supported) and produces no document for every composite
    parameter, for every number parameter whose path, the first one it has,
    is of type decimal, and for every quantity parameter, with its one or
    more paths, whose value carries no system; the per-path builders of
    numbers and quantities signal it on every such path, and a number
    parameter with a decimal path anywhere yields no document. *)
Theorem unsupported_parameters (m : MongoSearcher) (dict : Dictionary)
    (rest : list SearchParam) :
  (forall c values,
     signalsUnsupported
       (createQueryObjectFromParams m dict (CompositeParam c values :: rest)) = true)
  /\ (forall n num p, Type_ p = "decimal" ->
        signalsUnsupported (numberSingle n num p) = true)
  /\ (forall n num p ps, Paths n = p :: ps -> Type_ p = "decimal" ->
        signalsUnsupported
          (createQueryObjectFromParams m dict (NumberParam n num :: rest)) = true)
  /\ (forall n num p, In p (Paths n) -> Type_ p = "decimal" ->
        is_ok (createQueryObjectFromParams m dict (NumberParam n num :: rest)) = false)
  /\ (forall q num code p,
        signalsUnsupported (quantitySingle m q num "" code p) = true)
  /\ (forall q num code, Paths q <> [] ->
        signalsUnsupported
          (createQueryObjectFromParams m dict (QuantityParam q num "" code :: rest))
        = true).
Proof.
  split.
  { intros c values. apply createQueryObjectFromParams_first.
    cbn [createParamObject]. now apply createParamObject_guarded. }
  split; [intros n num p; apply numberSingle_decimal|].
  split.
  { intros n num p ps HP Hty. apply createQueryObjectFromParams_first.
    cbn [createParamObject]. apply createParamObject_guarded; [exact m|].
    unfold createNumberQueryObject. rewrite HP.
    apply orPaths_first_unsupported. now apply numberSingle_decimal. }
  split.
  { intros n num p Hin Hty. apply createQueryObjectFromParams_first.
    cbn [createParamObject]. apply createParamObject_guarded_panic.
    unfold createNumberQueryObject. apply (orPaths_some_panics _ _ p Hin).
    pose proof (numberSingle_decimal n num p Hty) as H.
    now destruct (numberSingle n num p). }
  split; [intros q num code p; apply quantitySingle_no_system|].
  intros q num code HP. apply createQueryObjectFromParams_first.
  cbn [createParamObject]. apply createParamObject_guarded; [exact m|].
  unfold createQuantityQueryObject.
  destruct (Paths q) as [|p ps]; [congruence|].
  apply orPaths_first_unsupported, quantitySingle_no_system.
Qed.

Lemma unsupported_parameters_witness :
  let m := NewMongoSearcher true true false false in
  let n := mkInfo "RiskAssessment" "probability" "number"
             [mkPath "[]prediction.probabilityDecimal" "decimal"] [] EQ "" in
  let q := mkInfo "Observation" "value-quantity" "quantity"
             [mkPath "valueQuantity" "Quantity"] [] EQ "" in
  let num := mkNumber (1 # 2) (9 # 20) (11 # 20) in
  createQueryObjectFromParams m ∅ [NumberParam n num]
  = unsupportedContentDecimal "probability"
  /\ signalsUnsupported (createQueryObjectFromParams m ∅ [NumberParam n num]) = true
  /\ signalsUnsupported
       (createQueryObjectFromParams m ∅ [QuantityParam q num "" "mg"]) = true.
Proof.
  intros m n q num. split; [reflexivity|].
  destruct (unsupported_parameters m ∅ []) as (_ & _ & H3 & _ & _ & H6).
  split.
  - exact (H3 n num _ _ eq_refl eq_refl).
  - apply H6. discriminate.
Defined.

(** ** The pipeline assembler leaves the dictionary alone *)

Module StoreFacts.
Import Store.

Lemma extends_refl (h : Heap) : extends h h.
Proof. intros l paths H. exact H. Qed.

Section Keeps.
Variable h0 : Heap.

Lemma keeps_ret {A} (a : A) (Q : A -> Prop) : Q a -> keeps h0 (ret a) Q.
Proof. intros Ha h He. split; [exact He|]. now intros a' [= <-]. Qed.

Lemma keeps_raise {A} (e : PanicValue) (Q : A -> Prop) : keeps h0 (raise e) Q.
Proof. intros h He. split; [exact He|]. intros a. discriminate. Qed.

Lemma keeps_bind {A B} (c : M A) (k : A -> M B) (Q : A -> Prop) (R : B -> Prop) :
  keeps h0 c Q -> (forall a, Q a -> keeps h0 (k a) R) -> keeps h0 (bind c k) R.
Proof.
  intros Hc Hk h He. unfold bind.
  destruct (Hc h He) as [He' HQ].
  destruct (c h) as [[a|e] h']; simpl in *.
  - apply (Hk a (HQ a eq_refl) h' He').
  - split; [exact He'|]. intros b. discriminate.
Qed.

Lemma keeps_weaken {A} (c : M A) (Q R : A -> Prop) :
  keeps h0 c Q -> (forall a, Q a -> R a) -> keeps h0 c R.
Proof.
  intros Hc HQR h He. destruct (Hc h He) as [He' HQ]. split; [exact He'|].
  intros a Ha. auto.
Qed.

Lemma keeps_readArray (l : loc) : keeps h0 (readArray l) (fun _ => True).
Proof.
  intros h He. unfold readArray. destruct (arrays h !! l); simpl; auto.
Qed.

Lemma keeps_readObject (l : loc) : keeps h0 (readObject l) (fun _ => True).
Proof.
  intros h He. unfold readObject. destruct (objects h !! l); simpl; auto.
Qed.

Lemma keeps_writeObject (l : loc) (o : ParamObj) :
  keeps h0 (writeObject l o) (fun _ => True).
Proof. intros h He. unfold writeObject. simpl. auto. Qed.

Lemma keeps_allocObject (o : ParamObj) : keeps h0 (allocObject o) (fun _ => True).
Proof. intros h He. unfold allocObject. simpl. auto. Qed.

(** A new array lies where [h0] has none. *)
Lemma keeps_allocArray (paths : list SearchParamPath) :
  keeps h0 (allocArray paths) (fun l => arrays h0 !! l = None).
Proof.
  intros h He. unfold allocArray. simpl.
  assert (Hfresh : arrays h0 !! fresh (dom (arrays h)) = None).
  { destruct (arrays h0 !! fresh (dom (arrays h))) as [ps|] eqn:E; [|reflexivity].
    apply He in E. exfalso. apply (is_fresh (dom (arrays h))).
    apply elem_of_dom. now exists ps. }
  split.
  - intros l ps Hl. simpl. rewrite lookup_insert_ne; [now apply He|].
    intros <-. congruence.
  - now intros a [= <-].
Qed.

(** A write into an array that [h0] does not have. *)
Lemma keeps_writePath (l : loc) (i : nat) (path : string) :
  arrays h0 !! l = None -> keeps h0 (writePath l i path) (fun _ => True).
Proof.
  intros Hl h He. unfold writePath.
  destruct (arrays h !! l) as [ps|]; [|simpl; auto].
  destruct (ps !! i); simpl; [|auto].
  split; [|auto]. intros l' ps' Hl'. simpl.
  rewrite lookup_insert_ne; [now apply He|]. intros <-. congruence.
Qed.

Lemma keeps_prependLoop (l : loc) (n : nat) (paths : list SearchParamPath) :
  arrays h0 !! l = None ->
  forall i, keeps h0 (prependLoop l n i paths) (fun _ => True).
Proof.
  intros Hl. induction paths as [|p paths IH]; intros i; cbn [prependLoop].
  - now apply keeps_ret.
  - destruct n; [apply keeps_raise|].
    eapply keeps_bind; [now apply keeps_writePath|]. intros _ _. apply IH.
Qed.

Lemma keeps_clone (c : InfoCell) :
  keeps h0 (clone c) (fun c' => arrays h0 !! cPaths c' = None).
Proof.
  unfold clone. eapply keeps_bind; [apply keeps_readArray|]. intros paths _.
  eapply keeps_bind; [apply keeps_allocArray|]. intros l Hl.
  now apply keeps_ret.
Qed.

Lemma keeps_duplicatePaths (c : InfoCell) (n : nat) :
  keeps h0 (duplicatePaths c n) (fun c' => arrays h0 !! cPaths c' = None).
Proof.
  unfold duplicatePaths. eapply keeps_bind; [apply keeps_readArray|]. intros paths _.
  eapply keeps_bind; [apply keeps_allocArray|]. intros l Hl.
  now apply keeps_ret.
Qed.

Lemma keeps_forEach {A} (f : A -> M unit) (l : list A) :
  (forall a, keeps h0 (f a) (fun _ => True)) ->
  keeps h0 (forEach f l) (fun _ => True).
Proof.
  intros Hf. induction l as [|a l IH]; cbn [forEach].
  - now apply keeps_ret.
  - eapply keeps_bind; [apply Hf|]. intros _ _. exact IH.
Qed.

Lemma keeps_prependOne (n : nat) (param : option loc) :
  keeps h0 (prependOne n param) (fun _ => True).
Proof.
  destruct param as [param|]; [|apply keeps_raise]. cbn [prependOne].
  eapply keeps_bind; [apply keeps_readObject|]. intros obj _.
  eapply keeps_bind; [apply keeps_clone|]. intros info Hinfo.
  eapply keeps_bind with (Q := fun c' => arrays h0 !! cPaths c' = None).
  { destruct (1 <? n)%nat; [apply keeps_duplicatePaths | now apply keeps_ret]. }
  intros info' Hinfo'.
  eapply keeps_bind; [apply keeps_readArray|]. intros paths _.
  eapply keeps_bind; [now apply keeps_prependLoop|]. intros _ _.
  apply keeps_writeObject.
Qed.

Lemma keeps_prependLookupKeyToSearchPaths (params : list loc) (n : nat) :
  keeps h0 (prependLookupKeyToSearchPaths params n) (fun _ => True).
Proof.
  unfold prependLookupKeyToSearchPaths.
  eapply keeps_bind; [|intros _ _; now apply keeps_ret].
  apply keeps_forEach. intros p.
  eapply keeps_bind; [apply keeps_readObject|]. intros obj _.
  destruct obj; try apply keeps_prependOne.
  apply keeps_forEach. intros item. apply keeps_prependOne.
Qed.

Lemma keeps_getLookupReference (p : loc) :
  keeps h0 (getLookupReference p) (fun _ => True).
Proof.
  unfold getLookupReference.
  eapply keeps_bind; [apply keeps_readObject|]. intros obj _.
  destruct obj as [i|i r|i [|[first|] items]];
    try apply keeps_raise; try now apply keeps_ret.
  eapply keeps_bind; [apply keeps_readObject|]. intros item _.
  destruct item; try apply keeps_raise; now apply keeps_ret.
Qed.

Lemma keeps_searchableItems (items : list (option loc)) :
  keeps h0 (searchableItems items) (fun _ => True).
Proof.
  induction items as [|[item|] items IH]; cbn [searchableItems];
    [now apply keeps_ret | | apply keeps_raise].
  eapply keeps_bind; [apply keeps_readObject|]. intros obj _.
  destruct obj as [i|i [| |[|f ps]|[|f ps]]|i its]; try apply keeps_raise;
    (eapply keeps_bind; [exact IH|]; intros more _; now apply keeps_ret).
Qed.

Lemma keeps_buildSearchableOr (p : loc) :
  keeps h0 (buildSearchableOrFromChainedReferenceOr p) (fun _ => True).
Proof.
  unfold buildSearchableOrFromChainedReferenceOr.
  eapply keeps_bind; [apply keeps_readObject|]. intros obj _.
  destruct obj; try apply keeps_raise.
  eapply keeps_bind; [apply keeps_searchableItems|]. intros its _.
  apply keeps_allocObject.
Qed.

Lemma keeps_matchableParams (reverse : bool) (p : loc) :
  keeps h0 (matchableParams reverse p) (fun _ => True).
Proof.
  unfold matchableParams.
  eapply keeps_bind; [apply keeps_getLookupReference|]. intros [lookupRef isOr] _.
  eapply keeps_bind with (Q := fun _ => True).
  { destruct lookupRef as [i|i [| |ps|ps]|i its], reverse;
      try apply keeps_raise; now apply keeps_ret. }
  intros inner _.
  eapply keeps_bind; [apply keeps_readArray|]. intros lookupPaths _.
  destruct isOr; [|apply keeps_prependLookupKeyToSearchPaths].
  eapply keeps_bind; [apply keeps_buildSearchableOr|]. intros newOr _.
  apply keeps_prependLookupKeyToSearchPaths.
Qed.

Lemma keeps_createPipelineObject (chained reverseChained : list loc) :
  keeps h0 (createPipelineObject chained reverseChained) (fun _ => True).
Proof.
  unfold createPipelineObject.
  eapply keeps_bind with (Q := fun _ => True).
  - apply keeps_forEach. intros p.
    eapply keeps_bind; [apply keeps_matchableParams|]. intros _ _.
    now apply keeps_ret.
  - intros _ _. apply keeps_forEach. intros p.
    eapply keeps_bind; [apply keeps_matchableParams|]. intros _ _.
    now apply keeps_ret.
Qed.
End Keeps.

Lemma snapshot_extends (h h' : Heap) (c : InfoCell) (s : SearchParamInfo) :
  extends h h' -> snapshot h c = Some s -> snapshot h' c = Some s.
Proof.
  intros He. unfold snapshot.
  destruct (arrays h !! cPaths c) as [paths|] eqn:E; [|discriminate].
  now rewrite (He _ _ E).
Qed.
End StoreFacts.

Module StoreRewrite.
Import Store StoreFacts.

(** The loop writes the new path of every element it visits. *)
Lemma prependLoop_run (l : loc) (n : nat) (rest : list SearchParamPath) :
  1 <= n ->
  forall (done : list SearchParamPath) (h : Heap),
  arrays h !! l = Some (done ++ rest) ->
  prependLoop l n (length done) rest h
  = (Ok tt,
     mkHeap (<[l := done ++ imap (fun j p => mkPath (lookupKey n (length done + j) (Path p))
                                                (Type_ p)) rest]> (arrays h))
            (objects h)).
Proof.
  intros Hn. induction rest as [|p rest IH]; intros done h Hl; cbn [prependLoop].
  - unfold ret. f_equal. destruct h as [ar ob]. simpl in *. f_equal.
    symmetry. now apply insert_id.
  - destruct n as [|n']; [lia|]. unfold bind at 1, writePath at 1.
    rewrite Hl. rewrite list_lookup_middle by reflexivity.
    set (p' := mkPath (lookupKey (S n') (length done) (Path p)) (Type_ p)).
    replace (<[length done := p']> (done ++ p :: rest)) with ((done ++ [p']) ++ rest).
    2:{ rewrite <- (Nat.add_0_r (length done)) at 1. rewrite insert_app_r.
        simpl. now rewrite <- app_assoc. }
    replace (S (length done)) with (length (done ++ [p']))
      by (rewrite length_app; simpl; lia).
    rewrite IH by (simpl; apply lookup_insert_eq).
    simpl. f_equal. f_equal. rewrite insert_insert_eq. f_equal.
    rewrite <- app_assoc. f_equal. cbn [app]. rewrite Nat.add_0_r. fold p'.
    f_equal. apply imap_ext. intros j x _. cbn [compose].
    rewrite length_app. cbn [length]. do 2 f_equal. lia.
Qed.

Lemma prependLoop_all (l : loc) (n : nat) (paths : list SearchParamPath) (h : Heap) :
  1 <= n ->
  arrays h !! l = Some paths ->
  prependLoop l n 0 paths h
  = (Ok tt,
     mkHeap (<[l := imap (fun j p => mkPath (lookupKey n j (Path p)) (Type_ p)) paths]>
               (arrays h))
            (objects h)).
Proof. intros Hn Hl. exact (prependLoop_run l n paths Hn [] h Hl). Qed.

Lemma prependOne_computes (n : nat) (param : loc) (obj : ParamObj)
    (paths : list SearchParamPath) (h : Heap) :
  1 <= n ->
  objects h !! param = Some obj ->
  arrays h !! cPaths (getInfo obj) = Some paths ->
  exists l h',
    prependOne n (Some param) h = (Ok tt, h')
    /\ arrays h !! l = None
    /\ objects h' = <[param := setInfo (withPaths (getInfo obj) l) obj]> (objects h)
    /\ arrays h' !! l = Some (rewrittenPaths n paths).
Proof.
  intros Hn Hobj Harr. cbn [prependOne].
  unfold bind at 1, readObject at 1. rewrite Hobj.
  unfold bind at 1, clone at 1, bind at 1, readArray at 1. rewrite Harr.
  unfold bind at 1, allocArray at 1, ret at 1.
  set (l1 := fresh (dom (arrays h))).
  assert (Hl1 : arrays h !! l1 = None).
  { apply not_elem_of_dom. apply is_fresh. }
  unfold rewrittenPaths.
  destruct (1 <? n)%nat eqn:En.
  - unfold bind at 1, duplicatePaths at 1, bind at 1, readArray at 1.
    cbn [cPaths withPaths arrays]. rewrite lookup_insert_eq.
    unfold bind at 1, allocArray at 1, ret at 1.
    cbn [arrays objects].
    set (l2 := fresh (dom (<[l1 := paths]> (arrays h)))).
    assert (Hl2 : (<[l1 := paths]> (arrays h)) !! l2 = None).
    { apply not_elem_of_dom. apply is_fresh. }
    assert (Hl2' : arrays h !! l2 = None).
    { destruct (decide (l1 = l2)) as [E|E]; [now rewrite <- E|].
      now rewrite lookup_insert_ne in Hl2. }
    unfold bind at 1, readArray at 1. cbn [cPaths withPaths arrays].
    rewrite lookup_insert_eq.
    unfold bind at 1. rewrite prependLoop_all by (try assumption; apply lookup_insert_eq).
    cbn [arrays objects]. unfold writeObject. cbn [arrays objects].
    exists l2. eexists. split; [reflexivity|].
    cbn [arrays objects]. split; [exact Hl2'|]. split; [reflexivity|].
    apply lookup_insert_eq.
  - unfold bind at 1, ret at 1.
    unfold bind at 1, readArray at 1. cbn [cPaths withPaths arrays].
    rewrite lookup_insert_eq.
    unfold bind at 1. rewrite prependLoop_all by (try assumption; apply lookup_insert_eq).
    cbn [arrays objects]. unfold writeObject. cbn [arrays objects].
    exists l1. eexists. split; [reflexivity|].
    cbn [arrays objects]. split; [exact Hl1|]. split; [reflexivity|].
    apply lookup_insert_eq.
Qed.

(** One parameter object, rewritten: its info now lies over a new array
    that holds the rewritten paths; nothing else about the object or about
    the arrays of the store has changed. *)
Lemma prependOne_run (n : nat) (param : loc) (obj : ParamObj)
    (paths : list SearchParamPath) (h : Heap) :
  1 <= n ->
  objects h !! param = Some obj ->
  arrays h !! cPaths (getInfo obj) = Some paths ->
  exists l h',
    prependOne n (Some param) h = (Ok tt, h')
    /\ arrays h !! l = None
    /\ objects h' = <[param := setInfo (withPaths (getInfo obj) l) obj]> (objects h)
    /\ arrays h' !! l = Some (rewrittenPaths n paths)
    /\ extends h h'.
Proof.
  intros Hn Hobj Harr.
  destruct (prependOne_computes n param obj paths h Hn Hobj Harr)
    as (l & h' & Hrun & H1 & H2 & H3).
  exists l, h'. repeat (split; [assumption|]).
  pose proof (keeps_prependOne h n (Some param) h (extends_refl h)) as [Hext _].
  now rewrite Hrun in Hext.
Qed.
End StoreRewrite.

(** C5: compiling in pipeline mode leaves every dictionary entry equal to
    its snapshot: whatever the parameters share with the dictionary, and
    whether the assembler returns or panics on the way, each entry that
    could be read before reads the same afterwards, be it after the whole
    pass over the chained and reverse chained parameters or after a single
    [prependLookupKeyToSearchPaths]; and a rewritten parameter carries its
    paths, duplicated for several reference paths and each prefixed with its
    lookup key, in an array the store did not have before. *)
Theorem dictionary_unchanged (h : Store.Heap) (dict : list Store.InfoCell) :
  (forall c, In c dict -> is_Some (Store.snapshot h c)) ->
  (forall chained reverseChained c, In c dict ->
     Store.snapshot (snd (Store.createPipelineObject chained reverseChained h)) c
     = Store.snapshot h c)
  /\ (forall searchParams numReferencePaths c, In c dict ->
        Store.snapshot
          (snd (Store.prependLookupKeyToSearchPaths searchParams numReferencePaths h)) c
        = Store.snapshot h c)
  /\ (forall numReferencePaths param obj paths,
        1 <= numReferencePaths ->
        Store.objects h !! param = Some obj ->
        Store.arrays h !! Store.cPaths (Store.getInfo obj) = Some paths ->
        exists l h',
          Store.prependOne numReferencePaths (Some param) h = (Ok tt, h')
          /\ Store.arrays h !! l = None
          /\ Store.objects h' !! param
             = Some (Store.setInfo (Store.withPaths (Store.getInfo obj) l) obj)
          /\ Store.arrays h' !! l = Some (Store.rewrittenPaths numReferencePaths paths)).
Proof.
  intros Hdict. split; [|split].
  - intros chained reverseChained c Hc. destruct (Hdict c Hc) as [s Hs].
    rewrite Hs. apply (StoreFacts.snapshot_extends h); [|exact Hs].
    apply (StoreFacts.keeps_createPipelineObject h chained reverseChained h),
      StoreFacts.extends_refl.
  - intros params n c Hc. destruct (Hdict c Hc) as [s Hs].
    rewrite Hs. apply (StoreFacts.snapshot_extends h); [|exact Hs].
    apply (StoreFacts.keeps_prependLookupKeyToSearchPaths h params n h),
      StoreFacts.extends_refl.
  - intros n param obj paths Hn Hobj Harr.
    destruct (StoreRewrite.prependOne_run n param obj paths h Hn Hobj Harr)
      as (l & h' & Hrun & Hl & Hobjs & Harrs & _).
    exists l, h'. repeat (split; [assumption|]). split; [|assumption].
    rewrite Hobjs. apply lookup_insert_eq.
Qed.

Lemma dictionary_unchanged_witness :
  let h' := snd (Store.createPipelineObject [1] [] StoreExample.heap) in
  Store.snapshot h' StoreExample.nameCell
  = Some (mkInfo "Patient" "name" "string" [mkPath "[]name" "HumanName"] [] "" "")
  /\ (Store.getInfo <$> Store.objects h' !! 0) ≫= Store.snapshot h'
     = Some (mkInfo "Patient" "name" "string"
               [mkPath "_lookup0.[]name" "HumanName"] [] "" "").
Proof.
  intros h'. split.
  - assert (Hvalid : forall c, In c StoreExample.dictionary ->
                       is_Some (Store.snapshot StoreExample.heap c)).
    { intros c [<-|[<-|[]]]; eexists; reflexivity. }
    exact (proj1 (dictionary_unchanged StoreExample.heap StoreExample.dictionary Hvalid)
             [1] [] StoreExample.nameCell (or_introl eq_refl)).
  - vm_compute. reflexivity.
Defined.

(** Without the copy the rewrite would reach the dictionary: a clone that
    keeps the backing array of the original changes the entry. *)
Example shallow_clone_changes_dictionary :
  let h' := snd (Store.prependOneShallow 1 0 StoreExample.heap) in
  Store.snapshot h' StoreExample.nameCell
  = Some (mkInfo "Patient" "name" "string"
            [mkPath "_lookup0.[]name" "HumanName"] [] "" "").
Proof. vm_compute. reflexivity. Qed.

(** ** The executor and the count cache *)

Section ExecutorFacts.
Variable drv : Driver.
Variable m : MongoSearcher.
Variable dict : Dictionary.
Variable plural : string -> string.
Variable md5hex : string -> string.
Variable Title : string -> string.

Lemma logged_nil db : logged db db [].
Proof. unfold logged. rewrite app_nil_r. now destruct db. Qed.

Lemma logged_op db op : logged db (logOp op db) [op].
Proof. reflexivity. Qed.

Lemma logged_trans db db' db'' ops ops' :
  logged db db' ops -> logged db' db'' ops' -> logged db db'' (ops ++ ops').
Proof. unfold logged. intros -> ->. simpl. now rewrite app_assoc. Qed.


Lemma find_effect b o dc db :
  exists ops, logged db (snd (find drv plural b o dc db)) ops /\ quiet dc o ops.
Proof.
  unfold find, quiet.
  destruct (String.eqb_spec (Summary o) "count") as [Hs|Hs].
  - rewrite orb_true_r. destruct (countDocuments drv _ _); simpl;
      (eexists; split; [apply logged_op|]); split; try reflexivity; congruence.
  - rewrite orb_false_r. destruct dc.
    + destruct (countDocuments drv _ _); simpl.
      * destruct (findOptions o) as [bundle|p]; simpl.
        -- destruct (findCursor drv _ _ _); simpl;
             (eexists; split; [eapply logged_trans; apply logged_op|]);
             split; try reflexivity; congruence.
        -- eexists; split; [apply logged_op|]. split; try reflexivity; congruence.
      * eexists; split; [apply logged_op|]. split; try reflexivity; congruence.
    + destruct (findOptions o) as [bundle|p]; simpl.
      * destruct (findCursor drv _ _ _); simpl;
          (eexists; split; [apply logged_op|]); split; reflexivity.
      * exists []. split; [apply logged_nil|]. split; reflexivity.
Qed.

Lemma aggregate_effect b o dc db :
  exists ops,
    logged db (snd (aggregate drv plural Title b o dc db)) ops /\ quiet dc o ops.
Proof.
  unfold aggregate, quiet.
  destruct (String.eqb_spec (Summary o) "count") as [Hs|Hs].
  - rewrite orb_true_r.
    destruct (BPipeline b) as [|first [|second rest]];
      try (destruct (countAggregate drv _ _) as [| | | |[|]]; simpl;
           (eexists; split; [apply logged_op|]); split; try reflexivity; congruence).
    destruct (countDocuments drv _ _); simpl;
      (eexists; split; [apply logged_op|]); split; try reflexivity; congruence.
  - rewrite orb_false_r.
    destruct (convertOptionsToPipelineStages plural Title (BResource b) o)
      as [stages|p].
    + destruct dc.
      * destruct (BPipeline b) as [|first [|second rest]].
        all: try (destruct (countAggregate drv _ _) as [| | | |[|]]; simpl;
                  try (destruct (aggregateCursor drv _ _); simpl;
                       (eexists; split; [eapply logged_trans; apply logged_op|]);
                       split; try reflexivity; congruence);
                  (eexists; split; [apply logged_op|]);
                  split; try reflexivity; congruence).
        destruct (countDocuments drv _ _); simpl.
        -- destruct (aggregateCursor drv _ _); simpl;
             (eexists; split; [eapply logged_trans; apply logged_op|]);
             split; try reflexivity; congruence.
        -- eexists; split; [apply logged_op|]. split; try reflexivity; congruence.
      * destruct (aggregateCursor drv _ _); simpl;
          (eexists; split; [apply logged_op|]); split; reflexivity.
    + destruct dc.
      * destruct (BPipeline b) as [|first [|second rest]].
        all: try (destruct (countAggregate drv _ _) as [| | | |[|]]; simpl;
                  (eexists; split; [apply logged_op|]);
                  split; try reflexivity; congruence).
        destruct (countDocuments drv _ _); simpl;
          (eexists; split; [apply logged_op|]); split; try reflexivity; congruence.
      * simpl. exists []. split; [apply logged_nil|]. split; reflexivity.
Qed.

Abbreviation searchFrom' := (searchFrom drv m dict plural Title).
Abbreviation Search' := (Search drv m dict plural md5hex Title).

Abbreviation runQuery := (runQuery drv plural Title).

Lemma runQuery_effect b o dc db :
  exists ops, logged db (snd (runQuery b o dc db)) ops /\ quiet dc o ops.
Proof.
  unfold runQuery. destruct (usesPipeline b);
    [apply aggregate_effect | apply find_effect].
Qed.

(** With [_summary=count] the query stage is the count alone, whatever
    [doCount] says. *)
Lemma runQuery_summary b o dc db :
  Summary o = "count" ->
  runQuery b o dc db
  = (Ok match fst (countOnly drv plural b db) with
        | Done t => Done (None, t)
        | Failed e => Failed e
        end,
     snd (countOnly drv plural b db)).
Proof.
  intros Hs. unfold runQuery, usesPipeline, countOnly, find, aggregate.
  rewrite Hs. cbn [String.eqb Ascii.eqb Bool.eqb]. rewrite orb_true_r.
  destruct (BQuery b) as [q|].
  - now destruct (countDocuments drv _ _).
  - destruct (BPipeline b) as [|first [|second rest]].
    + now destruct (countAggregate drv _ _) as [| | | |[|]].
    + now destruct (countDocuments drv _ _).
    + now destruct (countAggregate drv _ _) as [| | | |[|]].
Qed.

Lemma countOnly_logs b db :
  exists op, isCountOp op = true /\ snd (countOnly drv plural b db) = logOp op db.
Proof.
  unfold countOnly. destruct (BQuery b) as [q|].
  - eexists. split; [|reflexivity]. reflexivity.
  - destruct (BPipeline b) as [|first [|second rest]];
      (eexists; split; [|reflexivity]); reflexivity.
Qed.

(** [searchFrom], stage by stage. *)
Lemma searchFrom_eq query dc total h db :
  searchFrom' query dc total h db
  = if readonly m && negb dc && (total =? 0)%Z then (Ok (mkReturn [] 0 None), db)
    else
      let dc' := if negb (countTotalResults m) then false else dc in
      match convertToBSON m dict plural query with
      | Panic e => (Panic e, db)
      | Ok b =>
          match runQuery b (Options query) dc' db with
          | (Panic e, db') => (Panic e, db')
          | (Ok (Failed e), db') =>
              (Ok (mkReturn [] 0 (Some (wrap "Search error" e))), db')
          | (Ok (Done (cursor, computedTotal)), db') =>
              if String.eqb (Summary (Options query)) "count"
              then (Ok (mkReturn [] computedTotal None), db')
              else
                match collect cursor with
                | Failed e => (Ok (mkReturn [] 0 (Some e)), db')
                | Done rs =>
                    (Ok (mkReturn rs (if dc' then computedTotal else total) None),
                     if readonly m && countTotalResults m && dc'
                     then cacheInsert drv h computedTotal db' else db')
                end
          end
      end.
Proof.
  unfold searchFrom.
  destruct (readonly m && negb dc && (total =? 0)%Z); [reflexivity|].
  destruct (convertToBSON m dict plural query) as [b|e]; [|reflexivity].
  cbv zeta.
  destruct (runQuery b (Options query) _ db) as [[[[cursor computedTotal]|e]|p] db'];
    reflexivity.
Qed.

(** A search that cannot reach the insertion leaves the cache alone. *)
Lemma searchFrom_no_insert query dc total h db :
  dc = false \/ Summary (Options query) = "count" ->
  exists ops,
    logged db (snd (searchFrom' query dc total h db)) ops
    /\ noInsert ops = true
    /\ (dc = false -> Summary (Options query) <> "count" -> noCount ops = true).
Proof.
  intros Hcase. rewrite searchFrom_eq.
  destruct (readonly m && negb dc && (total =? 0)%Z).
  { exists []. split; [apply logged_nil|]. split; reflexivity. }
  cbv zeta. set (dc' := if negb (countTotalResults m) then false else dc).
  assert (Hdc' : dc = false -> dc' = false).
  { intros ->. unfold dc'. now destruct (negb (countTotalResults m)). }
  destruct (convertToBSON m dict plural query) as [b|e].
  2:{ exists []. split; [apply logged_nil|]. split; reflexivity. }
  destruct (runQuery_effect b (Options query) dc' db) as (ops & Hlog & Hni & Hnc).
  exists ops.
  assert (Hrest : noInsert ops = true
                  /\ (dc = false -> Summary (Options query) <> "count" ->
                      noCount ops = true)) by (split; auto).
  destruct (runQuery b (Options query) dc' db) as [[[[cursor computedTotal]|e]|p] db'];
    simpl in Hlog; [|now split|now split].
  destruct (String.eqb_spec (Summary (Options query)) "count") as [Hs|Hs];
    [now split|].
  destruct Hcase as [->|Hs']; [|contradiction].
  rewrite (Hdc' eq_refl), andb_false_r.
  destruct (collect cursor); now split.
Qed.

Lemma cacheLookup_eq h db :
  cacheLookup drv h db
  = (if findOneFails drv h then None else countcache db !! h,
     logOp (FindOneOp "countcache" h) db).
Proof. reflexivity. Qed.

Lemma cacheInsert_effect h count db :
  oplog (cacheInsert drv h count db) = oplog db ++ [InsertOneOp "countcache" h count]
  /\ countcache (cacheInsert drv h count db)
     = if insertOneFails drv h then countcache db
       else match countcache db !! h with
            | Some _ => countcache db
            | None => <[h := count]> (countcache db)
            end.
Proof.
  unfold cacheInsert. destruct (insertOneFails drv h); [now split|].
  destruct (countcache db !! h); now split.
Qed.

(** A search on a cache hit: the cached total stands, nothing is counted
    unless the summary asks for it, nothing is inserted. *)
Lemma searchFrom_hit query c h db :
  readonly m = true ->
  (c = 0%Z -> searchFrom' query false c h db = (Ok (mkReturn [] 0 None), db))
  /\ (Summary (Options query) <> "count" ->
      forall r, fst (searchFrom' query false c h db) = Ok r -> err r = None ->
                total r = c).
Proof.
  intros Hro. rewrite searchFrom_eq, Hro. cbn [andb negb]. split.
  - intros ->. reflexivity.
  - intros Hs r. destruct (Z.eqb_spec c 0) as [->|Hc]; [now intros [= <-]|].
    cbv zeta. replace (if negb (countTotalResults m) then false else false)
      with false by now destruct (negb (countTotalResults m)).
    destruct (convertToBSON m dict plural query) as [b|e]; [|discriminate].
    destruct (runQuery b (Options query) false db)
      as [[[[cursor computedTotal]|e]|p] db']; [|now intros [= <-]|discriminate].
    apply String.eqb_neq in Hs. rewrite Hs.
    destruct (collect cursor); now intros [= <-].
Qed.

(** A search on a cache miss that collects its results inserts the
    computed total, which is the total it returns, as its last step. *)
Lemma searchFrom_miss query h db r :
  readonly m = true -> countTotalResults m = true ->
  Summary (Options query) <> "count" ->
  fst (searchFrom' query true 0 h db) = Ok r -> err r = None ->
  exists ops dbq,
    logged db dbq ops /\ noInsert ops = true
    /\ snd (searchFrom' query true 0 h db) = cacheInsert drv h (total r) dbq.
Proof.
  intros Hro Hct Hs. rewrite searchFrom_eq, Hro, Hct. cbn [andb negb]. cbv zeta.
  destruct (convertToBSON m dict plural query) as [b|e]; [|discriminate].
  destruct (runQuery_effect b (Options query) true db) as (ops & Hlog & Hni & _).
  destruct (runQuery b (Options query) true db)
    as [[[[cursor computedTotal]|e]|p] db']; simpl in Hlog;
    [|intros [= <-]; discriminate|discriminate].
  apply String.eqb_neq in Hs. rewrite Hs.
  destruct (collect cursor) as [rs|e]; [|intros [= <-]; discriminate].
  intros [= <-] _. exists ops, db'. simpl. auto.
Qed.
End ExecutorFacts.

(** The fate of insertions never shows in what [Search] returns. *)
Lemma Search_ignores_insert_errors drv m dict plural md5hex Title fails query db :
  fst (Search (withInsertFault drv fails) m dict plural md5hex Title query db)
  = fst (Search drv m dict plural md5hex Title query db).
Proof.
  assert (Hfrom : forall dc total h db0,
    fst (searchFrom (withInsertFault drv fails) m dict plural Title
           query dc total h db0)
    = fst (searchFrom drv m dict plural Title query dc total h db0)).
  { intros dc total h db0. rewrite !searchFrom_eq.
    change (runQuery (withInsertFault drv fails)) with (runQuery drv).
    destruct (readonly m && negb dc && (total =? 0)%Z); [reflexivity|]. cbv zeta.
    destruct (convertToBSON m dict plural query) as [b|e]; [|reflexivity].
    destruct (runQuery drv plural Title b (Options query) _ db0)
      as [[[[cursor computedTotal]|e]|p] db']; [|reflexivity|reflexivity].
    destruct (String.eqb (Summary (Options query)) "count"); [reflexivity|].
    now destruct (collect cursor). }
  unfold Search. destruct (readonly m && countTotalResults m); [|apply Hfrom].
  change (cacheLookup (withInsertFault drv fails)) with (cacheLookup drv).
  destruct (cacheLookup drv _ db) as [[c|] db']; apply Hfrom.
Qed.

(** What a search does to the count cache: nothing, or one entry under
    the fingerprint, and that only for a search that is not a
    [_summary=count] search. *)
Lemma searchFrom_countcache drv m dict plural Title query dc total h db :
  let out := searchFrom drv m dict plural Title query dc total h db in
  countcache (snd out) = countcache db
  \/ (Summary (Options query) <> "count"
      /\ readonly m && countTotalResults m = true
      /\ exists t, countcache (snd out) = <[h := t]> (countcache db)).
Proof.
  cbv zeta. rewrite searchFrom_eq.
  destruct (readonly m && negb dc && (total =? 0)%Z); [now left|]. cbv zeta.
  set (dc' := if negb (countTotalResults m) then false else dc).
  destruct (convertToBSON m dict plural query) as [b|e]; [|now left].
  destruct (runQuery_effect drv plural Title b (Options query) dc' db)
    as (ops & Hlog & _).
  destruct (runQuery drv plural Title b (Options query) dc' db)
    as [[[[cursor computedTotal]|e]|p] db']; cbn [snd] in Hlog;
    try (left; now rewrite Hlog).
  destruct (String.eqb_spec (Summary (Options query)) "count") as [Hs|Hs];
    [left; now rewrite Hlog|].
  destruct (collect cursor) as [rs|e]; [|left; now rewrite Hlog].
  cbn [snd]. destruct (readonly m && countTotalResults m) eqn:Hcfg; cbn [andb];
    [|left; now rewrite Hlog].
  destruct dc'; [|left; now rewrite Hlog].
  destruct (cacheInsert_effect drv h computedTotal db') as [_ ->].
  assert (Hcc : countcache db' = countcache db) by now rewrite Hlog.
  rewrite Hcc. destruct (insertOneFails drv h); [now left|].
  destruct (countcache db !! h); [now left|].
  right. split; [exact Hs|]. split; [reflexivity|]. now exists computedTotal.
Qed.

Lemma Search_countcache drv m dict plural md5hex Title query db :
  let out := Search drv m dict plural md5hex Title query db in
  countcache (snd out) = countcache db
  \/ (Summary (Options query) <> "count"
      /\ exists t,
           countcache (snd out)
           = <[md5hex (QueryResource query +:+ "?" +:+ QueryRaw query) := t]>
               (countcache db)).
Proof.
  cbv zeta. unfold Search.
  destruct (readonly m && countTotalResults m) eqn:Hcfg.
  - rewrite cacheLookup_eq. unfold queryFingerprint.
    set (h := md5hex (QueryResource query +:+ "?" +:+ QueryRaw query)).
    assert (Hfrom : forall dc t,
              let out := searchFrom drv m dict plural Title query dc t h
                           (logOp (FindOneOp "countcache" h) db) in
              countcache (snd out) = countcache db
              \/ (Summary (Options query) <> "count"
                  /\ exists t', countcache (snd out) = <[h := t']> (countcache db))).
    { intros dc t. cbv zeta.
      destruct (searchFrom_countcache drv m dict plural Title query dc t h
                  (logOp (FindOneOp "countcache" h) db)) as [H|(Hs & _ & t' & H)].
      - left. exact H.
      - right. split; [exact Hs|]. now exists t'. }
    destruct (if findOneFails drv h then None else countcache db !! h); apply Hfrom.
  - destruct (searchFrom_countcache drv m dict plural Title query true 0 "" db)
      as [H|(_ & Hc & _)]; [now left|].
    rewrite Hcfg in Hc. discriminate.
Qed.

(** In the states the database is in, the count cache holds no entry under
    the fingerprint of a [_summary=count] search. *)
Lemma reachable_summary_count_uncached m dict plural md5hex Title served db :
  fingerprintFixesSummary md5hex served ->
  reachable m dict plural md5hex Title served db ->
  forall query, served query -> Summary (Options query) = "count" ->
  countcache db !! md5hex (QueryResource query +:+ "?" +:+ QueryRaw query) = None.
Proof.
  intros Hfix Hreach. induction Hreach as [log|drv q db Hreach IH Hq];
    intros query Hserved Hs.
  - cbn [countcache]. apply lookup_empty.
  - destruct (Search_countcache drv m dict plural md5hex Title q db)
      as [->|(Hqs & t & ->)]; [now apply IH|].
    destruct (decide (md5hex (QueryResource q +:+ "?" +:+ QueryRaw q)
                      = md5hex (QueryResource query +:+ "?" +:+ QueryRaw query)))
      as [Heq|Hne].
    + exfalso. apply Hqs. rewrite (Hfix q query Hq Hserved Heq). exact Hs.
    + rewrite lookup_insert_ne by exact Hne. now apply IH.
Qed.

(** C1: when the searcher is read-only with counting enabled, [Search]
    first looks the fingerprint [hex(md5(resource + "?" + raw))] up in the
    count cache.  On a hit it goes on with the cached total and
    [doCount = false]: it inserts nothing, it returns at once with no
    resources and no error when the cached total is 0, it issues no count
    and a search without error returns the cached total.  (A hit is never
    for a [_summary=count] search: in the states the database is in, no
    entry lies under the fingerprint of one.)  On a miss, a search that
    gets past the [_summary=count] return and ends without error, its
    results collected, inserts the computed total, which it returns, under
    the fingerprint as its last operation; what becomes of the insertion
    never shows in what [Search] returns. *)
Theorem count_cache_protocol drv m dict plural md5hex Title query db :
  readonly m = true -> countTotalResults m = true ->
  let h := md5hex (QueryResource query +:+ "?" +:+ QueryRaw query) in
  let db1 := logOp (FindOneOp "countcache" h) db in
  let out := Search drv m dict plural md5hex Title query db in
  (forall c, findOneFails drv h = false -> countcache db !! h = Some c ->
     out = searchFrom drv m dict plural Title query false c h db1
     /\ (exists ops, logged db1 (snd out) ops /\ noInsert ops = true
                     /\ (Summary (Options query) <> "count" -> noCount ops = true))
     /\ (c = 0%Z -> out = (Ok (mkReturn [] 0 None), db1))
     /\ (Summary (Options query) <> "count" ->
         forall r, fst out = Ok r -> err r = None -> total r = c))
  /\ (forall served c,
        fingerprintFixesSummary md5hex served ->
        reachable m dict plural md5hex Title served db -> served query ->
        countcache db !! h = Some c -> Summary (Options query) <> "count")
  /\ (findOneFails drv h = true \/ countcache db !! h = None ->
      out = searchFrom drv m dict plural Title query true 0 h db1
      /\ (Summary (Options query) <> "count" ->
          forall r, fst out = Ok r -> err r = None ->
          exists ops,
            noInsert ops = true
            /\ oplog (snd out)
               = oplog db1 ++ ops ++ [InsertOneOp "countcache" h (total r)]
            /\ countcache (snd out)
               = if insertOneFails drv h then countcache db
                 else match countcache db !! h with
                      | Some _ => countcache db
                      | None => <[h := total r]> (countcache db)
                      end))
  /\ (forall fails,
        fst (Search (withInsertFault drv fails) m dict plural md5hex Title query db)
        = fst out).
Proof.
  intros Hro Hct h db1 out.
  assert (Hout : out = match (if findOneFails drv h then None else countcache db !! h) with
                       | Some c => searchFrom drv m dict plural Title
                                     query false c h db1
                       | None => searchFrom drv m dict plural Title
                                   query true 0 h db1
                       end).
  { unfold out, Search. rewrite Hro, Hct. cbn [andb].
    unfold queryFingerprint. fold h. rewrite cacheLookup_eq. fold db1.
    now destruct (if findOneFails drv h then None else countcache db !! h). }
  split; [|split; [|split]].
  - intros c Hf Hc. rewrite Hf, Hc in Hout. split; [exact Hout|].
    rewrite Hout. split; [|now apply searchFrom_hit].
    destruct (searchFrom_no_insert drv m dict plural Title query false c h db1
                (or_introl eq_refl)) as (ops & Hlog & Hni & Hnc).
    exists ops. auto.
  - intros served c Hfix Hreach Hserved Hc Hs.
    pose proof (reachable_summary_count_uncached m dict plural md5hex Title served db
                  Hfix Hreach query Hserved Hs) as Hnone.
    fold h in Hnone. congruence.
  - intros Hmiss.
    assert (Hout' : out = searchFrom drv m dict plural Title query true 0 h db1).
    { rewrite Hout. destruct Hmiss as [-> | Hn]; [reflexivity|].
      rewrite Hn. now destruct (findOneFails drv h). }
    split; [exact Hout'|]. intros Hs r Hr He. rewrite Hout' in Hr |- *.
    destruct (searchFrom_miss drv m dict plural Title query h db1 r
                Hro Hct Hs Hr He) as (ops & dbq & Hlog & Hni & ->).
    exists ops. split; [exact Hni|].
    destruct (cacheInsert_effect drv h (total r) dbq) as [Hop Hcc].
    rewrite Hop, Hcc. unfold logged in Hlog. subst dbq. cbn [oplog countcache].
    split; [now rewrite app_assoc | reflexivity].
  - intros fails. apply Search_ignores_insert_errors.
Qed.

Lemma count_cache_protocol_witness :
  let h := "md5:Patient?gender=male" in
  (* a miss: the count, the query, and the insertion as the last operation *)
  SearchExample.search SearchExample.plainQuery SearchExample.emptyDB
  = (Ok (mkReturn [[("_id", VString "p1")]; [("_id", VString "p2")]] 7 None),
     mkDB {[ h := 7%Z ]}
          [FindOneOp "countcache" h;
           CountDocumentsOp "Patients" (VDoc [("gender", VString "male")]);
           FindOp "Patients" [("gender", VString "male")]
                  (mkFindOptions None None (Some 100%Z));
           InsertOneOp "countcache" h 7])
  (* a hit: the cached total, no count, no insertion *)
  /\ (forall r, fst (SearchExample.search SearchExample.plainQuery
                       (SearchExample.cachedDB SearchExample.plainQuery 5)) = Ok r ->
                err r = None -> total r = 5%Z)
  (* a hit on zero: nothing but the lookup *)
  /\ SearchExample.search SearchExample.plainQuery
       (SearchExample.cachedDB SearchExample.plainQuery 0)
     = (Ok (mkReturn [] 0 None),
        mkDB {[ h := 0%Z ]} [FindOneOp "countcache" h]).
Proof.
  intros h. split; [vm_compute; reflexivity|].
  pose proof (count_cache_protocol SearchExample.driver SearchExample.searcher ∅
                SearchExample.plural SearchExample.digest SearchExample.title
                SearchExample.plainQuery) as P.
  split.
  - destruct (P (SearchExample.cachedDB SearchExample.plainQuery 5) eq_refl eq_refl)
      as (Hhit & _).
    destruct (Hhit 5%Z eq_refl eq_refl) as (_ & _ & _ & Htotal).
    apply Htotal. discriminate.
  - destruct (P (SearchExample.cachedDB SearchExample.plainQuery 0) eq_refl eq_refl)
      as (Hhit & _).
    destruct (Hhit 0%Z eq_refl eq_refl) as (_ & _ & Hzero & _).
    exact (Hzero eq_refl).
Defined.

(** C10: a [_summary=count] search never writes the count cache.  Unless
    the cache answers its fingerprint with a zero total, the search, once
    the query is compiled, computes the total (by count-documents in find
    mode, or by the count branch in aggregate mode) whatever
    [countTotalResults] says and whether or not the searcher is read-only,
    as its one operation after the lookup, and returns no resources, that
    total and no error, or the error of the count, before the insertion
    step.  And the cache never answers so: in the states the database is
    in, it holds no entry under the fingerprint of a [_summary=count]
    search, so that there the total is always computed. *)
Theorem summary_count_search drv m dict plural md5hex Title query db :
  Summary (Options query) = "count" ->
  let h := md5hex (QueryResource query +:+ "?" +:+ QueryRaw query) in
  let db1 := if readonly m && countTotalResults m
             then logOp (FindOneOp "countcache" h) db else db in
  let out := Search drv m dict plural md5hex Title query db in
  let counted b :=
    (exists op, isCountOp op = true /\ snd out = logOp op db1)
    /\ out = (match fst (countOnly drv plural b db1) with
              | Done t => Ok (mkReturn [] t None)
              | Failed e => Ok (mkReturn [] 0 (Some (wrap "Search error" e)))
              end,
              snd (countOnly drv plural b db1)) in
  (exists ops, logged db (snd out) ops /\ noInsert ops = true)
  /\ (cachedZero drv m h db = false ->
      forall b, convertToBSON m dict plural query = Ok b -> counted b)
  /\ (forall served,
        fingerprintFixesSummary md5hex served ->
        reachable m dict plural md5hex Title served db -> served query ->
        countcache db !! h = None
        /\ forall b, convertToBSON m dict plural query = Ok b -> counted b).
Proof.
  intros Hs h db1 out. cbv zeta.
  (* the search from the point where the cache has been consulted *)
  assert (Hfrom : forall dc total h0 db0,
            readonly m && negb dc && (total =? 0)%Z = false ->
            forall b, convertToBSON m dict plural query = Ok b ->
            searchFrom drv m dict plural Title query dc total h0 db0
            = (match fst (countOnly drv plural b db0) with
               | Done t => Ok (mkReturn [] t None)
               | Failed e => Ok (mkReturn [] 0 (Some (wrap "Search error" e)))
               end,
               snd (countOnly drv plural b db0))).
  { intros dc total h0 db0 Hcut b Hb. rewrite searchFrom_eq, Hcut, Hb. cbv zeta.
    rewrite runQuery_summary by assumption. rewrite Hs.
    now destruct (fst (countOnly drv plural b db0)). }
  assert (Hquiet : forall dc total h0 db0,
            exists ops,
              logged db0 (snd (searchFrom drv m dict plural Title
                                 query dc total h0 db0)) ops
              /\ noInsert ops = true).
  { intros dc total h0 db0.
    destruct (searchFrom_no_insert drv m dict plural Title query dc total h0 db0
                (or_intror Hs)) as (ops & Hlog & Hni & _).
    now exists ops. }
  assert (Hlooked : forall dc total,
            exists ops,
              logged db (snd (searchFrom drv m dict plural Title query dc total h
                                (logOp (FindOneOp "countcache" h) db))) ops
              /\ noInsert ops = true).
  { intros dc total.
    destruct (Hquiet dc total h (logOp (FindOneOp "countcache" h) db))
      as (ops & Hlog & Hni).
    exists (FindOneOp "countcache" h :: ops). split; [|exact Hni].
    apply (logged_trans _ _ _ [_] ops (logged_op db _) Hlog). }
  assert (Hcounted : forall dc total h0 db0,
            readonly m && negb dc && (total =? 0)%Z = false ->
            forall b, convertToBSON m dict plural query = Ok b ->
            (exists op, isCountOp op = true
                        /\ snd (searchFrom drv m dict plural Title
                                  query dc total h0 db0) = logOp op db0)
            /\ searchFrom drv m dict plural Title query dc total h0 db0
               = (match fst (countOnly drv plural b db0) with
                  | Done t => Ok (mkReturn [] t None)
                  | Failed e => Ok (mkReturn [] 0 (Some (wrap "Search error" e)))
                  end,
                  snd (countOnly drv plural b db0))).
  { intros dc total h0 db0 Hcut b Hb. rewrite (Hfrom dc total h0 db0 Hcut b Hb).
    split; [apply countOnly_logs | reflexivity]. }
  assert (Hmiss : readonly m && negb true && (0 =? 0)%Z = false)
    by (cbn [negb]; now rewrite andb_false_r).
  assert (Hmain : cachedZero drv m h db = false ->
            forall b, convertToBSON m dict plural query = Ok b ->
            (exists op, isCountOp op = true /\ snd out = logOp op db1)
            /\ out = (match fst (countOnly drv plural b db1) with
                      | Done t => Ok (mkReturn [] t None)
                      | Failed e => Ok (mkReturn [] 0 (Some (wrap "Search error" e)))
                      end,
                      snd (countOnly drv plural b db1))).
  { unfold out, Search, cachedZero, db1. unfold queryFingerprint. fold h.
    destruct (readonly m && countTotalResults m) eqn:Hflags; cbn [andb].
    + rewrite cacheLookup_eq.
      assert (Hro : readonly m = true) by now apply andb_true_iff in Hflags as [? _].
      destruct (findOneFails drv h); cbn [negb andb].
      * intros _ b Hb. now apply Hcounted.
      * destruct (countcache db !! h) as [c|] eqn:Hc.
        -- intros Hz%bool_decide_eq_false b Hb. apply Hcounted; [|exact Hb].
           rewrite Hro. cbn [andb negb]. apply Z.eqb_neq. congruence.
        -- intros _ b Hb. now apply Hcounted.
    + intros _ b Hb. now apply Hcounted. }
  split; [|split; [exact Hmain|]].
  - unfold out, Search. destruct (readonly m && countTotalResults m).
    + rewrite cacheLookup_eq. unfold queryFingerprint. fold h.
      destruct (if findOneFails drv h then None else countcache db !! h);
        apply Hlooked.
    + apply Hquiet.
  - intros served Hfix Hr Hserved.
    pose proof (reachable_summary_count_uncached m dict plural md5hex Title served db
                  Hfix Hr query Hserved Hs) as Hnone.
    fold h in Hnone. split; [exact Hnone|].
    apply Hmain. unfold cachedZero. rewrite Hnone.
    rewrite (bool_decide_eq_false_2 (None = Some 0%Z)) by discriminate.
    apply andb_false_r.
Qed.

Lemma summary_count_search_witness :
  let h := "md5:Patient?gender=male&_summary=count" in
  let unconfigured := NewMongoSearcher false false false false in
  (* counting disabled, not read-only: the total is computed all the same *)
  Search SearchExample.driver unconfigured ∅ SearchExample.plural SearchExample.digest
         SearchExample.title SearchExample.countQuery SearchExample.emptyDB
  = (Ok (mkReturn [] 7 None),
     mkDB ∅ [CountDocumentsOp "Patients" (VDoc [("gender", VString "male")])])
  (* read-only with counting, after a search that filled the cache: counted
     after the lookup, the cache left as it was *)
  /\ SearchExample.search SearchExample.countQuery
       (mkDB (countcache (snd (SearchExample.search SearchExample.plainQuery
                                 SearchExample.emptyDB))) [])
     = (Ok (mkReturn [] 7 None),
        mkDB {[ "md5:Patient?gender=male" := 7%Z ]}
             [FindOneOp "countcache" h;
              CountDocumentsOp "Patients" (VDoc [("gender", VString "male")])])
  /\ exists ops,
       logged SearchExample.emptyDB
         (snd (SearchExample.search SearchExample.countQuery SearchExample.emptyDB)) ops
       /\ noInsert ops = true.
Proof.
  intros h unconfigured. split; [vm_compute; reflexivity|].
  split; [vm_compute; reflexivity|].
  exact (proj1 (summary_count_search SearchExample.driver SearchExample.searcher ∅
                  SearchExample.plural SearchExample.digest SearchExample.title
                  SearchExample.countQuery SearchExample.emptyDB eq_refl)).
Defined.

(** ** Sort options and parallel arrays *)

Lemma mismatchIndex_sym (a : string) : forall b i,
  mismatchIndex a b i = mismatchIndex b a i.
Proof.
  induction a as [|c a IH]; intros [|c' b] i; simpl; try reflexivity.
  rewrite (Ascii.eqb_sym c c').
  destruct (Ascii.eqb c' c); [apply IH | reflexivity].
Qed.

Lemma mismatchIndex_refl (a : string) : forall i, mismatchIndex a a i = None.
Proof.
  induction a as [|c a IH]; intros i; simpl; [reflexivity|].
  rewrite Ascii.eqb_refl. apply IH.
Qed.

Lemma mismatchIndex_prefix (a : string) : forall b k i,
  mismatchIndex a b k = Some i ->
  k <= i /\ String.substring 0 (i - k) a = String.substring 0 (i - k) b.
Proof.
  induction a as [|c a IH]; intros [|c' b] k i; simpl; try discriminate.
  destruct (Ascii.eqb_spec c c') as [->|Hne].
  - intros H. apply IH in H as [Hle Heq]. split; [lia|].
    replace (i - k) with (S (i - S k)) by lia. simpl. now rewrite Heq.
  - intros [= <-]. split; [lia|]. now rewrite Nat.sub_diag.
Qed.

Lemma mismatchIndex_app (a : string) : forall b i,
  mismatchIndex a (a +:+ b) i = None.
Proof.
  induction a as [|c a IH]; intros b i; simpl; [now destruct b|].
  rewrite Ascii.eqb_refl. apply IH.
Qed.

(** X1: [isParallelArrayPath] is symmetric, it never holds of a path and
    itself, and it never holds when one of the paths has no bracket. *)
Theorem isParallelArrayPath_symmetric (path1 path2 : string) :
  isParallelArrayPath path1 path2 = isParallelArrayPath path2 path1
  /\ isParallelArrayPath path1 path1 = false
  /\ (no_open path1 = true -> isParallelArrayPath path1 path2 = false)
  /\ (no_open path2 = true -> isParallelArrayPath path1 path2 = false).
Proof.
  split; [|split; [|split]].
  - unfold isParallelArrayPath.
    rewrite (orb_comm (negb (containsOpen path1))).
    destruct (negb (containsOpen path2) || negb (containsOpen path1)); [reflexivity|].
    rewrite (mismatchIndex_sym (indexersAsMarkers path1)).
    destruct (mismatchIndex (indexersAsMarkers path2) (indexersAsMarkers path1) 0)
      as [i|] eqn:E; [|reflexivity].
    apply mismatchIndex_prefix in E as [_ E].
    rewrite Nat.sub_0_r in E. now rewrite E.
  - unfold isParallelArrayPath.
    rewrite mismatchIndex_refl. now destruct (_ || _).
  - intros H. unfold isParallelArrayPath, containsOpen. now rewrite H.
  - intros H. unfold isParallelArrayPath, containsOpen. rewrite H.
    now rewrite orb_true_r.
Qed.

Lemma parallelWithKept_inv (sort : SortOption) (npSorts : list SortOption) b :
  parallelWithKept sort npSorts = Ok b ->
  (b = true -> exists k, In k npSorts /\ notParallel sort k = false)
  /\ (b = false -> Forall (fun k => notParallel sort k = true) npSorts).
Proof.
  induction npSorts as [|k rest IH]; simpl.
  - intros [= <-]. split; [discriminate | constructor].
  - destruct (firstPath (SortParameter sort)) as [p1|] eqn:E1; [|discriminate].
    destruct (firstPath (SortParameter k)) as [p2|] eqn:E2; [|discriminate].
    destruct (isParallelArrayPath p1 p2) eqn:Ep.
    + intros [= <-]. split; [|discriminate].
      intros _. exists k. split; [now left|].
      unfold notParallel. now rewrite E1, E2, Ep.
    + intros H. destruct (IH H) as [Ht Hf]. split.
      * intros Hb. destruct (Ht Hb) as (k' & Hin & Hk'). exists k'. split; [now right | easy].
      * intros Hb. constructor; [|now apply Hf].
        unfold notParallel. now rewrite E1, E2, Ep.
Qed.

Lemma parallelWithKept_false (sort : SortOption) (npSorts : list SortOption) :
  Forall (fun k => notParallel sort k = true) npSorts ->
  parallelWithKept sort npSorts = Ok false.
Proof.
  induction 1 as [|k rest Hk _ IH]; simpl; [reflexivity|].
  unfold notParallel in Hk.
  destruct (firstPath (SortParameter sort)) as [p1|]; [|discriminate].
  destruct (firstPath (SortParameter k)) as [p2|]; [|discriminate].
  apply negb_true_iff in Hk. now rewrite Hk.
Qed.

Lemma hasPath_firstPath (s : SortOption) :
  hasPath s = true -> exists p, firstPath (SortParameter s) = Ok p.
Proof.
  unfold hasPath, firstPath. destruct (Paths (SortParameter s)); [discriminate | eauto].
Qed.

Lemma parallelWithKept_total (sort : SortOption) (npSorts : list SortOption) :
  hasPath sort = true -> forallb hasPath npSorts = true ->
  exists b, parallelWithKept sort npSorts = Ok b.
Proof.
  intros Hs. induction npSorts as [|k rest IH]; simpl; [eauto|].
  intros [Hk Hrest]%andb_true_iff.
  destruct (hasPath_firstPath _ Hs) as [p1 ->].
  destruct (hasPath_firstPath _ Hk) as [p2 ->].
  destruct (isParallelArrayPath p1 p2); eauto.
Qed.

Lemma pairwiseNotParallel_snoc (acc : list SortOption) (s : SortOption) :
  pairwiseNotParallel acc ->
  Forall (fun k => notParallel s k = true) acc ->
  pairwiseNotParallel (acc ++ [s]).
Proof.
  unfold pairwiseNotParallel.
  induction 1 as [|a l Ha Hl IH]; simpl; intros HF.
  - constructor; constructor.
  - inversion HF as [|? ? Has HF']; subst. constructor.
    + apply Forall_app. split; [exact Ha | now constructor].
    + now apply IH.
Qed.

Lemma nonParallelSorts_inv (sorts : list SortOption) : forall acc r,
  nonParallelSorts sorts acc = Ok r ->
  pairwiseNotParallel acc ->
  exists kept,
    r = acc ++ kept
    /\ sublist kept sorts
    /\ pairwiseNotParallel r
    /\ (forall s, In s sorts -> In s kept
                  \/ exists k, In k r /\ notParallel s k = false)
    /\ (acc = [] -> hd_error kept = hd_error sorts).
Proof.
  induction sorts as [|s rest IH]; simpl; intros acc r.
  - intros [= <-] Hacc. exists []. rewrite app_nil_r.
    split; [reflexivity|]. split; [constructor|]. split; [exact Hacc|].
    split; [intros s []|reflexivity].
  - destruct (parallelWithKept s acc) as [b|] eqn:Eb; [|discriminate].
    destruct (parallelWithKept_inv _ _ _ Eb) as [Ht Hf].
    destruct b.
    + intros H Hacc. destruct (IH _ _ H Hacc) as (kept & -> & Hsub & Hpw & Hdrop & _).
      exists kept. split; [reflexivity|]. split; [now constructor|]. split; [exact Hpw|].
      split.
      * intros s' [<-|Hin]; [|now apply Hdrop].
        right. destruct (Ht eq_refl) as (k & Hk & Hpar).
        exists k. split; [apply in_or_app; now left | exact Hpar].
      * intros ->. destruct (Ht eq_refl) as (k & [] & _).
    + intros H Hacc.
      assert (Hacc' : pairwiseNotParallel (acc ++ [s]))
        by (apply pairwiseNotParallel_snoc; [exact Hacc | now apply Hf]).
      destruct (IH _ _ H Hacc') as (kept & -> & Hsub & Hpw & Hdrop & _).
      exists (s :: kept). rewrite <- app_assoc. split; [reflexivity|].
      split; [now constructor|]. split; [now rewrite <- app_assoc in Hpw|].
      split.
      * intros s' [<-|Hin]; [left; now left|].
        destruct (Hdrop _ Hin) as [Hk|(k & Hk & Hpar)].
        -- left. now right.
        -- right. exists k. split; [now rewrite <- app_assoc in Hk | exact Hpar].
      * reflexivity.
Qed.

Lemma nonParallelSorts_total (sorts : list SortOption) : forall acc,
  forallb hasPath sorts = true -> forallb hasPath acc = true ->
  exists r, nonParallelSorts sorts acc = Ok r.
Proof.
  induction sorts as [|s rest IH]; simpl; intros acc; [eauto|].
  intros [Hs Hrest]%andb_true_iff Hacc.
  destruct (parallelWithKept_total s acc Hs Hacc) as [b ->].
  apply IH; [exact Hrest|]. destruct b; [exact Hacc|].
  rewrite forallb_app. simpl. now rewrite Hacc, Hs.
Qed.

Lemma nonParallelSorts_fixed (l : list SortOption) : forall acc,
  pairwiseNotParallel (acc ++ l) -> nonParallelSorts l acc = Ok (acc ++ l).
Proof.
  induction l as [|s rest IH]; simpl; intros acc H; [now rewrite app_nil_r|].
  assert (Hs : Forall (fun k => notParallel s k = true) acc).
  { clear IH. unfold pairwiseNotParallel in H.
    induction acc as [|a acc IHacc]; [constructor|].
    simpl in H. inversion H as [|? ? Ha Hl]; subst. constructor.
    - rewrite Forall_app in Ha. destruct Ha as [_ Ha]. now inversion Ha.
    - now apply IHacc. }
  rewrite (parallelWithKept_false _ _ Hs).
  rewrite (IH (acc ++ [s])); rewrite <- app_assoc; [reflexivity | exact H].
Qed.

Lemma withSort_same (o : QueryOptions) : withSort o (Sort o) = o.
Proof. now destruct o. Qed.

Lemma sublist_same_length {A} (l k : list A) :
  sublist k l -> length l = length k -> k = l.
Proof.
  induction 1 as [|x k l H IH|x k l H IH]; simpl; intros Hlen.
  - reflexivity.
  - f_equal. apply IH. lia.
  - apply sublist_length in H. lia.
Qed.

Lemma removeParallelArraySorts_inv (o o' : QueryOptions) :
  removeParallelArraySorts o = Ok o' ->
  nonParallelSorts (Sort o) [] = Ok (Sort o') /\ o' = withSort o (Sort o').
Proof.
  unfold removeParallelArraySorts.
  destruct (nonParallelSorts (Sort o) []) as [np|] eqn:E; [|discriminate].
  destruct (Nat.eqb_spec (length (Sort o)) (length np)) as [Hlen|Hlen]; simpl.
  - intros [= <-]. destruct (nonParallelSorts_inv _ _ _ E) as (kept & Hr & Hsub & _).
    { constructor. }
    simpl in Hr. subst np.
    assert (Hk : kept = Sort o) by now apply sublist_same_length.
    split; [congruence | now rewrite withSort_same].
  - intros [= <-]. simpl. split; reflexivity.
Qed.

(** X2: when every sort parameter has a path, [removeParallelArraySorts]
    succeeds and leaves a sublist of the sort options, in their order, that
    begins with the first option; no option kept is parallel with one kept
    before it, and every option dropped is parallel with one that is kept.
    The other options stay as they are. *)
Theorem removeParallelArraySorts_keeps (o : QueryOptions) :
  forallb hasPath (Sort o) = true ->
  exists kept,
    removeParallelArraySorts o = Ok (withSort o kept)
    /\ sublist kept (Sort o)
    /\ hd_error kept = hd_error (Sort o)
    /\ pairwiseNotParallel kept
    /\ (forall s, In s (Sort o) ->
          In s kept \/ exists k, In k kept /\ notParallel s k = false).
Proof.
  intros Hpaths.
  destruct (nonParallelSorts_total (Sort o) [] Hpaths eq_refl) as [r Hr].
  destruct (nonParallelSorts_inv _ _ _ Hr) as (kept & -> & Hsub & Hpw & Hdrop & Hhd).
  { constructor. }
  simpl in *. exists kept. split.
  - unfold removeParallelArraySorts. rewrite Hr.
    destruct (Nat.eqb_spec (length (Sort o)) (length kept)) as [Hlen|Hlen]; simpl.
    + rewrite (sublist_same_length _ _ Hsub Hlen). now rewrite withSort_same.
    + reflexivity.
  - split; [exact Hsub|]. split; [now apply Hhd|]. split; [exact Hpw | exact Hdrop].
Qed.

Lemma removeParallelArraySorts_keeps_witness :
  let o := SortExample.options
             [SortExample.family; SortExample.birthdate; SortExample.given] in
  forallb hasPath (Sort o) = true
  /\ exists kept,
       removeParallelArraySorts o = Ok (withSort o kept)
       /\ sublist kept (Sort o)
       /\ hd_error kept = hd_error (Sort o)
       /\ pairwiseNotParallel kept
       /\ (forall s, In s (Sort o) ->
             In s kept \/ exists k, In k kept /\ notParallel s k = false).
Proof.
  split; [reflexivity|].
  apply (removeParallelArraySorts_keeps
           (SortExample.options
              [SortExample.family; SortExample.birthdate; SortExample.given])).
  reflexivity.
Defined.

(** X3: [removeParallelArraySorts] is idempotent: on the options it
    leaves, it succeeds and changes nothing. *)
Theorem removeParallelArraySorts_idempotent (o o' : QueryOptions) :
  removeParallelArraySorts o = Ok o' ->
  removeParallelArraySorts o' = Ok o'.
Proof.
  intros H. destruct (removeParallelArraySorts_inv _ _ H) as [Hnp _].
  destruct (nonParallelSorts_inv _ _ _ Hnp) as (kept & Hk & _ & Hpw & _).
  { constructor. }
  unfold removeParallelArraySorts.
  rewrite (nonParallelSorts_fixed (Sort o') [] Hpw). simpl.
  now rewrite Nat.eqb_refl.
Qed.

Lemma removeParallelArraySorts_idempotent_witness :
  let o := SortExample.options
             [SortExample.family; SortExample.birthdate; SortExample.given] in
  let o' := SortExample.options [SortExample.family; SortExample.birthdate] in
  removeParallelArraySorts o = Ok o' /\ removeParallelArraySorts o' = Ok o'.
Proof.
  split; [reflexivity|].
  apply (removeParallelArraySorts_idempotent
           (SortExample.options
              [SortExample.family; SortExample.birthdate; SortExample.given])).
  reflexivity.
Defined.

Lemma firstPath_cases (i : SearchParamInfo) :
  (exists p, firstPath i = Ok p) \/ firstPath i = indexOutOfRange.
Proof. unfold firstPath. destruct (Paths i); eauto. Qed.

Lemma parallelWithKept_panic (sort : SortOption) (npSorts : list SortOption) :
  (exists b, parallelWithKept sort npSorts = Ok b)
  \/ parallelWithKept sort npSorts = indexOutOfRange.
Proof.
  induction npSorts as [|k rest IH]; simpl; [eauto|].
  destruct (firstPath_cases (SortParameter sort)) as [[p1 ->]| ->]; [|now right].
  destruct (firstPath_cases (SortParameter k)) as [[p2 ->]| ->]; [|now right].
  destruct (isParallelArrayPath p1 p2); eauto.
Qed.

Lemma nonParallelSorts_panic (sorts : list SortOption) : forall acc,
  (exists r, nonParallelSorts sorts acc = Ok r)
  \/ nonParallelSorts sorts acc = indexOutOfRange.
Proof.
  induction sorts as [|s rest IH]; simpl; intros acc; [eauto|].
  destruct (parallelWithKept_panic s acc) as [[b ->]| ->]; [apply IH | now right].
Qed.

Lemma sortField_cases (s : SortOption) :
  (exists kv, sortField s = Ok kv) \/ sortField s = indexOutOfRange.
Proof.
  unfold sortField.
  destruct (firstPath_cases (SortParameter s)) as [[p ->]| ->];
    [left; eexists; reflexivity | right; reflexivity].
Qed.

Lemma sortField_pathless (s : SortOption) :
  hasPath s = false -> sortField s = indexOutOfRange.
Proof.
  unfold sortField, firstPath, hasPath.
  destruct (Paths (SortParameter s)); [reflexivity | discriminate].
Qed.

Lemma sortFields_panic (sorts : list SortOption) :
  (exists f, sortFields sorts = Ok f) \/ sortFields sorts = indexOutOfRange.
Proof.
  unfold sortFields. induction sorts as [|s rest IH]; simpl; [eauto|].
  destruct (sortField_cases s) as [[kv ->]| ->]; [|right; reflexivity].
  destruct IH as [[f ->]| ->]; [left; eexists; reflexivity | right; reflexivity].
Qed.

Lemma sortFields_pathless (sorts : list SortOption) (s : SortOption) :
  In s sorts -> hasPath s = false -> sortFields sorts = indexOutOfRange.
Proof.
  intros Hin Hs.
  destruct (sortFields_panic sorts) as [[f Hf]|H]; [exfalso | exact H].
  revert f Hf. unfold sortFields.
  induction sorts as [|a rest IH]; [destruct Hin|]. simpl. intros f.
  destruct Hin as [->|Hin].
  - now rewrite (sortField_pathless _ Hs).
  - destruct (sortField a); [|discriminate].
    destruct (mapResult sortField rest) as [fs|] eqn:E; [|discriminate].
    intros _. now apply (IH Hin fs).
Qed.

Lemma parallelWithKept_pathless (s : SortOption) (acc : list SortOption) b :
  hasPath s = false -> parallelWithKept s acc = Ok b -> acc = [] /\ b = false.
Proof.
  intros Hs. destruct acc as [|k rest]; simpl; [now intros [= <-]|].
  unfold hasPath in Hs. unfold firstPath at 1.
  destruct (Paths (SortParameter s)); [discriminate | discriminate].
Qed.

Lemma nonParallelSorts_grows (sorts : list SortOption) : forall acc r,
  nonParallelSorts sorts acc = Ok r -> incl acc r.
Proof.
  induction sorts as [|s rest IH]; simpl; intros acc r.
  - intros [= <-]. apply incl_refl.
  - destruct (parallelWithKept s acc) as [[]|]; [| |discriminate]; intros H.
    + now apply IH.
    + apply IH in H. intros x Hx. apply H, in_or_app. now left.
Qed.

Lemma nonParallelSorts_pathless (sorts : list SortOption) : forall acc r s,
  nonParallelSorts sorts acc = Ok r ->
  In s sorts -> hasPath s = false -> In s r.
Proof.
  induction sorts as [|a rest IH]; simpl; intros acc r s H Hin Hs; [destruct Hin|].
  destruct (parallelWithKept a acc) as [b|] eqn:E; [|discriminate].
  destruct Hin as [->|Hin]; [|now apply (IH _ _ _ H)].
  destruct (parallelWithKept_pathless _ _ _ Hs E) as [-> ->].
  apply nonParallelSorts_grows in H. apply H. now left.
Qed.

Lemma removeParallelArraySorts_panic (o : QueryOptions) :
  (exists o', removeParallelArraySorts o = Ok o')
  \/ removeParallelArraySorts o = indexOutOfRange.
Proof.
  unfold removeParallelArraySorts.
  destruct (nonParallelSorts_panic (Sort o) []) as [[r ->]| ->]; [left | now right].
  destruct (negb _); eauto.
Qed.

Lemma sortFields_after_removal (o o' : QueryOptions) :
  existsb (fun s => negb (hasPath s)) (Sort o) = true ->
  removeParallelArraySorts o = Ok o' ->
  (0 <? length (Sort o'))%nat = true /\ sortFields (Sort o') = indexOutOfRange.
Proof.
  intros (s & Hin & Hs)%existsb_exists H. apply negb_true_iff in Hs.
  destruct (removeParallelArraySorts_inv _ _ H) as [Hnp _].
  pose proof (nonParallelSorts_pathless _ _ _ s Hnp Hin Hs) as Hkept.
  split; [|now apply (sortFields_pathless _ s)].
  destruct (Sort o'); [destruct Hkept | reflexivity].
Qed.

(** X4: a sort parameter without paths never yields options: both the
    bundle of [find] and the closing stages of a pipeline end in the
    index-out-of-range panic of Go.  A lone sort option is not looked at by
    [removeParallelArraySorts], which returns the options unchanged. *)
Theorem sort_without_path_panics
    (plural title : string -> string) (resource : string) (o : QueryOptions) :
  existsb (fun s => negb (hasPath s)) (Sort o) = true ->
  findOptions o = indexOutOfRange
  /\ convertOptionsToPipelineStages plural title resource o = indexOutOfRange
  /\ (forall s, Sort o = [s] -> removeParallelArraySorts o = Ok o).
Proof.
  intros Hex. split; [|split].
  - unfold findOptions.
    destruct (removeParallelArraySorts_panic o) as [[o' Ho']|Hp];
      [|now rewrite Hp].
    rewrite Ho'. destruct (sortFields_after_removal _ _ Hex Ho') as [-> ->].
    reflexivity.
  - unfold convertOptionsToPipelineStages.
    destruct (removeParallelArraySorts_panic o) as [[o' Ho']|Hp];
      [|now rewrite Hp].
    rewrite Ho'. unfold sortStage.
    destruct (sortFields_after_removal _ _ Hex Ho') as [-> ->].
    reflexivity.
  - intros s Hs. unfold removeParallelArraySorts. rewrite Hs. reflexivity.
Qed.

Lemma sort_without_path_panics_witness :
  let o := SortExample.options [SortExample.pathless] in
  findOptions o = indexOutOfRange
  /\ convertOptionsToPipelineStages (fun r => r) (fun n => n) "Patient" o
     = indexOutOfRange
  /\ removeParallelArraySorts o = Ok o.
Proof.
  destruct (sort_without_path_panics (fun r => r) (fun n => n) "Patient"
              (SortExample.options [SortExample.pathless]) eq_refl)
    as (Hfind & Hstages & Hsame).
  split; [exact Hfind|]. split; [exact Hstages|].
  now apply (Hsame SortExample.pathless).
Defined.

(** ** The closing stages of a pipeline *)

Lemma Forall_concat_imap {A B} (P : B -> Prop) (f : nat -> A -> list B) (l : list A) :
  (forall i a, Forall P (f i a)) -> Forall P (concat (imap f l)).
Proof.
  revert f. induction l as [|a l IH]; intros f Hf; simpl; [constructor|].
  apply Forall_app. split; [apply Hf | apply IH; intros i b; apply Hf].
Qed.

Lemma Forall_flat_map_all {A B} (P : B -> Prop) (f : A -> list B) (l : list A) :
  (forall a, Forall P (f a)) -> Forall P (flat_map f l).
Proof.
  intros Hf. induction l as [|a l IH]; simpl; [constructor|].
  apply Forall_app. split; [apply Hf | exact IH].
Qed.

Lemma includeStages_lookups plural title (incl : IncludeOption) :
  Forall (fun stage => stageKind stage = "$lookup") (includeStages plural title incl).
Proof.
  unfold includeStages. apply Forall_flat_map_all. intros p.
  destruct (negb _); [constructor|].
  apply Forall_concat_imap. intros i t.
  destruct (String.eqb t "Any"); [constructor|]. now repeat constructor.
Qed.

Lemma revIncludeStages_lookups plural title resource (incl : IncludeOption) :
  Forall (fun stage => stageKind stage = "$lookup")
         (revIncludeStages plural title resource incl).
Proof.
  unfold revIncludeStages. destruct (negb (existsb _ _)); [constructor|].
  apply Forall_concat_imap. intros i p.
  destruct (negb _); [constructor|]. now repeat constructor.
Qed.

Lemma removeParallelArraySorts_fields (o o' : QueryOptions) :
  removeParallelArraySorts o = Ok o' ->
  Count o' = Count o /\ Offset o' = Offset o /\ Summary o' = Summary o
  /\ Include o' = Include o /\ RevInclude o' = RevInclude o
  /\ hd_error (Sort o') = hd_error (Sort o).
Proof.
  intros H. destruct (removeParallelArraySorts_inv _ _ H) as [Hnp ->]. simpl.
  destruct (nonParallelSorts_inv _ _ _ Hnp) as (kept & Hk & _ & _ & _ & Hhd).
  { constructor. }
  simpl in Hk. rewrite <- Hk in Hhd. now rewrite (Hhd eq_refl).
Qed.

Lemma hd_error_nonempty {A} (l k : list A) :
  hd_error l = hd_error k -> (0 <? length l)%nat = (0 <? length k)%nat.
Proof. destruct l, k; simpl; intros H; try discriminate H; reflexivity. Qed.

(** X5: the closing stages that [convertOptionsToPipelineStages] yields
    are, in this order, a [$sort] stage exactly when there is a sort option,
    a [$skip] stage exactly when the offset is positive, one [$limit] stage
    with the count, whatever the count is, and then nothing but [$lookup]
    stages. *)
Theorem option_stages_order
    (plural title : string -> string) (resource : string) (o : QueryOptions)
    (stages : list Doc) :
  convertOptionsToPipelineStages plural title resource o = Ok stages ->
  exists sorted lookups,
    stages = sorted ++ skipStage o ++ [[("$limit", VInt (Count o))]] ++ lookups
    /\ map stageKind sorted = (if (0 <? length (Sort o))%nat then ["$sort"] else [])
    /\ map stageKind (skipStage o) = (if (0 <? Offset o)%Z then ["$skip"] else [])
    /\ Forall (fun stage => stageKind stage = "$lookup") lookups.
Proof.
  unfold convertOptionsToPipelineStages.
  destruct (removeParallelArraySorts o) as [o'|] eqn:Ho; [|discriminate].
  destruct (removeParallelArraySorts_fields _ _ Ho) as (Hc & Hoff & _ & Hi & Hr & Hhd).
  destruct (sortStage o') as [sorted|] eqn:Hs; [|discriminate].
  intros [= <-].
  exists sorted,
    (flat_map (includeStages plural title) (Include o)
     ++ flat_map (revIncludeStages plural title resource) (RevInclude o)).
  split; [|split; [|split]].
  - unfold skipStage, limitStage. now rewrite Hc, Hoff, Hi, Hr.
  - rewrite <- (hd_error_nonempty _ _ Hhd). unfold sortStage in Hs.
    destruct (0 <? length (Sort o'))%nat.
    + destruct (sortFields (Sort o')); [|discriminate]. now injection Hs as <-.
    + now injection Hs as <-.
  - unfold skipStage. now destruct (0 <? Offset o)%Z.
  - apply Forall_app. split; apply Forall_flat_map_all; intros incl.
    + apply includeStages_lookups.
    + apply revIncludeStages_lookups.
Qed.

Lemma option_stages_order_witness :
  let o := mkOptions 0 0 [SortExample.birthdate] "" [] [] in
  convertOptionsToPipelineStages (fun r => r) (fun n => n) "Patient" o
  = Ok [[("$sort", VDoc [("birthDate", VInt (-1)%Z)])]; [("$limit", VInt 0%Z)]]
  /\ exists sorted lookups,
       [[("$sort", VDoc [("birthDate", VInt (-1)%Z)])]; [("$limit", VInt 0%Z)]]
       = sorted ++ skipStage o ++ [[("$limit", VInt (Count o))]] ++ lookups
       /\ map stageKind sorted = (if (0 <? length (Sort o))%nat then ["$sort"] else [])
       /\ map stageKind (skipStage o) = (if (0 <? Offset o)%Z then ["$skip"] else [])
       /\ Forall (fun stage => stageKind stage = "$lookup") lookups.
Proof.
  split; [reflexivity|].
  apply (option_stages_order (fun r => r) (fun n => n) "Patient"
           (mkOptions 0 0 [SortExample.birthdate] "" [] [])).
  reflexivity.
Defined.

(** X6: both execution modes translate [_sort], [_offset] and [_count] in
    the same way: when [find] fills its bundle, the closing stages of the
    pipeline are the stages that say what the bundle says, followed by
    [$lookup] stages only, and the bundle always carries the limit; when
    [find] panics, so does the translation into stages, with the same
    value. *)
Theorem find_and_pipeline_options_agree
    (plural title : string -> string) (resource : string) (o : QueryOptions) :
  match findOptions o with
  | Ok bundle =>
      findLimit bundle = Some (Count o)
      /\ exists lookups,
           convertOptionsToPipelineStages plural title resource o
           = Ok (bundleStages bundle ++ lookups)
           /\ Forall (fun stage => stageKind stage = "$lookup") lookups
  | Panic e => convertOptionsToPipelineStages plural title resource o = Panic e
  end.
Proof.
  unfold findOptions, convertOptionsToPipelineStages.
  destruct (removeParallelArraySorts o) as [o'|e] eqn:Ho; [|reflexivity].
  destruct (removeParallelArraySorts_fields _ _ Ho) as (Hc & _).
  unfold sortStage.
  destruct (0 <? length (Sort o'))%nat.
  - destruct (sortFields (Sort o')) as [fields|e]; [|reflexivity].
    split; [simpl; now rewrite Hc|].
    eexists. split.
    + unfold bundleStages, skipStage, limitStage. simpl.
      destruct (0 <? Offset o')%Z; simpl; reflexivity.
    + apply Forall_app. split; apply Forall_flat_map_all; intros incl.
      * apply includeStages_lookups.
      * apply revIncludeStages_lookups.
  - split; [simpl; now rewrite Hc|].
    eexists. split.
    + unfold bundleStages, skipStage, limitStage. simpl.
      destruct (0 <? Offset o')%Z; simpl; reflexivity.
    + apply Forall_app. split; apply Forall_flat_map_all; intros incl.
      * apply includeStages_lookups.
      * apply revIncludeStages_lookups.
Qed.

(** ** The operations of a search *)

Lemma phasesFrom_weaken (ops : list DbOp) (n k : nat) :
  n <= k -> phasesFrom k ops = true -> phasesFrom n ops = true.
Proof.
  destruct ops as [|op rest]; simpl; [reflexivity|].
  intros Hle [H1 H2]%andb_true_iff. apply Nat.leb_le in H1.
  rewrite H2, andb_true_r. apply Nat.leb_le. lia.
Qed.

Lemma phasesFrom_app (a b : list DbOp) (k : nat) : forall n,
  n <= k ->
  phasesFrom n a = true ->
  forallb (fun op => (opPhase op <? k)%nat) a = true ->
  phasesFrom k b = true ->
  phasesFrom n (a ++ b) = true.
Proof.
  induction a as [|op rest IH]; simpl; intros n Hle Ha Hlt Hb.
  - now apply (phasesFrom_weaken b n k).
  - apply andb_true_iff in Ha as [H1 H2]. apply andb_true_iff in Hlt as [H3 H4].
    rewrite H1. simpl. apply IH; try assumption.
    apply Nat.ltb_lt in H3. lia.
Qed.

Section OperationFacts.
Variable drv : Driver.
Variable m : MongoSearcher.
Variable dict : Dictionary.
Variable plural : string -> string.
Variable md5hex : string -> string.
Variable Title : string -> string.

Ltac one_op := eexists; split; [apply logged_op|]; repeat split; try congruence.
Ltac two_ops :=
  eexists; split; [eapply logged_trans; apply logged_op|]; repeat split; try congruence.

Lemma find_ops b o dc db :
  exists ops, logged db (snd (find drv plural b o dc db)) ops /\ queryStageOps dc o ops.
Proof.
  unfold find, queryStageOps.
  destruct (String.eqb_spec (Summary o) "count") as [Hs|Hs].
  - rewrite orb_true_r. destruct (countDocuments drv _ _); simpl; one_op.
  - rewrite orb_false_r. destruct dc.
    + destruct (countDocuments drv _ _); simpl.
      * destruct (findOptions o) as [bundle|p]; simpl.
        -- destruct (findCursor drv _ _ _); simpl; two_ops.
        -- one_op.
      * one_op.
    + destruct (findOptions o) as [bundle|p]; simpl.
      * destruct (findCursor drv _ _ _); simpl; one_op.
      * exists []. split; [apply logged_nil|]. now repeat split.
Qed.

Lemma aggregate_ops b o dc db :
  exists ops,
    logged db (snd (aggregate drv plural Title b o dc db)) ops
    /\ queryStageOps dc o ops.
Proof.
  unfold aggregate, queryStageOps.
  destruct (String.eqb_spec (Summary o) "count") as [Hs|Hs].
  - rewrite orb_true_r.
    destruct (BPipeline b) as [|first [|second rest]];
      try (destruct (countAggregate drv _ _) as [| | | |[|]]; simpl; one_op).
    destruct (countDocuments drv _ _); simpl; one_op.
  - rewrite orb_false_r.
    destruct (convertOptionsToPipelineStages plural Title (BResource b) o)
      as [stages|p].
    + destruct dc.
      * destruct (BPipeline b) as [|first [|second rest]].
        all: try (destruct (countAggregate drv _ _) as [| | | |[|]]; simpl;
                  try (destruct (aggregateCursor drv _ _); simpl; two_ops);
                  one_op).
        destruct (countDocuments drv _ _); simpl.
        -- destruct (aggregateCursor drv _ _); simpl; two_ops.
        -- one_op.
      * destruct (aggregateCursor drv _ _); simpl; one_op.
    + destruct dc.
      * destruct (BPipeline b) as [|first [|second rest]].
        all: try (destruct (countAggregate drv _ _) as [| | | |[|]]; simpl; one_op).
        destruct (countDocuments drv _ _); simpl; one_op.
      * simpl. exists []. split; [apply logged_nil|]. now repeat split.
Qed.

Lemma runQuery_ops b o dc db :
  exists ops,
    logged db (snd (runQuery drv plural Title b o dc db)) ops
    /\ queryStageOps dc o ops.
Proof.
  unfold runQuery. destruct (usesPipeline b); [apply aggregate_ops | apply find_ops].
Qed.
End OperationFacts.

Section SearchFacts.
Variable drv : Driver.
Variable m : MongoSearcher.
Variable dict : Dictionary.
Variable plural : string -> string.
Variable md5hex : string -> string.
Variable Title : string -> string.

Lemma logged_oplog db db' ops : logged db db' ops -> oplog db' = oplog db ++ ops.
Proof. now intros ->. Qed.

(** [searchFrom], by its outcomes: it returns before the query is
    compiled, or the compilation panics, or the translation of the options
    panics in the query stage, or the query stage fails, or the search ends
    well, with an insertion or without. *)
Lemma searchFrom_outcomes query dc total h db :
  let out := searchFrom drv m dict plural Title query dc total h db in
  let dc' := if negb (countTotalResults m) then false else dc in
  let ran b := fst (runQuery drv plural Title b (Options query) dc' db) in
  (out = (Ok (mkReturn [] 0 None), db)
   /\ readonly m && negb dc && (total =? 0)%Z = true)
  \/ (exists e, out = (Panic e, db)
                /\ convertToBSON m dict plural query = Panic e)
  \/ (exists b ops e,
        convertToBSON m dict plural query = Ok b
        /\ ran b = Panic e
        /\ fst out = Panic e
        /\ logged db (snd out) ops /\ queryStageOps dc' (Options query) ops)
  \/ (exists b ops e,
        convertToBSON m dict plural query = Ok b
        /\ fst out = Ok (mkReturn [] 0 (Some e))
        /\ logged db (snd out) ops /\ queryStageOps dc' (Options query) ops)
  \/ (exists b ops rs t,
        convertToBSON m dict plural query = Ok b
        /\ (exists cursor ct, ran b = Ok (Done (cursor, ct)))
        /\ fst out = Ok (mkReturn rs t None)
        /\ (dc' = false \/ Summary (Options query) = "count")
        /\ (Summary (Options query) <> "count" -> dc' = false -> t = total)
        /\ logged db (snd out) ops /\ queryStageOps dc' (Options query) ops)
  \/ (exists b ops rs t dbq,
        convertToBSON m dict plural query = Ok b
        /\ (exists cursor ct, ran b = Ok (Done (cursor, ct)))
        /\ fst out = Ok (mkReturn rs t None)
        /\ dc' = true /\ Summary (Options query) <> "count"
        /\ logged db dbq ops /\ queryStageOps dc' (Options query) ops
        /\ snd out
           = if readonly m && countTotalResults m
             then cacheInsert drv h t dbq else dbq).
Proof.
  cbv zeta. rewrite searchFrom_eq.
  destruct (readonly m && negb dc && (total =? 0)%Z) eqn:Hzero; [now left|].
  right. cbv zeta. set (dc' := if negb (countTotalResults m) then false else dc).
  destruct (convertToBSON m dict plural query) as [b|e]; [|left; now exists e].
  right.
  destruct (runQuery_ops drv plural Title b (Options query) dc' db)
    as (ops & Hlog & Hops).
  destruct (runQuery drv plural Title b (Options query) dc' db)
    as [[[[cursor computedTotal]|e]|p] db'] eqn:Hrun; simpl in Hlog.
  3:{ left. exists b, ops, p. rewrite Hrun. split; [reflexivity|].
      split; [reflexivity|]. split; [reflexivity|]. now split. }
  2:{ right. left. exists b, ops, (wrap "Search error" e).
      split; [reflexivity|]. split; [reflexivity|]. now split. }
  right.
  assert (Hran : exists c ct,
            fst (runQuery drv plural Title b (Options query) dc' db)
            = Ok (Done (c, ct)))
    by (exists cursor, computedTotal; now rewrite Hrun).
  destruct (String.eqb_spec (Summary (Options query)) "count") as [Hs|Hs].
  { right. left. exists b, ops, [], computedTotal. simpl.
    split; [reflexivity|]. split; [exact Hran|]. split; [reflexivity|].
    split; [now right|]. split; [now intros []|]. now split. }
  destruct (collect cursor) as [rs|e].
  2:{ left. exists b, ops, e.
      split; [reflexivity|]. split; [reflexivity|]. now split. }
  right. destruct dc' eqn:Hdc.
  - right. exists b, ops, rs, computedTotal, db'. simpl.
    rewrite andb_true_r.
    split; [reflexivity|]. split; [exact Hran|]. split; [reflexivity|].
    split; [reflexivity|].
    split; [exact Hs|]. split; [exact Hlog|]. split; [exact Hops | reflexivity].
  - left. exists b, ops, rs, total. simpl. rewrite andb_false_r.
    split; [reflexivity|]. split; [exact Hran|]. split; [reflexivity|].
    split; [now left|]. split; [reflexivity|]. now split.
Qed.

Lemma noCacheOp_noInsert ops : noCacheOp ops = true -> noInsert ops = true.
Proof.
  unfold noCacheOp, noInsert. induction ops as [|op rest IH]; simpl; [reflexivity|].
  intros [H1 H2]%andb_true_iff. rewrite (IH H2), andb_true_r.
  now destruct op.
Qed.

Lemma searchFrom_phases query dc total h db :
  exists ops,
    oplog (snd (searchFrom drv m dict plural Title query dc total h db))
    = oplog db ++ ops
    /\ phasesFrom 1 ops = true.
Proof.
  destruct (searchFrom_outcomes query dc total h db)
    as [[-> _]|[(e & -> & _)|[(b & ops & e & _ & _ & _ & Hlog & Hops)
       |[(b & ops & e & _ & _ & Hlog & Hops)
       |[(b & ops & rs & t & _ & _ & _ & _ & _ & Hlog & Hops)
        |(b & ops & rs & t & dbq & _ & _ & _ & _ & _ & Hlog & Hops & ->)]]]]].
  - exists []. now rewrite app_nil_r.
  - exists []. now rewrite app_nil_r.
  - exists ops. split; [now apply logged_oplog | apply Hops].
  - exists ops. split; [now apply logged_oplog | apply Hops].
  - exists ops. split; [now apply logged_oplog | apply Hops].
  - destruct Hops as (Hph & Hlt & _).
    destruct (readonly m && countTotalResults m).
    + exists (ops ++ [InsertOneOp "countcache" h t]). split.
      * destruct (cacheInsert_effect drv h t dbq) as [-> _].
        rewrite (logged_oplog _ _ _ Hlog). now rewrite app_assoc.
      * apply (phasesFrom_app ops _ 3); [lia | exact Hph | exact Hlt | reflexivity].
    + exists ops. split; [now apply logged_oplog | exact Hph].
Qed.
End SearchFacts.

(** X7: the operations of a search come in the order of its steps, and
    each step at most once: the lookup in the count cache, the count, the
    query (find or aggregate), the insertion into the count cache; also when
    the search panics. *)
Theorem search_operations_in_order
    drv m dict plural md5hex Title (query : Query) (db : DB) :
  exists ops,
    oplog (snd (Search drv m dict plural md5hex Title query db))
    = oplog db ++ ops
    /\ phasesFrom 0 ops = true.
Proof.
  unfold Search. destruct (readonly m && countTotalResults m).
  - rewrite cacheLookup_eq. cbv zeta.
    set (h := queryFingerprint md5hex query).
    set (db1 := logOp (FindOneOp "countcache" h) db).
    assert (Hfrom : forall dc t,
              exists ops,
                oplog (snd (searchFrom drv m dict plural Title query dc t h db1))
                = oplog db ++ ops /\ phasesFrom 0 ops = true).
    { intros dc t.
      destruct (searchFrom_phases drv m dict plural Title query dc t h db1)
        as (ops & Hlog & Hph).
      exists (FindOneOp "countcache" h :: ops). split.
      - rewrite Hlog. unfold db1. simpl. now rewrite <- app_assoc.
      - simpl. exact Hph. }
    destruct (if findOneFails drv h then None else countcache db !! h); apply Hfrom.
  - destruct (searchFrom_phases drv m dict plural Title query true 0 "" db)
      as (ops & Hlog & Hph).
    exists ops. split; [exact Hlog|].
    apply (phasesFrom_weaken ops 0 1); [lia | exact Hph].
Qed.

(** X8: unless the searcher is read-only with counting enabled, a search
    never reads or writes the count cache, whether it returns or panics; and
    when counting is disabled, a search that is not [_summary=count] issues
    no count and, when it returns, returns the total 0. *)
Theorem cache_untouched_unless_readonly_counting
    drv m dict plural md5hex Title (query : Query) (db : DB) :
  readonly m && countTotalResults m = false ->
  let out := Search drv m dict plural md5hex Title query db in
  exists ops,
    logged db (snd out) ops
    /\ noCacheOp ops = true
    /\ (countTotalResults m = false -> Summary (Options query) <> "count" ->
        noCount ops = true /\ forall r, fst out = Ok r -> total r = 0%Z).
Proof.
  intros Hcfg. cbv zeta. unfold Search. rewrite Hcfg.
  destruct (searchFrom_outcomes drv m dict plural Title query true 0 "" db)
    as [[-> _]|[(e & -> & _)|[(b & ops & e & _ & _ & Hr & Hlog & Hops)
       |[(b & ops & e & _ & Hr & Hlog & Hops)
       |[(b & ops & rs & t & _ & _ & Hr & _ & Ht & Hlog & Hops)
        |(b & ops & rs & t & dbq & _ & _ & Hr & Hdc & _ & Hlog & Hops & Hout)]]]]].
  - exists []. split; [apply logged_nil|]. split; [reflexivity|].
    intros _ _. split; [reflexivity|]. now intros r [= <-].
  - exists []. split; [apply logged_nil|]. split; [reflexivity|].
    intros _ _. split; [reflexivity | discriminate].
  - exists ops. split; [exact Hlog|]. split; [apply Hops|].
    intros Hct Hs. rewrite Hct in Hops. simpl in Hops. split; [now apply Hops|].
    intros r. rewrite Hr. discriminate.
  - exists ops. split; [exact Hlog|]. split; [apply Hops|].
    intros Hct Hs. rewrite Hct in Hops. simpl in Hops. split; [now apply Hops|].
    intros r. rewrite Hr. now intros [= <-].
  - exists ops. split; [exact Hlog|]. split; [apply Hops|].
    intros Hct Hs. rewrite Hct in Hops, Ht. simpl in Hops, Ht. split; [now apply Hops|].
    intros r. rewrite Hr. intros [= <-]. simpl. now apply Ht.
  - rewrite Hcfg in Hout. exists ops. rewrite Hout.
    split; [exact Hlog|]. split; [apply Hops|].
    intros Hct. rewrite Hct in Hdc. discriminate.
Qed.

Lemma cache_untouched_unless_readonly_counting_witness :
  let m := NewMongoSearcher false false false true in
  let out := Search SearchExample.driver m ∅ SearchExample.plural SearchExample.digest
               SearchExample.title SearchExample.plainQuery
               (SearchExample.cachedDB SearchExample.plainQuery 5) in
  out = (Ok (mkReturn [[("_id", VString "p1")]; [("_id", VString "p2")]] 0 None),
         mkDB {[ "md5:Patient?gender=male" := 5%Z ]}
              [FindOp "Patients" [("gender", VString "male")]
                      (mkFindOptions None None (Some 100%Z))])
  /\ exists ops,
       logged (SearchExample.cachedDB SearchExample.plainQuery 5) (snd out) ops
       /\ noCacheOp ops = true
       /\ (countTotalResults m = false ->
           Summary (Options SearchExample.plainQuery) <> "count" ->
           noCount ops = true /\ forall r, fst out = Ok r -> total r = 0%Z).
Proof.
  split; [reflexivity|].
  apply (cache_untouched_unless_readonly_counting
           SearchExample.driver (NewMongoSearcher false false false true) ∅
           SearchExample.plural SearchExample.digest SearchExample.title
           SearchExample.plainQuery (SearchExample.cachedDB SearchExample.plainQuery 5)).
  reflexivity.
Defined.

(** X9: a search that returns an error returns no resources and the total
    0, and has inserted nothing into the count cache. *)
Theorem search_error_returns_nothing
    drv m dict plural md5hex Title (query : Query) (db : DB)
    (r : SearchReturn) :
  let out := Search drv m dict plural md5hex Title query db in
  fst out = Ok r -> err r <> None ->
  resources r = [] /\ total r = 0%Z
  /\ exists ops, logged db (snd out) ops /\ noInsert ops = true.
Proof.
  cbv zeta.
  assert (Hfrom : forall dc t h db0,
            fst (searchFrom drv m dict plural Title query dc t h db0) = Ok r ->
            err r <> None ->
            resources r = [] /\ total r = 0%Z
            /\ exists ops,
                 logged db0 (snd (searchFrom drv m dict plural Title
                                    query dc t h db0)) ops
                 /\ noInsert ops = true).
  { intros dc t h db0.
    destruct (searchFrom_outcomes drv m dict plural Title query dc t h db0)
      as [[-> _]|[(e & -> & _)|[(b & ops & e & _ & _ & Hr & _)
         |[(b & ops & e & _ & Hr & Hlog & Hops)
         |[(b & ops & rs & t' & _ & _ & Hr & _)
          |(b & ops & rs & t' & dbq & _ & _ & Hr & _)]]]]].
    - intros [= <-] Herr. now destruct Herr.
    - discriminate.
    - rewrite Hr. discriminate.
    - rewrite Hr. intros [= <-] _. split; [reflexivity|]. split; [reflexivity|].
      exists ops. split; [exact Hlog|]. apply noCacheOp_noInsert, Hops.
    - rewrite Hr. intros [= <-] Herr. now destruct Herr.
    - rewrite Hr. intros [= <-] Herr. now destruct Herr. }
  unfold Search. destruct (readonly m && countTotalResults m).
  - rewrite cacheLookup_eq. cbv zeta.
    set (h := queryFingerprint md5hex query).
    set (db1 := logOp (FindOneOp "countcache" h) db).
    assert (Hfrom' : forall dc t,
              fst (searchFrom drv m dict plural Title query dc t h db1) = Ok r ->
              err r <> None ->
              resources r = [] /\ total r = 0%Z
              /\ exists ops,
                   logged db (snd (searchFrom drv m dict plural Title
                                     query dc t h db1)) ops
                   /\ noInsert ops = true).
    { intros dc t Hr Herr.
      destruct (Hfrom dc t h db1 Hr Herr) as (H1 & H2 & ops & Hlog & Hni).
      split; [exact H1|]. split; [exact H2|].
      exists ([FindOneOp "countcache" h] ++ ops). split.
      - eapply logged_trans; [apply logged_op | exact Hlog].
      - exact Hni. }
    destruct (if findOneFails drv h then None else countcache db !! h); apply Hfrom'.
  - apply Hfrom.
Qed.

Lemma search_error_returns_nothing_witness :
  let out := Search failingDriver SearchExample.searcher ∅ SearchExample.plural
               SearchExample.digest SearchExample.title SearchExample.plainQuery
               SearchExample.emptyDB in
  fst out
  = Ok (mkReturn [] 0
          (Some "Search error: search count operation failed: connection lost"))
  /\ exists ops, logged SearchExample.emptyDB (snd out) ops /\ noInsert ops = true.
Proof.
  split; [reflexivity|].
  apply (search_error_returns_nothing
           failingDriver SearchExample.searcher ∅ SearchExample.plural
           SearchExample.digest SearchExample.title SearchExample.plainQuery
           SearchExample.emptyDB
           (mkReturn [] 0
              (Some "Search error: search count operation failed: connection lost"))).
  - reflexivity.
  - discriminate.
Defined.

(** ** Where a search panics *)

Lemma sublist_forallb {A} (f : A -> bool) (k l : list A) :
  sublist k l -> forallb f l = true -> forallb f k = true.
Proof.
  induction 1 as [|x k l _ IH|x k l _ IH]; cbn [forallb]; [reflexivity| |].
  - intros [Hx Hl]%andb_true_iff. now rewrite Hx, IH.
  - intros [_ Hl]%andb_true_iff. now apply IH.
Qed.

Lemma sortFields_total (sorts : list SortOption) :
  forallb hasPath sorts = true -> exists f, sortFields sorts = Ok f.
Proof.
  unfold sortFields. induction sorts as [|s rest IH]; cbn [forallb mapResult]; [eauto|].
  intros [Hs Hrest]%andb_true_iff. destruct (IH Hrest) as [f ->].
  assert (Hkv : exists kv, sortField s = Ok kv).
  { unfold sortField. destruct (hasPath_firstPath s Hs) as [p ->]. eauto. }
  destruct Hkv as [kv ->]. eauto.
Qed.

Lemma removeParallelArraySorts_total (o : QueryOptions) :
  forallb hasPath (Sort o) = true ->
  exists o', removeParallelArraySorts o = Ok o' /\ forallb hasPath (Sort o') = true.
Proof.
  intros Hpaths.
  destruct (nonParallelSorts_total (Sort o) [] Hpaths eq_refl) as [r Hr].
  destruct (nonParallelSorts_inv _ _ _ Hr) as (kept & -> & Hsub & _); [constructor|].
  cbn [app] in Hr. unfold removeParallelArraySorts. rewrite Hr.
  destruct (negb _); eexists; (split; [reflexivity|]); [|exact Hpaths].
  cbn [withSort Sort]. now apply (sublist_forallb hasPath kept (Sort o)).
Qed.

Lemma pathless_exists (sorts : list SortOption) :
  forallb hasPath sorts = false ->
  existsb (fun s => negb (hasPath s)) sorts = true.
Proof.
  induction sorts as [|s rest IH]; cbn [forallb existsb]; [discriminate|].
  destruct (hasPath s); cbn [andb negb orb]; [exact IH | reflexivity].
Qed.

(** The translation of the options, in both execution modes: it yields
    options when every sort parameter has a path, and ends in the
    index-out-of-range panic otherwise. *)
Lemma options_translate (plural title : string -> string) (resource : string)
    (o : QueryOptions) :
  if forallb hasPath (Sort o)
  then (exists bundle, findOptions o = Ok bundle)
       /\ exists stages,
            convertOptionsToPipelineStages plural title resource o = Ok stages
  else findOptions o = indexOutOfRange
       /\ convertOptionsToPipelineStages plural title resource o = indexOutOfRange.
Proof.
  destruct (forallb hasPath (Sort o)) eqn:Hpaths.
  - destruct (removeParallelArraySorts_total o Hpaths) as (o' & Ho' & Hpaths').
    destruct (sortFields_total _ Hpaths') as [f Hf].
    unfold findOptions, convertOptionsToPipelineStages, sortStage.
    rewrite Ho', Hf. destruct (0 <? length (Sort o'))%nat; eauto.
  - apply pathless_exists in Hpaths.
    unfold findOptions, convertOptionsToPipelineStages, sortStage.
    destruct (removeParallelArraySorts_panic o) as [[o' Ho']|Hp];
      [|now rewrite Hp].
    rewrite Ho'. destruct (sortFields_after_removal _ _ Hpaths Ho') as [-> ->].
    now split.
Qed.

Section PanicFacts.
Variable drv : Driver.
Variable m : MongoSearcher.
Variable dict : Dictionary.
Variable plural : string -> string.
Variable md5hex : string -> string.
Variable Title : string -> string.

Ltac counted_only :=
  split;
  [ first [ left; reflexivity | right; eexists; reflexivity ]
  | eexists; split; [ first [ apply logged_op | apply logged_nil ] | reflexivity ] ].

(** The query stage returns when the search is a [_summary=count] search
    or every sort parameter has a path; otherwise it never issues the
    query: it fails with the count or panics on the options. *)
Lemma runQuery_cases b o dc db :
  let out := runQuery drv plural Title b o dc db in
  (Summary o = "count" \/ forallb hasPath (Sort o) = true ->
   is_ok (fst out) = true)
  /\ (Summary o <> "count" -> forallb hasPath (Sort o) = false ->
      (fst out = indexOutOfRange \/ exists e, fst out = Ok (Failed e))
      /\ exists ops, logged db (snd out) ops /\ forallb isCountOp ops = true).
Proof.
  cbv zeta. pose proof (options_translate plural Title (BResource b) o) as Hopt.
  unfold runQuery, find, aggregate.
  destruct (String.eqb_spec (Summary o) "count") as [Hs|Hs].
  - rewrite orb_true_r. split; [intros _ | now intros []].
    destruct (usesPipeline b).
    + destruct (BPipeline b) as [|first [|second rest]];
        try (now destruct (countAggregate drv _ _) as [| | | |[|]]).
      now destruct (countDocuments drv _ _).
    + now destruct (countDocuments drv _ _).
  - rewrite orb_false_r. destruct (forallb hasPath (Sort o)).
    + destruct Hopt as [[bundle ->] [stages ->]].
      split; [intros _ | intros _ [=]].
      destruct (usesPipeline b).
      * destruct dc.
        -- destruct (BPipeline b) as [|first [|second rest]];
             try (destruct (countAggregate drv _ _) as [| | | |[|]];
                  cbv beta iota zeta; try reflexivity;
                  now destruct (aggregateCursor drv _ _)).
           destruct (countDocuments drv _ _); cbv beta iota zeta; [|reflexivity].
           now destruct (aggregateCursor drv _ _).
        -- cbv beta iota zeta. now destruct (aggregateCursor drv _ _).
      * destruct dc.
        -- destruct (countDocuments drv _ _); cbv beta iota zeta; [|reflexivity].
           now destruct (findCursor drv _ _ _).
        -- cbv beta iota zeta. now destruct (findCursor drv _ _ _).
    + destruct Hopt as [-> ->].
      split; [intros [Hc|[=]]; contradiction | intros _ _].
      destruct (usesPipeline b).
      * destruct dc.
        -- destruct (BPipeline b) as [|first [|second rest]];
             try (destruct (countAggregate drv _ _) as [| | | |[|]];
                  cbv beta iota zeta; counted_only).
           destruct (countDocuments drv _ _); cbv beta iota zeta; counted_only.
        -- cbv beta iota zeta. counted_only.
      * destruct dc.
        -- destruct (countDocuments drv _ _); cbv beta iota zeta; counted_only.
        -- cbv beta iota zeta. counted_only.
Qed.

Lemma searchFrom_panics query dc cached h db :
  let out := searchFrom drv m dict plural Title query dc cached h db in
  let o := Options query in
  (forall e, fst out = Panic e ->
     (convertToBSON m dict plural query = Panic e /\ snd out = db)
     \/ (is_ok (convertToBSON m dict plural query) = true
         /\ e = RuntimePanic "index out of range"
         /\ Summary o <> "count" /\ forallb hasPath (Sort o) = false
         /\ exists ops, logged db (snd out) ops /\ forallb isCountOp ops = true))
  /\ (forall b, convertToBSON m dict plural query = Ok b ->
        Summary o = "count" \/ forallb hasPath (Sort o) = true ->
        is_ok (fst out) = true)
  /\ (forall b, convertToBSON m dict plural query = Ok b ->
        Summary o <> "count" -> forallb hasPath (Sort o) = false ->
        forall r, fst out = Ok r -> resources r = [] /\ total r = 0%Z).
Proof.
  cbv zeta. rewrite searchFrom_eq.
  destruct (readonly m && negb dc && (cached =? 0)%Z).
  { split; [discriminate|]. split; [reflexivity|].
    intros b _ _ _ r [= <-]. now split. }
  cbv zeta. set (dc' := if negb (countTotalResults m) then false else dc).
  destruct (convertToBSON m dict plural query) as [b|e].
  2:{ split; [intros e' [= <-]; now left|]. split; discriminate. }
  destruct (runQuery_cases b (Options query) dc' db) as [Hret Hnot].
  destruct (runQuery drv plural Title b (Options query) dc' db)
    as [[[[cursor computedTotal]|e]|p] db']; cbn [fst snd] in Hret, Hnot.
  - split; [|split].
    + destruct (String.eqb (Summary (Options query)) "count"); [discriminate|].
      destruct (collect cursor); discriminate.
    + intros _ _ _.
      destruct (String.eqb (Summary (Options query)) "count"); [reflexivity|].
      now destruct (collect cursor).
    + intros _ _ Hs Hp. destruct (Hnot Hs Hp) as [[[=]|[e [=]]] _].
  - split; [discriminate|]. split; [reflexivity|].
    intros _ _ _ _ r [= <-]. now split.
  - split; [|split].
    + intros e [= <-]. right. split; [reflexivity|].
      destruct (String.eqb_spec (Summary (Options query)) "count") as [Hs|Hs];
        [now specialize (Hret (or_introl Hs))|].
      destruct (forallb hasPath (Sort (Options query))) eqn:Hp;
        [now specialize (Hret (or_intror eq_refl))|].
      destruct (Hnot Hs eq_refl) as [[[= ->]|[e [=]]] Hops].
      split; [reflexivity|]. split; [exact Hs|]. split; [reflexivity | exact Hops].
    + intros _ _ Hcase. now specialize (Hret Hcase).
    + intros _ _ _ _ r [=].
Qed.
End PanicFacts.

(** X10: [Search] panics in two cases only.  When the query cannot be
    compiled, it panics with the panic of the compiler, having issued no
    operation but the lookup in the count cache.  When the query compiles,
    the search is not a [_summary=count] search and a sort parameter has no
    path, it panics with the index-out-of-range panic of Go, having issued
    after the lookup nothing but the count, if any; such a search never
    returns resources.  When the query compiles and the search is a
    [_summary=count] search or every sort parameter has a path, [Search]
    returns. *)
Theorem search_panics_on_compile_or_pathless_sort
    drv m dict plural md5hex Title (query : Query) (db : DB) :
  let out := Search drv m dict plural md5hex Title query db in
  let h := md5hex (QueryResource query +:+ "?" +:+ QueryRaw query) in
  let db1 := if readonly m && countTotalResults m
             then logOp (FindOneOp "countcache" h) db else db in
  let o := Options query in
  (forall e, fst out = Panic e ->
     (convertToBSON m dict plural query = Panic e /\ snd out = db1)
     \/ (is_ok (convertToBSON m dict plural query) = true
         /\ e = RuntimePanic "index out of range"
         /\ Summary o <> "count" /\ forallb hasPath (Sort o) = false
         /\ exists ops, logged db1 (snd out) ops /\ forallb isCountOp ops = true))
  /\ (forall b, convertToBSON m dict plural query = Ok b ->
        Summary o = "count" \/ forallb hasPath (Sort o) = true ->
        is_ok (fst out) = true)
  /\ (forall b, convertToBSON m dict plural query = Ok b ->
        Summary o <> "count" -> forallb hasPath (Sort o) = false ->
        forall r, fst out = Ok r -> resources r = [] /\ total r = 0%Z).
Proof.
  cbv zeta. unfold Search. destruct (readonly m && countTotalResults m).
  - rewrite cacheLookup_eq. cbv zeta. unfold queryFingerprint.
    destruct (if findOneFails drv _ then None else countcache db !! _);
      apply searchFrom_panics.
  - apply searchFrom_panics.
Qed.

Lemma search_panics_on_compile_or_pathless_sort_witness :
  let query := mkQuery "Patient" "gender=male&_sort=broken"
                 [TokenParam SearchExample.gender "" "male" true]
                 (mkOptions 100 0 [SortExample.pathless] "" [] []) in
  SearchExample.search query SearchExample.emptyDB
  = (Panic (RuntimePanic "index out of range"),
     mkDB ∅ [FindOneOp "countcache" "md5:Patient?gender=male&_sort=broken";
             CountDocumentsOp "Patients" (VDoc [("gender", VString "male")])])
  /\ forall r, fst (SearchExample.search query SearchExample.emptyDB) = Ok r ->
               resources r = [] /\ total r = 0%Z.
Proof.
  cbv zeta. split; [vm_compute; reflexivity|].
  exact (proj2 (proj2 (search_panics_on_compile_or_pathless_sort
                         SearchExample.driver SearchExample.searcher ∅
                         SearchExample.plural SearchExample.digest SearchExample.title
                         (mkQuery "Patient" "gender=male&_sort=broken"
                            [TokenParam SearchExample.gender "" "male" true]
                            (mkOptions 100 0 [SortExample.pathless] "" [] []))
                         SearchExample.emptyDB))
           (mkBSONQuery "Patient" (Some [("gender", VString "male")]) [])
           eq_refl ltac:(discriminate) eq_refl).
Defined.

(** ** Comparison operators under one field *)

Lemma doc_insert_fresh k v (m : Doc) :
  existsb (String.eqb k) (doc_keys m) = false -> doc_insert k v m = m ++ [(k, v)].
Proof.
  induction m as [|[k' v'] m IH]; simpl; [reflexivity|].
  intros [H1 H2]%orb_false_iff. rewrite H1. now rewrite IH.
Qed.

Lemma projectCriteria_operators f (path : string) (criteria : Doc) : forall acc,
  forallb (fun kv => isQueryOperator (fst kv) && negb (String.eqb (fst kv) "$or"))
          criteria = true ->
  distinct (doc_keys (acc ++ criteria)) = true ->
  projectCriteria f path criteria [(path, VDoc acc)] = Ok [(path, VDoc (acc ++ criteria))].
Proof.
  induction criteria as [|[k v] rest IH]; intros acc Hops Hd; simpl.
  - now rewrite app_nil_r.
  - simpl in Hops. apply andb_true_iff in Hops as [[Hop Hor]%andb_true_iff Hrest].
    rewrite Hop. unfold processQueryOperatorCriteria.
    apply negb_true_iff in Hor. rewrite Hor. simpl. rewrite String.eqb_refl.
    assert (Hfresh : existsb (String.eqb k) (doc_keys acc) = false).
    { clear -Hd. induction acc as [|[k' v'] acc IHa]; simpl in *; [reflexivity|].
      apply andb_true_iff in Hd as [Hk' Hd]. rewrite (IHa Hd), orb_false_r.
      apply negb_true_iff in Hk'. unfold doc_keys in Hk'.
      rewrite map_app, existsb_app in Hk'. apply orb_false_iff in Hk' as [_ Hk'].
      simpl in Hk'. apply orb_false_iff in Hk' as [Hk' _].
      now rewrite String.eqb_sym. }
    rewrite (doc_insert_fresh _ _ _ Hfresh).
    rewrite (IH (acc ++ [(k, v)])); rewrite <- ?app_assoc; auto.
Qed.

Lemma buildBSON_operators (path : string) (criteria : Doc) :
  no_open path = true -> criteria <> [] -> comparisonCriteria criteria = true ->
  buildBSON path (VDoc criteria) = Ok [(path, VDoc criteria)].
Proof.
  intros Hp Hne [Hops Hd]%andb_true_iff. rewrite buildBSON_plain by assumption.
  destruct criteria as [|[k v] rest]; [contradiction|].
  simpl in Hops. apply andb_true_iff in Hops as [[Hop Hor]%andb_true_iff Hrest].
  cbn [projectCriteria]. rewrite Hop. unfold processQueryOperatorCriteria.
  apply negb_true_iff in Hor. rewrite Hor. cbn [doc_lookup doc_insert].
  now apply (projectCriteria_operators buildBSON path rest [(k, v)]).
Qed.

(** X11: on a path without array brackets, a criteria document made of
    comparison operators (operators other than [$or], each once) is bound
    as it is, in one piece, to the field: the operators are gathered under
    the one field and keep their order. *)
Theorem buildBSON_gathers_operators (path : string) (criteria : Doc) :
  no_open path = true -> criteria <> [] -> comparisonCriteria criteria = true ->
  buildBSON path (VDoc criteria) = Ok [(path, VDoc criteria)]
  /\ forall Stored field_sat (d : Stored),
       isQueryOperator path = false ->
       satResult Stored field_sat d (buildBSON path (VDoc criteria))
       = field_sat d path (VDoc criteria).
Proof.
  intros Hp Hne Hc. rewrite (buildBSON_operators path criteria Hp Hne Hc).
  split; [reflexivity|]. intros Stored field_sat d Hop.
  unfold satResult, satDoc. cbn [sat forallb fst snd].
  destruct path as [|c path]; [now rewrite andb_true_r|].
  simpl in Hop. cbn [String.eqb]. rewrite Hop. now rewrite andb_true_r.
Qed.

Lemma buildBSON_gathers_operators_witness :
  buildBSON "effectiveInstant" (VDoc [("$gte", VTime 10%Z); ("$lt", VTime 20%Z)])
  = Ok [("effectiveInstant", VDoc [("$gte", VTime 10%Z); ("$lt", VTime 20%Z)])]
  /\ forall Stored field_sat (d : Stored),
       isQueryOperator "effectiveInstant" = false ->
       satResult Stored field_sat d
         (buildBSON "effectiveInstant"
            (VDoc [("$gte", VTime 10%Z); ("$lt", VTime 20%Z)]))
       = field_sat d "effectiveInstant"
           (VDoc [("$gte", VTime 10%Z); ("$lt", VTime 20%Z)]).
Proof.
  apply (buildBSON_gathers_operators "effectiveInstant"
           [("$gte", VTime 10%Z); ("$lt", VTime 20%Z)]).
  - reflexivity.
  - discriminate.
  - reflexivity.
Defined.

(** ** Instants and numbers *)

Lemma not_operator_eqb (k s : string) :
  isQueryOperator k = false ->
  String.eqb k (String "$" s) = false /\ String.eqb (String "$" s) k = false.
Proof.
  destruct k as [|c k]; cbn [isQueryOperator String.eqb]; [now split|].
  intros H. rewrite H. rewrite Ascii.eqb_sym in H. now rewrite H.
Qed.

Lemma orPaths_single_field (f : SearchParamPath -> Result Doc) p k v :
  f p = Ok [(k, v)] -> isQueryOperator k = false -> orPaths f [p] = Ok [(k, v)].
Proof.
  intros Hf Hk. unfold orPaths. cbn [orPathsLoop]. rewrite Hf.
  unfold doc_nonnil. cbn [length Nat.eqb andb doc_lookup].
  destruct (not_operator_eqb k "or" Hk) as [_ ->]. reflexivity.
Qed.

Lemma satDoc_field Stored field_sat (d : Stored) k v :
  isQueryOperator k = false ->
  satDoc Stored field_sat d [(k, v)] = field_sat d k v.
Proof.
  intros Hk. unfold satDoc. cbn [sat forallb fst snd].
  destruct (not_operator_eqb k "or" Hk) as [-> _].
  destruct (not_operator_eqb k "and" Hk) as [-> _].
  now rewrite andb_true_r.
Qed.

(** X12: for a date parameter on a single path of type instant without
    array brackets, the emitted predicate holds of a stored instant exactly
    when the table of [instantSelector] says so: [eq] is the window from the
    low end up to, not including, the high end; [gt] and [ge] compare with
    the low end; [sa] with the high end; [lt] and [eb] are both "before the
    low end"; [le] is "before the high end".  Any other prefix is signalled
    as unsupported. *)
Theorem instant_prefix_table
    (d : SearchParamInfo) (date : Date) (p : SearchParamPath)
    (stored : Doc) (t : Time) :
  Paths d = [p] -> Type_ p = "instant" ->
  no_open (Path p) = true -> isQueryOperator (Path p) = false ->
  doc_lookup (Path p) stored = Some (VTime t) ->
  match instantPrefixHolds (Prefix_ d) (DateRangeLowIncl date) (DateRangeHighExcl date) t
  with
  | Some holds =>
      is_ok (createDateQueryObject d date) = true
      /\ satResult Doc flat_field_sat stored (createDateQueryObject d date) = holds
  | None => createDateQueryObject d date = unsupportedContent (Name d)
  end.
Proof.
  intros Hpaths Hty Hp Hop Hst. unfold createDateQueryObject. rewrite Hpaths.
  assert (Hsingle : dateSingle d date p
                    = do c <- instantSelector d date; buildBSON (Path p) c)
    by (unfold dateSingle; now rewrite Hty).
  unfold instantPrefixHolds, EQ, GT, GE, SA, LT, EB, LE.
  unfold instantSelector, EQ, GT, GE, SA, LT, EB, LE in Hsingle.
  repeat match goal with
         | |- context [String.eqb (Prefix_ d) ?s] =>
             destruct (String.eqb (Prefix_ d) s)
         end;
    cbn [orb] in *;
    try (unfold orPaths; cbn [orPathsLoop]; rewrite Hsingle; reflexivity);
    rewrite buildBSON_operators in Hsingle by (assumption || discriminate || reflexivity);
    rewrite (orPaths_single_field _ _ _ _ Hsingle Hop);
    (split; [reflexivity|]);
    unfold satResult; rewrite (satDoc_field _ _ _ _ _ Hop);
    unfold flat_field_sat; rewrite Hst;
    cbn [forallb compare_sat fst snd String.eqb Ascii.eqb Bool.eqb];
    rewrite ?andb_true_r; reflexivity.
Qed.

Lemma instant_prefix_table_witness :
  let d := mkInfo "Observation" "date" "date" [mkPath "effectiveInstant" "instant"]
             [] LE "" in
  let date := mkDate 10%Z 20%Z in
  createDateQueryObject d date = Ok [("effectiveInstant", VDoc [("$lt", VTime 20%Z)])]
  /\ is_ok (createDateQueryObject d date) = true
  /\ satResult Doc flat_field_sat [("effectiveInstant", VTime 19%Z)]
       (createDateQueryObject d date) = true.
Proof.
  split; [reflexivity|].
  apply (instant_prefix_table
           (mkInfo "Observation" "date" "date" [mkPath "effectiveInstant" "instant"]
              [] LE "")
           (mkDate 10%Z 20%Z) (mkPath "effectiveInstant" "instant")
           [("effectiveInstant", VTime 19%Z)] 19%Z);
    reflexivity.
Defined.

Lemma numberSingle_not_decimal (n : SearchParamInfo) (num : Number) (p : SearchParamPath) :
  Type_ p <> "decimal" ->
  numberSingle n num p
  = do criteria <-
      (if String.eqb (Prefix_ n) EQ then
         Ok (VDoc [("$gte", VDouble (NumberRangeLowIncl num));
                   ("$lt", VDouble (NumberRangeHighExcl num))])
       else if String.eqb (Prefix_ n) NE then
         Ok (VDoc [("$or", docArray [[("$lt", VDouble (NumberRangeLowIncl num))];
                                     [("$gte", VDouble (NumberRangeHighExcl num))]])])
       else if String.eqb (Prefix_ n) GT then Ok (VDoc [("$gt", VDouble (NumberValue num))])
       else if String.eqb (Prefix_ n) LT then Ok (VDoc [("$lt", VDouble (NumberValue num))])
       else if String.eqb (Prefix_ n) GE
       then Ok (VDoc [("$gte", VDouble (NumberRangeLowIncl num))])
       else if String.eqb (Prefix_ n) LE
       then Ok (VDoc [("$lte", VDouble (NumberRangeHighExcl num))])
       else unsupportedContent (Name n));
    buildBSON (Path p) criteria.
Proof.
  intros Hty. unfold numberSingle. apply String.eqb_neq in Hty. now rewrite Hty.
Qed.

(** X13: for a number parameter on a single path that is not of type
    decimal and has no array brackets, the emitted predicate holds of a
    stored number exactly when the table of [createNumberQueryObject] says
    so: [eq] is the range from the low bound up to, not including, the high
    bound, [ne] is what lies outside that range, [gt] and [lt] compare with
    the exact value, [ge] with the low bound and [le] with the high bound.
    The prefixes [sa] and [eb], and any other, are signalled as unsupported. *)
Theorem number_prefix_table
    (float64 : Q -> Q) (n : SearchParamInfo) (num : Number) (p : SearchParamPath)
    (stored : string -> option Q) (x : Q) :
  Paths n = [p] -> Type_ p <> "decimal" ->
  no_open (Path p) = true -> isQueryOperator (Path p) = false ->
  stored (Path p) = Some x ->
  match numberPrefixHolds (Prefix_ n)
          (float64 (NumberRangeLowIncl num)) (float64 (NumberRangeHighExcl num))
          (float64 (NumberValue num)) x
  with
  | Some holds =>
      is_ok (createNumberQueryObject n num) = true
      /\ satResult _ (number_field_sat float64) stored (createNumberQueryObject n num)
         = holds
  | None => createNumberQueryObject n num = unsupportedContent (Name n)
  end.
Proof.
  intros Hpaths Hty Hp Hop Hst. unfold createNumberQueryObject. rewrite Hpaths.
  pose proof (numberSingle_not_decimal n num p Hty) as Hsingle.
  unfold numberPrefixHolds.
  destruct (String.eqb (Prefix_ n) EQ).
  { rewrite buildBSON_operators in Hsingle by (assumption || discriminate || reflexivity).
    rewrite (orPaths_single_field _ _ _ _ Hsingle Hop). split; [reflexivity|].
    unfold satResult. rewrite (satDoc_field _ _ _ _ _ Hop).
    unfold number_field_sat. rewrite Hst.
    cbn [forallb number_compare fst snd String.eqb Ascii.eqb Bool.eqb].
    now rewrite andb_true_r. }
  destruct (String.eqb (Prefix_ n) NE).
  { rewrite buildBSON_plain in Hsingle by assumption.
    cbn [projectCriteria isQueryOperator Ascii.eqb Bool.eqb
         processQueryOperatorCriteria processOrCriteria String.eqb asDocs asDoc
         docArray map mapResult] in Hsingle.
    rewrite !buildBSON_operators in Hsingle
      by (assumption || discriminate || reflexivity).
    cbn [doc_insert] in Hsingle.
    assert (Hor : orPaths (numberSingle n num) [p]
                  = Ok [("$or", docArray
                           [[(Path p, VDoc [("$lt", VDouble (NumberRangeLowIncl num))])];
                            [(Path p, VDoc [("$gte", VDouble (NumberRangeHighExcl num))])]])])
      by (unfold orPaths; cbn [orPathsLoop]; rewrite Hsingle; reflexivity).
    rewrite Hor. split; [reflexivity|].
    unfold satResult. rewrite satDoc_or. cbn [existsb].
    rewrite !(satDoc_field _ _ _ _ _ Hop).
    unfold number_field_sat. rewrite Hst.
    cbn [forallb number_compare fst snd String.eqb Ascii.eqb Bool.eqb].
    now rewrite !andb_true_r, orb_false_r. }
  repeat match goal with
         | |- context [String.eqb (Prefix_ n) ?s] =>
             destruct (String.eqb (Prefix_ n) s)
         end;
    try (unfold orPaths; cbn [orPathsLoop]; rewrite Hsingle; reflexivity);
    rewrite buildBSON_operators in Hsingle by (assumption || discriminate || reflexivity);
    rewrite (orPaths_single_field _ _ _ _ Hsingle Hop);
    (split; [reflexivity|]);
    unfold satResult; rewrite (satDoc_field _ _ _ _ _ Hop);
    unfold number_field_sat; rewrite Hst;
    cbn [forallb number_compare fst snd String.eqb Ascii.eqb Bool.eqb];
    rewrite ?andb_true_r; reflexivity.
Qed.

Lemma number_prefix_table_witness :
  let n := mkInfo "ImmunizationRecommendation" "dose-number" "number"
             [mkPath "doseNumber" "positiveInt"] [] NE "" in
  let num := mkNumber (2 # 1) (3 # 2) (5 # 2) in
  let stored := fun k : string => if String.eqb k "doseNumber" then Some (3 # 1) else None in
  createNumberQueryObject n num
  = Ok [("$or", docArray [[("doseNumber", VDoc [("$lt", VDouble (3 # 2))])];
                          [("doseNumber", VDoc [("$gte", VDouble (5 # 2))])]])]
  /\ is_ok (createNumberQueryObject n num) = true
  /\ satResult _ (number_field_sat (fun q => q)) stored (createNumberQueryObject n num)
     = true.
Proof.
  split; [reflexivity|].
  apply (number_prefix_table (fun q => q)
           (mkInfo "ImmunizationRecommendation" "dose-number" "number"
              [mkPath "doseNumber" "positiveInt"] [] NE "")
           (mkNumber (2 # 1) (3 # 2) (5 # 2)) (mkPath "doseNumber" "positiveInt")
           (fun k : string => if String.eqb k "doseNumber" then Some (3 # 1) else None)
           (3 # 1));
    (reflexivity || discriminate).
Defined.

(** ** Paths into arrays: [$elemMatch] *)

Lemma join_dots_split (l1 : list string) (x : string) (l2 : list string) :
  join_dots (l1 ++ x :: l2)
  = dot_each l1 +:+ x +:+ match l2 with [] => "" | _ => "." +:+ join_dots l2 end.
Proof.
  induction l1 as [|a l1 IH]; cbn [app dot_each].
  - destruct l2; cbn [join_dots String.append]; [now rewrite sapp_nil_r | reflexivity].
  - destruct (l1 ++ x :: l2) as [|s l] eqn:E; [now destruct l1|].
    change (join_dots (a :: s :: l)) with (a +:+ "." +:+ join_dots (s :: l)).
    rewrite IH. now rewrite !sapp_assoc.
Qed.

Lemma lastMarkerSplit_last (a b : string) :
  no_newline a = true -> no_open b = true ->
  lastMarkerSplit (a +:+ "[]" +:+ b) = Some (a +:+ "[]", b).
Proof.
  intros Ha Hb. induction a as [|c a IH].
  - cbn [String.append lastMarkerSplit]. change (is_newline "[") with false.
    change (is_newline "]") with false. cbn iota.
    rewrite (lastMarkerSplit_no_open b Hb).
    change (is_open "]") with false. cbn [andb].
    destruct b; reflexivity.
  - cbn [String.append lastMarkerSplit]. simpl in Ha.
    apply andb_true_iff in Ha as [Hc Ha]. apply negb_true_iff in Hc.
    rewrite Hc. cbn [String.append] in IH. now rewrite (IH Ha).
Qed.

Lemma span_all f (s : string) : forall_chars f s = true -> span f s = (s, "").
Proof.
  intros H. rewrite <- (sapp_nil_r s) at 1. now apply span_app_stop.
Qed.

Lemma nonempty_length (s : string) : (0 <? String.length s)%nat = nonempty s.
Proof. now destruct s. Qed.

Lemma projectCriteria_fields f (path : string) (criteria : Doc) : forall done,
  forallb (fun kv => negb (isQueryOperator (fst kv))) criteria = true ->
  distinct (doc_keys (done ++ criteria)) = true ->
  projectCriteria f path criteria
    (map (fun kv => (path +:+ "." +:+ fst kv, snd kv)) done)
  = Ok (map (fun kv => (path +:+ "." +:+ fst kv, snd kv)) (done ++ criteria)).
Proof.
  induction criteria as [|[k v] rest IH]; intros done Hf Hd; cbn [projectCriteria].
  - now rewrite app_nil_r.
  - simpl in Hf. apply andb_true_iff in Hf as [Hk Hrest]. apply negb_true_iff in Hk.
    rewrite Hk.
    assert (Hfresh : existsb (String.eqb (path +:+ "." +:+ k))
                       (doc_keys (map (fun kv => (path +:+ "." +:+ fst kv, snd kv)) done))
                     = false).
    { clear -Hd. induction done as [|[k' v'] done IHd]; simpl in *; [reflexivity|].
      apply andb_true_iff in Hd as [Hk' Hd]. rewrite (IHd Hd), orb_false_r.
      apply negb_true_iff in Hk'. unfold doc_keys in Hk'.
      rewrite map_app, existsb_app in Hk'. apply orb_false_iff in Hk' as [_ Hk'].
      simpl in Hk'. apply orb_false_iff in Hk' as [Hk' _].
      rewrite sapp_eqb_prefix. cbn [String.append String.eqb].
      rewrite Ascii.eqb_refl. now rewrite String.eqb_sym. }
    rewrite (doc_insert_fresh _ _ _ Hfresh).
    replace (map (fun kv => (path +:+ "." +:+ fst kv, snd kv)) done
             ++ [(path +:+ "." +:+ k, v)])
      with (map (fun kv : string * Value => (path +:+ "." +:+ fst kv, snd kv))
                (done ++ [(k, v)]))
      by now rewrite map_app.
    rewrite IH; rewrite <- ?app_assoc; auto.
Qed.

Lemma digits_no_newline (s : string) :
  forall_chars is_digit s = true -> no_newline s = true.
Proof.
  apply forall_chars_impl. intros c Hc. unfold is_newline.
  destruct (Ascii.eqb_spec c "010") as [->|]; [|reflexivity].
  vm_compute in Hc. discriminate.
Qed.

Lemma indexed_segment_no_newline (s : Segment) :
  lineSegment s = true -> no_newline (indexed_segment s) = true.
Proof.
  destruct s as [k name]. unfold lineSegment, wf_segment, indexed_segment, no_newline.
  cbn [seg_marker seg_name]. intros [[Hwf Hk]%andb_true_iff Hnl]%andb_true_iff.
  destruct k as [| |ds].
  - exact Hnl.
  - cbn [String.append forall_chars]. now rewrite Hnl.
  - apply andb_true_iff in Hk as [_ Hds]. apply digits_no_newline in Hds.
    rewrite !forall_chars_app, Hnl. unfold no_newline in Hds. now rewrite Hds.
Qed.

Lemma dot_each_no_newline (pre : list Segment) :
  forallb lineSegment pre = true ->
  no_newline (dot_each (map indexed_segment pre)) = true.
Proof.
  induction pre as [|s pre IH]; cbn [forallb map dot_each]; [reflexivity|].
  intros [Hs Hpre]%andb_true_iff.
  pose proof (indexed_segment_no_newline s Hs) as H1. pose proof (IH Hpre) as H2.
  unfold no_newline in *. rewrite !forall_chars_app, H1, H2. reflexivity.
Qed.

Lemma plain_indexed (post : list Segment) :
  forallb plainSegment post = true ->
  map indexed_segment post = map segment_field post.
Proof.
  induction post as [|[k name] post IH]; cbn [forallb map]; [reflexivity|].
  intros [[_ Hk]%andb_true_iff Hpost]%andb_true_iff. rewrite (IH Hpost).
  now destruct k.
Qed.

Lemma plain_wf (post : list Segment) :
  forallb plainSegment post = true -> forallb wf_segment post = true.
Proof.
  induction post as [|s post IH]; cbn [forallb]; [reflexivity|].
  intros [[Hwf _]%andb_true_iff Hpost]%andb_true_iff. now rewrite Hwf, IH.
Qed.

Lemma line_wf (pre : list Segment) :
  forallb lineSegment pre = true -> forallb wf_segment pre = true.
Proof.
  induction pre as [|s pre IH]; cbn [forallb]; [reflexivity|].
  intros [[Hwf _]%andb_true_iff Hpre]%andb_true_iff. now rewrite Hwf, IH.
Qed.

Lemma name_no_bracket (s : string) :
  forall_chars is_name_char s = true -> no_bracket s = true.
Proof.
  apply forall_chars_impl. intros c Hc. unfold is_name_char in Hc.
  apply negb_true_iff in Hc. apply orb_false_iff in Hc as [Ho Hc].
  apply orb_false_iff in Ho as [_ Ho]. now rewrite Ho, Hc.
Qed.

Lemma plain_segment_no_bracket (s : Segment) :
  plainSegment s = true -> no_bracket (segment_field s) = true.
Proof.
  destruct s as [k name]. unfold plainSegment, wf_segment, segment_field.
  cbn [seg_name seg_marker].
  intros [[[_ Hname]%andb_true_iff _]%andb_true_iff Hk]%andb_true_iff.
  destruct k; try discriminate. now apply name_no_bracket.
Qed.

Lemma plain_no_bracket (post : list Segment) :
  forallb plainSegment post = true -> no_bracket (field_path post) = true.
Proof.
  unfold field_path.
  induction post as [|s [|s' post] IH]; intros H.
  - reflexivity.
  - cbn [forallb] in H. apply andb_true_iff in H as [Hs _].
    now apply plain_segment_no_bracket.
  - cbn [forallb] in H, IH. apply andb_true_iff in H as [Hs Hpost].
    change (no_bracket (segment_field s +:+ "."
                        +:+ join_dots (map segment_field (s' :: post))) = true).
    pose proof (plain_segment_no_bracket s Hs) as H1. pose proof (IH Hpost) as H2.
    unfold no_bracket in *. rewrite !forall_chars_app, H1, H2. reflexivity.
Qed.

Lemma no_bracket_no_open (s : string) : no_bracket s = true -> no_open s = true.
Proof.
  apply forall_chars_impl. intros c Hc.
  apply negb_true_iff in Hc. apply orb_false_iff in Hc as [Hc _]. now rewrite Hc.
Qed.

Lemma findArrayPath_head (s : string) m :
  matchArrayPath s = Some m -> findArrayPath s = Some m.
Proof. intros H. destruct s; cbn [findArrayPath]; now rewrite H. Qed.

(** The match of the path regexp on a path whose last array marker is
    the one before [name]. *)
Lemma findArrayPath_last (a name rest : string) :
  no_newline a = true ->
  forall_chars is_name_char name = true ->
  no_bracket rest = true ->
  findArrayPath (a +:+ "[]" +:+ name
                 +:+ (if nonempty rest then "." +:+ rest else ""))
  = Some (a +:+ "[]" +:+ name, rest).
Proof.
  intros Ha Hname Hrest. apply findArrayPath_head. unfold matchArrayPath.
  assert (Hb : no_open (name +:+ (if nonempty rest then "." +:+ rest else "")) = true).
  { rewrite no_open_app, (name_no_open _ Hname).
    destruct rest as [|c rest]; [reflexivity|].
    cbn [nonempty]. change ("." +:+ String c rest) with (String "." (String c rest)).
    cbn [no_open forall_chars]. apply no_bracket_no_open in Hrest.
    unfold no_open in Hrest. cbn [forall_chars] in Hrest. now rewrite Hrest. }
  rewrite (lastMarkerSplit_last a _ Ha Hb).
  rewrite (span_app_stop (fun c => negb (is_dot c)) name).
  - destruct rest as [|c rest]; cbn [nonempty].
    + cbn [span]. now rewrite sapp_assoc.
    + change ("." +:+ String c rest) with (String "." (String c rest)).
      cbn iota. change (is_dot ".") with true. cbn iota.
      unfold no_bracket in Hrest. rewrite (span_all _ _ Hrest). now rewrite sapp_assoc.
  - revert Hname. apply forall_chars_impl. apply is_name_char_not_dot.
  - destruct (nonempty rest); [reflexivity | exact I].
Qed.

Lemma plain_field_nonempty (post : list Segment) :
  forallb plainSegment post = true ->
  nonempty (field_path post) = match post with [] => false | _ :: _ => true end.
Proof.
  destruct post as [|[k name] post]; [reflexivity|].
  cbn [forallb]. intros [[Hwf Hk]%andb_true_iff _]%andb_true_iff.
  destruct k; try discriminate. unfold wf_segment in Hwf. cbn [seg_name] in Hwf.
  apply andb_true_iff in Hwf as [[Hne _]%andb_true_iff _].
  unfold field_path. cbn [map segment_field seg_marker seg_name].
  destruct name as [|c name]; [discriminate|]. now destruct post.
Qed.

Lemma indexed_tail (post : list Segment) :
  forallb plainSegment post = true ->
  match map indexed_segment post with
  | [] => ""
  | _ :: _ => "." +:+ join_dots (map indexed_segment post)
  end
  = if nonempty (field_path post) then "." +:+ field_path post else "".
Proof.
  intros H. rewrite (plain_field_nonempty post H), (plain_indexed post H).
  now destruct post.
Qed.

(** X14: on a path of the path grammar whose last array marker stands
    before the element [name], with only plain elements after it, criteria
    of two or more fields are put under one [$elemMatch] on the array field,
    so that all of them are asked of the same element of the array; the keys
    of the criteria come behind the rest of the path.  Criteria of a single
    field never get an [$elemMatch]: the field is reached by its dotted
    name. *)
Theorem buildBSON_elemMatch_on_last_array
    (pre post : list Segment) (name : string) (criteria : Doc) :
  forallb lineSegment pre = true ->
  wf_segment (mkSegment ArrayMarker name) = true ->
  forallb plainSegment post = true ->
  fieldCriteria criteria = true ->
  let array := mkSegment ArrayMarker name in
  let path := render_path (pre ++ array :: post) in
  (1 < length criteria ->
   buildBSON path (VDoc criteria)
   = Ok [(field_path (pre ++ [array]),
          VDoc [("$elemMatch", VDoc (underField (field_path post) criteria))])])
  /\ (forall k v, criteria = [(k, v)] ->
        buildBSON path (VDoc criteria)
        = Ok [(field_path (pre ++ array :: post) +:+ "." +:+ k, v)]).
Proof.
  intros Hpre Harr Hpost [Hkeys Hd]%andb_true_iff. cbv zeta.
  set (array := mkSegment ArrayMarker name).
  assert (Harr' : wf_segment array = true) by exact Harr.
  assert (Hwf : forallb wf_segment (pre ++ array :: post) = true).
  { rewrite forallb_app. cbn [forallb].
    now rewrite (line_wf pre Hpre), Harr', (plain_wf post Hpost). }
  split.
  - intros Hlen. cbn [buildBSON].
    rewrite (convert_render_path _ Hwf), map_app. cbn [map].
    rewrite join_dots_split, (indexed_tail post Hpost).
    change (indexed_segment array) with ("[]" +:+ name).
    rewrite (sapp_assoc "[]" name).
    assert (Hname : forall_chars is_name_char name = true).
    { unfold wf_segment in Harr. cbn [seg_name seg_marker] in Harr.
      now apply andb_true_iff in Harr as [[_ Hname]%andb_true_iff _]. }
    rewrite (findArrayPath_last _ name (field_path post)
               (dot_each_no_newline pre Hpre) Hname (plain_no_bracket post Hpost)).
    apply Nat.ltb_lt in Hlen. rewrite Hlen.
    assert (Hleft : removeArrayMarkers (dot_each (map indexed_segment pre)
                                        +:+ "[]" +:+ name)
                    = field_path (pre ++ [array])).
    { rewrite <- (remove_indexed_path (pre ++ [array])).
      - rewrite map_app. cbn [map]. rewrite join_dots_split.
        change (indexed_segment array) with ("[]" +:+ name).
        now rewrite sapp_nil_r.
      - rewrite forallb_app. cbn [forallb]. now rewrite (line_wf pre Hpre), Harr'. }
    rewrite Hleft, nonempty_length. unfold underField.
    destruct (nonempty (field_path post)); [|reflexivity].
    pose proof (projectCriteria_fields buildBSON (field_path post) criteria []
                  Hkeys Hd) as Hproj.
    cbn [map app] in Hproj. rewrite Hproj. reflexivity.
  - intros k v ->. cbn [forallb fst] in Hkeys. rewrite andb_true_r in Hkeys.
    apply negb_true_iff in Hkeys. rewrite (buildBSON_single_field _ k v Hkeys).
    now rewrite (convertSearchPathToMongoField_render _ Hwf).
Qed.

Lemma buildBSON_elemMatch_on_last_array_witness :
  let criteria := [("system", VString "http://loinc.org"); ("code", VString "1234-5")] in
  render_path [mkSegment ArrayMarker "component"; mkSegment NoMarker "code";
               mkSegment ArrayMarker "coding"]
  = "[]component.code.[]coding"
  /\ buildBSON "[]component.code.[]coding" (VDoc criteria)
     = Ok [("component.code.coding", VDoc [("$elemMatch", VDoc criteria)])]
  /\ buildBSON "[]component.code" (VDoc criteria)
     = Ok [("component",
            VDoc [("$elemMatch",
                   VDoc [("code.system", VString "http://loinc.org");
                         ("code.code", VString "1234-5")])])].
Proof.
  split; [reflexivity|]. split.
  - apply (buildBSON_elemMatch_on_last_array
             [mkSegment ArrayMarker "component"; mkSegment NoMarker "code"] []
             "coding"
             [("system", VString "http://loinc.org"); ("code", VString "1234-5")]);
      (reflexivity || (simpl; lia)).
  - apply (buildBSON_elemMatch_on_last_array
             [] [mkSegment NoMarker "code"] "component"
             [("system", VString "http://loinc.org"); ("code", VString "1234-5")]);
      (reflexivity || (simpl; lia)).
Defined.

(** ** Criteria of fields on a path without brackets *)

Lemma fresh_after_insert (path k : string) (rest : Doc) (keys : list string) :
  forallb (fun kv => negb (existsb (String.eqb (path +:+ "." +:+ fst kv)) keys)) rest
  = true ->
  existsb (String.eqb k) (map fst rest) = false ->
  forallb (fun kv => negb (existsb (String.eqb (path +:+ "." +:+ fst kv))
                                   (keys ++ [path +:+ "." +:+ k]))) rest
  = true.
Proof.
  induction rest as [|[k' v'] rest IHr]; cbn [forallb map fst existsb];
    [reflexivity|].
  intros [H1 H2]%andb_true_iff [H3 H4]%orb_false_iff.
  rewrite IHr by assumption. rewrite andb_true_r.
  apply negb_true_iff in H1. rewrite existsb_app, H1. cbn [existsb orb].
  rewrite sapp_eqb_prefix. cbn [String.append String.eqb].
  rewrite Ascii.eqb_refl, String.eqb_sym, H3. reflexivity.
Qed.

Lemma projectCriteria_fields_after f (path : string) (criteria : Doc) : forall acc,
  fieldCriteria criteria = true ->
  forallb (fun kv => negb (existsb (String.eqb (path +:+ "." +:+ fst kv)) (doc_keys acc)))
          criteria = true ->
  projectCriteria f path criteria acc = Ok (acc ++ prefixed path criteria).
Proof.
  unfold fieldCriteria, prefixed.
  induction criteria as [|[k v] rest IH]; intros acc Hf Hfresh; cbn [projectCriteria map].
  - now rewrite app_nil_r.
  - apply andb_true_iff in Hf as [Hkeys Hd]. cbn [forallb fst] in Hkeys, Hfresh.
    apply andb_true_iff in Hkeys as [Hk Hkeys]. apply negb_true_iff in Hk.
    apply andb_true_iff in Hfresh as [Hkf Hfresh]. apply negb_true_iff in Hkf.
    cbn [doc_keys map fst distinct] in Hd. apply andb_true_iff in Hd as [Hnk Hd].
    apply negb_true_iff in Hnk.
    rewrite Hk, (doc_insert_fresh _ _ _ Hkf), IH.
    + cbn [fst snd]. now rewrite <- app_assoc.
    + unfold doc_keys. now rewrite Hkeys, Hd.
    + unfold doc_keys. rewrite map_app. cbn [map fst].
      now apply fresh_after_insert.
Qed.

Lemma buildBSON_plain_fields (path : string) (criteria : Doc) :
  no_open path = true -> fieldCriteria criteria = true ->
  buildBSON path (VDoc criteria) = Ok (prefixed path criteria).
Proof.
  intros Hp Hf. rewrite buildBSON_plain by assumption.
  rewrite (projectCriteria_fields_after buildBSON path criteria [] Hf); [reflexivity|].
  clear. induction criteria as [|kv rest IH]; [reflexivity | exact IH].
Qed.

Lemma mapResult_plain_fields (path : string) (branches : list Doc) :
  no_open path = true -> forallb fieldCriteria branches = true ->
  mapResult (buildBSON path) (map VDoc branches) = Ok (map (prefixed path) branches).
Proof.
  intros Hp. induction branches as [|b rest IH]; cbn [forallb map mapResult];
    [reflexivity|].
  intros [Hb Hrest]%andb_true_iff.
  now rewrite (buildBSON_plain_fields path b Hp Hb), (IH Hrest).
Qed.

Lemma prefixed_key_not_operator (path k op : string) :
  forall_chars (fun c => negb (is_dot c)) op = true ->
  String.eqb (path +:+ "." +:+ k) op = false.
Proof. intros H. now apply (dotted_eqb_undotted path k op). Qed.

(** A disjunction of field criteria followed by field criteria. *)
Lemma buildBSON_plain_or_fields (path : string) (branches : list Doc) (rest : Doc) :
  no_open path = true ->
  forallb fieldCriteria branches = true -> fieldCriteria rest = true ->
  buildBSON path (VDoc (("$or", docArray branches) :: rest))
  = Ok (("$or", docArray (map (prefixed path) branches)) :: prefixed path rest).
Proof.
  intros Hp Hb Hr. rewrite buildBSON_plain by assumption.
  cbn [projectCriteria isQueryOperator Ascii.eqb Bool.eqb].
  unfold processQueryOperatorCriteria. cbn [String.eqb Ascii.eqb Bool.eqb].
  unfold processOrCriteria, docArray at 1. rewrite asDocs_docs.
  rewrite (mapResult_plain_fields path branches Hp Hb). cbn [doc_insert].
  rewrite (projectCriteria_fields_after buildBSON path rest _ Hr); [reflexivity|].
  clear. induction rest as [|[k v] rest IH]; cbn [forallb doc_keys map fst existsb];
    [reflexivity|].
  rewrite (prefixed_key_not_operator path k "$or" eq_refl). exact IH.
Qed.

Section PrefixedMeaning.
Variable Stored : Type.
Variable field_sat : Stored -> string -> Value -> bool.

Lemma satDoc_prefixed (d : Stored) (path : string) (criteria : Doc) :
  satDoc Stored field_sat d (prefixed path criteria)
  = forallb (fun kv => field_sat d (path +:+ "." +:+ fst kv) (snd kv)) criteria.
Proof.
  rewrite satDoc_entries. unfold prefixed.
  induction criteria as [|[k v] rest IH]; cbn [map forallb fst snd]; [reflexivity|].
  rewrite IH. f_equal. unfold entry_sat. cbn [fst snd].
  rewrite (prefixed_key_not_operator path k "$or" eq_refl).
  now rewrite (prefixed_key_not_operator path k "$and" eq_refl).
Qed.

Lemma satDoc_or_prefixed (d : Stored) (path : string) (branches : list Doc) (rest : Doc) :
  satDoc Stored field_sat d
    (("$or", docArray (map (prefixed path) branches)) :: prefixed path rest)
  = existsb (fun b => forallb (fun kv => field_sat d (path +:+ "." +:+ fst kv) (snd kv)) b)
            branches
    && forallb (fun kv => field_sat d (path +:+ "." +:+ fst kv) (snd kv)) rest.
Proof.
  rewrite satDoc_cons, satDoc_prefixed. f_equal.
  unfold entry_sat. cbn [fst snd String.eqb Ascii.eqb Bool.eqb]. unfold docArray.
  rewrite exists_sat_docs.
  induction branches as [|b bs IH]; cbn [map existsb]; [reflexivity|].
  now rewrite satDoc_prefixed, IH.
Qed.
End PrefixedMeaning.

(** ** Quantities *)

Lemma length_prefixed (path : string) (criteria : Doc) :
  length (prefixed path criteria) = length criteria.
Proof. unfold prefixed. now rewrite length_map. Qed.

(** X15: for a quantity parameter with a system, on a single path
    without array brackets, the emitted predicate holds of a stored quantity
    exactly when its value bounds satisfy the table of
    [createQuantityQueryObject] for the prefix and both its code and its
    system match the search value; the prefixes [ne], [sa] and [eb], and any
    other, are signalled as unsupported. *)
Theorem quantity_prefix_table
    (float64 : Q -> Q) (m : MongoSearcher) (q : SearchParamInfo) (num : Number)
    (system code : string) (p : SearchParamPath)
    (stored : string -> option Value) (from to : Q) (sc ss : string) :
  Paths q = [p] -> no_open (Path p) = true -> system <> "" ->
  storesQuantity stored (Path p) from to sc ss ->
  match quantityPrefixHolds (Prefix_ q)
          (float64 (NumberRangeLowIncl num)) (float64 (NumberRangeHighExcl num))
          (float64 (NumberValue num)) from to
  with
  | Some holds =>
      is_ok (createQuantityQueryObject m q num system code) = true
      /\ satResult _ (quantity_field_sat float64) stored
           (createQuantityQueryObject m q num system code)
         = holds && stringValueMatches (ciToken m code) sc
           && stringValueMatches (ciToken m system) ss
  | None => createQuantityQueryObject m q num system code = unsupportedContent (Name q)
  end.
Proof.
  intros Hpaths Hp Hsys (Hfrom & Hto & Hcode & Hsystem).
  apply String.eqb_neq in Hsys.
  unfold createQuantityQueryObject. rewrite Hpaths.
  unfold orPaths. cbn [orPathsLoop]. unfold quantitySingle.
  unfold quantityPrefixHolds, EQ, LT, GT, GE, LE. rewrite Hsys.
  repeat match goal with
         | |- context [String.eqb (Prefix_ q) ?s] =>
             destruct (String.eqb (Prefix_ q) s)
         end;
    try reflexivity;
    cbn [doc_insert String.eqb Ascii.eqb Bool.eqb];
    rewrite ?buildBSON_plain_fields by (assumption || reflexivity);
    rewrite ?buildBSON_plain_or_fields by (assumption || reflexivity);
    unfold doc_nonnil;
    cbn [length]; rewrite ?length_prefixed; cbn [length Nat.eqb andb app];
    (split; [reflexivity|]);
    unfold satResult;
    first [ rewrite (satDoc_or_prefixed _ (quantity_field_sat float64) stored (Path p)
                       [[_]; [_]] [_; _])
          | rewrite satDoc_prefixed ];
    cbn [forallb existsb fst snd]; unfold quantity_field_sat;
    rewrite ?Hfrom, ?Hto, ?Hcode, ?Hsystem;
    cbn [forallb number_compare fst snd String.eqb Ascii.eqb Bool.eqb];
    rewrite ?andb_true_r, ?orb_false_r, ?andb_assoc; reflexivity.
Qed.

Lemma quantity_prefix_table_witness :
  let m := NewMongoSearcher true false false false in
  let q := QuantityExample.valueQuantity GT in
  createQuantityQueryObject m q QuantityExample.fivePointFour QuantityExample.ucum "mg"
  = Ok [("valueQuantity.value.__to", VDoc [("$gt", VDouble (27 # 5))]);
        ("valueQuantity.code", VString "mg");
        ("valueQuantity.system", VString QuantityExample.ucum)]
  /\ is_ok (createQuantityQueryObject m q QuantityExample.fivePointFour
              QuantityExample.ucum "mg") = true
  /\ satResult _ (quantity_field_sat (fun x => x)) QuantityExample.stored
       (createQuantityQueryObject m q QuantityExample.fivePointFour
          QuantityExample.ucum "mg")
     = true.
Proof.
  split; [reflexivity|].
  apply (quantity_prefix_table (fun x => x) (NewMongoSearcher true false false false)
           (QuantityExample.valueQuantity GT) QuantityExample.fivePointFour
           QuantityExample.ucum "mg" (mkPath "valueQuantity" "Quantity")
           QuantityExample.stored (119 # 20) (121 # 20) "mg" QuantityExample.ucum).
  - reflexivity.
  - reflexivity.
  - discriminate.
  - repeat split.
Defined.

(** ** Supported features *)

Lemma panicOnUnsupportedFeatures_supported (dict : Dictionary) (p : SearchParam) :
  panicOnUnsupportedFeatures dict p
  = if featuresSupported dict p then Ok tt
    else panicOnUnsupportedFeatures dict p.
Proof.
  unfold panicOnUnsupportedFeatures, featuresSupported.
  destruct (String.eqb (Prefix_ (getInfo p)) "");
    destruct (String.eqb (Prefix_ (getInfo p)) EQ);
    destruct (String.eqb (Modifier (getInfo p)) "");
    destruct p; cbn [negb andb orb];
    try reflexivity;
    destruct (bool_decide _); reflexivity.
Qed.

Lemma panicOnUnsupportedFeatures_unsupported (dict : Dictionary) (p : SearchParam) :
  featuresSupported dict p = false ->
  signalsUnsupported (panicOnUnsupportedFeatures dict p) = true.
Proof.
  unfold panicOnUnsupportedFeatures, featuresSupported.
  destruct (String.eqb (Prefix_ (getInfo p)) "");
    destruct (String.eqb (Prefix_ (getInfo p)) EQ);
    destruct (String.eqb (Modifier (getInfo p)) "");
    destruct p; cbn [negb andb orb];
    try discriminate; try reflexivity;
    destruct (bool_decide _); try discriminate; reflexivity.
Qed.

Lemma createParamObject_unsupported (m : MongoSearcher) (dict : Dictionary)
    (p : SearchParam) :
  featuresSupported dict p = false ->
  signalsUnsupported (createParamObject m dict p) = true.
Proof.
  intros H. apply (panicOnUnsupportedFeatures_unsupported dict) in H.
  destruct p; cbn [createParamObject];
    destruct (panicOnUnsupportedFeatures dict _) as [[]|e]; try discriminate; exact H.
Qed.

Lemma mapResult_some_panics {A B} (f : A -> Result B) (l : list A) (a : A) :
  In a l -> is_ok (f a) = false -> is_ok (mapResult f l) = false.
Proof.
  induction l as [|x l IH]; [intros []|]. cbn [mapResult].
  intros [->|Hin] Ha.
  - now destruct (f a).
  - destruct (f x); [|reflexivity]. specialize (IH Hin Ha).
    now destruct (mapResult f l).
Qed.

(** X16: [panicOnUnsupportedFeatures] lets a parameter pass exactly when
    its prefix is empty or [eq], or the parameter is a date, a number or a
    quantity, and its modifier is empty, or the parameter is a reference and
    the modifier names a resource of the dictionary.  A parameter that does
    not pass is signalled as unsupported (HTTP 501), and wherever it stands
    among the parameters of a query, or among the items of a disjunction, no
    query object is built. *)
Theorem unsupported_features_rejected (m : MongoSearcher) (dict : Dictionary) :
  (forall p, panicOnUnsupportedFeatures dict p = Ok tt <-> featuresSupported dict p = true)
  /\ (forall p, featuresSupported dict p = false ->
        signalsUnsupported (panicOnUnsupportedFeatures dict p) = true
        /\ forall rest,
             signalsUnsupported (createQueryObjectFromParams m dict (p :: rest)) = true)
  /\ (forall p params, In p params -> featuresSupported dict p = false ->
        is_ok (createQueryObjectFromParams m dict params) = false)
  /\ (forall p info items rest, In p items -> featuresSupported dict p = false ->
        is_ok (createQueryObjectFromParams m dict (OrParam info items :: rest)) = false).
Proof.
  split; [|split; [|split]].
  - intros p. split.
    + intros H. destruct (featuresSupported dict p) eqn:E; [reflexivity|].
      apply (panicOnUnsupportedFeatures_unsupported dict) in E.
      now rewrite H in E.
    + intros H. rewrite panicOnUnsupportedFeatures_supported. now rewrite H.
  - intros p H. split; [now apply panicOnUnsupportedFeatures_unsupported|].
    intros rest. apply createQueryObjectFromParams_first.
    now apply createParamObject_unsupported.
  - intros p params Hin H.
    pose proof (createParamObject_unsupported m dict p H) as Hp.
    assert (Hnok : is_ok (createParamObject m dict p) = false)
      by (destruct (createParamObject m dict p); [discriminate | reflexivity]).
    unfold createQueryObjectFromParams, createParamObjects.
    pose proof (mapResult_some_panics _ _ _ Hin Hnok) as Hm.
    now destruct (mapResult (createParamObject m dict) params).
  - intros p info items rest Hin H.
    pose proof (createParamObject_unsupported m dict p H) as Hp.
    assert (Hnok : is_ok (createParamObject m dict p) = false)
      by (destruct (createParamObject m dict p); [discriminate | reflexivity]).
    apply createQueryObjectFromParams_first.
    cbn [createParamObject].
    destruct (panicOnUnsupportedFeatures dict (OrParam info items)); [|reflexivity].
    pose proof (mapResult_some_panics _ _ _ Hin Hnok) as Hm.
    now destruct (mapResult (createParamObject m dict) items).
Qed.

(** ** References *)

Lemma orPaths_single_entry (f : SearchParamPath -> Result Doc) p (q : Doc) :
  f p = Ok q -> (length q =? 1)%nat && doc_nonnil "$or" q = false ->
  orPaths f [p] = Ok q.
Proof.
  intros Hf Hq. unfold orPaths. cbn [orPathsLoop]. rewrite Hf, Hq. reflexivity.
Qed.

Lemma prefixed_not_or (path : string) (criteria : Doc) :
  doc_nonnil "$or" (prefixed path criteria) = false.
Proof.
  unfold doc_nonnil, prefixed.
  induction criteria as [|[k v] rest IH]; cbn [map doc_lookup fst snd]; [reflexivity|].
  rewrite String.eqb_sym, (prefixed_key_not_operator path k "$or" eq_refl). exact IH.
Qed.

(** X17: a local reference on a single path that is not of type Resource
    and has no array brackets asks for the stored reference to have the same
    id and, when the search value names a type, the same type. *)
Theorem local_reference_predicate
    (m : MongoSearcher) (cq : Query -> Result Doc) (r : SearchParamInfo)
    (ty id : string) (p : SearchParamPath) (stored : Doc) (sid sty : string) :
  Paths r = [p] -> Type_ p <> "Resource" -> no_open (Path p) = true ->
  doc_lookup (Path p +:+ "." +:+ "reference__id") stored = Some (VString sid) ->
  doc_lookup (Path p +:+ "." +:+ "reference__type") stored = Some (VString sty) ->
  is_ok (createReferenceQueryObject m cq r (LocalReference ty id)) = true
  /\ satResult Doc flat_field_sat stored
       (createReferenceQueryObject m cq r (LocalReference ty id))
     = String.eqb sid id && (String.eqb ty "" || String.eqb sty ty).
Proof.
  intros Hpaths Hty Hp Hid Htype. apply String.eqb_neq in Hty.
  unfold createReferenceQueryObject. rewrite Hpaths.
  assert (Hsingle : referenceSingle m cq r (LocalReference ty id) p
                    = Ok (prefixed (Path p)
                            (if negb (String.eqb ty "")
                             then [("reference__id", VString id);
                                   ("reference__type", VString ty)]
                             else [("reference__id", VString id)]))).
  { unfold referenceSingle. rewrite Hty.
    destruct (String.eqb ty ""); cbn [negb doc_insert String.eqb Ascii.eqb Bool.eqb];
      now rewrite buildBSON_plain_fields by (assumption || reflexivity). }
  rewrite (orPaths_single_entry _ _ _ Hsingle)
    by (rewrite prefixed_not_or; apply andb_false_r).
  split; [reflexivity|]. unfold satResult. rewrite satDoc_prefixed.
  destruct (String.eqb ty ""); cbn [negb forallb fst snd]; unfold flat_field_sat;
    rewrite ?Hid, ?Htype; cbn [value_eqb]; now rewrite ?andb_true_r, ?orb_false_r.
Qed.

Lemma local_reference_predicate_witness :
  let m := NewMongoSearcher true false false false in
  let r := mkInfo "Observation" "subject" "reference" [mkPath "subject" "Reference"]
             ["Patient"] "" "" in
  let stored := [("subject.reference__id", VString "123");
                 ("subject.reference__type", VString "Group")] in
  createReferenceQueryObject m (fun _ => Ok []) r (LocalReference "Patient" "123")
  = Ok [("subject.reference__id", VString "123");
        ("subject.reference__type", VString "Patient")]
  /\ is_ok (createReferenceQueryObject m (fun _ => Ok []) r
              (LocalReference "Patient" "123")) = true
  /\ satResult Doc flat_field_sat stored
       (createReferenceQueryObject m (fun _ => Ok []) r (LocalReference "Patient" "123"))
     = false.
Proof.
  split; [reflexivity|].
  apply (local_reference_predicate
           (NewMongoSearcher true false false false) (fun _ => Ok [])
           (mkInfo "Observation" "subject" "reference" [mkPath "subject" "Reference"]
              ["Patient"] "" "")
           "Patient" "123" (mkPath "subject" "Reference")
           [("subject.reference__id", VString "123");
            ("subject.reference__type", VString "Group")] "123" "Group");
    (reflexivity || discriminate).
Defined.

(** X18: the query builder refuses chained and reverse chained references,
    which only the pipeline can answer: when the first path of such a
    reference parameter is not of type Resource, building the query object
    panics with an internal error (HTTP 500), whatever parameters follow. *)
Theorem chained_reference_refused_by_query_builder
    (m : MongoSearcher) (dict : Dictionary) (r : SearchParamInfo) (ref : Reference)
    (p : SearchParamPath) (ps : list SearchParamPath) (rest : list SearchParam) :
  chainedKind ref = true ->
  Paths r = p :: ps -> Type_ p <> "Resource" ->
  featuresSupported dict (ReferenceParam r ref) = true ->
  signalsInternalError
    (createQueryObjectFromParams m dict (ReferenceParam r ref :: rest)) = true.
Proof.
  intros Hkind Hpaths Hty Hsup. apply String.eqb_neq in Hty.
  unfold createQueryObjectFromParams, createParamObjects.
  cbn [mapResult createParamObject].
  rewrite panicOnUnsupportedFeatures_supported, Hsup.
  unfold createReferenceQueryObject. rewrite Hpaths.
  destruct ref as [ty id|url|ty q|ty q]; try discriminate Hkind;
    unfold orPaths; cbn [orPathsLoop]; unfold referenceSingle; rewrite Hty;
    reflexivity.
Qed.

Lemma chained_reference_refused_by_query_builder_witness :
  let m := NewMongoSearcher true false false false in
  let r := mkInfo "Observation" "subject" "reference" [mkPath "subject" "Reference"]
             ["Patient"] "" "" in
  let inner := mkQuery "Patient" "gender=male"
                 [TokenParam SearchExample.gender "" "male" true]
                 (mkOptions 100 0 [] "" [] []) in
  signalsInternalError
    (createQueryObjectFromParams m ∅
       [ReferenceParam r (ChainedQueryReference "Patient" inner)]) = true.
Proof.
  apply (chained_reference_refused_by_query_builder
           (NewMongoSearcher true false false false) ∅
           (mkInfo "Observation" "subject" "reference" [mkPath "subject" "Reference"]
              ["Patient"] "" "")
           (ChainedQueryReference "Patient"
              (mkQuery "Patient" "gender=male"
                 [TokenParam SearchExample.gender "" "male" true]
                 (mkOptions 100 0 [] "" [] [])))
           (mkPath "subject" "Reference") [] []);
    (reflexivity || discriminate).
Defined.

(** ** Tokens: which targets are matched without regard to case *)

Lemma ci_matches_any (m : MongoSearcher) (s target : string) :
  stringValueMatches (ci m s) target
  = if enableCISearches m then String.eqb (lower s) (lower target)
    else String.eqb s target.
Proof.
  destruct (enableCISearches m) eqn:E; [now apply ci_matches|].
  unfold ci. now rewrite E.
Qed.

Lemma ciToken_matches (m : MongoSearcher) (s target : string) :
  stringValueMatches (ciToken m s) target
  = if negb (tokenParametersCaseSensitive m) && enableCISearches m
    then String.eqb (lower s) (lower target)
    else String.eqb s target.
Proof.
  destruct m as [ct eci tcs ro]. unfold ciToken.
  cbn [tokenParametersCaseSensitive enableCISearches].
  destruct tcs, eci; cbn [negb andb stringValueMatches]; try reflexivity.
  exact (ci_matches (NewMongoSearcher ct true false ro) s target eq_refl).
Qed.

Lemma buildBSON_ciToken (m : MongoSearcher) (path s : string) :
  buildBSON path (ciToken m s) = Ok [(convertSearchPathToMongoField path, ciToken m s)].
Proof. unfold ciToken. now destruct (_ && _). Qed.

(** X19: which token targets are matched without regard to case.  On a
    path of type code the value is compared without regard to case exactly
    when case-insensitive searches are enabled and token parameters are not
    declared case sensitive; on a path of type string it is compared without
    regard to case whenever case-insensitive searches are enabled, whatever
    is declared for token parameters; on a path of type id it is always
    compared exactly. *)
Theorem token_matching_by_path_type
    (m : MongoSearcher) (t : SearchParamInfo) (system code : string)
    (anySystem : bool) (p : SearchParamPath) (target : string) :
  let field := convertSearchPathToMongoField (Path p) in
  (Type_ p = "code" ->
     exists v, tokenSingle m t system code anySystem p = Ok [(field, v)]
               /\ stringValueMatches v target
                  = if negb (tokenParametersCaseSensitive m) && enableCISearches m
                    then String.eqb (lower code) (lower target)
                    else String.eqb code target)
  /\ (Type_ p = "string" ->
        exists v, tokenSingle m t system code anySystem p = Ok [(field, v)]
                  /\ stringValueMatches v target
                     = if enableCISearches m
                       then String.eqb (lower code) (lower target)
                       else String.eqb code target)
  /\ (Type_ p = "id" ->
        exists v, tokenSingle m t system code anySystem p = Ok [(field, v)]
                  /\ stringValueMatches v target = String.eqb code target).
Proof.
  cbv zeta. unfold tokenSingle.
  destruct (tokenCriteria m system code anySystem) as [systemCriteria codeCriteria].
  split; [|split]; intros ->; cbn [String.eqb Ascii.eqb Bool.eqb].
  - exists (ciToken m code). split; [apply buildBSON_ciToken | apply ciToken_matches].
  - exists (ci m code). split; [apply buildBSON_ci | apply ci_matches_any].
  - exists (VString code). split; [apply buildBSON_string | reflexivity].
Qed.

(** ** Lookup keys on every path *)

Lemma imap_repeat {A B} (n : nat) : forall (f : nat -> A -> B) (a : A),
  imap f (repeat a n) = map (fun j => f j a) (seq 0 n).
Proof.
  induction n as [|n IH]; intros f a; [reflexivity|].
  cbn [repeat seq map]. rewrite imap_cons. f_equal.
  rewrite IH, <- seq_shift, map_map. reflexivity.
Qed.

Lemma imap_per_lookup {B} (n : nat) (g : nat -> SearchParamPath -> B)
    (paths : list SearchParamPath) :
  1 <= n ->
  imap (fun i p => g (i mod n) p) (flat_map (fun p => repeat p n) paths)
  = flat_map (fun p => map (fun j => g j p) (seq 0 n)) paths.
Proof.
  intros Hn. induction paths as [|p rest IH]; [reflexivity|].
  cbn [flat_map]. rewrite imap_app, imap_repeat. f_equal.
  - apply map_ext_in. intros j Hj. apply in_seq in Hj.
    rewrite Nat.mod_small by lia. reflexivity.
  - rewrite <- IH. apply imap_ext. intros i x _. cbn beta.
    rewrite repeat_length.
    replace (n + i) with (i + 1 * n) by lia.
    now rewrite Nat.Div0.mod_add.
Qed.

Lemma flat_map_repeat_one {A} (l : list A) : flat_map (fun a => repeat a 1) l = l.
Proof. induction l as [|a l IH]; simpl; [reflexivity | now f_equal]. Qed.

Lemma rewrittenPaths_per_lookup (n : nat) (paths : list SearchParamPath) :
  1 <= n -> Store.rewrittenPaths n paths = pathsPerLookup n paths.
Proof.
  intros Hn. unfold Store.rewrittenPaths, pathsPerLookup, Store.lookupKey.
  rewrite <- (imap_per_lookup n
                (fun j p => mkPath ("_lookup" +:+ Store.Itoa j +:+ "." +:+ Path p)
                                   (Type_ p)) paths Hn).
  destruct (1 <? n)%nat eqn:E; [reflexivity|].
  apply Nat.ltb_ge in E. assert (n = 1) as -> by lia.
  now rewrite flat_map_repeat_one.
Qed.

(** X20: rewriting the paths of a parameter for [n] lookup stages, with
    [n] at least 1, leaves the parameter with a new array that holds each of
    its paths once for every stage, behind the key of that stage
    ([_lookup0.] to [_lookup(n-1).]), in the order of the paths; so every
    path is asked of every join.  With no lookup stage at all and a path to
    rewrite, the rewriting ends in the division-by-zero panic of Go. *)
Theorem prepend_covers_every_lookup
    (h : Store.Heap) (n : nat) (param : Store.loc) (obj : Store.ParamObj)
    (paths : list SearchParamPath) :
  Store.objects h !! param = Some obj ->
  Store.arrays h !! Store.cPaths (Store.getInfo obj) = Some paths ->
  (1 <= n ->
   exists l h',
     Store.prependOne n (Some param) h = (Ok tt, h')
     /\ Store.arrays h !! l = None
     /\ Store.objects h' !! param
        = Some (Store.setInfo (Store.withPaths (Store.getInfo obj) l) obj)
     /\ Store.arrays h' !! l = Some (pathsPerLookup n paths))
  /\ (n = 0 -> paths <> [] ->
      fst (Store.prependOne n (Some param) h)
      = Panic (RuntimePanic "integer divide by zero")).
Proof.
  intros Hobj Harr. split.
  - intros Hn.
    destruct (StoreRewrite.prependOne_computes n param obj paths h Hn Hobj Harr)
      as (l & h' & Hrun & Hfresh & Hobjs & Harrs).
    exists l, h'. split; [exact Hrun|]. split; [exact Hfresh|]. split.
    + rewrite Hobjs. apply lookup_insert_eq.
    + rewrite Harrs. now rewrite rewrittenPaths_per_lookup.
  - intros -> Hne. cbn [Store.prependOne].
    unfold Store.bind at 1, Store.readObject at 1. rewrite Hobj.
    unfold Store.bind at 1, Store.clone at 1, Store.bind at 1, Store.readArray at 1.
    rewrite Harr.
    unfold Store.bind at 1, Store.allocArray at 1, Store.ret at 1.
    cbn [Nat.ltb Nat.leb].
    unfold Store.bind at 1, Store.ret at 1.
    unfold Store.bind at 1, Store.readArray at 1.
    cbn [Store.cPaths Store.withPaths Store.arrays]. rewrite lookup_insert_eq.
    unfold Store.bind at 1.
    destruct paths as [|p rest]; [contradiction|]. reflexivity.
Qed.

Lemma prepend_covers_every_lookup_witness :
  exists l h',
    Store.prependOne 2 (Some 0) StoreExample.heap = (Ok tt, h')
    /\ Store.arrays StoreExample.heap !! l = None
    /\ Store.objects h' !! 0
       = Some (Store.setInfo
                 (Store.withPaths (Store.getInfo (Store.PValue StoreExample.nameCell)) l)
                 (Store.PValue StoreExample.nameCell))
    /\ Store.arrays h' !! l
       = Some [mkPath "_lookup0.[]name" "HumanName";
               mkPath "_lookup1.[]name" "HumanName"].
Proof.
  apply (prepend_covers_every_lookup StoreExample.heap 2 0
           (Store.PValue StoreExample.nameCell) [mkPath "[]name" "HumanName"]).
  - reflexivity.
  - reflexivity.
  - lia.
Defined.

(** ** Date parameters on paths of other types *)

Lemma dateSingle_untyped (d : SearchParamInfo) (date : Date) (p : SearchParamPath) :
  dateTyped p = false -> dateSingle d date p = Ok [].
Proof.
  unfold dateTyped, dateSingle.
  destruct (String.eqb (Type_ p) "date"), (String.eqb (Type_ p) "dateTime"),
    (String.eqb (Type_ p) "instant"), (String.eqb (Type_ p) "Period"),
    (String.eqb (Type_ p) "Timing"); cbn [orb]; try discriminate; reflexivity.
Qed.

Lemma mapResult_untyped (d : SearchParamInfo) (date : Date) (paths : list SearchParamPath) :
  forallb (fun p => negb (dateTyped p)) paths = true ->
  mapResult (dateSingle d date) paths = Ok (map (fun _ => []) paths).
Proof.
  induction paths as [|p rest IH]; cbn [forallb mapResult map]; [reflexivity|].
  intros [Hp Hrest]%andb_true_iff. apply negb_true_iff in Hp.
  now rewrite (dateSingle_untyped d date p Hp), (IH Hrest).
Qed.

(** X21: a date parameter whose paths all have a type other than date,
    dateTime, instant, Period and Timing yields a predicate that every
    stored document satisfies, whatever its prefix is, also one that no
    table knows: for a single path it is the empty document.  So such a
    parameter does not narrow the search at all. *)
Theorem date_on_other_types_matches_everything
    (m : MongoSearcher) (dict : Dictionary) (d : SearchParamInfo) (date : Date) :
  Paths d <> [] ->
  forallb (fun p => negb (dateTyped p)) (Paths d) = true ->
  is_ok (createDateQueryObject d date) = true
  /\ (forall Stored field_sat (s : Stored),
        satResult Stored field_sat s (createDateQueryObject d date) = true)
  /\ (forall p, Paths d = [p] -> createDateQueryObject d date = Ok [])
  /\ (Modifier d = "" ->
      forall p, Paths d = [p] ->
      createQueryObjectFromParams m dict [DateParam d date] = Ok []).
Proof.
  intros Hne Hty. unfold createDateQueryObject.
  pose proof (mapResult_untyped d date (Paths d) Hty) as Hmap.
  assert (Hwt : forallb orWellTyped (map (fun _ : SearchParamPath => ([] : Doc)) (Paths d))
                = true).
  { clear. induction (Paths d) as [|p rest IH]; [reflexivity | exact IH]. }
  split; [|split; [|split]].
  - now apply (orPaths_sat _ _ _ unit (fun _ _ _ => true) tt Hmap Hwt).
  - intros Stored field_sat s.
    destruct (orPaths_sat _ _ _ Stored field_sat s Hmap Hwt) as [_ ->].
    destruct (Paths d) as [|p rest]; [contradiction | reflexivity].
  - intros p Hp. rewrite Hp in *. cbn [forallb] in Hty.
    apply andb_true_iff in Hty as [Hp' _]. apply negb_true_iff in Hp'.
    unfold orPaths. cbn [orPathsLoop].
    now rewrite (dateSingle_untyped d date p Hp').
  - intros Hmod p Hp. unfold createQueryObjectFromParams, createParamObjects.
    cbn [mapResult createParamObject].
    unfold panicOnUnsupportedFeatures. cbn [getInfo]. rewrite Hmod.
    cbn [String.eqb negb andb]. rewrite !andb_false_r.
    unfold createDateQueryObject. rewrite Hp in *. cbn [forallb] in Hty.
    apply andb_true_iff in Hty as [Hp' _]. apply negb_true_iff in Hp'.
    unfold orPaths. cbn [orPathsLoop].
    now rewrite (dateSingle_untyped d date p Hp').
Qed.

Lemma date_on_other_types_matches_everything_witness :
  let d := mkInfo "Patient" "death-date" "date" [mkPath "deceasedBoolean" "boolean"]
             [] "zz" "" in
  createQueryObjectFromParams (NewMongoSearcher true true false false) ∅
    [DateParam d (mkDate 0%Z 1%Z)] = Ok []
  /\ is_ok (createDateQueryObject d (mkDate 0%Z 1%Z)) = true.
Proof.
  destruct (date_on_other_types_matches_everything
              (NewMongoSearcher true true false false) ∅
              (mkInfo "Patient" "death-date" "date" [mkPath "deceasedBoolean" "boolean"]
                 [] "zz" "")
              (mkDate 0%Z 1%Z))
    as (Hok & _ & _ & Hquery).
  - discriminate.
  - reflexivity.
  - split; [|exact Hok].
    now apply (Hquery eq_refl (mkPath "deceasedBoolean" "boolean")).
Defined.

(** ** The first stage of a pipeline *)

(** X22: every pipeline that [createPipelineObject] yields starts with a
    [$match] stage that holds a query document; so when the pipeline has no
    other stage, the total is counted by a count of documents with that
    document as its filter. *)
Theorem pipeline_starts_with_match
    (m : MongoSearcher) (dict : Dictionary) (plural : string -> string)
    (query : Query) (pipeline : list Doc) :
  createPipelineObject m dict plural query = Ok pipeline ->
  exists standard rest,
    pipeline = [("$match", VDoc standard)] :: rest
    /\ (rest = [] ->
        forall drv title o db,
          let b := mkBSONQuery (QueryResource query) None pipeline in
          exists ops,
            oplog (snd (aggregate drv plural title b o true db))
            = oplog db
              ++ CountDocumentsOp (plural (QueryResource query)) (VDoc standard) :: ops).
Proof.
  unfold createPipelineObject.
  destruct (createQueryObjectFromParams m dict _) as [standard|]; [|discriminate].
  destruct (mapResult (createChainedSearchPipelineStages m dict plural false) _)
    as [chained|]; [|discriminate].
  destruct (mapResult (createChainedSearchPipelineStages m dict plural true) _)
    as [reversed|]; [|discriminate].
  intros [= <-]. exists standard, (concat chained ++ concat reversed).
  split; [reflexivity|]. intros ->. intros drv title o db. cbv zeta.
  unfold aggregate. cbn [BPipeline BResource orb doc_lookup String.eqb Ascii.eqb Bool.eqb].
  destruct (countDocuments drv _ _); cbn [fst snd].
  - destruct (String.eqb (Summary o) "count").
    + now exists [].
    + destruct (convertOptionsToPipelineStages plural title _ o) as [stages|p].
      * destruct (aggregateCursor drv _ _); cbn [snd oplog logOp];
          rewrite <- app_assoc; now eexists.
      * now exists [].
  - now exists [].
Qed.

Lemma pipeline_starts_with_match_witness :
  let query := mkQuery "Patient" "gender=male&_include=Patient:organization"
                 [TokenParam SearchExample.gender "" "male" true]
                 (mkOptions 100 0 [] "" [] []) in
  createPipelineObject SearchExample.searcher ∅ SearchExample.plural query
  = Ok [[("$match", VDoc [("gender", VString "male")])]]
  /\ exists standard rest,
       [[("$match", VDoc [("gender", VString "male")])]]
       = [("$match", VDoc standard)] :: rest
       /\ (rest = [] ->
           forall drv title o db,
             let b := mkBSONQuery (QueryResource query) None
                        [[("$match", VDoc [("gender", VString "male")])]] in
             exists ops,
               oplog (snd (aggregate drv SearchExample.plural title b o true db))
               = oplog db
                 ++ CountDocumentsOp (SearchExample.plural (QueryResource query))
                      (VDoc standard) :: ops).
Proof.
  split; [reflexivity|].
  apply (pipeline_starts_with_match SearchExample.searcher ∅ SearchExample.plural
           (mkQuery "Patient" "gender=male&_include=Patient:organization"
              [TokenParam SearchExample.gender "" "male" true]
              (mkOptions 100 0 [] "" [] []))).
  reflexivity.
Defined.

(** ** Periods *)

Lemma sapp_self_ne (p : string) (c : ascii) (a : string) :
  String.eqb (p +:+ String c a) p = false.
Proof. rewrite String.eqb_sym. apply sapp_eqb_self_ne. Qed.

(** The branch that asks for a period without an end, or without a start. *)
Lemma buildBSON_null_branch (path k : string) :
  no_open path = true -> isQueryOperator k = false ->
  buildBSON path (VDoc [("$ne", VNil); (k, VNil)])
  = Ok [(path, VDoc [("$ne", VNil)]); (path +:+ "." +:+ k, VNil)].
Proof.
  intros Hp Hk. rewrite buildBSON_plain by assumption.
  cbn [projectCriteria isQueryOperator Ascii.eqb Bool.eqb].
  unfold processQueryOperatorCriteria. cbn [String.eqb Ascii.eqb Bool.eqb doc_lookup].
  rewrite Hk. cbn [doc_insert]. change ("." +:+ k) with (String "." k).
  now rewrite sapp_self_ne.
Qed.

Lemma buildBSON_plain_or (path : string) (branches : list Doc) :
  no_open path = true ->
  buildBSON path (VDoc [("$or", docArray branches)])
  = do newOrs <- mapResult (buildBSON path) (map VDoc branches);
    Ok [("$or", docArray newOrs)].
Proof.
  intros Hp. rewrite buildBSON_plain by assumption.
  cbn [projectCriteria isQueryOperator Ascii.eqb Bool.eqb].
  unfold processQueryOperatorCriteria. cbn [String.eqb Ascii.eqb Bool.eqb].
  unfold processOrCriteria, docArray at 1. rewrite asDocs_docs.
  now destruct (mapResult (buildBSON path) (map VDoc branches)).
Qed.

Lemma orPaths_flattens (f : SearchParamPath -> Result Doc) p (b1 b2 : Doc)
    (rest : list Doc) :
  f p = Ok [("$or", docArray (b1 :: b2 :: rest))] ->
  orPaths f [p] = Ok [("$or", docArray (b1 :: b2 :: rest))].
Proof.
  intros Hf. unfold orPaths. cbn [orPathsLoop]. rewrite Hf.
  unfold doc_nonnil, docArray.
  cbn [length Nat.eqb andb doc_lookup String.eqb Ascii.eqb Bool.eqb map].
  change (VDoc b1 :: VDoc b2 :: map VDoc rest) with (map VDoc (b1 :: b2 :: rest)).
  rewrite asDocs_docs. reflexivity.
Qed.

Section PeriodMeaning.
Variable stored : string -> option Value.
Variable path : string.
Hypothesis path_is_field : isQueryOperator path = false.

Lemma satDoc_null_branch (k : string) :
  satDoc _ period_field_sat stored
    [(path, VDoc [("$ne", VNil)]); (path +:+ "." +:+ k, VNil)]
  = negb (isNull (stored path)) && isNull (stored (path +:+ "." +:+ k)).
Proof.
  rewrite satDoc_cons.
  change [(path +:+ "." +:+ k, VNil)] with (prefixed path [(k, VNil)]).
  rewrite satDoc_prefixed.
  unfold entry_sat. cbn [fst snd forallb].
  destruct (not_operator_eqb path "or" path_is_field) as [-> _].
  destruct (not_operator_eqb path "and" path_is_field) as [-> _].
  unfold period_field_sat, null_compare.
  cbn [forallb fst snd String.eqb Ascii.eqb Bool.eqb andb].
  now rewrite !andb_true_r.
Qed.

Lemma satDoc_bound (k op : string) (t : Time) (bound : option Time) :
  stored (path +:+ "." +:+ k) = option_map VTime bound ->
  satDoc _ period_field_sat stored (prefixed path [(k, VDoc [(op, VTime t)])])
  = holdsOf bound (fun s => compare_sat (VTime s) op (VTime t)).
Proof.
  intros Hk. rewrite satDoc_prefixed. cbn [forallb fst snd].
  unfold period_field_sat, null_compare. cbn [forallb fst snd]. rewrite Hk.
  destruct bound; cbn [option_map holdsOf]; now rewrite !andb_true_r.
Qed.
End PeriodMeaning.

(** The predicate of one period path, for each prefix. *)
Lemma periodSingle_cases (d : SearchParamInfo) (date : Date) (p : SearchParamPath) :
  Type_ p = "Period" -> no_open (Path p) = true ->
  let low := VTime (DateRangeLowIncl date) in
  let high := VTime (DateRangeHighExcl date) in
  let noEnd := [(Path p, VDoc [("$ne", VNil)]); (Path p +:+ "." +:+ "end", VNil)] in
  let noStart := [(Path p, VDoc [("$ne", VNil)]); (Path p +:+ "." +:+ "start", VNil)] in
  let from op t := prefixed (Path p) [("start.__from", VDoc [(op, t)])] in
  let to op t := prefixed (Path p) [("end.__to", VDoc [(op, t)])] in
  dateSingle d date p =
    if String.eqb (Prefix_ d) EQ then
      Ok (prefixed (Path p) [("start.__from", VDoc [("$gte", low)]);
                              ("end.__to", VDoc [("$lte", high)])])
    else if String.eqb (Prefix_ d) GT then
      Ok [("$or", docArray [to "$gt" high; noEnd])]
    else if String.eqb (Prefix_ d) LT then
      Ok [("$or", docArray [from "$lt" low; noStart])]
    else if String.eqb (Prefix_ d) GE then
      Ok [("$or", docArray [to "$gte" high; from "$gte" low; noEnd])]
    else if String.eqb (Prefix_ d) LE then
      Ok [("$or", docArray [from "$lte" low; to "$lte" high; noStart])]
    else if String.eqb (Prefix_ d) SA then Ok (from "$gt" high)
    else if String.eqb (Prefix_ d) EB then Ok (to "$lt" low)
    else unsupportedContent (Name d).
Proof.
  intros Ht Hp. cbv zeta. unfold dateSingle, periodSelector. rewrite Ht.
  cbn [String.eqb Ascii.eqb Bool.eqb orb].
  repeat match goal with
         | |- context [String.eqb (Prefix_ d) ?s] =>
             destruct (String.eqb (Prefix_ d) s)
         end;
    try reflexivity;
    cbv beta iota;
    rewrite ?buildBSON_plain_or by assumption;
    cbn [mapResult map];
    rewrite ?buildBSON_plain_fields by (assumption || reflexivity);
    rewrite ?buildBSON_null_branch by (assumption || reflexivity);
    reflexivity.
Qed.

Lemma orPaths_keeps_fields (f : SearchParamPath -> Result Doc) p (path : string)
    (criteria : Doc) :
  f p = Ok (prefixed path criteria) ->
  orPaths f [p] = Ok (prefixed path criteria).
Proof.
  intros Hf. unfold orPaths. cbn [orPathsLoop]. rewrite Hf. cbv beta iota.
  replace (doc_nonnil "$or" (prefixed path criteria)) with false.
  - rewrite andb_false_r. reflexivity.
  - unfold doc_nonnil. symmetry. clear Hf.
    induction criteria as [|[k v] rest IH]; [reflexivity|].
    cbn [prefixed map fst snd doc_lookup].
    rewrite String.eqb_sym, (prefixed_key_not_operator path k "$or" eq_refl).
    exact IH.
Qed.

(** X23: for a date parameter on a single [Period] path without array
    brackets, the emitted predicate holds of a stored period exactly when
    the table of [periodSelector] says so for the prefix: a period without
    end counts as ongoing for [gt] and [ge], one without start as having
    always been for [lt] and [le], while [eq], [sa] and [eb] demand the
    bound they compare; any other prefix is signalled as unsupported. *)
Theorem period_prefix_table
    (d : SearchParamInfo) (date : Date) (p : SearchParamPath)
    (stored : string -> option Value) (startFrom endTo : option Time) :
  Paths d = [p] -> Type_ p = "Period" ->
  no_open (Path p) = true -> isQueryOperator (Path p) = false ->
  storesPeriod stored (Path p) startFrom endTo ->
  match periodPrefixHolds (Prefix_ d) (DateRangeLowIncl date) (DateRangeHighExcl date)
          startFrom endTo
  with
  | Some holds =>
      is_ok (createDateQueryObject d date) = true
      /\ satResult _ period_field_sat stored (createDateQueryObject d date) = holds
  | None => createDateQueryObject d date = unsupportedContent (Name d)
  end.
Proof.
  intros Hpaths Ht Hp Hfield (Hthere & Hfrom & Hto & Hstart & Hend).
  unfold createDateQueryObject. rewrite Hpaths.
  pose proof (periodSingle_cases d date p Ht Hp) as Hsingle. cbv zeta in Hsingle.
  unfold periodPrefixHolds.
  repeat match goal with
         | |- context [String.eqb (Prefix_ d) ?s] =>
             destruct (String.eqb (Prefix_ d) s)
         end;
    try (rewrite (orPaths_flattens _ _ _ _ _ Hsingle));
    try (rewrite (orPaths_keeps_fields _ _ _ _ Hsingle));
    try (unfold orPaths; cbn [orPathsLoop]; rewrite Hsingle; reflexivity);
    (split; [reflexivity|]);
    unfold satResult;
    rewrite ?satDoc_or; cbn [existsb];
    rewrite ?(satDoc_null_branch stored (Path p) Hfield);
    rewrite ?(satDoc_bound stored (Path p) _ _ _ _ Hfrom);
    rewrite ?(satDoc_bound stored (Path p) _ _ _ _ Hto);
    rewrite ?satDoc_prefixed; cbn [forallb fst snd];
    unfold period_field_sat, null_compare; cbn [forallb fst snd];
    rewrite ?Hfrom, ?Hto, ?Hstart, ?Hend, ?Hthere;
    destruct startFrom, endTo;
    cbn [option_map holdsOf isMissing compare_sat String.eqb Ascii.eqb Bool.eqb
         negb andb orb];
    rewrite ?andb_true_r, ?orb_false_r, ?orb_true_r, ?andb_false_r; reflexivity.
Qed.

Lemma period_prefix_table_witness :
  createDateQueryObject (PeriodExample.date GT) (mkDate 200%Z 300%Z)
  = Ok [("$or", docArray [[("period.end.__to", VDoc [("$gt", VTime 300%Z)])];
                          [("period", VDoc [("$ne", VNil)]); ("period.end", VNil)]])]
  /\ is_ok (createDateQueryObject (PeriodExample.date GT) (mkDate 200%Z 300%Z)) = true
  /\ satResult _ period_field_sat PeriodExample.ongoing
       (createDateQueryObject (PeriodExample.date GT) (mkDate 200%Z 300%Z)) = true.
Proof.
  split; [reflexivity|].
  apply (period_prefix_table (PeriodExample.date GT) (mkDate 200%Z 300%Z)
           (mkPath "period" "Period") PeriodExample.ongoing (Some 100%Z) None).
  - reflexivity.
  - reflexivity.
  - reflexivity.
  - reflexivity.
  - repeat split.
Defined.

(** ** What the operations of a search carry *)

Section CarriedQuery.
Variable drv : Driver.
Variable m : MongoSearcher.
Variable dict : Dictionary.
Variable plural : string -> string.
Variable md5hex : string -> string.
Variable Title : string -> string.
Variable query : Query.
Variable b : BSONQuery.
Hypothesis compiled : convertToBSON m dict plural query = Ok b.

Let carries := carriesQuery plural md5hex Title query b.

Lemma compiled_resource :
  BResource b = QueryResource query /\ usesPipeline b = UsesPipeline query.
Proof.
  revert compiled. unfold convertToBSON. destruct (UsesPipeline query).
  - destruct (createPipelineObject _ _ _ _); [|discriminate]. now intros [= <-].
  - destruct (createQueryObject _ _ _); [|discriminate]. now intros [= <-].
Qed.

Lemma find_carries dc db :
  usesPipeline b = false ->
  exists ops,
    logged db (snd (find drv plural b (Options query) dc db)) ops
    /\ Forall carries ops.
Proof.
  destruct compiled_resource as [Hres _].
  unfold usesPipeline. destruct (BQuery b) as [q|] eqn:Hq; [intros _ | discriminate].
  assert (Hcount : carries (CountDocumentsOp (plural (BResource b)) (VDoc q))).
  { unfold carries, carriesQuery. rewrite Hres, Hq. now split. }
  assert (Hfind : forall bundle, findOptions (Options query) = Ok bundle ->
            carries (FindOp (plural (BResource b)) q bundle)).
  { intros bundle Hb. unfold carries, carriesQuery. rewrite Hres, Hq. now repeat split. }
  assert (Hquery : forall t db0 ops0,
            logged db db0 ops0 -> Forall carries ops0 ->
            exists ops,
              logged db
                (snd (if String.eqb (Summary (Options query)) "count"
                      then ((Ok (Done (None, t)), db0)
                            : Result (DriverResult (option Cursor * Z)) * DB)
                      else
                        match findOptions (Options query) with
                        | Panic p => (Panic p, db0)
                        | Ok optionsBundle =>
                            match findCursor drv (plural (BResource b)) q optionsBundle
                            with
                            | Failed e =>
                                (Ok (Failed (wrap "search find operation failed" e)),
                                 logOp (FindOp (plural (BResource b)) q optionsBundle)
                                       db0)
                            | Done searchCursor =>
                                (Ok (Done (Some searchCursor, t)),
                                 logOp (FindOp (plural (BResource b)) q optionsBundle)
                                       db0)
                            end
                        end)) ops
              /\ Forall carries ops).
  { intros t db0 ops0 Hlog Hall.
    destruct (String.eqb (Summary (Options query)) "count"); [now exists ops0|].
    destruct (findOptions (Options query)) as [bundle|p] eqn:Hb; [|now exists ops0].
    exists (ops0 ++ [FindOp (plural (BResource b)) q bundle]). split.
    - destruct (findCursor drv _ _ _); cbn [snd];
        (eapply logged_trans; [exact Hlog | apply logged_op]).
    - apply Forall_app. split; [exact Hall|]. constructor; [now apply Hfind | constructor]. }
  unfold find. rewrite Hq.
  destruct (dc || String.eqb (Summary (Options query)) "count").
  - destruct (countDocuments drv _ _); cbv beta iota zeta.
    + eapply Hquery; [apply logged_op | now constructor].
    + eexists. split; [apply logged_op|]. now constructor.
  - cbv beta iota zeta. eapply Hquery; [apply logged_nil | constructor].
Qed.

Lemma aggregate_carries dc db :
  usesPipeline b = true ->
  exists ops,
    logged db (snd (aggregate drv plural Title b (Options query) dc db)) ops
    /\ Forall carries ops.
Proof.
  destruct compiled_resource as [Hres _].
  unfold usesPipeline. destruct (BQuery b) as [q|] eqn:Hq; [discriminate | intros _].
  assert (Hagg : forall stages,
            convertOptionsToPipelineStages plural Title (BResource b) (Options query)
            = Ok stages ->
            carries (AggregateOp (plural (BResource b)) (BPipeline b ++ stages))).
  { intros stages Hst. unfold carries, carriesQuery. rewrite <- Hres, Hq.
    split; [reflexivity|]. split; [reflexivity|]. now exists stages. }
  assert (Hcount : carries (CountAggregateOp (plural (BResource b))
                              (BPipeline b ++ [countStage]))).
  { unfold carries, carriesQuery. rewrite Hres, Hq. now repeat split. }
  assert (Hfirst : forall first, BPipeline b = [first] ->
            carries (CountDocumentsOp (plural (BResource b))
                       match doc_lookup "$match" first with
                       | Some v => v
                       | None => VNil
                       end)).
  { intros first Hp. unfold carries, carriesQuery. rewrite Hres, Hq.
    split; [reflexivity|]. now exists first. }
  assert (Hquery : forall t db0 ops0,
            logged db db0 ops0 -> Forall carries ops0 ->
            exists ops,
              logged db
                (snd (if String.eqb (Summary (Options query)) "count"
                      then ((Ok (Done (None, t)), db0)
                            : Result (DriverResult (option Cursor * Z)) * DB)
                      else
                        match convertOptionsToPipelineStages plural Title
                                (BResource b) (Options query) with
                        | Panic p => (Panic p, db0)
                        | Ok stages =>
                            match aggregateCursor drv (plural (BResource b))
                                    (BPipeline b ++ stages)
                            with
                            | Failed e =>
                                (Ok (Failed (wrap "aggregate operation failed" e)),
                                 logOp (AggregateOp (plural (BResource b))
                                          (BPipeline b ++ stages))
                                       db0)
                            | Done cursor =>
                                (Ok (Done (Some cursor, t)),
                                 logOp (AggregateOp (plural (BResource b))
                                          (BPipeline b ++ stages))
                                       db0)
                            end
                        end)) ops
              /\ Forall carries ops).
  { intros t db0 ops0 Hlog Hall.
    destruct (String.eqb (Summary (Options query)) "count"); [now exists ops0|].
    destruct (convertOptionsToPipelineStages plural Title (BResource b) (Options query))
      as [stages|p] eqn:Hst; [|now exists ops0].
    exists (ops0 ++ [AggregateOp (plural (BResource b)) (BPipeline b ++ stages)]).
    split.
    - destruct (aggregateCursor drv _ _); cbn [snd];
        (eapply logged_trans; [exact Hlog | apply logged_op]).
    - apply Forall_app. split; [exact Hall|]. constructor; [now apply Hagg | constructor]. }
  unfold aggregate.
  destruct (dc || String.eqb (Summary (Options query)) "count").
  - destruct (BPipeline b) as [|first [|second rest]] eqn:Hp.
    + fold countStage.
      destruct (countAggregate drv _ _) as [| | | |[|]]; cbv beta iota zeta;
        try (eexists; split; [apply logged_op|]; now constructor);
        (eapply Hquery; [apply logged_op | now constructor]).
    + destruct (countDocuments drv _ _); cbv beta iota zeta.
      * eapply Hquery; [apply logged_op|]. constructor; [now apply Hfirst | constructor].
      * eexists. split; [apply logged_op|].
        constructor; [now apply Hfirst | constructor].
    + fold countStage.
      destruct (countAggregate drv _ _) as [| | | |[|]]; cbv beta iota zeta;
        try (eexists; split; [apply logged_op|]; now constructor);
        (eapply Hquery; [apply logged_op | now constructor]).
  - cbv beta iota zeta. eapply Hquery; [apply logged_nil | constructor].
Qed.

Lemma runQuery_carries dc db :
  exists ops,
    logged db (snd (runQuery drv plural Title b (Options query) dc db)) ops
    /\ Forall carries ops.
Proof.
  unfold runQuery. destruct (usesPipeline b) eqn:Hu;
    [now apply aggregate_carries | now apply find_carries].
Qed.

Lemma searchFrom_carries dc total h db :
  (readonly m && countTotalResults m = true ->
   h = md5hex (QueryResource query +:+ "?" +:+ QueryRaw query)) ->
  exists ops,
    oplog (snd (searchFrom drv m dict plural Title query dc total h db))
    = oplog db ++ ops
    /\ Forall carries ops.
Proof.
  intros Hh. rewrite searchFrom_eq.
  destruct (readonly m && negb dc && (total =? 0)%Z).
  { exists []. split; [now rewrite app_nil_r | constructor]. }
  cbv zeta. rewrite compiled.
  set (dc' := if negb (countTotalResults m) then false else dc).
  destruct (runQuery_carries dc' db) as (ops & Hlog & Hall).
  destruct (runQuery drv plural Title b (Options query) dc' db)
    as [[[[cursor computedTotal]|e]|p] db']; cbn [snd] in Hlog.
  2,3: (exists ops; split; [now rewrite Hlog | exact Hall]).
  destruct (String.eqb (Summary (Options query)) "count").
  { exists ops. split; [now rewrite Hlog | exact Hall]. }
  destruct (collect cursor) as [rs|e].
  2:{ exists ops. split; [now rewrite Hlog | exact Hall]. }
  cbn [snd]. destruct (readonly m && countTotalResults m) eqn:Hcfg; cbn [andb].
  2:{ exists ops. split; [now rewrite Hlog | exact Hall]. }
  destruct dc'.
  - exists (ops ++ [InsertOneOp "countcache" h computedTotal]). split.
    + destruct (cacheInsert_effect drv h computedTotal db') as [-> _].
      rewrite Hlog. cbn [oplog]. now rewrite app_assoc.
    + apply Forall_app. split; [exact Hall|]. constructor; [|constructor].
      unfold carries, carriesQuery. split; [reflexivity | now apply Hh].
  - exists ops. split; [now rewrite Hlog | exact Hall].
Qed.
End CarriedQuery.

(** X24: every operation of a search carries the compiled query.  The
    count of a standard query is over the very filter of the find, on the
    collection of the resource, and the find runs under the bundle that
    [find] makes of the options of the query (parallel sorts removed); the
    count of a pipeline runs the compiled stages without the stages of the
    options (so paging never changes a total), the aggregate runs them with
    the stages that [convertOptionsToPipelineStages] makes of the options
    appended; and the count cache is only used under the fingerprint of
    the query. *)
Theorem search_runs_the_compiled_query
    drv m dict plural md5hex Title (query : Query) (b : BSONQuery) (db : DB) :
  convertToBSON m dict plural query = Ok b ->
  exists ops,
    oplog (snd (Search drv m dict plural md5hex Title query db))
    = oplog db ++ ops
    /\ Forall (carriesQuery plural md5hex Title query b) ops.
Proof.
  intros Hb. unfold Search. destruct (readonly m && countTotalResults m) eqn:Hcfg.
  - rewrite cacheLookup_eq. cbv zeta. unfold queryFingerprint.
    set (h := md5hex (QueryResource query +:+ "?" +:+ QueryRaw query)).
    set (db1 := logOp (FindOneOp "countcache" h) db).
    assert (Hfrom : forall dc t,
              exists ops,
                oplog (snd (searchFrom drv m dict plural Title query dc t h db1))
                = oplog db ++ ops
                /\ Forall (carriesQuery plural md5hex Title query b) ops).
    { intros dc t.
      destruct (searchFrom_carries drv m dict plural md5hex Title query b Hb
                  dc t h db1 (fun _ => eq_refl)) as (ops & Hlog & Hall).
      exists (FindOneOp "countcache" h :: ops). split.
      - rewrite Hlog. unfold db1. cbn [logOp oplog]. now rewrite <- app_assoc.
      - constructor; [|exact Hall]. unfold carriesQuery. now split. }
    destruct (if findOneFails drv h then None else countcache db !! h); apply Hfrom.
  - apply (searchFrom_carries drv m dict plural md5hex Title query b Hb).
    rewrite Hcfg. discriminate.
Qed.

Lemma search_runs_the_compiled_query_witness :
  let query := mkQuery "Patient" "gender=male&_sort=family,given"
                 [TokenParam SearchExample.gender "" "male" true]
                 (mkOptions 100 0 [SortExample.family; SortExample.given] "" [] []) in
  let h := "md5:Patient?gender=male&_sort=family,given" in
  (* of two sorts on parallel arrays the find keeps the first *)
  oplog (snd (SearchExample.search query SearchExample.emptyDB))
  = [FindOneOp "countcache" h;
     CountDocumentsOp "Patients" (VDoc [("gender", VString "male")]);
     FindOp "Patients" [("gender", VString "male")]
            (mkFindOptions (Some [("name.family", VInt 1)]) None (Some 100%Z));
     InsertOneOp "countcache" h 7]
  /\ exists ops,
       oplog (snd (SearchExample.search query SearchExample.emptyDB))
       = oplog SearchExample.emptyDB ++ ops
       /\ Forall (carriesQuery SearchExample.plural SearchExample.digest
                    SearchExample.title query
                    (mkBSONQuery "Patient" (Some [("gender", VString "male")]) []))
                 ops.
Proof.
  cbv zeta. split; [vm_compute; reflexivity|].
  apply (search_runs_the_compiled_query
           SearchExample.driver SearchExample.searcher ∅ SearchExample.plural
           SearchExample.digest SearchExample.title
           (mkQuery "Patient" "gender=male&_sort=family,given"
              [TokenParam SearchExample.gender "" "male" true]
              (mkOptions 100 0 [SortExample.family; SortExample.given] "" [] []))
           (mkBSONQuery "Patient" (Some [("gender", VString "male")]) [])
           SearchExample.emptyDB).
  reflexivity.
Defined.

(** ** Projection under a path without arrays *)

Section Projection.
Variable path : string.
(** The branches of a disjunction that are known to project. *)
Variable projects : Doc -> bool.
Hypothesis branch_projects : forall c,
  projects c = true ->
  exists q, buildBSON path (VDoc c) = Ok q
    /\ forall Stored field_sat (d : Stored),
         satDoc Stored field_sat d q
         = satDoc Stored (fieldUnder Stored field_sat path) d c.

Lemma mapResult_branches (branches : list Value) :
  forallb (fun b => match b with
                    | VDoc c => projects c
                    | _ => false
                    end) branches = true ->
  exists newOrs,
    mapResult (buildBSON path) branches = Ok newOrs
    /\ (exists ds, asDocs branches = Some ds)
    /\ forall Stored field_sat (d : Stored),
         existsb (satDoc Stored field_sat d) newOrs
         = existsb (sat Stored (fieldUnder Stored field_sat path) d) branches.
Proof.
  induction branches as [|b rest IH]; cbn [forallb mapResult].
  - intros _. exists []. split; [reflexivity|]. split; [now exists []|]. reflexivity.
  - intros [Hb Hrest]%andb_true_iff. destruct b as [| | | | | | |c|]; try discriminate.
    destruct (branch_projects c Hb) as (q & Hq & Hsat).
    destruct (IH Hrest) as (newOrs & Hmap & (ds & Hds) & Hsats).
    exists (q :: newOrs). rewrite Hq, Hmap. split; [reflexivity|]. split.
    + exists (c :: ds). cbn [asDocs asDoc]. now rewrite Hds.
    + intros Stored field_sat d. cbn [existsb]. rewrite Hsat, Hsats. reflexivity.
Qed.

Lemma projectedKey_fresh (k : string) (rest : Doc) (keys : list string) :
  (String.eqb k "$or" = true \/ isQueryOperator k = false) ->
  forallb (fun kv => negb (existsb (String.eqb (projectedKey path (fst kv))) keys)) rest
  = true ->
  forallb (fun kv => String.eqb (fst kv) "$or" || negb (isQueryOperator (fst kv))) rest
  = true ->
  existsb (String.eqb k) (doc_keys rest) = false ->
  forallb (fun kv => negb (existsb (String.eqb (projectedKey path (fst kv)))
                                   (keys ++ [projectedKey path k]))) rest
  = true.
Proof.
  intros Hk.
  induction rest as [|[k' v'] rest IHr]; cbn [forallb doc_keys map fst existsb];
    [reflexivity|].
  intros [H1 H2]%andb_true_iff [Hk' Hks]%andb_true_iff [H3 H4]%orb_false_iff.
  rewrite (IHr H2 Hks H4), andb_true_r.
  apply negb_true_iff in H1. rewrite existsb_app, H1. cbn [existsb orb].
  rewrite orb_false_r. apply negb_true_iff.
  unfold projectedKey.
  destruct (String.eqb_spec k' "$or") as [->|Hk'or];
    destruct (String.eqb_spec k "$or") as [->|Hkor].
  - cbv in H3. discriminate H3.
  - destruct Hk as [Hk|Hk]; [discriminate|].
    rewrite String.eqb_sym. now apply prefixed_key_not_operator.
  - now apply prefixed_key_not_operator.
  - rewrite !sapp_eqb_prefix. now rewrite String.eqb_sym.
Qed.

Lemma projectCriteria_nested (criteria : Doc) : forall acc,
  forallb
    (fun kv =>
       if String.eqb (fst kv) "$or" then
         match snd kv with
         | VArr branches =>
             forallb (fun b => match b with
                               | VDoc c => projects c
                               | _ => false
                               end) branches
         | _ => false
         end
       else negb (isQueryOperator (fst kv))) criteria = true ->
  distinct (doc_keys criteria) = true ->
  forallb (fun kv => negb (existsb (String.eqb (projectedKey path (fst kv)))
                                   (doc_keys acc))) criteria = true ->
  exists new,
    projectCriteria buildBSON path criteria acc = Ok (acc ++ new)
    /\ forall Stored field_sat (d : Stored),
         satDoc Stored field_sat d new
         = satDoc Stored (fieldUnder Stored field_sat path) d criteria.
Proof.
  induction criteria as [|[k v] rest IH]; intros acc Hall Hd Hfresh.
  - exists []. split; [cbn [projectCriteria]; now rewrite app_nil_r | reflexivity].
  - cbn [forallb fst snd] in Hall, Hfresh. cbn [doc_keys map fst distinct] in Hd.
    apply andb_true_iff in Hall as [Hkv Hall].
    apply andb_true_iff in Hd as [Hnk Hd]. apply negb_true_iff in Hnk.
    apply andb_true_iff in Hfresh as [Hkf Hfresh]. apply negb_true_iff in Hkf.
    assert (Hkinds : forallb (fun kv => String.eqb (fst kv) "$or"
                                        || negb (isQueryOperator (fst kv))) rest = true).
    { clear -Hall. induction rest as [|[k' v'] rest IHr]; cbn [forallb fst snd] in *;
        [reflexivity|].
      apply andb_true_iff in Hall as [H1 H2]. rewrite (IHr H2), andb_true_r.
      destruct (String.eqb k' "$or"); [reflexivity | exact H1]. }
    cbn [projectCriteria]. unfold projectedKey in Hkf.
    destruct (String.eqb k "$or") eqn:Hor.
    + apply String.eqb_eq in Hor. subst k.
      destruct v as [| | | | | | | |branches]; try discriminate.
      destruct (mapResult_branches branches Hkv) as (newOrs & Hmap & (ds & Hds) & Hsats).
      cbn [isQueryOperator Ascii.eqb Bool.eqb].
      unfold processQueryOperatorCriteria. cbn [String.eqb Ascii.eqb Bool.eqb].
      unfold processOrCriteria. rewrite Hds, Hmap. cbv beta iota.
      rewrite (doc_insert_fresh "$or" _ acc Hkf).
      destruct (IH (acc ++ [("$or", docArray newOrs)]) Hall Hd) as (new & Hnew & Hsat).
      { unfold doc_keys. rewrite map_app. cbn [map fst].
        apply (projectedKey_fresh "$or" rest (map fst acc));
          [now left | exact Hfresh | exact Hkinds | exact Hnk]. }
      exists (("$or", docArray newOrs) :: new). split.
      * rewrite Hnew. now rewrite <- app_assoc.
      * intros Stored field_sat d. rewrite !satDoc_cons, Hsat. f_equal.
        unfold entry_sat. cbn [fst snd String.eqb Ascii.eqb Bool.eqb]. unfold docArray.
        rewrite exists_sat_docs. apply Hsats.
    + apply negb_true_iff in Hkv. rewrite Hkv. cbv beta iota.
      rewrite (doc_insert_fresh (path +:+ "." +:+ k) v acc Hkf).
      destruct (IH (acc ++ [(path +:+ "." +:+ k, v)]) Hall Hd) as (new & Hnew & Hsat).
      { unfold doc_keys. rewrite map_app. cbn [map fst].
        pose proof (projectedKey_fresh k rest (map fst acc) (or_intror Hkv)
                      Hfresh Hkinds Hnk) as Hf.
        unfold projectedKey at 2 in Hf. now rewrite Hor in Hf. }
      exists ((path +:+ "." +:+ k, v) :: new). split.
      * rewrite Hnew. now rewrite <- app_assoc.
      * intros Stored field_sat d. rewrite !satDoc_cons, Hsat. f_equal.
        unfold entry_sat, fieldUnder. cbn [fst snd].
        rewrite (prefixed_key_not_operator path k "$or" eq_refl).
        rewrite (prefixed_key_not_operator path k "$and" eq_refl).
        rewrite Hor. now destruct (not_operator_eqb k "and" Hkv) as [-> _].
Qed.
End Projection.

(** X25: under a path without array brackets, [buildBSON] projects
    criteria made of fields and nested disjunctions without changing what
    they mean: the projected predicate holds of a document exactly when the
    criteria hold of what the document keeps behind the path. *)
Theorem buildBSON_projects_meaning (path : string) (depth : nat) : forall criteria,
  no_open path = true -> nestedCriteria depth criteria = true ->
  exists q,
    buildBSON path (VDoc criteria) = Ok q
    /\ forall Stored field_sat (d : Stored),
         satDoc Stored field_sat d q
         = satDoc Stored (fieldUnder Stored field_sat path) d criteria.
Proof.
  induction depth as [|n IHn]; intros criteria Hp Hc;
    rewrite buildBSON_plain by assumption;
    cbn [nestedCriteria] in Hc; apply andb_true_iff in Hc as [Hd Hall].
  - destruct (projectCriteria_nested path (fun _ => false)
                (fun c (Hc' : false = true) => False_ind _ (diff_false_true Hc'))
                criteria [])
      as (new & Hnew & Hsat);
      [|exact Hd|clear; induction criteria as [|kv rest IH]; [reflexivity | exact IH]|].
    + clear -Hall. induction criteria as [|[k v] rest IH]; cbn [forallb fst snd] in *;
        [reflexivity|].
      apply andb_true_iff in Hall as [H1 H2]. rewrite (IH H2), andb_true_r.
      destruct (String.eqb k "$or"); [discriminate | exact H1].
    + exists new. now split.
  - destruct (projectCriteria_nested path (nestedCriteria n)
                (fun c Hc' => IHn c Hp Hc') criteria [])
      as (new & Hnew & Hsat);
      [exact Hall | exact Hd
       | clear; induction criteria as [|kv rest IH]; [reflexivity | exact IH] |].
    exists new. now split.
Qed.

Lemma buildBSON_projects_meaning_witness :
  buildBSON "name"
    (VDoc [("$or", docArray [[("family", VString "Poe")]; [("given", VString "Poe")]]);
           ("use", VString "official")])
  = Ok [("$or", docArray [[("name.family", VString "Poe")];
                          [("name.given", VString "Poe")]]);
        ("name.use", VString "official")]
  /\ exists q,
       buildBSON "name"
         (VDoc [("$or", docArray [[("family", VString "Poe")];
                                  [("given", VString "Poe")]]);
                ("use", VString "official")])
       = Ok q
       /\ forall Stored field_sat (d : Stored),
            satDoc Stored field_sat d q
            = satDoc Stored (fieldUnder Stored field_sat "name") d
                [("$or", docArray [[("family", VString "Poe")];
                                   [("given", VString "Poe")]]);
                 ("use", VString "official")].
Proof.
  split; [reflexivity|].
  apply (buildBSON_projects_meaning "name" 1
           [("$or", docArray [[("family", VString "Poe")]; [("given", VString "Poe")]]);
            ("use", VString "official")]).
  - reflexivity.
  - reflexivity.
Defined.

(** ** References kept inline *)

Lemma distinct_snoc (keys : list string) (k : string) :
  distinct keys = true -> existsb (String.eqb k) keys = false ->
  distinct (keys ++ [k]) = true.
Proof.
  induction keys as [|x keys IH]; cbn [distinct app existsb]; [reflexivity|].
  intros [Hx Hd]%andb_true_iff [Hkx Hk]%orb_false_iff.
  rewrite (IH Hd Hk), andb_true_r. apply negb_true_iff in Hx.
  rewrite existsb_app, Hx. cbn [existsb orb]. rewrite String.eqb_sym, Hkx. reflexivity.
Qed.

Lemma fieldCriteria_snoc (criteria : Doc) (k : string) (v : Value) :
  fieldCriteria criteria = true -> isQueryOperator k = false ->
  existsb (String.eqb k) (doc_keys criteria) = false ->
  fieldCriteria (criteria ++ [(k, v)]) = true.
Proof.
  unfold fieldCriteria. intros [Hf Hd]%andb_true_iff Hk Hfresh.
  rewrite forallb_app, Hf. cbn [forallb fst]. rewrite Hk. cbn [negb andb].
  unfold doc_keys in *. rewrite map_app. cbn [map fst]. now apply distinct_snoc.
Qed.

(** X26: on a single path of type Resource without array brackets, a
    reference is answered inline.  A local reference asks for the [_id],
    and the [resourceType] when the search value names one, behind the path;
    a chained reference puts the fields of its compiled query behind the
    path, with the [resourceType] when one is named, and fails as its query
    fails; an external reference is signalled as unsupported. *)
Theorem inlined_reference_on_resource_path
    (m : MongoSearcher) (cq : Query -> Result Doc) (r : SearchParamInfo)
    (p : SearchParamPath) :
  Paths r = [p] -> Type_ p = "Resource" -> no_open (Path p) = true ->
  (forall ty id,
     createReferenceQueryObject m cq r (LocalReference ty id)
     = Ok (prefixed (Path p)
             (if String.eqb ty "" then [("_id", VString id)]
              else [("resourceType", VString ty); ("_id", VString id)])))
  /\ (forall ty q c,
        cq q = Ok c -> fieldCriteria c = true ->
        existsb (String.eqb "resourceType") (doc_keys c) = false ->
        createReferenceQueryObject m cq r (ChainedQueryReference ty q)
        = Ok (prefixed (Path p)
                (if String.eqb ty "" then c
                 else c ++ [("resourceType", VString ty)])))
  /\ (forall ty q e,
        cq q = Panic e ->
        createReferenceQueryObject m cq r (ChainedQueryReference ty q) = Panic e)
  /\ (forall url,
        createReferenceQueryObject m cq r (ExternalReference url)
        = unsupportedContent (Name r)).
Proof.
  intros Hpaths Hty Hp.
  assert (Hsingle : forall ref,
            referenceSingle m cq r ref p = createInlinedReferenceQueryObject cq r ref p).
  { intros ref. unfold referenceSingle. now rewrite Hty. }
  unfold createReferenceQueryObject. rewrite Hpaths.
  split; [|split; [|split]].
  - intros ty id. apply orPaths_keeps_fields. rewrite Hsingle.
    unfold createInlinedReferenceQueryObject.
    destruct (String.eqb ty ""); cbn [negb doc_insert String.eqb Ascii.eqb Bool.eqb];
      now rewrite buildBSON_plain_fields by (assumption || reflexivity).
  - intros ty q c Hc Hf Hfresh. apply orPaths_keeps_fields. rewrite Hsingle.
    unfold createInlinedReferenceQueryObject. rewrite Hc. cbv beta iota.
    destruct (String.eqb ty ""); cbn [negb].
    + now apply buildBSON_plain_fields.
    + rewrite (doc_insert_fresh "resourceType" _ c Hfresh).
      apply buildBSON_plain_fields; [assumption|].
      now apply fieldCriteria_snoc.
  - intros ty q e He. unfold orPaths. cbn [orPathsLoop]. rewrite Hsingle.
    unfold createInlinedReferenceQueryObject. now rewrite He.
  - intros url. unfold orPaths. cbn [orPathsLoop]. rewrite Hsingle. reflexivity.
Qed.

Lemma inlined_reference_on_resource_path_witness :
  let m := NewMongoSearcher true false false false in
  let cq := fun _ : Query => Ok [("gender", VString "male")] in
  let r := mkInfo "Observation" "subject" "reference"
                  [mkPath "contained" "Resource"] ["Patient"] "" "" in
  let q := mkQuery "Patient" "gender=male" [] (mkOptions 100 0 [] "" [] []) in
  createReferenceQueryObject m cq r (ChainedQueryReference "Patient" q)
  = Ok [("contained.gender", VString "male");
        ("contained.resourceType", VString "Patient")]
  /\ createReferenceQueryObject m cq r (LocalReference "" "123")
     = Ok [("contained._id", VString "123")].
Proof.
  cbv zeta.
  pose proof (inlined_reference_on_resource_path
                (NewMongoSearcher true false false false)
                (fun _ : Query => Ok [("gender", VString "male")])
                (mkInfo "Observation" "subject" "reference"
                        [mkPath "contained" "Resource"] ["Patient"] "" "")
                (mkPath "contained" "Resource") eq_refl eq_refl eq_refl)
    as (Hlocal & Hchained & _).
  split.
  - exact (Hchained "Patient" (mkQuery "Patient" "gender=male" []
                                 (mkOptions 100 0 [] "" [] []))
             [("gender", VString "male")] eq_refl eq_refl eq_refl).
  - exact (Hlocal "" "123").
Defined.

(** * The resource controllers *)

Lemma lastCall_snoc (cs : list Server.Call) (c : Server.Call) :
  Server.lastCall (cs ++ [c]) = Some c.
Proof.
  unfold Server.lastCall. apply last_snoc.
Qed.

Lemma statuses_app (a b : list Server.Call) :
  Server.statuses (a ++ b) = Server.statuses a ++ Server.statuses b.
Proof. unfold Server.statuses. apply omap_app. Qed.

Lemma controller_names (ctl : Server.Controller) :
  In ctl Server.controllers ->
  String.eqb (Server.resourceName ctl) "Action" = false
  /\ String.eqb (Server.resourceName ctl) "Resource" = false.
Proof.
  unfold Server.controllers. cbn [In].
  intros [<-|[<-|[<-|[<-|[<-|[]]]]]]; now split.
Qed.

Lemma reportError_calls (err : option string) (status : Z) (s : Server.State) :
  Server.calls (Server.reportError err status s)
  = Server.calls s ++ match err with
                      | Some e => [Server.HttpError e status]
                      | None => []
                      end
  /\ Server.context (Server.reportError err status s) = Server.context s.
Proof.
  destruct err; cbn [Server.reportError Server.call Server.calls Server.context];
    [now split | now rewrite app_nil_r].
Qed.

(** X27: an index request reads the database once and never changes it.
    Unless the search panics, the answer ends with a search-set bundle of
    exactly the resources that were read, in their order, its total being
    their number, and the context keeps the same resources; a failed read is
    reported with status 500 and the bundle is sent all the same.  When the
    search panics, the context is left alone, no bundle is sent, and the one
    status written is 501, 400 or 500 by the kind of the panic in the plain
    family (with no JSON body) and the status of the search error, or 500,
    in the other (with an operation outcome as body). *)
Theorem index_answers_with_what_it_read
    (ctl : Server.Controller) (w : Server.World) (s : Server.State) :
  In ctl Server.controllers ->
  let s' := Server.IndexHandler ctl w s in
  exists new,
    Server.calls s' = Server.calls s ++ new
    /\ filter Server.isDatabaseCall new = [Server.indexQuery ctl w]
    /\ forallb (fun c => negb (Server.isWrite c)) new = true
    /\ match Server.indexAnswer ctl w with
       | Server.SearchReturns result err =>
           Server.lastCall new
           = Some (Server.Encode (Server.BBundle
                     (Server.mkBundle (Server.NewObjectIdHex w) "searchset"
                        (Z.of_nat (length result) mod 2 ^ 32) result)))
           /\ Server.contextGet (Server.resourceName ctl) s' = Server.BResources result
           /\ Server.statuses new = Server.failureStatuses [err]
       | Server.SearchPanics x =>
           Server.context s' = Server.context s
           /\ existsb Server.isBundle new = false
           /\ Server.statuses new = [Server.panicStatus (Server.family ctl) x]
           /\ existsb Server.isEncode new
              = match Server.family ctl with
                | Server.PlainText => false
                | Server.WithOutcome => true
                end
           /\ existsb Server.isEncode new = existsb Server.encodesOutcome new
       end.
Proof.
  intros Hctl. destruct (controller_names ctl Hctl) as [Hact Hres]. cbv zeta.
  unfold Server.IndexHandler, Server.readResources, Server.indexQuery, Server.indexAnswer.
  destruct (Server.formIsEmpty w).
  - destruct (Server.findAll w (Server.collectionName ctl)) as [result err].
    cbn [fst snd].
    exists ([Server.DbFindAll (Server.collectionName ctl) 100]
            ++ match err with
               | Some e => [Server.HttpError e StatusInternalServerError]
               | None => []
               end
            ++ [Server.Println ("Setting " +:+ Server.lowerName ctl +:+ " search context");
                Server.HeaderSet "Content-Type" "application/json; charset=utf-8";
                Server.HeaderSet "Access-Control-Allow-Origin" "*";
                Server.Encode (Server.BBundle
                  (Server.mkBundle (Server.NewObjectIdHex w) "searchset"
                     (uint32 (Z.of_nat (length result))) result))]).
    unfold Server.contextGet.
    destruct err as [e|];
      cbn [Server.reportError Server.jsonHeaders Server.call Server.contextSet
           Server.calls Server.context Server.lookupContext app];
      rewrite Hact, Hres, String.eqb_refl; rewrite <- ?app_assoc;
      repeat split.
  - destruct (Server.searchAll w (Server.resourceName ctl) (Server.rawQuery w))
      as [x|result err].
    + unfold Server.recovered.
      destruct (Server.family ctl); destruct x;
        (eexists; split;
         [cbn [Server.call Server.calls]; rewrite <- ?app_assoc; reflexivity|]);
        repeat split.
    + exists ([Server.DbSearch (Server.resourceName ctl) (Server.rawQuery w)]
              ++ match err with
                 | Some e => [Server.HttpError e StatusInternalServerError]
                 | None => []
                 end
              ++ [Server.Println ("Setting " +:+ Server.lowerName ctl
                                  +:+ " search context");
                  Server.HeaderSet "Content-Type" "application/json; charset=utf-8";
                  Server.HeaderSet "Access-Control-Allow-Origin" "*";
                  Server.Encode (Server.BBundle
                    (Server.mkBundle (Server.NewObjectIdHex w) "searchset"
                       (uint32 (Z.of_nat (length result))) result))]).
      unfold Server.contextGet.
      destruct err as [e|];
        cbn [Server.reportError Server.jsonHeaders Server.call Server.contextSet
             Server.calls Server.context Server.lookupContext app];
        rewrite Hact, Hres, String.eqb_refl; rewrite <- ?app_assoc;
        repeat split.
Qed.

Lemma index_answers_with_what_it_read_witness :
  In Server.encounter Server.controllers
  /\ exists new,
       Server.calls (Server.IndexHandler Server.encounter
                       (Server.exampleWorld
                          (Server.SearchReturns Server.twoEncounters (Some "cursor lost")))
                       Server.start)
       = Server.calls Server.start ++ new
       /\ Server.lastCall new
          = Some (Server.Encode (Server.BBundle
                    (Server.mkBundle "5a0000000000000000000001" "searchset" 2
                       Server.twoEncounters)))
       /\ Server.statuses new = [500%Z].
Proof.
  split; [now left|].
  pose proof (index_answers_with_what_it_read Server.encounter
                (Server.exampleWorld
                   (Server.SearchReturns Server.twoEncounters (Some "cursor lost")))
                Server.start (or_introl eq_refl)) as H.
  cbv zeta in H. destruct H as (new & Hcalls & _ & _ & Hlast & _ & Hst).
  exists new. split; [exact Hcalls|]. split; [exact Hlast | exact Hst].
Defined.

Ltac server_trace :=
  cbn [Server.reportError Server.jsonHeaders Server.call Server.contextSet
       Server.calls Server.context Server.checkId];
  rewrite <- ?app_assoc; reflexivity.

(** X28: a show request never changes the database, marks the context
    with the action [read], and always ends by encoding what the context
    holds under the name of the resource.  With an id that is none it asks
    the database nothing and reports status 500 (not 400), and with a failed
    lookup it reports 500 as well; in both cases what is encoded is what the
    context held before the request.  Only a successful lookup puts the
    resource that was found into the context. *)
Theorem show_encodes_what_the_context_holds
    (ctl : Server.Controller) (w : Server.World) (s : Server.State) :
  In ctl Server.controllers ->
  let s' := Server.ShowHandler ctl w s in
  let name := Server.resourceName ctl in
  let key := Server.Hex w (Server.ObjectIdHex (Server.idVar w)) in
  exists new,
    Server.calls s' = Server.calls s ++ new
    /\ forallb (fun c => negb (Server.isWrite c)) new = true
    /\ Server.lastCall new = Some (Server.Encode (Server.contextGet name s'))
    /\ Server.contextGet "Action" s' = Server.BText "read"
    /\ if Server.IsObjectIdHex w (Server.idVar w) then
         filter Server.isDatabaseCall new
         = [Server.DbFindOne (Server.collectionName ctl) key]
         /\ match Server.findOne w (Server.collectionName ctl) key with
            | (found, None) =>
                Server.statuses new = []
                /\ Server.contextGet name s' = Server.BResource found
            | (_, Some _) =>
                Server.statuses new = [StatusInternalServerError]
                /\ Server.contextGet name s' = Server.contextGet name s
            end
       else
         filter Server.isDatabaseCall new = []
         /\ Server.statuses new = [StatusInternalServerError]
         /\ Server.contextGet name s' = Server.contextGet name s
         /\ Server.Load ctl w s = ((None, Some "Invalid id"), s).
Proof.
  intros Hctl. destruct (controller_names ctl Hctl) as [Hact Hres]. cbv zeta.
  assert (Hact' : String.eqb "Action" (Server.resourceName ctl) = false)
    by now rewrite String.eqb_sym.
  unfold Server.ShowHandler, Server.Load.
  destruct (Server.IsObjectIdHex w (Server.idVar w)).
  - destruct (Server.findOne w (Server.collectionName ctl)
                (Server.Hex w (Server.ObjectIdHex (Server.idVar w))))
      as [found [e|]];
      (eexists; split; [server_trace|]);
      unfold Server.contextGet;
      cbn [Server.reportError Server.jsonHeaders Server.call Server.contextSet
           Server.calls Server.context Server.lookupContext];
      rewrite ?Hact, ?Hres, ?Hact', ?String.eqb_refl;
      cbn [String.eqb Ascii.eqb Bool.eqb]; repeat split.
  - eexists; split; [server_trace|].
    unfold Server.contextGet.
    cbn [Server.reportError Server.jsonHeaders Server.call Server.contextSet
         Server.calls Server.context Server.lookupContext].
    rewrite ?Hact, ?Hres, ?Hact', ?String.eqb_refl. repeat split.
Qed.

Lemma show_encodes_what_the_context_holds_witness :
  In Server.binary Server.controllers
  /\ exists new,
       Server.calls (Server.ShowHandler Server.binary
                       (Server.exampleWorld (Server.SearchReturns [] None))
                       Server.start)
       = Server.calls Server.start ++ new
       /\ Server.lastCall new = Some (Server.Encode Server.BNil)
       /\ Server.statuses new = [500%Z].
Proof.
  split; [right; now left|].
  pose proof (show_encodes_what_the_context_holds Server.binary
                (Server.exampleWorld (Server.SearchReturns [] None))
                Server.start (or_intror (or_introl eq_refl))) as H.
  cbv zeta in H. destruct H as (new & Hcalls & _ & Hlast & _ & Hid).
  exists new. split; [exact Hcalls|]. split; [exact Hlast|].
  exact (proj1 (proj2 Hid)).
Defined.

(** X29: an update and a deletion go to the database exactly once and
    under the id of the request, whatever was reported before.  An id that
    is none is reported with status 400 and the handler goes on with the
    zero id: the update still overwrites the document of that id and the
    deletion still removes it.  The updated document takes its id from the
    request, not from the body.  What the handlers write to the body of the
    response are the messages of the failures they report, in order, and
    after them, in the family that answers with the resource, the updated
    document; a deletion encodes nothing, and marks the context only when
    the removal succeeded. *)
Theorem update_and_delete_go_on_with_the_request_id
    (ctl : Server.Controller) (w : Server.World) (s : Server.State) :
  In ctl Server.controllers ->
  let name := Server.resourceName ctl in
  let c := Server.collectionName ctl in
  let key := Server.Hex w (Server.requestId w) in
  let doc := Server.mkResource key (Server.Content (fst (Server.decodeBody w))) in
  let invalid := if Server.IsObjectIdHex w (Server.idVar w) then []
                 else [StatusBadRequest] in
  (exists new,
     Server.calls (Server.UpdateHandler ctl w s) = Server.calls s ++ new
     /\ filter Server.isDatabaseCall new = [Server.DbUpdate c key doc]
     /\ Server.statuses new
        = invalid ++ Server.failureStatuses
                       [snd (Server.decodeBody w); Server.update w c key doc]
     /\ Server.contextGet name (Server.UpdateHandler ctl w s) = Server.BResource doc
     /\ filter Server.writesBody new
        = Server.invalidIdReport w
          ++ Server.reports [snd (Server.decodeBody w); Server.update w c key doc]
          ++ match Server.family ctl with
             | Server.PlainText => []
             | Server.WithOutcome => [Server.Encode (Server.BResource doc)]
             end)
  /\ (exists new,
        Server.calls (Server.DeleteHandler ctl w s) = Server.calls s ++ new
        /\ filter Server.isDatabaseCall new = [Server.DbRemove c key]
        /\ Server.statuses new = invalid ++ Server.failureStatuses [Server.remove w c key]
        /\ filter Server.writesBody new
           = Server.invalidIdReport w ++ Server.reports [Server.remove w c key]
        /\ existsb Server.isEncode new = false
        /\ match Server.remove w c key with
           | None =>
               Server.contextGet name (Server.DeleteHandler ctl w s) = Server.BText key
               /\ Server.contextGet "Action" (Server.DeleteHandler ctl w s)
                  = Server.BText "delete"
           | Some _ =>
               Server.context (Server.DeleteHandler ctl w s) = Server.context s
           end)
  /\ (Server.IsObjectIdHex w (Server.idVar w) = false ->
      key = Server.Hex w Server.zeroObjectId).
Proof.
  intros Hctl. destruct (controller_names ctl Hctl) as [Hact Hres]. cbv zeta.
  split; [|split].
  - unfold Server.UpdateHandler, Server.withId, Server.checkId, Server.invalidIdReport.
    destruct (Server.decodeBody w) as [decoded derr]. cbn [fst snd].
    destruct (Server.IsObjectIdHex w (Server.idVar w));
      destruct derr;
      destruct (Server.update w _ _ _);
      destruct (Server.family ctl);
      (eexists; split; [server_trace|]);
      unfold Server.contextGet;
      cbn [Server.reportError Server.jsonHeaders Server.call Server.contextSet
           Server.calls Server.context Server.lookupContext];
      rewrite ?Hact, ?Hres, ?String.eqb_refl; repeat split.
  - unfold Server.DeleteHandler, Server.checkId, Server.invalidIdReport.
    destruct (Server.IsObjectIdHex w (Server.idVar w));
      destruct (Server.remove w _ _);
      (eexists; split; [server_trace|]);
      unfold Server.contextGet;
      cbn [Server.reportError Server.jsonHeaders Server.call Server.contextSet
           Server.calls Server.context Server.lookupContext];
      rewrite ?Hact, ?Hres, ?String.eqb_refl; repeat split.
  - unfold Server.requestId. now intros ->.
Qed.

Lemma update_and_delete_go_on_with_the_request_id_witness :
  In Server.questionnaire Server.controllers
  /\ (exists new,
        Server.calls (Server.UpdateHandler Server.questionnaire
                        (Server.exampleWorld (Server.SearchReturns [] None))
                        Server.start)
        = Server.calls Server.start ++ new
        /\ filter Server.isDatabaseCall new
           = [Server.DbUpdate "questionnaires" ""
                (Server.mkResource "" [("status", VString "planned")])]
        /\ Server.statuses new = [400%Z])
  /\ (exists new,
        Server.calls (Server.DeleteHandler Server.questionnaire
                        (Server.exampleWorld (Server.SearchReturns [] None))
                        Server.start)
        = Server.calls Server.start ++ new
        /\ filter Server.isDatabaseCall new = [Server.DbRemove "questionnaires" ""]
        /\ filter Server.writesBody new = [Server.HttpError "Invalid id" 400]).
Proof.
  split; [do 3 right; now left|].
  pose proof (update_and_delete_go_on_with_the_request_id Server.questionnaire
                (Server.exampleWorld (Server.SearchReturns [] None)) Server.start
                (or_intror (or_intror (or_intror (or_introl eq_refl))))) as H.
  cbv zeta in H.
  destruct H as ((new & Hc & Hdb & Hst & _) & (new' & Hc' & Hdb' & _ & Hbody & _) & _).
  split.
  - exists new. split; [exact Hc|]. split; [exact Hdb | exact Hst].
  - exists new'. split; [exact Hc'|]. split; [exact Hdb' | exact Hbody].
Defined.

(** X30: a creation inserts exactly one document, under a fresh id that
    replaces whatever id the body carried, names that id in the [Location]
    header, and keeps the document in the context.  It finishes with status
    201 even after it reported a failure of the decoder, of the insertion or
    of the host name with status 500.  What it writes to the body of the
    response are the messages of the failures it reports, in order; the
    plain family encodes nothing and ends with the status, the other encodes
    the document last. *)
Theorem create_stores_under_a_fresh_id
    (ctl : Server.Controller) (w : Server.World) (s : Server.State) :
  In ctl Server.controllers ->
  let name := Server.resourceName ctl in
  let c := Server.collectionName ctl in
  let i := Server.NewObjectIdHex w in
  let doc := Server.mkResource i (Server.Content (fst (Server.decodeBody w))) in
  let s' := Server.CreateHandler ctl w s in
  exists new,
    Server.calls s' = Server.calls s ++ new
    /\ filter Server.isDatabaseCall new = [Server.DbInsert c doc]
    /\ In (Server.HeaderAdd "Location"
             ("http://" +:+ fst (Server.Hostname w) +:+ ":3001/" +:+ name +:+ "/" +:+ i))
          new
    /\ Server.statuses new
       = Server.failureStatuses
           [snd (Server.decodeBody w); Server.insert w c doc; snd (Server.Hostname w)]
         ++ [Server.StatusCreated]
    /\ Server.contextGet name s' = Server.BResource doc
    /\ filter Server.writesBody new
       = Server.reports
           [snd (Server.decodeBody w); Server.insert w c doc; snd (Server.Hostname w)]
         ++ match Server.family ctl with
            | Server.PlainText => []
            | Server.WithOutcome => [Server.Encode (Server.BResource doc)]
            end
    /\ Server.lastCall new
       = Some match Server.family ctl with
              | Server.PlainText => Server.WriteHeader Server.StatusCreated
              | Server.WithOutcome => Server.Encode (Server.BResource doc)
              end.
Proof.
  intros Hctl. destruct (controller_names ctl Hctl) as [Hact Hres]. cbv zeta.
  unfold Server.CreateHandler, Server.withId.
  destruct (Server.decodeBody w) as [decoded derr].
  destruct (Server.Hostname w) as [host herr]. cbn [fst snd].
  destruct derr; destruct (Server.insert w _ _); destruct herr;
    destruct (Server.family ctl);
    (eexists; split; [server_trace|]);
    unfold Server.contextGet;
    cbn [Server.reportError Server.jsonHeaders Server.call Server.contextSet
         Server.calls Server.context Server.lookupContext];
    rewrite ?Hact, ?Hres, ?String.eqb_refl;
    (split; [reflexivity|]); (split; [cbn [In app]; tauto|]); repeat split.
Qed.

Lemma create_stores_under_a_fresh_id_witness :
  In Server.referralrequest Server.controllers
  /\ exists new,
       Server.calls (Server.CreateHandler Server.referralrequest
                       (Server.exampleWorld (Server.SearchReturns [] None))
                       Server.start)
       = Server.calls Server.start ++ new
       /\ filter Server.isDatabaseCall new
          = [Server.DbInsert "referralrequests"
               (Server.mkResource "5a0000000000000000000001"
                  [("status", VString "planned")])]
       /\ In (Server.HeaderAdd "Location"
                "http://fhir:3001/ReferralRequest/5a0000000000000000000001") new
       /\ Server.statuses new = [201%Z]
       /\ filter Server.writesBody new
          = [Server.Encode (Server.BResource
                              (Server.mkResource "5a0000000000000000000001"
                                 [("status", VString "planned")]))].
Proof.
  split; [do 4 right; now left|].
  pose proof (create_stores_under_a_fresh_id Server.referralrequest
                (Server.exampleWorld (Server.SearchReturns [] None)) Server.start
                (or_intror (or_intror (or_intror (or_intror (or_introl eq_refl))))))
    as H.
  cbv zeta in H. destruct H as (new & Hc & Hdb & Hloc & Hst & _ & Hbody & _).
  exists new. split; [exact Hc|]. split; [exact Hdb|]. split; [exact Hloc|].
  split; [exact Hst | exact Hbody].
Defined.
